(* ===== verification/_CoqProject ===== *)
-Q . S2P
Prelude.v
Types.v
Wire.v
Framing.v
V3Codec.v
V5Props.v
V5PubAcks.v
V5Subscribe.v
V5Disconnect.v
V5ConnAck.v
V5Publish.v
V5Connect.v
V5Codec.v
Version.v
Topic.v
Testing.v
V3Tests.v
V5Tests.v
Sink.v
Inflight.v
V3Sink.v
V5Sink.v
V3Dispatcher.v
V3Client.v
V5Control.v
V5Info.v
V5Dispatcher.v
V5Client.v
IoDispatcher.v
IoPoll.v
Futures.v
Net.v
Service.v
Factory.v
Router.v
V3Server.v
V5Server.v
V3Connector.v
V5Connector.v
V5Connection.v
Server.v
Serving.v
V3Serving.v
V5Serving.v
Exchange.v
V3Exchange.v
V5Exchange.v
V3Connection.v
V3ClientServing.v
V3Publishes.v
V3Factory.v
V5Accepted.v
V5ClientServing.v
V5Publishes.v
V5Factory.v
Servers.v
