(* ===== verification/Prelude.v ===== *)
(** * ntex-mqtt: a verification development

    A model of the Rust library in src/ (MQTT 3.1.1 and MQTT 5 clients and
    servers on the ntex framework) and theorems about it.

    ** The program

    Bytes arrive from a connection in chunks.  A codec (src/v3/codec,
    src/v5/codec) cuts them into frames and decodes each frame to a packet;
    src/version.rs looks at the first frame to tell which of the two protocols
    the peer speaks.  The io dispatcher (src/io.rs) hands each packet to the
    protocol dispatcher (src/v3/dispatcher.rs, src/v5/dispatcher.rs), which
    calls the services of the application and makes the response packets;
    the io dispatcher writes these in the order of the calls.  The
    application sends packets of its own through a sink (sink.rs and shared.rs
    of both versions), which numbers them and matches the acknowledgements
    that come back.  Topics and their matching are in src/topic.rs.

    Before that a connection is made.  A server (server.rs of both versions,
    handshake.rs) reads CONNECT, asks the connect service of the application
    and answers with CONNACK; src/service.rs then builds the handler of the
    session and starts the io dispatcher.  A selector (selector.rs) offers
    CONNECT to several servers, and src/server.rs accepts connections of both
    versions.  A connector (client/connector.rs) sends CONNECT and gives a
    client (client/connection.rs), which runs a dispatcher of its own
    (client/dispatcher.rs).  Routers (router.rs, and [dispatch] of the
    clients) send publishes to the handlers of their topics.

    ** The files

    - [Prelude]: outcomes of Rust code, machine integers, buffers, writers,
      the loop [while buf.has_remaining()], tactics and the hint databases.
    - [Types]: src/error.rs and src/types.rs; the macro [prim_enum!] as the
      class [PrimEnum].
    - [Wire]: src/utils.rs and the primitives of both codecs: [Decode],
      [Encode], properties, variable length integers; the class [Wire] states
      what a value promises to the packets that contain it (its bytes are
      written, counted and read back).
    - [Framing]: the state machine [FrameHeader]/[Frame] of both codecs, over
      any content decoder.
    - [V3Codec]: the packets and the codec of MQTT 3.1.1.
    - [V5Props], [V5PubAcks], [V5Subscribe], [V5Disconnect], [V5ConnAck],
      [V5Publish], [V5Connect], [V5Codec]: the properties, the packets (one
      file for each file of src/v5/codec/packet) and the codec of MQTT 5.  The
      class [Ltd] states what a packet promises to the codec under a size
      limit.
    - [Version]: src/version.rs.
    - [Topic]: src/topic.rs.
    - [Testing], [V3Tests], [V5Tests]: the unit tests of the codecs, of
      utils.rs, topic.rs and version.rs, run on the model.
    - [Sink]: the state that both sinks share, the interface [Runtime] to ntex
      with its laws [RuntimeLaws], the futures of the send operations, the
      abstract queue of outstanding packets and the simulation lemmas;
      [V3Sink], [V5Sink]: the two sinks.
    - [V3Dispatcher]: control messages and the server dispatcher of
      MQTT 3.1.1; [V5Control], [V5Dispatcher]: the same for MQTT 5.
      [V5Info] has the state and the checks of publishes that the dispatchers
      of server and client share in MQTT 5, [Inflight] the lemmas on packet
      ids in work that all four dispatchers share; [V3Client], [V5Client]: the
      dispatchers and control messages of the clients.
    - [IoDispatcher]: the response queue of src/io.rs; [IoPoll]: its
      dispatcher, with what it uses of ntex and of the service as the class
      [IoEnv].
    - [Futures]: the futures [Ready] and [Select] of src/utils.rs, and what
      awaiting them gives.
    - [Net]: reading and writing single packets during a handshake, the class
      [Net] with its laws [NetLaws], and a simulated network that satisfies
      them; [Service]: src/session.rs, the calls of src/service.rs and what
      selectors have in common; [Factory]: services and the factories that
      make them, [FramedService] and selectors.
    - [V3Server], [V5Server]: handshake.rs, server.rs and selector.rs;
      [V3Connector], [V5Connector]: connectors and clients; [V5Connection]:
      the handshake, the dispatcher factory and the dispatcher of a server put
      together; [Server]: src/server.rs.
    - [V3Connection], [V5Accepted]: a connection of a server from CONNECT to
      its end, handshake, factory and [Serving] put together; [V3Factory],
      [V5Factory]: servers and selectors as applications build them, and the
      connections they make; [Servers]: the server of both versions with the
      factories of the two.
    - [Router]: the routers of both versions over the class [TopicRouter].
    - [Serving]: codec, io dispatcher and protocol dispatcher of a connection
      put together, for any protocol dispatcher: its operations are the class
      [Protocol], what it promises the class [ProtocolLaws]; ntex and the
      application are [Ntex] with [NtexLaws].  [V3Serving], [V5Serving]: the
      servers of both versions discharge it; [V3ClientServing],
      [V5ClientServing]: so do the clients, with what
      src/v{3,5}/client/connection.rs starts and create_dispatcher.
    - [V3Publishes], [V5Publishes]: publish.rs, the publishes and
      acknowledgements that services get and give, with the services of a
      routing client.
    - [Exchange]: the sink of a client and a server on one connection, over
      the class [Publisher] with its laws; [V3Exchange], [V5Exchange]: the two
      versions discharge it.

    ** How code is modelled

    - A function that returns [Result] and may panic gives an [outcome]: [Ok],
      [Err] or [Panic].  Panics are out-of-range accesses, [unwrap] of [None],
      explicit ones, and overflow of fixed-width arithmetic (a build with
      overflow checks; [usize] sums of lengths are unbounded, and [usize] has
      64 bits where it wraps).  In the sinks and dispatchers a panic is [None].
    - Integers are [Z] with their range written out; bytes are [list Z]; a
      [&mut Bytes] is passed in and out; a [BytesMut] that is written to is a
      [writer].  UTF-8 validation is the executable [utf8_valid] of [Wire].
    - A [RefCell] that nested code can borrow twice has a flag.  Futures are
      the states between two awaits, and [poll] goes from one to the next.
    - ntex is not under src/: its io state, channels and [encode_result] are
      parameters.  What the theorems use of them are the laws of
      [RuntimeLaws]: a closed connection stays closed, an open one takes the
      bytes the codec writes, a one-shot channel delivers what is sent and is
      cancelled when its sender is dropped.  [SimRuntime] satisfies them.
    - The services of the application are whatever polling their futures
      gives; on a whole connection they may also use the sink, which is a
      move of the protocol dispatcher ([pl_move]).  A factory that takes no
      configuration is what its [new_service] gives; the combinators of ntex
      that only map errors, and [InFlightService], are parameters.  In a
      handshake, where the code awaits them one after the other, the connect
      service is a function in the monad [M] of the sinks, so it
      may use the sink of the connection; [uses_sink] says that it does
      nothing else with it.
    - [select] of a computation and a delay is decided by the network: either
      the computation is finished first, or the delay is; then the connection
      is dropped, and what the computation had done on it is left out.
      Without a delay it is the computation.
    - The pattern matcher of ntex is the class [TopicRouter] (that an index it
      gives is one of the table is [TopicRouterLaws]); the handlers of
      src/server.rs and the stream it peeks at are the class [ServerEnv].

    ** What the theorems show

    Each theorem says under which conditions it holds; the main ones are named
    here.
    - Codecs: what is encoded arrives, in any chunks ([v3_stream_roundtrip],
      [chunk_independence]; [v5_stream_roundtrip] for all packets but the ones
      the encoder breaks, [V5Codec.defective]); what is above the limit is not
      written, and the sizes announced are right, with the same exceptions
      ([v3_encode_frame], [v5_encode_within_limit], [opt_props_within_limit]);
      no input makes a decoder panic, and it accepts contents within its limit
      only ([v3_decode_total], [v3_decoder_safe], [v5_decoder_safe],
      [max_size_enforced]); the detected version is the right one
      ([version_agrees]); variable length integers ([varint_roundtrip]).
    - Topics: parsing and printing are inverse ([topic_roundtrip]); matching
      follows the rules of MQTT but where a wildcard meets a level that starts
      with [$], and what it does there ([matches_str_spec]); the two matchers
      agree ([matches_agree]) and filters are checked ([topic_is_valid_spec]).
    - Sinks: everything that can happen to a sink refines a queue with distinct
      ids ([v3_sink_refines], [v5_sink_refines]); acknowledgements serve the
      front ([v3_pkt_ack_fifo], [v5_pkt_ack_fifo]); a publish writes its frame
      ([v3_publish_sent]); ids, credit and closing ([next_id_cycle],
      [send_credit], [v3_close_cancels]), the last two but for senders that
      were woken ([v3_credit_exceeded]).
    - Dispatchers: packets in work have distinct ids and the receive maximum
      holds ([v3_ids_unique], [v5_receive_maximum]); publishes are
      acknowledged ([v3_publish_acknowledged], [v5_publish_acknowledged]);
      subscriptions are answered in order ([v3_suback_codes]); responses keep
      the order of the calls over any interleaving of the dispatcher and its
      tasks, and are all written when the dispatcher finishes
      ([io_responses_in_order]); a poll ends ([io_poll_terminates]).  The
      clients have the same guarantees ([v3_client_safe],
      [v5_client_receive_maximum]), and the acknowledgements an application
      makes are well formed ([v5_acks_well_formed]).
    - Connections: where the settings of a connection come from
      ([v5_handshake_limits]), how those of a client and a server that accept
      each other compare ([v5_limits_agree]), and what is done to keep to them
      as long as the connection lives ([v5_connection_enforced]); what a server
      answers, for every outcome of a handshake ([v3_handshake_answer]); a
      selector without timeouts behaves as the first server that accepts, if
      they have the same maximum size ([v3_selector_serves],
      [v5_selector_serves]); the server of both versions gives a connection to
      the one that can read it ([server_by_version]).
    - Whole connections: once a server that was built with any services and
      settings has accepted a client, whatever arrives in whatever pieces, it
      answers the packets in their order, each with its own acknowledgement,
      over any interleaving of polls, tasks and the application
      ([v3_server_serves], [v5_server_serves]); a client does the same from
      CONNACK on ([v3_client_serves], [v5_client_serves]).  In MQTT 5 that
      excludes runs in which the sizing of a packet panics; there a request
      stays without an answer when its id is in use (the sink acknowledges it
      then) or when the connection is closed.  So the PUBACKs that reach a
      client match the front of its queue, and its publishes end with what the
      services of the server answered, as long as they can be encoded and the
      services do not fail ([v3_publishes_acknowledged],
      [v5_publishes_acknowledged]).
    - Conformance: the values that the unit tests of the repository expect are
      those of the model ([v3_codec_tests_pass] and the like).
    - Routers: no index is out of range, handlers are made one at a time and
      kept ([v5_router_handlers]); publishes go to the handler of the topic
      they mean, with aliases ([v5_router_aliases]).
    - Faults of the code, each with a theorem: properties of a will that are
      counted and not written, identifiers written in another form than they
      are counted and read, arithmetic that underflows under a small packet
      limit, a filter [+] that matches topics starting with [$], a woken sender
      that overruns the credit ([v3_credit_exceeded]) and writes on a closed
      connection ([v3_close_cancels]), a publish that fails and keeps its place in
      the queue ([v5_failed_publish_stays]), [ready] that borrows twice,
      subscribes that use up the receive maximum, a client without credit when the server
      sets no limit ([v5_client_no_credit], [v3_client_credit]), a router that
      is never ready again after a handler could not be made
      ([v5_router_failed_init]), an alias that keeps its old meaning
      ([v5_router_stale_alias]), a selector whose size limit is not announced
      ([v5_selector_limits]).

    ** Fuel and bounds

    [while_fuel] runs at most once for each byte of the buffer, since every
    round takes at least one; [decode_loop] needs two rounds, from the header
    to the content; [drain] is given one round more than its measure, which
    every decoded frame lowers; [flush] runs once for each queued response and
    [answer_all] once for each topic and once to see the end; [poll] of the io
    dispatcher needs the number of buffered items and three.  The lemmas show
    that the bound is enough, so no theorem rests on running out of it.  The
    loop over the servers of a selector is structural; [keepalive], an endless
    task, runs for a given number of periods.

    ** Not modelled

    The read and write tasks, the timer, the connectors for TCP and TLS (so
    [connector], [openssl] and [rustls] of the client's builder, which only
    exchange them) and [InFlightService] of ntex, which is not under src/; the
    types of the service factories ([boxed], [map_err], [into_factory]); the
    pools of channels, which keep allocations; [Debug] and [Display] texts.
    Accessors that give a field are the fields of the records.  The
    asynchronous tests of src/io.rs and the tests of the directory tests/ run
    on the test server of ntex and are not translated.  Module declarations
    and the examples have no behaviour of their own.  The order in which a
    [HashMap] is dropped is not specified and no theorem depends on it. *)

From Stdlib Require Import ZArith List Bool Lia.
Import ListNotations.

(** ** Outcomes of Rust code

    A fallible Rust function returns [Result<A, E>]; it may also panic (an
    index out of range, [unwrap] on [None], an arithmetic overflow with
    overflow checks on, an explicit [panic!]).  [outcome E A] has the three
    cases, and [let? x := e in k] is the [?] operator: it passes the value
    on and stops at an error or a panic. *)

Inductive outcome (E A : Type) : Type :=
| Ok (a : A)
| Err (e : E)
| Panic.

Arguments Ok {E A} a.
Arguments Err {E A} e.
Arguments Panic {E A}.

Definition obind {E A B} (o : outcome E A) (k : A -> outcome E B) : outcome E B :=
  match o with
  | Ok a => k a
  | Err e => Err e
  | Panic => Panic
  end.

Definition omap {E A B} (f : A -> B) (o : outcome E A) : outcome E B :=
  obind o (fun a => Ok (f a)).

(** [opt.ok_or(e)] *)
Definition ok_or {E A} (o : option A) (e : E) : outcome E A :=
  match o with Some a => Ok a | None => Err e end.

Definition is_none {A} (o : option A) : bool :=
  match o with None => true | Some _ => false end.

Definition is_some {A} (o : option A) : bool := negb (is_none o).

Declare Scope outcome_scope.
Delimit Scope outcome_scope with outcome.

Notation "'let?' x := e 'in' k" := (obind e (fun x => k))
  (at level 10, x name, e at level 200, k at level 200)
  : outcome_scope.
Notation "'let?' ' p := e 'in' k" :=
  (obind e (fun x => match x with p => k end))
  (at level 10, p pattern, e at level 200, k at level 200)
  : outcome_scope.
(** [ensure!(c, e); k] *)
Notation "'ensure!' c 'else' e 'in' k" := (if c then k else Err e)
  (at level 10, c at level 200, e at level 200, k at level 200)
  : outcome_scope.

Open Scope outcome_scope.

(** ** Machine integers

    A [w]-bit unsigned integer is a [Z]; conversions that truncate are
    written out, and additions and subtractions that overflow panic, which
    is the behaviour of a build with overflow checks.  A theorem that shows
    that such an operation returns shows that no overflow happens, so it
    holds of a build without the checks as well. *)

Open Scope Z_scope.

Definition as_u8 (x : Z) : Z := x mod 2 ^ 8.
Definition as_u16 (x : Z) : Z := x mod 2 ^ 16.
Definition as_u32 (x : Z) : Z := x mod 2 ^ 32.

Definition is_u8 (x : Z) : bool := (0 <=? x) && (x <? 2 ^ 8).
Definition is_u16 (x : Z) : bool := (0 <=? x) && (x <? 2 ^ 16).
Definition is_u32 (x : Z) : bool := (0 <=? x) && (x <? 2 ^ 32).

Definition u32_add {E} (a b : Z) : outcome E Z :=
  if a + b <? 2 ^ 32 then Ok (a + b) else Panic.

Definition u32_sub {E} (a b : Z) : outcome E Z :=
  if b <=? a then Ok (a - b) else Panic.

Definition u32_shl (a s : Z) : Z := as_u32 (Z.shiftl a s).

(** ** Byte buffers

    [Bytes], [BytesMut] and [&[u8]] are lists of [u8]; a [&mut Bytes] that is
    read from is passed in and the rest passed out. *)

Definition bytes := list Z.

Definition len {A} (l : list A) : Z := Z.of_nat (length l).

Definition bytes_ok (b : bytes) : bool := forallb is_u8 b.

Fixpoint bytes_eqb (a b : bytes) : bool :=
  match a, b with
  | [], [] => true
  | x :: a, y :: b => (x =? y) && bytes_eqb a b
  | _, _ => false
  end.

(** [Buf::has_remaining] *)
Definition has_remaining (src : bytes) : bool :=
  match src with [] => false | _ :: _ => true end.

(** [Buf::get_u8], [Buf::get_u16], [Buf::get_u32] (big endian), [Buf::advance]
    and [split_to] panic when the buffer is too short. *)
Definition get_u8 {E} (src : bytes) : outcome E (Z * bytes) :=
  match src with b :: src => Ok (b, src) | [] => Panic end.

Definition get_u16 {E} (src : bytes) : outcome E (Z * bytes) :=
  match src with
  | a :: b :: src => Ok (a * 2 ^ 8 + b, src)
  | _ => Panic
  end.

Definition get_u32 {E} (src : bytes) : outcome E (Z * bytes) :=
  match src with
  | a :: b :: c :: d :: src => Ok (a * 2 ^ 24 + b * 2 ^ 16 + c * 2 ^ 8 + d, src)
  | _ => Panic
  end.

Definition split_to {E} (n : Z) (src : bytes) : outcome E (bytes * bytes) :=
  if n <=? len src
  then Ok (firstn (Z.to_nat n) src, skipn (Z.to_nat n) src)
  else Panic.

Definition advance {E} (n : Z) (src : bytes) : outcome E bytes :=
  let? '(_, src) := split_to n src in Ok src.

(** ** Writers

    [fn encode(&self, buf: &mut BytesMut) -> Result<(), E>] appends to [buf]
    as it goes: an error or a panic in the middle leaves what was written. *)

Definition writer (E : Type) := bytes -> outcome E unit * bytes.

Definition wret {E} : writer E := fun buf => (Ok tt, buf).
Definition wfail {E} (e : E) : writer E := fun buf => (Err e, buf).
Definition wpanic {E} : writer E := fun buf => (Panic, buf).

(** [a?; b] *)
Definition wseq {E} (a b : writer E) : writer E := fun buf =>
  match a buf with
  | (Ok _, buf) => b buf
  | (Err e, buf) => (Err e, buf)
  | (Panic, buf) => (Panic, buf)
  end.

(** A computation of a value in the middle of a writer. *)
Definition wlet {E A} (o : outcome E A) (k : A -> writer E) : writer E := fun buf =>
  match o with
  | Ok a => k a buf
  | Err e => (Err e, buf)
  | Panic => (Panic, buf)
  end.

(** [buf.len()] *)
Definition wlen {E} (k : Z -> writer E) : writer E := fun buf => k (len buf) buf.

(** [let start_len = buf.len(); a; b] where [b] uses [buf.len() - start_len]. *)
Definition wsized {E} (a : writer E) (b : Z -> writer E) : writer E :=
  wlen (fun start_len => wseq a (wlen (fun buf_len => b (buf_len - start_len)))).

Declare Scope writer_scope.
Delimit Scope writer_scope with writer.
Notation "a >> b" := (wseq a b) (at level 62, right associativity) : writer_scope.
Notation "'let!' x := e 'in' k" := (wlet e (fun x => k))
  (at level 10, x name, e at level 200, k at level 200)
  : writer_scope.
Open Scope writer_scope.

Definition put_slice {E} (b : bytes) : writer E := fun buf => (Ok tt, buf ++ b).
Definition put_u8 {E} (b : Z) : writer E := put_slice [b].
(** [BufMut::put_u16], [BufMut::put_u32]: big endian. *)
Definition u16_be (v : Z) : bytes := [as_u8 (v / 2 ^ 8); as_u8 v].
Definition u32_be (v : Z) : bytes :=
  [as_u8 (v / 2 ^ 24); as_u8 (v / 2 ^ 16); as_u8 (v / 2 ^ 8); as_u8 v].
Definition put_u16 {E} (v : Z) : writer E := put_slice (u16_be v).
Definition put_u32 {E} (v : Z) : writer E := put_slice (u32_be v).

(** [for x in xs { f(x)?; }] *)
Fixpoint wfor {E A} (xs : list A) (f : A -> writer E) : writer E :=
  match xs with
  | [] => wret
  | x :: xs => f x >> wfor xs f
  end.

(** [while src.has_remaining() { body }].  Each round of every loop of the
    program reads at least one byte, so [length src] rounds suffice; running
    out of rounds is [Panic], which the theorems on decoders exclude. *)
Fixpoint while_fuel {E S} (fuel : nat) (body : S -> bytes -> outcome E (S * bytes))
    (s : S) (src : bytes) : outcome E (S * bytes) :=
  match src with
  | [] => Ok (s, [])
  | _ :: _ =>
      match fuel with
      | O => Panic
      | Datatypes.S fuel => let? '(s, src) := body s src in while_fuel fuel body s src
      end
  end.

Definition while_remaining {E S} (body : S -> bytes -> outcome E (S * bytes))
    (s : S) (src : bytes) : outcome E (S * bytes) :=
  while_fuel (length src) body s src.

(** [iter().map(f).collect::<Result<Vec<_>, _>>()] and the loops that push
    [f(x)?] for each [x]. *)
Fixpoint otraverse {E A B} (f : A -> outcome E B) (l : list A) : outcome E (list B) :=
  match l with
  | [] => Ok []
  | x :: l =>
      let? y := f x in
      let? ys := otraverse f l in
      Ok (y :: ys)
  end.

(** ** Predicates the theorems are stated with *)

(** The code returns, with a value or an error. *)
Definition no_panic {E A} (o : outcome E A) : Prop := o <> Panic.

(** The writer succeeds and appends exactly [out]. *)
Definition writes {E} (w : writer E) (out : bytes) : Prop :=
  forall buf, w buf = (Ok tt, buf ++ out).

(** The reader, when it succeeds, leaves a rest that is no longer / shorter. *)
Definition consumes {E A} (n : nat) (f : bytes -> outcome E (A * bytes)) : Prop :=
  forall src a rest, f src = Ok (a, rest) -> (length rest + n <= length src)%nat.

(** ** Tactics *)

(** Splits boolean conjunctions in the context and turns comparisons into
    propositions. *)
Ltac bprop :=
  repeat match goal with
  | H : _ && _ = true |- _ => apply andb_true_iff in H; destruct H
  | H : negb _ = true |- _ => apply negb_true_iff in H
  | H : negb _ = false |- _ => apply negb_false_iff in H
  | H : (_ <=? _) = true |- _ => apply Z.leb_le in H
  | H : (_ <=? _) = false |- _ => apply Z.leb_gt in H
  | H : (_ <? _) = true |- _ => apply Z.ltb_lt in H
  | H : (_ <? _) = false |- _ => apply Z.ltb_ge in H
  | H : (_ =? _) = true |- _ => apply Z.eqb_eq in H
  | H : (_ =? _) = false |- _ => apply Z.eqb_neq in H
  end.

(** Case analysis on the test of an [if] in the goal or in a hypothesis. *)
Ltac case_if :=
  match goal with
  | |- context [if ?c then _ else _] => destruct c eqn:?
  | _ : context [if ?c then _ else _] |- _ => destruct c eqn:?
  end.

(** Opens the successful binds of a hypothesis [obind _ _ = Ok _]. *)
Ltac inv_ok H :=
  match type of H with
  | obind ?o _ = Ok _ =>
      let E := fresh "E" in
      destruct o eqn:E; cbn [obind] in H; [ | discriminate H | discriminate H]
  end.

Ltac zlia := Z.div_mod_to_equations; lia.

Create Rewrite HintDb len.
Create HintDb wire.
Create HintDb nopanic.

(** ** Lists and lengths *)

#[global] Arguments Z.add : simpl never.
#[global] Arguments Z.sub : simpl never.
#[global] Arguments Z.mul : simpl never.
#[global] Arguments len : simpl never.
#[global] Arguments u16_be : simpl never.
#[global] Arguments u32_be : simpl never.
#[global] Arguments while_remaining : simpl never.

Lemma len_nil {A} : len (@nil A) = 0.
Proof. reflexivity. Qed.

Lemma len_cons {A} (x : A) l : len (x :: l) = 1 + len l.
Proof. unfold len. cbn [length]. lia. Qed.

Lemma len_app {A} (a b : list A) : len (a ++ b) = len a + len b.
Proof. unfold len. rewrite length_app. lia. Qed.

Lemma len_u16_be v : len (u16_be v) = 2.
Proof. reflexivity. Qed.

Lemma len_u32_be v : len (u32_be v) = 4.
Proof. reflexivity. Qed.

Lemma len_nonneg {A} (l : list A) : 0 <= len l.
Proof. unfold len. lia. Qed.

Lemma len_map {A B} (f : A -> B) l : len (map f l) = len l.
Proof. unfold len. now rewrite length_map. Qed.

#[export] Hint Rewrite @len_nil @len_cons @len_app @len_map len_u16_be len_u32_be : len.
#[export] Hint Resolve len_nonneg : wire.

(** A sum of sizes over a list is the length of the concatenation. *)
Lemma fold_left_len_acc {A} (out : A -> bytes) (step : Z -> A -> Z) (l : list A) acc :
  (forall acc x, step acc x = acc + len (out x)) ->
  fold_left step l acc = acc + len (flat_map out l).
Proof.
  intros Hs. revert acc; induction l as [|x l IH]; intros acc; cbn [fold_left flat_map].
  - rewrite len_nil. lia.
  - rewrite IH, Hs, len_app. lia.
Qed.

Lemma fold_left_len {A} (out : A -> bytes) (step : Z -> A -> Z) (l : list A) :
  (forall acc x, step acc x = acc + len (out x)) -> fold_left step l 0 = len (flat_map out l).
Proof. intros Hs. now rewrite (fold_left_len_acc out). Qed.

Lemma flat_map_singleton {A B} (f : A -> B) l : flat_map (fun x => [f x]) l = map f l.
Proof. induction l as [|x l IH]; [reflexivity | ]. cbn. now rewrite IH. Qed.

Lemma bytes_eqb_eq a b : bytes_eqb a b = true <-> a = b.
Proof.
  revert b; induction a as [|x a IH]; intros [|y b]; cbn; try easy.
  rewrite andb_true_iff, Z.eqb_eq, IH. split; [intros [-> ->] | intros [=]]; auto.
Qed.

Lemma bytes_ok_app a b : bytes_ok (a ++ b) = bytes_ok a && bytes_ok b.
Proof. apply forallb_app. Qed.

Lemma bytes_ok_cons x b : bytes_ok (x :: b) = is_u8 x && bytes_ok b.
Proof. reflexivity. Qed.

(** ** Outcomes *)

Lemma no_panic_Ok {E A} (a : A) : no_panic (@Ok E A a).
Proof. discriminate. Qed.

Lemma no_panic_Err {E A} (e : E) : no_panic (@Err E A e).
Proof. discriminate. Qed.

Lemma no_panic_bind {E A B} (o : outcome E A) (k : A -> outcome E B) :
  no_panic o -> (forall a, o = Ok a -> no_panic (k a)) -> no_panic (obind o k).
Proof. intros Ho Hk. destruct o; cbn; [now apply Hk | discriminate | now elim Ho]. Qed.

Lemma no_panic_ok_or {E A} (o : option A) (e : E) : no_panic (ok_or o e).
Proof. now destruct o. Qed.

#[export] Hint Resolve no_panic_Ok no_panic_Err no_panic_ok_or : nopanic.

(** Walks through a decoder and leaves the primitive reads to the hints. *)
Ltac nopanic_step :=
  match goal with
  | |- no_panic (obind _ _) => apply no_panic_bind; [ | intros ? ?]
  | |- no_panic (if ?c then _ else _) => destruct c eqn:?
  | |- no_panic (match ?x with (_, _) => _ end) => destruct x
  | |- no_panic _ => solve [eauto with nopanic]
  end.
Ltac nopanic := repeat (nopanic_step; cbn beta iota).

Lemma obind_Ok {E A B} (o : outcome E A) (k : A -> outcome E B) b :
  obind o k = Ok b -> exists a, o = Ok a /\ k a = Ok b.
Proof. destruct o; cbn; intros H; try discriminate. eauto. Qed.

Lemma otraverse_no_panic {E A B} (f : A -> outcome E B) l :
  (forall x, no_panic (f x)) -> no_panic (otraverse f l).
Proof. intros Hf. induction l as [|x l IH]; cbn [otraverse]; nopanic; auto. Qed.

Lemma otraverse_inverse {E A B} (f : A -> outcome E B) (g : B -> A) ys :
  (forall y, In y ys -> f (g y) = Ok y) -> otraverse f (map g ys) = Ok ys.
Proof.
  induction ys as [|y ys IH]; intros H; [reflexivity | ]. cbn [map otraverse].
  rewrite H by now left. cbn [obind]. rewrite IH; [reflexivity | intros; apply H; now right].
Qed.

Lemma otraverse_sound {E A B} (f : A -> outcome E B) (g : B -> A) l ys :
  (forall x y, f x = Ok y -> g y = x) -> otraverse f l = Ok ys -> l = map g ys.
Proof.
  intros Hf. revert ys; induction l as [|x l IH]; intros ys H; cbn in H.
  - now injection H as <-.
  - apply obind_Ok in H as (y & Hy & H). apply obind_Ok in H as (zs & Hz & H).
    injection H as <-. cbn. now rewrite (Hf _ _ Hy), <- (IH _ Hz).
Qed.

Lemma u32_sub_Ok {E} a b : b <= a -> @u32_sub E a b = Ok (a - b).
Proof. intros H. unfold u32_sub. now rewrite (proj2 (Z.leb_le _ _) H). Qed.

Lemma u32_add_Ok {E} a b : a + b < 2 ^ 32 -> @u32_add E a b = Ok (a + b).
Proof. intros H. unfold u32_add. now rewrite (proj2 (Z.ltb_lt _ _) H). Qed.

(** ** Reading back what was written *)

Lemma split_to_app {E} (a b : bytes) n : n = len a -> @split_to E n (a ++ b) = Ok (a, b).
Proof.
  intros ->. unfold split_to.
  rewrite (proj2 (Z.leb_le _ _)) by (rewrite len_app; pose proof (len_nonneg b); lia).
  unfold len. rewrite Nat2Z.id, firstn_app, skipn_app, firstn_all, skipn_all, Nat.sub_diag.
  cbn. now rewrite app_nil_r.
Qed.

Lemma split_to_spec {E} n src a b :
  0 <= n -> @split_to E n src = Ok (a, b) -> src = a ++ b /\ len a = n.
Proof.
  unfold split_to, len. intros Hn H. case_if; [ | discriminate]. injection H as <- <-.
  bprop. rewrite firstn_skipn, length_firstn. split; [reflexivity | lia].
Qed.

Lemma split_to_no_panic {E} n src : n <= len src -> no_panic (@split_to E n src).
Proof. intros H. unfold split_to. rewrite (proj2 (Z.leb_le _ _) H). easy. Qed.

Lemma get_u8_no_panic {E} src : has_remaining src = true -> no_panic (@get_u8 E src).
Proof. now destruct src. Qed.

Lemma get_u16_no_panic {E} src : 2 <= len src -> no_panic (@get_u16 E src).
Proof. destruct src as [|? [|? ?]]; unfold len; cbn; try lia; easy. Qed.

Lemma get_u32_no_panic {E} src : 4 <= len src -> no_panic (@get_u32 E src).
Proof. destruct src as [|? [|? [|? [|? ?]]]]; unfold len; cbn; try lia; easy. Qed.

#[export] Hint Resolve split_to_no_panic get_u8_no_panic : nopanic.

Lemma get_u8_Ok {E} src b rest : @get_u8 E src = Ok (b, rest) -> src = b :: rest.
Proof. destruct src; cbn; intros [=]; congruence. Qed.

Lemma get_u16_Ok {E} src v rest :
  @get_u16 E src = Ok (v, rest) ->
  exists a b, src = a :: b :: rest /\ v = a * 2 ^ 8 + b.
Proof. destruct src as [|? [|? ?]]; cbn; intros [=]; subst; eauto. Qed.

Lemma get_u16_be {E} v rest : is_u16 v = true -> @get_u16 E (u16_be v ++ rest) = Ok (v, rest).
Proof.
  unfold is_u16, u16_be, as_u8. intros H. bprop. cbn [app get_u16].
  do 2 f_equal. zlia.
Qed.

Lemma get_u32_be {E} v rest : is_u32 v = true -> @get_u32 E (u32_be v ++ rest) = Ok (v, rest).
Proof.
  unfold is_u32, u32_be, as_u8. intros H. bprop. cbn [app get_u32].
  do 2 f_equal. zlia.
Qed.

Lemma as_u8_is_u8 x : is_u8 (as_u8 x) = true.
Proof.
  unfold is_u8, as_u8. pose proof (Z.mod_pos_bound x (2 ^ 8)).
  rewrite andb_true_iff, Z.leb_le, Z.ltb_lt. lia.
Qed.

Lemma u16_be_of a b : is_u8 a = true -> is_u8 b = true ->
  u16_be (a * 2 ^ 8 + b) = [a; b] /\ is_u16 (a * 2 ^ 8 + b) = true.
Proof.
  unfold is_u8, is_u16, u16_be, as_u8. intros Ha Hb. bprop.
  rewrite andb_true_iff, Z.leb_le, Z.ltb_lt. split; [ | lia]. repeat f_equal; zlia.
Qed.

Lemma u32_be_of a b c d :
  is_u8 a = true -> is_u8 b = true -> is_u8 c = true -> is_u8 d = true ->
  u32_be (a * 2 ^ 24 + b * 2 ^ 16 + c * 2 ^ 8 + d) = [a; b; c; d] /\
  is_u32 (a * 2 ^ 24 + b * 2 ^ 16 + c * 2 ^ 8 + d) = true.
Proof.
  unfold is_u8, is_u32, u32_be, as_u8. intros Ha Hb Hc Hd. bprop.
  rewrite andb_true_iff, Z.leb_le, Z.ltb_lt. split; [ | lia]. repeat f_equal; zlia.
Qed.

(** ** Writers *)

Lemma writes_ret {E} : writes (@wret E) [].
Proof. intros buf. unfold wret. now rewrite app_nil_r. Qed.

Lemma writes_slice {E} b : writes (@put_slice E b) b.
Proof. now intros buf. Qed.

Lemma writes_u8 {E} b : writes (@put_u8 E b) [b].
Proof. now intros buf. Qed.

Lemma writes_u16 {E} v : writes (@put_u16 E v) (u16_be v).
Proof. now intros buf. Qed.

Lemma writes_u32 {E} v : writes (@put_u32 E v) (u32_be v).
Proof. now intros buf. Qed.

Lemma writes_seq {E} (a b : writer E) x y :
  writes a x -> writes b y -> writes (a >> b) (x ++ y).
Proof. intros Ha Hb buf. unfold wseq. rewrite Ha, Hb. now rewrite app_assoc. Qed.

Lemma writes_let {E A} (o : outcome E A) (k : A -> writer E) a out :
  o = Ok a -> writes (k a) out -> writes (wlet o k) out.
Proof. intros -> H. exact H. Qed.

Lemma writes_sized {E} (a : writer E) (b : Z -> writer E) x y :
  writes a x -> writes (b (len x)) y -> writes (wsized a b) (x ++ y).
Proof.
  intros Ha Hb buf. unfold wsized, wlen, wseq. rewrite Ha, len_app.
  replace (len buf + len x - len buf) with (len x) by lia. now rewrite Hb, app_assoc.
Qed.

Lemma writes_for {E A} (f : A -> writer E) (out : A -> bytes) xs :
  (forall x, In x xs -> writes (f x) (out x)) -> writes (wfor xs f) (flat_map out xs).
Proof.
  induction xs as [|x xs IH]; intros H; cbn [wfor flat_map]; [apply writes_ret | ].
  apply writes_seq; [apply H; now left | apply IH; intros; apply H; now right].
Qed.

#[export] Hint Resolve writes_ret writes_slice writes_u8 writes_u16 writes_u32 : wire.

(** ** Loops over a buffer *)

Section WhileRemaining.
Context {E S : Type} (body : S -> bytes -> outcome E (S * bytes)).

(** One round of the loop reads something. *)
Hypothesis progress : forall s src s' rest,
  body s src = Ok (s', rest) -> (length rest < length src)%nat.

Lemma while_fuel_enough n m s src :
  (length src <= n)%nat -> (length src <= m)%nat ->
  while_fuel n body s src = while_fuel m body s src.
Proof using progress.
  revert m s src; induction n as [|n IH]; intros m s src Hn Hm.
  - destruct src; [now destruct m | cbn in Hn; lia].
  - destruct src as [|b src]; [now destruct m | ].
    destruct m as [|m]; [cbn in Hm; lia | ]. cbn [while_fuel].
    destruct (body s (b :: src)) as [[s' rest] | | ] eqn:Eb; cbn; try reflexivity.
    apply progress in Eb. cbn in *. apply IH; lia.
Qed.

(** The loop unrolls: the fuel is out of the way. *)
Lemma while_remaining_step s src s' rest :
  src <> [] -> body s src = Ok (s', rest) ->
  while_remaining body s src = while_remaining body s' rest.
Proof using progress.
  intros Hne Hb. unfold while_remaining. destruct src as [|b src]; [easy | ].
  cbn [length while_fuel]. rewrite Hb. cbn. apply progress in Hb.
  apply while_fuel_enough; cbn in *; lia.
Qed.

Lemma while_remaining_nil s : while_remaining body s [] = Ok (s, []).
Proof using Type. reflexivity. Qed.

Lemma while_remaining_no_panic s src :
  (forall s b src, no_panic (body s (b :: src))) -> no_panic (while_remaining body s src).
Proof using progress.
  intros Hb. unfold while_remaining.
  enough (forall n s src, (length src <= n)%nat -> no_panic (while_fuel n body s src)) by auto.
  clear s src. induction n as [|n IH]; intros s [|b src] Hn; cbn in *; try lia; try easy.
  apply no_panic_bind; [apply Hb | ]. intros [s' rest] Hs. apply progress in Hs.
  apply IH. cbn in Hs. lia.
Qed.

(** Rule of the loop: an invariant of the state and of the bytes still to
    read, kept by each round, holds at the end, where nothing is left. *)
Lemma while_remaining_inv (P : S -> bytes -> Prop) s src s' rest :
  (forall s b src s' rest, P s (b :: src) -> body s (b :: src) = Ok (s', rest) -> P s' rest) ->
  P s src -> while_remaining body s src = Ok (s', rest) -> P s' [] /\ rest = [].
Proof using Type.
  intros Hb. unfold while_remaining. generalize (length src) as n. intros n.
  revert s src; induction n as [|n IH]; intros s [|b src] HP H; cbn in H; try discriminate.
  - injection H as <- <-. auto.
  - injection H as <- <-. auto.
  - apply obind_Ok in H as ([s1 r1] & Eb & H). apply (IH s1 r1); eauto.
Qed.
End WhileRemaining.

(** ** Deciding facts on bytes *)

Definition all_u8 : list Z := map Z.of_nat (seq 0 256).

(** A boolean fact on a byte is decided by its 256 instances. *)
Lemma u8_forall (P : Z -> bool) :
  forallb P all_u8 = true -> forall b, is_u8 b = true -> P b = true.
Proof.
  intros H b Hb. unfold is_u8 in Hb. bprop. eapply forallb_forall; [exact H | ].
  unfold all_u8. rewrite in_map_iff. exists (Z.to_nat b). rewrite in_seq. lia.
Qed.
