(* ===== verification/Types.v ===== *)
(** * Shared types: errors, quality of service, flags and packet types

    [src/error.rs] and [src/types.rs].  The [prim_enum!] macro of
    [src/utils.rs] is the class [PrimEnum]: an enum with its [TryFrom<u8>]
    and its conversion into [u8], and the laws that make them inverse. *)

From Stdlib Require Import ZArith List Bool Lia String.
From S2P Require Import Prelude.
Import ListNotations.
Open Scope list_scope.
Open Scope Z_scope.

(** ** Errors (src/error.rs) *)

(** The payload of [Utf8Error] (where validation stopped) is not kept. *)
Inductive DecodeError : Type :=
| DInvalidProtocol
| DInvalidLength
| DMalformedPacket
| DUnsupportedProtocolLevel
| DConnectReservedFlagSet
| DConnAckReservedFlagSet
| DInvalidClientId
| DUnsupportedPacketType
| DPacketIdRequired
| DMaxSizeExceeded
| DUtf8Error.

Inductive EncodeError : Type :=
| EInvalidLength
| EMalformedPacket
| EPacketIdRequired
| EUnsupportedVersion.

(** [impl PartialEq for DecodeError]: every error equals itself, except that
    a [Utf8Error] equals nothing. *)
Definition decode_error_eq (a b : DecodeError) : bool :=
  match a, b with
  | DInvalidProtocol, DInvalidProtocol => true
  | DInvalidLength, DInvalidLength => true
  | DUnsupportedProtocolLevel, DUnsupportedProtocolLevel => true
  | DConnectReservedFlagSet, DConnectReservedFlagSet => true
  | DConnAckReservedFlagSet, DConnAckReservedFlagSet => true
  | DInvalidClientId, DInvalidClientId => true
  | DUnsupportedPacketType, DUnsupportedPacketType => true
  | DPacketIdRequired, DPacketIdRequired => true
  | DMaxSizeExceeded, DMaxSizeExceeded => true
  | DMalformedPacket, DMalformedPacket => true
  | DUtf8Error, _ => false
  | _, _ => false
  end.

(** The payload of [Io] (an [io::Error]) is not kept. *)
Inductive ProtocolError : Type :=
| PDecode (e : DecodeError)
| PEncode (e : EncodeError)
| PUnexpected (packet_type : Z) (expected : string)
| PPacketIdMismatch
| PMaxTopicAlias
| PReceiveMaximumExceeded
| PUnknownTopicAlias
| PKeepAliveTimeout
| PIo.

Inductive MqttError (E : Type) : Type :=
| MService (e : E)
| MProtocol (e : ProtocolError)
| MHandshakeTimeout
| MDisconnected
| MServerError (msg : string).

Arguments MService {E} e.
Arguments MProtocol {E} e.
Arguments MHandshakeTimeout {E}.
Arguments MDisconnected {E}.
Arguments MServerError {E} msg.

Inductive SendPacketError : Type :=
| SEncode (e : EncodeError)
| SPacketIdInUse (id : Z)
| SDisconnected.

Abbreviation dres := (outcome DecodeError).
Abbreviation eres := (outcome EncodeError).
Abbreviation ewriter := (writer EncodeError).

(** ** Enums with a byte representation (the prim_enum! macro) *)

Class PrimEnum (T : Type) := {
  try_from : Z -> dres T;
  into_u8 : T -> Z;
  try_from_into : forall v, try_from (into_u8 v) = Ok v;
  into_try_from : forall b v, try_from b = Ok v -> into_u8 v = b;
  try_from_total : forall b, try_from b <> Panic;
  into_u8_range : forall v, is_u8 (into_u8 v) = true;
}.

(** Decides the laws of an enum given by its table. *)
Ltac prim_enum_law :=
  intros;
  repeat match goal with
  | v : Z |- _ => destruct v; cbn in *; try discriminate
  | H : context [match ?p with xI _ => _ | xO _ => _ | xH => _ end] |- _ =>
      destruct p; cbn in *; try discriminate
  | |- context [match ?p with xI _ => _ | xO _ => _ | xH => _ end] =>
      destruct p; cbn in *; try discriminate
  | H : Ok _ = Ok _ |- _ => injection H as <-
  | v : _ |- _ => destruct v
  end; try reflexivity; try discriminate.

Inductive QoS : Type := AtMostOnce | AtLeastOnce | ExactlyOnce.

Definition QoS_try_from (v : Z) : dres QoS :=
  match v with
  | 0 => Ok AtMostOnce
  | 1 => Ok AtLeastOnce
  | 2 => Ok ExactlyOnce
  | _ => Err DMalformedPacket
  end.

Definition QoS_into_u8 (q : QoS) : Z :=
  match q with AtMostOnce => 0 | AtLeastOnce => 1 | ExactlyOnce => 2 end.

#[export, refine] Instance QoS_prim : PrimEnum QoS := {
  try_from := QoS_try_from; into_u8 := QoS_into_u8 }.
Proof. all: prim_enum_law. Defined.

Definition QoS_eqb (a b : QoS) : bool := QoS_into_u8 a =? QoS_into_u8 b.

(** ** Constants (src/types.rs) *)

Definition MQTT : bytes := [77; 81; 84; 84].
Definition MQTT_LEVEL_3 : Z := 4.
Definition MQTT_LEVEL_5 : Z := 5.
Definition WILL_QOS_SHIFT : Z := 3.
Definition MAX_PACKET_SIZE : Z := 268435455.

(** [bitflags!]: [from_bits] refuses a byte with a bit outside the declared
    flags, [from_bits_truncate] clears such bits, [contains] tests all the
    bits of a flag. *)
Definition from_bits (all b : Z) : option Z :=
  if Z.land b (255 - all) =? 0 then Some b else None.
Definition from_bits_truncate (all b : Z) : Z := Z.land b all.
Definition contains (flags f : Z) : bool := Z.land flags f =? f.

Definition CF_USERNAME : Z := 128.
Definition CF_PASSWORD : Z := 64.
Definition CF_WILL_RETAIN : Z := 32.
Definition CF_WILL_QOS : Z := 24.
Definition CF_WILL : Z := 4.
Definition CF_CLEAN_START : Z := 2.
Definition ConnectFlags_all : Z := 254.
Definition ConnectFlags_from_bits (b : Z) : option Z := from_bits ConnectFlags_all b.

Definition CA_SESSION_PRESENT : Z := 1.
Definition ConnectAckFlags_all : Z := 1.
Definition ConnectAckFlags_from_bits (b : Z) : option Z := from_bits ConnectAckFlags_all b.

(** The flags byte that both CONNECT encoders build. *)
Definition connect_flags (username password : bool) (will : option (QoS * bool))
    (clean : bool) : Z :=
  let flags := 0 in
  let flags := if username then Z.lor flags CF_USERNAME else flags in
  let flags := if password then Z.lor flags CF_PASSWORD else flags in
  let flags :=
    match will with
    | Some (qos, retain) =>
        let flags := Z.lor flags CF_WILL in
        let flags := if retain then Z.lor flags CF_WILL_RETAIN else flags in
        Z.lor flags
          (from_bits_truncate ConnectFlags_all
             (as_u8 (Z.shiftl (QoS_into_u8 qos) WILL_QOS_SHIFT)))
    | None => flags
    end in
  if clean then Z.lor flags CF_CLEAN_START else flags.

(** [QoS::try_from((flags & ConnectFlags::WILL_QOS).bits() >> WILL_QOS_SHIFT)] *)
Definition will_qos (flags : Z) : dres QoS :=
  QoS_try_from (Z.shiftr (Z.land flags CF_WILL_QOS) WILL_QOS_SHIFT).

(** [mod packet_type] *)
Definition pt_CONNECT : Z := 16.
Definition pt_CONNACK : Z := 32.
Definition pt_PUBLISH_START : Z := 48.
Definition pt_PUBLISH_END : Z := 63.
Definition pt_PUBACK : Z := 64.
Definition pt_PUBREC : Z := 80.
Definition pt_PUBREL : Z := 98.
Definition pt_PUBCOMP : Z := 112.
Definition pt_SUBSCRIBE : Z := 130.
Definition pt_SUBACK : Z := 144.
Definition pt_UNSUBSCRIBE : Z := 162.
Definition pt_UNSUBACK : Z := 176.
Definition pt_PINGREQ : Z := 192.
Definition pt_PINGRESP : Z := 208.
Definition pt_DISCONNECT : Z := 224.
Definition pt_AUTH : Z := 240.

(** First byte of a PUBLISH frame, and the parts the decoders take from its
    low four bits. *)
Definition publish_first_byte (qos : QoS) (dup retain : bool) : Z :=
  Z.lor (Z.lor (Z.lor pt_PUBLISH_START (as_u8 (Z.shiftl (QoS_into_u8 qos) 1)))
               (as_u8 (Z.shiftl (Z.b2z dup) 3)))
        (Z.b2z retain).

Record FixedHeader : Type := mkFixedHeader {
  first_byte : Z;
  remaining_length : Z;
}.

(** ** Properties *)

Lemma QoS_eqb_eq a b : QoS_eqb a b = true <-> a = b.
Proof. now destruct a, b. Qed.

(** A decode error is equal to itself exactly when it is not a UTF-8 error. *)
Lemma decode_error_eq_refl e : decode_error_eq e e = true <-> e <> DUtf8Error.
Proof. now destruct e. Qed.

Lemma into_u8_inj {T} `{PrimEnum T} (a b : T) : into_u8 a = into_u8 b -> a = b.
Proof. intros Hab. pose proof (try_from_into a). pose proof (try_from_into b). congruence. Qed.

Lemma try_from_no_panic {T} `{PrimEnum T} b : no_panic (try_from b).
Proof. apply try_from_total. Qed.

#[export] Hint Resolve try_from_no_panic : nopanic.
#[export] Hint Resolve into_u8_range : wire.

Lemma connect_flags_from_bits u p w c :
  ConnectFlags_from_bits (connect_flags u p w c) = Some (connect_flags u p w c).
Proof. now destruct u, p, c, w as [[[] []]|]. Qed.

(** The decoders find in the flags byte what the encoders put there. *)
Lemma connect_flags_contains u p w c :
  let f := connect_flags u p w c in
  contains f CF_USERNAME = u /\ contains f CF_PASSWORD = p /\
  contains f CF_CLEAN_START = c /\ contains f CF_WILL = is_some w /\
  match w with
  | Some (q, r) => will_qos f = Ok q /\ contains f CF_WILL_RETAIN = r
  | None => True
  end.
Proof. now destruct u, p, c, w as [[[] []]|]. Qed.

Lemma will_qos_no_panic f : no_panic (will_qos f).
Proof. exact (try_from_total (T := QoS) _). Qed.

#[export] Hint Resolve will_qos_no_panic : nopanic.

Lemma publish_first_byte_parts q d r :
  let b := publish_first_byte q d r in
  let flags := Z.land b 15 in
  (pt_PUBLISH_START <=? b) && (b <=? pt_PUBLISH_END) = true /\
  QoS_try_from (Z.shiftr (Z.land flags 6) 1) = Ok q /\
  (Z.land flags 8 =? 8) = d /\ (Z.land flags 1 =? 1) = r /\ is_u8 b = true.
Proof. now destruct q, d, r. Qed.

Lemma len_MQTT : len MQTT = 4.
Proof. reflexivity. Qed.

#[export] Hint Rewrite len_MQTT : len.
