(* ===== verification/Wire.v ===== *)
(** * Wire format primitives

    [src/utils.rs]: the [Decode], [Encode] and [Property] traits with their
    implementations, variable length integers and [take_properties].  The
    class [Wire] states what the codecs need of a type that is both encoded
    and decoded; every implementation of the two traits discharges it, and
    the theorems on packets are proved against it. *)

From Stdlib Require Import ZArith List Bool Lia.
From S2P Require Import Prelude Types.
Import ListNotations.
Open Scope Z_scope.

(** ** Types *)

(** Rust's integer types, as ranges of [Z]; [Bytes] and [ByteString] are byte
    lists, the latter valid UTF-8.  They are opaque to instance search, which
    picks the trait implementation by the name of the type. *)
Definition u16 : Type := Z.
Definition u32 : Type := Z.
Definition NonZeroU16 : Type := Z.
Definition NonZeroU32 : Type := Z.
Definition Bytes : Type := bytes.
Definition ByteString : Type := bytes.
#[export] Typeclasses Opaque u16 u32 NonZeroU16 NonZeroU32 Bytes ByteString.

(** [NonZeroU16::new], [NonZeroU32::new] *)
Definition non_zero (v : Z) : option Z := if v =? 0 then None else Some v.

(** [std::str::from_utf8], which [ByteString::try_from] calls: the well-formed
    byte sequences of the Unicode standard (no overlong forms, no surrogates,
    nothing above U+10FFFF). *)
Definition in_range (lo hi b : Z) : bool := (lo <=? b) && (b <=? hi).
Definition utf8_cont (b : Z) : bool := in_range 128 191 b.

Fixpoint utf8_valid (s : bytes) : bool :=
  match s with
  | [] => true
  | a :: s =>
      if a <=? 127 then utf8_valid s
      else match s with
      | [] => false
      | b :: s =>
          if in_range 194 223 a then utf8_cont b && utf8_valid s
          else match s with
          | [] => false
          | c :: s =>
              if a =? 224 then in_range 160 191 b && utf8_cont c && utf8_valid s
              else if in_range 225 236 a || in_range 238 239 a
              then utf8_cont b && utf8_cont c && utf8_valid s
              else if a =? 237 then in_range 128 159 b && utf8_cont c && utf8_valid s
              else match s with
              | [] => false
              | d :: s =>
                  if a =? 240
                  then in_range 144 191 b && utf8_cont c && utf8_cont d && utf8_valid s
                  else if in_range 241 243 a
                  then utf8_cont b && utf8_cont c && utf8_cont d && utf8_valid s
                  else if a =? 244
                  then in_range 128 143 b && utf8_cont c && utf8_cont d && utf8_valid s
                  else false
              end
          end
      end
  end.

(** ** Decode *)

Class Decode (T : Type) := { decode : bytes -> dres (T * bytes) }.

Definition bool_decode (src : bytes) : dres (bool * bytes) :=
  ensure! has_remaining src else DInvalidLength in
  let? '(v, src) := get_u8 src in
  ensure! v <=? 1 else DMalformedPacket in
  Ok (v =? 1, src).

Definition u16_decode (src : bytes) : dres (u16 * bytes) :=
  ensure! 2 <=? len src else DInvalidLength in
  get_u16 src.

Definition u32_decode (src : bytes) : dres (u32 * bytes) :=
  ensure! 4 <=? len src else DInvalidLength in
  get_u32 src.

Definition nz32_decode (src : bytes) : dres (NonZeroU32 * bytes) :=
  let? '(v, src) := u32_decode src in
  let? v := ok_or (non_zero v) DMalformedPacket in
  Ok (v, src).

Definition nz16_decode (src : bytes) : dres (NonZeroU16 * bytes) :=
  let? '(v, src) := u16_decode src in
  let? v := ok_or (non_zero v) DMalformedPacket in
  Ok (v, src).

Definition bytes_decode (src : bytes) : dres (Bytes * bytes) :=
  let? '(n, src) := u16_decode src in
  ensure! n <=? len src else DInvalidLength in
  split_to n src.

Definition string_decode (src : bytes) : dres (ByteString * bytes) :=
  let? '(s, src) := bytes_decode src in
  ensure! utf8_valid s else DUtf8Error in
  Ok (s, src).

#[export] Instance Decode_bool : Decode bool := { decode := bool_decode }.
#[export] Instance Decode_u16 : Decode u16 := { decode := u16_decode }.
#[export] Instance Decode_u32 : Decode u32 := { decode := u32_decode }.
#[export] Instance Decode_nz32 : Decode NonZeroU32 := { decode := nz32_decode }.
#[export] Instance Decode_nz16 : Decode NonZeroU16 := { decode := nz16_decode }.
#[export] Instance Decode_Bytes : Decode Bytes := { decode := bytes_decode }.
#[export] Instance Decode_string : Decode ByteString := { decode := string_decode }.

(** ** Property: the slot of a property that may be read at most once *)

Definition read_value {T} `{Decode T} (slot : option T) (src : bytes) : dres (option T * bytes) :=
  ensure! is_none slot else DMalformedPacket in
  let? '(v, src) := decode src in
  Ok (Some v, src).

Definition vec_read_value {T} `{Decode T} (slot : list T) (src : bytes) : dres (list T * bytes) :=
  let? '(v, src) := decode src in
  Ok (slot ++ [v], src).

(** ** Variable length integers *)

(** The loop of [decode_variable_length_cursor]; a round reads one byte. *)
Fixpoint dvl_loop (shift acc : Z) (src : bytes) : dres (Z * bytes) :=
  match src with
  | [] => Err DMalformedPacket
  | val :: src =>
      let? acc := u32_add acc (u32_shl (Z.land val 127) shift) in
      if Z.land val 128 =? 0 then Ok (acc, src)
      else
        ensure! shift <? 21 else DInvalidLength in
        dvl_loop (shift + 7) acc src
  end.

Definition decode_variable_length_cursor (src : bytes) : dres (Z * bytes) := dvl_loop 0 0 src.

(** The result is [Ok(None)] when more bytes are needed; otherwise the value
    and the position of the cursor. *)
Definition decode_variable_length (src : bytes) : dres (option (Z * Z)) :=
  match decode_variable_length_cursor src with
  | Ok (n, rest) => Ok (Some (n, len src - len rest))
  | Err DMalformedPacket => Ok None
  | Err e => Err e
  | Panic => Panic
  end.

Definition take_properties (src : bytes) : dres (bytes * bytes) :=
  let? '(n, src) := decode_variable_length_cursor src in
  ensure! n <=? len src else DInvalidLength in
  split_to n src.

Definition write_variable_length (n : Z) : ewriter :=
  if n <=? 127 then put_u8 (as_u8 n)
  else if n <=? 16383 then
    put_slice [as_u8 (Z.lor (Z.land n 127) 128); as_u8 (Z.shiftr n 7)]
  else if n <=? 2097151 then
    put_slice [as_u8 (Z.lor (Z.land n 127) 128);
               as_u8 (Z.lor (Z.land (Z.shiftr n 7) 127) 128);
               as_u8 (Z.shiftr n 14)]
  else if n <=? 268435455 then
    put_slice [as_u8 (Z.lor (Z.land n 127) 128);
               as_u8 (Z.lor (Z.land (Z.shiftr n 7) 127) 128);
               as_u8 (Z.lor (Z.land (Z.shiftr n 14) 127) 128);
               as_u8 (Z.shiftr n 21)]
  else wpanic.

(** ** Encode *)

Class Encode (T : Type) := {
  encoded_size : T -> Z;
  encode : T -> ewriter;
}.

Definition bytes_encoded_size (b : bytes) : Z := 2 + len b.

(** [u16::try_from(self.len())] fails above [u16::MAX]. *)
Definition bytes_encode (b : bytes) : ewriter :=
  if len b <? 2 ^ 16 then put_u16 (len b) >> put_slice b else wfail EInvalidLength.

Definition bool_encode (b : bool) : ewriter := if b then put_u8 1 else put_u8 0.

#[export] Instance Encode_option {T} `{Encode T} : Encode (option T) := {
  encoded_size o := match o with Some v => encoded_size v | None => 0 end;
  encode o := match o with Some v => encode v | None => wret end }.
#[export] Instance Encode_bool : Encode bool := {
  encoded_size _ := 1; encode := bool_encode }.
#[export] Instance Encode_u16 : Encode u16 := {
  encoded_size _ := 2; encode v := put_u16 v }.
#[export] Instance Encode_nz16 : Encode NonZeroU16 := {
  encoded_size _ := 2; encode v := @encode u16 _ v }.
#[export] Instance Encode_u32 : Encode u32 := {
  encoded_size _ := 4; encode v := put_u32 v }.
#[export] Instance Encode_nz32 : Encode NonZeroU32 := {
  encoded_size _ := 4; encode v := @encode u32 _ v }.
#[export] Instance Encode_Bytes : Encode Bytes := {
  encoded_size := bytes_encoded_size; encode := bytes_encode }.
#[export] Instance Encode_string : Encode ByteString := {
  encoded_size := bytes_encoded_size; encode := bytes_encode }.

Definition UserProperty : Type := (ByteString * ByteString).

#[export] Instance Encode_user_property : Encode (ByteString * ByteString) := {
  encoded_size p := encoded_size (fst p) + encoded_size (snd p);
  encode p := encode (fst p) >> encode (snd p) }.

(** [impl Decode for UserProperty] (src/v5/codec/decode.rs) *)
Definition user_property_decode (src : bytes) : dres (UserProperty * bytes) :=
  let? '(key, src) := @decode ByteString _ src in
  let? '(val, src) := @decode ByteString _ src in
  Ok ((key, val), src).

#[export] Instance Decode_user_property : Decode (ByteString * ByteString) := {
  decode := user_property_decode }.

(** ** Shared steps of the two CONNECT decoders *)

(** [len == 4 && &src.as_ref()[0..4] == MQTT] *)
Definition is_mqtt_name (n : Z) (src : bytes) : dres bool :=
  if n =? 4
  then let? '(name, _) := split_to 4 src in Ok (bytes_eqb name MQTT)
  else Ok false.

(** [if flag { Some(T::decode(src)?) } else { None }] *)
Definition decode_if {T} `{Decode T} (flag : bool) (src : bytes) : dres (option T * bytes) :=
  if flag then let? '(v, src) := decode src in Ok (Some v, src) else Ok (None, src).

(** ** What the codecs rely on *)

(** A type whose two traits agree: [wire v] are the bytes of a value in its
    range ([wire_ok]); encoding writes them, the announced size is their
    number, decoding reads them back and, conversely, reads only them. *)
Class Wire (T : Type) `{Encode T} `{Decode T} := {
  wire_ok : T -> bool;
  wire : T -> bytes;
  wire_encode : forall v, wire_ok v = true -> writes (encode v) (wire v);
  wire_size : forall v, wire_ok v = true -> encoded_size v = len (wire v);
  wire_decode : forall v rest, wire_ok v = true -> decode (wire v ++ rest) = Ok (v, rest);
  wire_sound : forall src v rest, bytes_ok src = true -> decode src = Ok (v, rest) ->
    wire_ok v = true /\ src = wire v ++ rest;
  wire_consumes : consumes 1 (decode (T := T));
  wire_no_panic : forall src, no_panic (decode (T := T) src);
}.

#[export] Hint Extern 1 (no_panic (decode _)) => apply wire_no_panic : nopanic.

(** ** Implementations of the interface *)

Lemma is_u8_u16_be v : bytes_ok (u16_be v) = true.
Proof. unfold u16_be. cbn [bytes_ok forallb]. now rewrite !as_u8_is_u8. Qed.

Lemma u16_decode_sound src v rest :
  bytes_ok src = true -> u16_decode src = Ok (v, rest) ->
  is_u16 v = true /\ src = u16_be v ++ rest.
Proof.
  unfold u16_decode. intros Hok H. case_if; [ | discriminate].
  apply get_u16_Ok in H as (a & b & -> & ->). rewrite !bytes_ok_cons in Hok. bprop.
  edestruct u16_be_of as [-> Hr]; eauto.
Qed.

Lemma u16_decode_be v rest : is_u16 v = true -> u16_decode (u16_be v ++ rest) = Ok (v, rest).
Proof.
  intros H. unfold u16_decode. rewrite (proj2 (Z.leb_le _ _)); [now apply get_u16_be | ].
  unfold u16_be. autorewrite with len. pose proof (len_nonneg rest). lia.
Qed.

Lemma u16_decode_no_panic src : no_panic (u16_decode src).
Proof. unfold u16_decode. case_if; [ | easy]. bprop. now apply get_u16_no_panic. Qed.

Lemma u16_decode_consumes : consumes 2 u16_decode.
Proof.
  intros src a rest H. unfold u16_decode in H. case_if; [ | discriminate].
  apply get_u16_Ok in H as (? & ? & -> & _). cbn. lia.
Qed.

#[export, refine] Instance Wire_u16 : Wire u16 := {
  wire_ok := is_u16; wire := u16_be }.
Proof.
  - intros v _. apply writes_u16.
  - reflexivity.
  - apply u16_decode_be.
  - apply u16_decode_sound.
  - intros src a rest H. apply u16_decode_consumes in H. lia.
  - apply u16_decode_no_panic.
Defined.

Lemma u32_decode_sound src v rest :
  bytes_ok src = true -> u32_decode src = Ok (v, rest) ->
  is_u32 v = true /\ src = u32_be v ++ rest.
Proof.
  unfold u32_decode. intros Hok H. case_if; [ | discriminate].
  destruct src as [|a [|b [|c [|d src]]]]; try discriminate. injection H as <- <-.
  rewrite !bytes_ok_cons in Hok. bprop. edestruct u32_be_of as [-> Hr]; eauto.
Qed.

Lemma u32_decode_be v rest : is_u32 v = true -> u32_decode (u32_be v ++ rest) = Ok (v, rest).
Proof.
  intros H. unfold u32_decode. rewrite (proj2 (Z.leb_le _ _)); [now apply get_u32_be | ].
  unfold u32_be. autorewrite with len. pose proof (len_nonneg rest). lia.
Qed.

Lemma u32_decode_no_panic src : no_panic (u32_decode src).
Proof. unfold u32_decode. case_if; [ | easy]. bprop. now apply get_u32_no_panic. Qed.

Lemma u32_decode_consumes : consumes 4 u32_decode.
Proof.
  intros src a rest H. unfold u32_decode in H. case_if; [ | discriminate].
  destruct src as [|? [|? [|? [|? ?]]]]; try discriminate. injection H as <- <-. cbn. lia.
Qed.

#[export, refine] Instance Wire_u32 : Wire u32 := {
  wire_ok := is_u32; wire := u32_be }.
Proof.
  - intros v _. apply writes_u32.
  - reflexivity.
  - apply u32_decode_be.
  - apply u32_decode_sound.
  - intros src a rest H. apply u32_decode_consumes in H. lia.
  - apply u32_decode_no_panic.
Defined.

Section NonZero.
(** The two non-zero types are the plain ones without the value 0. *)
Context (inner : bytes -> dres (Z * bytes)).

Definition nz_decode (src : bytes) : dres (Z * bytes) :=
  let? '(v, src) := inner src in
  let? v := ok_or (non_zero v) DMalformedPacket in
  Ok (v, src).

Lemma nz_decode_Ok src v rest :
  nz_decode src = Ok (v, rest) <-> inner src = Ok (v, rest) /\ v <> 0.
Proof using Type.
  unfold nz_decode, non_zero. split.
  - intros H. apply obind_Ok in H as ([v' r] & Hi & H). destruct (v' =? 0) eqn:Ev;
      [discriminate | ]. bprop. cbn in H. injection H as <- <-. auto.
  - intros [-> Hv]. cbn. rewrite (proj2 (Z.eqb_neq _ _) Hv). reflexivity.
Qed.

Lemma nz_decode_no_panic src : no_panic (inner src) -> no_panic (nz_decode src).
Proof using Type. intros H. unfold nz_decode. nopanic. Qed.
End NonZero.

#[export, refine] Instance Wire_nz16 : Wire NonZeroU16 := {
  wire_ok v := is_u16 v && negb (v =? 0); wire := u16_be }.
Proof.
  - intros v _. apply writes_u16.
  - reflexivity.
  - intros v rest H. bprop. apply (nz_decode_Ok u16_decode). split; [ | assumption].
    now apply u16_decode_be.
  - intros src v rest Hok H. apply (nz_decode_Ok u16_decode) in H as [H Hv].
    apply u16_decode_sound in H as [-> ->]; [ | assumption].
    split; [ | reflexivity]. cbn. now apply negb_true_iff, Z.eqb_neq.
  - intros src v rest H. apply (nz_decode_Ok u16_decode) in H as [H _].
    apply u16_decode_consumes in H. lia.
  - intros src. apply (nz_decode_no_panic u16_decode), u16_decode_no_panic.
Defined.

Lemma len_wire_nz16 (v : NonZeroU16) : len (wire v) = 2.
Proof. apply len_u16_be. Qed.

#[export] Hint Rewrite len_wire_nz16 : len.

#[export, refine] Instance Wire_nz32 : Wire NonZeroU32 := {
  wire_ok v := is_u32 v && negb (v =? 0); wire := u32_be }.
Proof.
  - intros v _. apply writes_u32.
  - reflexivity.
  - intros v rest H. bprop. apply (nz_decode_Ok u32_decode). split; [ | assumption].
    now apply u32_decode_be.
  - intros src v rest Hok H. apply (nz_decode_Ok u32_decode) in H as [H Hv].
    apply u32_decode_sound in H as [-> ->]; [ | assumption].
    split; [ | reflexivity]. cbn. now apply negb_true_iff, Z.eqb_neq.
  - intros src v rest H. apply (nz_decode_Ok u32_decode) in H as [H _].
    apply u32_decode_consumes in H. lia.
  - intros src. apply (nz_decode_no_panic u32_decode), u32_decode_no_panic.
Defined.

#[export, refine] Instance Wire_bool : Wire bool := {
  wire_ok _ := true; wire b := [if b then 1 else 0] }.
Proof.
  - intros [] _; apply writes_u8.
  - reflexivity.
  - now intros [] rest _.
  - intros [|b src] v rest Hok H; [discriminate | ]. cbn in H.
    destruct (b <=? 1) eqn:Eb1; [ | discriminate].
    injection H as <- <-. cbn [bytes_ok forallb] in Hok. unfold is_u8 in Hok. bprop.
    split; [reflexivity | ]. cbn. f_equal. destruct (b =? 1) eqn:Eb; bprop; lia.
  - intros [|b src] v rest H; [discriminate | ]. cbn in H.
    destruct (b <=? 1); [ | discriminate]. injection H as <- <-. cbn. lia.
  - intros [|b src]; cbn; [easy | ]. now case_if.
Defined.

Lemma is_u16_len {A} (l : list A) : (len l <? 2 ^ 16) = true -> is_u16 (len l) = true.
Proof. intros H. unfold is_u16. rewrite H, andb_true_r. apply Z.leb_le, len_nonneg. Qed.

Lemma bytes_encode_writes b :
  (len b <? 2 ^ 16) = true -> writes (bytes_encode b) (u16_be (len b) ++ b).
Proof. intros H. unfold bytes_encode. rewrite H. apply writes_seq; auto with wire. Qed.

Lemma bytes_decode_wire b rest :
  (len b <? 2 ^ 16) = true -> bytes_decode (u16_be (len b) ++ b ++ rest) = Ok (b, rest).
Proof.
  intros H. unfold bytes_decode. rewrite u16_decode_be by now apply is_u16_len.
  cbn [obind]. rewrite (proj2 (Z.leb_le _ _)); [now apply split_to_app | ].
  rewrite len_app. pose proof (len_nonneg rest). lia.
Qed.

Lemma bytes_decode_sound src b rest :
  bytes_ok src = true -> bytes_decode src = Ok (b, rest) ->
  (len b <? 2 ^ 16) = true /\ src = u16_be (len b) ++ b ++ rest.
Proof.
  intros Hok H. unfold bytes_decode in H. apply obind_Ok in H as ([n r] & Hn & H).
  apply u16_decode_sound in Hn as [Hn ->]; [ | assumption]. unfold is_u16 in Hn. bprop.
  case_if; [ | discriminate]. apply split_to_spec in H as [-> <-]; [ | assumption].
  split; [ | reflexivity]. now apply Z.ltb_lt.
Qed.

Lemma bytes_decode_consumes : consumes 2 bytes_decode.
Proof.
  intros src b rest H. unfold bytes_decode in H. apply obind_Ok in H as ([n r] & Hn & H).
  apply u16_decode_consumes in Hn. case_if; [ | discriminate].
  unfold split_to in H. case_if; [ | discriminate]. injection H as <- <-.
  rewrite length_skipn. lia.
Qed.

Lemma bytes_decode_no_panic src : no_panic (bytes_decode src).
Proof. unfold bytes_decode. nopanic; [apply u16_decode_no_panic | ]. bprop. auto with nopanic. Qed.

#[export, refine] Instance Wire_Bytes : Wire Bytes := {
  wire_ok b := len b <? 2 ^ 16; wire b := u16_be (len b) ++ b }.
Proof.
  - apply bytes_encode_writes.
  - intros v _. rewrite len_app. reflexivity.
  - intros v rest H. rewrite <- app_assoc. now apply bytes_decode_wire.
  - intros src v rest Hok H. rewrite <- app_assoc. now apply bytes_decode_sound.
  - intros src a rest H. apply bytes_decode_consumes in H. lia.
  - apply bytes_decode_no_panic.
Defined.

Lemma string_decode_Ok src s rest :
  string_decode src = Ok (s, rest) <-> bytes_decode src = Ok (s, rest) /\ utf8_valid s = true.
Proof.
  unfold string_decode. split.
  - intros H. apply obind_Ok in H as ([s' r] & Hi & H). case_if; [ | discriminate].
    injection H as <- <-. auto.
  - intros [-> Hv]. cbn. now rewrite Hv.
Qed.

#[export, refine] Instance Wire_string : Wire ByteString := {
  wire_ok s := (len s <? 2 ^ 16) && utf8_valid s; wire s := u16_be (len s) ++ s }.
Proof.
  - intros v H. bprop. now apply bytes_encode_writes, Z.ltb_lt.
  - intros v _. rewrite len_app. reflexivity.
  - intros v rest H. apply andb_true_iff in H as [H Hv]. apply string_decode_Ok.
    rewrite <- app_assoc. split; [now apply bytes_decode_wire | assumption].
  - intros src v rest Hok H. apply string_decode_Ok in H as [H Hv]. rewrite <- app_assoc.
    apply bytes_decode_sound in H as [H ->]; [ | assumption]. now rewrite H.
  - intros src a rest H. apply string_decode_Ok in H as [H _].
    apply bytes_decode_consumes in H. lia.
  - intros src. cbn. unfold string_decode. nopanic. apply bytes_decode_no_panic.
Defined.

#[export, refine] Instance Wire_user_property : Wire (ByteString * ByteString) := {
  wire_ok p := wire_ok (fst p) && wire_ok (snd p); wire p := wire (fst p) ++ wire (snd p) }.
Proof.
  - intros [k v] H. apply andb_true_iff in H as [Hk Hv].
    apply writes_seq; now apply (wire_encode (T := ByteString)).
  - intros [k v] H. apply andb_true_iff in H as [Hk Hv]. rewrite len_app.
    cbn [encoded_size Encode_user_property]. f_equal; now apply (wire_size (T := ByteString)).
  - intros [k v] rest H. apply andb_true_iff in H as [Hk Hv]. rewrite <- app_assoc.
    cbn [decode Decode_user_property]. unfold user_property_decode.
    rewrite (wire_decode (T := ByteString)) by assumption. cbn [obind].
    now rewrite (wire_decode (T := ByteString)) by assumption.
  - intros src [k v] rest Hok H. apply obind_Ok in H as ([k' r] & Hk & H).
    apply obind_Ok in H as ([v' r'] & Hv & H). injection H as <- <- <-.
    apply (wire_sound (T := ByteString)) in Hk as [Hk ->]; [ | assumption].
    rewrite bytes_ok_app in Hok. apply andb_true_iff in Hok as [_ Hok].
    apply (wire_sound (T := ByteString)) in Hv as [Hv ->]; [ | assumption].
    cbn [fst snd]. rewrite Hk, Hv, <- app_assoc. auto.
  - intros src [k v] rest H. apply obind_Ok in H as ([k' r] & Hk & H).
    apply obind_Ok in H as ([v' r'] & Hv & H). injection H as <- <- <-.
    apply (wire_consumes (T := ByteString)) in Hk, Hv. lia.
  - intros src. cbn [decode Decode_user_property]. unfold user_property_decode. nopanic.
Defined.

(** ** Composing the interface *)

Lemma writes_eq {E} (w : writer E) out out' : writes w out -> out = out' -> writes w out'.
Proof. now intros H <-. Qed.

(** The bytes of a value that may be absent. *)
Definition opt_wire {T} `{Wire T} (o : option T) : bytes :=
  match o with Some v => wire v | None => [] end.

Definition opt_ok {T} `{Wire T} (o : option T) : bool :=
  match o with Some v => wire_ok v | None => true end.

Lemma writes_opt {T} `{Wire T} (o : option T) :
  opt_ok o = true -> writes (match o with Some v => encode v | None => wret end) (opt_wire o).
Proof. destruct o; cbn; intros Ho; [now apply wire_encode | apply writes_ret]. Qed.

Lemma opt_size {T} `{Wire T} (o : option T) :
  opt_ok o = true -> match o with Some v => encoded_size v | None => 0 end = len (opt_wire o).
Proof. destruct o; cbn; intros Ho; [now apply wire_size | reflexivity]. Qed.

Lemma decode_if_wire {T} `{Wire T} (o : option T) rest :
  opt_ok o = true -> decode_if (is_some o) (opt_wire o ++ rest) = Ok (o, rest).
Proof.
  destruct o as [v|]; intros Ho; [ | reflexivity].
  unfold decode_if. cbn [is_some negb is_none opt_wire]. now rewrite wire_decode by assumption.
Qed.

Lemma decode_if_no_panic {T} `{Wire T} b src : no_panic (decode_if (T := T) b src).
Proof. unfold decode_if. nopanic. Qed.

Lemma decode_if_sound {T} `{Wire T} b src (o : option T) rest :
  bytes_ok src = true -> decode_if b src = Ok (o, rest) ->
  opt_ok o = true /\ is_some o = b /\ src = opt_wire o ++ rest.
Proof.
  unfold decode_if. destruct b; intros Hok Hd.
  - apply obind_Ok in Hd as ([v r] & Hv & Hd). injection Hd as <- <-.
    apply wire_sound in Hv as [Hv ->]; auto.
  - now injection Hd as <- <-.
Qed.

#[export] Hint Extern 1 (no_panic (decode_if _ _)) => apply decode_if_no_panic : nopanic.

(** Writers in sequence, up to reassociation of the bytes; the values are
    left to their interface. *)
Ltac writes_step :=
  match goal with
  | |- writes (_ >> _) _ => eapply writes_seq
  | |- writes (wlet _ _) _ => eapply writes_let; [reflexivity | ]
  | |- writes (encode _) _ => apply wire_encode
  | |- writes (match _ with Some v => encode v | None => wret end) _ => apply writes_opt
  | |- writes _ _ => solve [eauto with wire]
  end.
Ltac writes_all := eapply writes_eq; [repeat (writes_step; cbn beta) | ].

Lemma is_mqtt_name_MQTT rest : is_mqtt_name 4 (MQTT ++ rest) = Ok true.
Proof. unfold is_mqtt_name. cbn [Z.eqb]. now rewrite split_to_app. Qed.

Lemma is_mqtt_name_no_panic n src : 4 <= len src -> no_panic (is_mqtt_name n src).
Proof. intros H. unfold is_mqtt_name. nopanic. Qed.

(** ** Variable length integers: reference encoding and correctness *)

(** The reference: base 128, least significant group first, with the top bit
    set on every byte but the last; at most [S k] bytes. *)
Fixpoint varint_groups (k : nat) (n : Z) : bytes :=
  match k with
  | O => [n]
  | S k => if n <? 128 then [n] else (n mod 128 + 128) :: varint_groups k (n / 128)
  end.

Definition varint (n : Z) : bytes := varint_groups 3 n.

Definition MAX_VARINT : Z := 268435455.

Lemma land_127 n : Z.land n 127 = n mod 128.
Proof. change 127 with (Z.ones 7). now rewrite Z.land_ones by lia. Qed.

Lemma lor_128 n : 0 <= n < 128 -> Z.lor n 128 = n + 128.
Proof.
  intros H. assert (Hb : is_u8 n = true) by (unfold is_u8; lia).
  apply (u8_forall (fun n => (128 <=? n) || (Z.lor n 128 =? n + 128))) in Hb;
    [ | vm_compute; reflexivity].
  apply orb_true_iff in Hb as [Hb | Hb]; bprop; lia.
Qed.

Lemma land_128 b : is_u8 b = true -> (Z.land b 128 =? 0) = (b <? 128).
Proof.
  intros Hb. apply (u8_forall (fun b => Bool.eqb (Z.land b 128 =? 0) (b <? 128))) in Hb;
    [now apply Bool.eqb_prop | vm_compute; reflexivity].
Qed.

Lemma varint_group n : as_u8 (Z.lor (Z.land n 127) 128) = n mod 128 + 128.
Proof.
  rewrite land_127, lor_128 by (pose proof (Z.mod_pos_bound n 128); lia).
  unfold as_u8. apply Z.mod_small. pose proof (Z.mod_pos_bound n 128). lia.
Qed.

Lemma write_variable_length_writes n :
  0 <= n <= MAX_VARINT -> writes (write_variable_length n) (varint n).
Proof.
  unfold MAX_VARINT, write_variable_length, varint. intros Hn. cbn [varint_groups].
  rewrite !varint_group, !Z.shiftr_div_pow2 by lia. unfold as_u8.
  change (2 ^ 8) with 256.
  replace (n / 2 ^ 14) with (n / 128 / 128) by zlia.
  replace (n / 2 ^ 21) with (n / 128 / 128 / 128) by zlia.
  change (2 ^ 7) with 128.
  repeat case_if; bprop; try zlia;
    match goal with |- writes (put_slice ?x) ?y => replace x with y; [auto with wire | ] | _ => idtac end;
    repeat (f_equal; try (rewrite Z.mod_small; [reflexivity | zlia])).
  rewrite Z.mod_small by lia. auto with wire.
Qed.

Lemma write_variable_length_panics n buf :
  MAX_VARINT < n -> write_variable_length n buf = (Panic, buf).
Proof.
  unfold MAX_VARINT, write_variable_length. intros Hn. repeat case_if; bprop; try lia. reflexivity.
Qed.

(** The bytes of a variable length integer read as its value. *)
Lemma dvl_loop_groups k n shift acc rest :
  0 <= n < 128 ^ (Z.of_nat k + 1) -> 0 <= shift -> shift + 7 * Z.of_nat k <= 21 ->
  0 <= acc -> acc + n * 2 ^ shift < 2 ^ 32 ->
  dvl_loop shift acc (varint_groups k n ++ rest) = Ok (acc + n * 2 ^ shift, rest).
Proof.
  revert n shift acc. induction k as [|k IH]; intros n shift acc Hn Hs Hk Ha Hb.
  all: assert (H2 : 0 < 2 ^ shift) by (apply Z.pow_pos_nonneg; lia).
  all: assert (Hm : forall m, 0 <= m < 128 -> m * 2 ^ shift <= n * 2 ^ shift ->
    @u32_add DecodeError acc (u32_shl m shift) = Ok (acc + m * 2 ^ shift)).
  1,3: intros m Hm Hle; unfold u32_shl, as_u32; rewrite Z.shiftl_mul_pow2, Z.mod_small by nia;
    apply u32_add_Ok; lia.
  - cbn in Hn. cbn [varint_groups app dvl_loop]. rewrite land_127, Z.mod_small by lia.
    rewrite Hm by lia. cbn [obind]. rewrite land_128 by (unfold is_u8; lia).
    now rewrite (proj2 (Z.ltb_lt _ _)) by lia.
  - cbn [varint_groups]. destruct (n <? 128) eqn:En; bprop.
    + cbn [app dvl_loop]. rewrite land_127, Z.mod_small by lia. rewrite Hm by lia.
      cbn [obind]. rewrite land_128 by (unfold is_u8; lia).
      now rewrite (proj2 (Z.ltb_lt _ _)) by lia.
    + assert (Hr : 0 <= n mod 128 < 128) by (apply Z.mod_pos_bound; lia).
      cbn [app dvl_loop]. rewrite land_127.
      replace ((n mod 128 + 128) mod 128) with (n mod 128) by zlia.
      assert (n mod 128 <= n) by zlia. rewrite Hm by nia. cbn [obind].
      rewrite land_128 by (unfold is_u8; lia).
      rewrite (proj2 (Z.ltb_ge _ _)), (proj2 (Z.ltb_lt _ _)) by lia.
      assert (Hsp : 2 ^ (shift + 7) = 2 ^ shift * 128) by (rewrite Z.pow_add_r; lia).
      assert (Hdm : n = 128 * (n / 128) + n mod 128) by (apply Z.div_mod; lia).
      rewrite IH; rewrite ?Hsp; try nia.
      * do 2 f_equal. nia.
      * rewrite Nat2Z.inj_succ, <- Z.add_1_r in Hn. rewrite Z.pow_add_r in Hn by lia.
        split; [apply Z.div_pos; lia | apply Z.div_lt_upper_bound; lia].
Qed.

Lemma decode_varint n rest :
  0 <= n <= MAX_VARINT -> decode_variable_length_cursor (varint n ++ rest) = Ok (n, rest).
Proof.
  unfold MAX_VARINT. intros Hn. unfold decode_variable_length_cursor, varint.
  rewrite dvl_loop_groups; [do 2 f_equal; lia | ..]; cbn; lia.
Qed.

(** The loop needs no more than the four rounds that [shift] allows: it reads
    at most four bytes, never overflows, and its value fits 28 bits. *)
Lemma dvl_loop_bounds src : forall shift acc,
  0 <= shift <= 21 -> shift mod 7 = 0 -> 0 <= acc < 2 ^ shift ->
  match dvl_loop shift acc src with
  | Ok (n, rest) =>
      acc <= n < 2 ^ 28 /\
      exists read, src = read ++ rest /\ read <> [] /\ shift + 7 * len read <= 28
  | Err e => e = DMalformedPacket \/ e = DInvalidLength
  | Panic => False
  end.
Proof.
  induction src as [|val src IH]; intros shift acc Hs Hm Ha; [cbn; auto | ].
  cbn [dvl_loop]. rewrite land_127. pose proof (Z.mod_pos_bound val 128 ltac:(lia)) as Hv.
  assert (H2 : 2 ^ (shift + 7) = 2 ^ shift * 128) by (rewrite Z.pow_add_r; lia).
  assert (Hle : 2 ^ (shift + 7) <= 2 ^ 28) by (apply Z.pow_le_mono_r; lia).
  assert (Hp : 0 < 2 ^ shift) by (apply Z.pow_pos_nonneg; lia).
  assert (Hsh : u32_shl (val mod 128) shift = val mod 128 * 2 ^ shift).
  { unfold u32_shl, as_u32. rewrite Z.shiftl_mul_pow2, Z.mod_small; [reflexivity | nia | lia]. }
  rewrite Hsh, u32_add_Ok by nia. cbn [obind]. case_if.
  { split; [nia | ]. exists [val]. autorewrite with len. repeat split; try easy; lia. }
  case_if; [ | auto]. bprop.
  assert (Hacc : 0 <= acc + val mod 128 * 2 ^ shift < 2 ^ (shift + 7)) by nia.
  specialize (IH (shift + 7) (acc + val mod 128 * 2 ^ shift) ltac:(zlia) ltac:(zlia) Hacc).
  destruct (dvl_loop (shift + 7) _ src) as [[n rest] | e | ]; try assumption.
  destruct IH as [? (read & -> & Hne & Hl)]. split; [nia | ].
  exists (val :: read). rewrite len_cons. repeat split; try easy; lia.
Qed.

Lemma decode_varint_bounds src n rest :
  decode_variable_length_cursor src = Ok (n, rest) ->
  0 <= n <= MAX_VARINT /\
  exists read, src = read ++ rest /\ 1 <= len read <= 4.
Proof.
  intros H. pose proof (dvl_loop_bounds src 0 0 ltac:(lia) eq_refl ltac:(lia)) as B.
  unfold decode_variable_length_cursor in H. rewrite H in B.
  destruct B as [? (read & -> & Hne & Hl)]. unfold MAX_VARINT. split; [lia | ].
  exists read. split; [reflexivity | ]. destruct read; [easy | ].
  rewrite len_cons in *. pose proof (len_nonneg read). lia.
Qed.

Lemma decode_varint_no_panic src : no_panic (decode_variable_length_cursor src).
Proof.
  pose proof (dvl_loop_bounds src 0 0 ltac:(lia) eq_refl ltac:(lia)) as B.
  intros H. unfold decode_variable_length_cursor in H. now rewrite H in B.
Qed.

Lemma decode_varint_errors src e :
  decode_variable_length_cursor src = Err e -> e = DMalformedPacket \/ e = DInvalidLength.
Proof.
  intros H. pose proof (dvl_loop_bounds src 0 0 ltac:(lia) eq_refl ltac:(lia)) as B.
  unfold decode_variable_length_cursor in H. now rewrite H in B.
Qed.

#[export] Hint Resolve decode_varint_no_panic : nopanic.

(** How many bytes the two errors stand for. *)
Lemma dvl_loop_lengths src : forall shift acc,
  0 <= shift <= 21 -> shift mod 7 = 0 ->
  match dvl_loop shift acc src with
  | Err DMalformedPacket => shift + 7 * len src < 28
  | Err DInvalidLength => 28 <= shift + 7 * len src
  | _ => True
  end.
Proof.
  induction src as [|val src IH]; intros shift acc Hs Hm; [cbn; change (len []) with 0; lia | ].
  cbn [dvl_loop]. rewrite len_cons.
  destruct (u32_add acc _) as [acc' | e | ] eqn:Ea; cbn [obind];
    [ | unfold u32_add in Ea; case_if; discriminate | exact I].
  case_if; [exact I | ]. case_if; bprop.
  - specialize (IH (shift + 7) acc' ltac:(zlia) ltac:(zlia)).
    destruct (dvl_loop (shift + 7) acc' src) as [ | [] | ]; try exact I; lia.
  - pose proof (len_nonneg src). lia.
Qed.

Lemma dvl_loop_needs src :
  match decode_variable_length_cursor src with
  | Err DMalformedPacket => len src < 4
  | Err DInvalidLength => 4 <= len src
  | _ => True
  end.
Proof.
  pose proof (dvl_loop_lengths src 0 0 ltac:(lia) eq_refl) as H.
  unfold decode_variable_length_cursor. destruct (dvl_loop 0 0 src) as [ | [] | ]; try exact I; lia.
Qed.

(** The bytes that were read are a length of their own. *)
Lemma dvl_loop_read src : forall shift acc n rest,
  dvl_loop shift acc src = Ok (n, rest) -> exists read, src = read ++ rest /\ dvl_loop shift acc read = Ok (n, []).
Proof.
  induction src as [|val src IH]; intros shift acc n rest; [discriminate | ]. cbn [dvl_loop].
  intros (acc' & Ha & H)%obind_Ok. destruct (Z.land val 128 =? 0) eqn:Ez.
  - injection H as <- <-. exists [val]. split; [reflexivity | ]. cbn [dvl_loop]. now rewrite Ha, Ez.
  - destruct (shift <? 21) eqn:Es; [ | discriminate]. apply IH in H as (read & -> & H).
    exists (val :: read). split; [reflexivity | ]. cbn [dvl_loop]. now rewrite Ha, Ez, Es.
Qed.

(** More bytes do not change a decision that has been taken. *)
Lemma dvl_loop_app src more : forall shift acc,
  match dvl_loop shift acc src with
  | Ok (n, rest) => dvl_loop shift acc (src ++ more) = Ok (n, rest ++ more)
  | Err DMalformedPacket => True
  | Err e => dvl_loop shift acc (src ++ more) = Err e
  | Panic => dvl_loop shift acc (src ++ more) = Panic
  end.
Proof.
  induction src as [|val src IH]; intros shift acc; [exact I | ]. cbn [app dvl_loop].
  destruct (u32_add acc _) as [acc' | e | ] eqn:Ea; cbn [obind].
  - case_if; [reflexivity | ]. case_if; [apply IH | reflexivity].
  - unfold u32_add in Ea. case_if; discriminate.
  - reflexivity.
Qed.

Lemma decode_variable_length_app src more :
  match decode_variable_length src with
  | Ok None => True
  | r => decode_variable_length (src ++ more) = r
  end.
Proof.
  pose proof (dvl_loop_app src more 0 0) as H. unfold decode_variable_length,
    decode_variable_length_cursor.
  destruct (dvl_loop 0 0 src) as [[n rest] | [] | ]; rewrite ?H; try reflexivity.
  do 3 f_equal. rewrite !len_app. lia.
Qed.

Lemma decode_variable_length_varint n rest :
  0 <= n <= MAX_VARINT ->
  decode_variable_length (varint n ++ rest) = Ok (Some (n, len (varint n))).
Proof.
  intros Hn. unfold decode_variable_length. rewrite decode_varint by assumption.
  do 3 f_equal. rewrite len_app. lia.
Qed.

Lemma decode_variable_length_consumed src n k :
  decode_variable_length src = Ok (Some (n, k)) ->
  0 <= n <= MAX_VARINT /\ 1 <= k <= 4 /\ k <= len src.
Proof.
  unfold decode_variable_length. intros H.
  destruct (decode_variable_length_cursor src) as [[m rest] | [] | ] eqn:E; try discriminate.
  injection H as <- <-. apply decode_varint_bounds in E as (Hn & read & -> & Hl).
  rewrite len_app. pose proof (len_nonneg rest). lia.
Qed.

Lemma len_varint_pos n : 0 < len (varint n).
Proof.
  unfold varint. cbn [varint_groups]. repeat case_if; autorewrite with len; lia.
Qed.

Lemma len_varint n : 0 <= n <= MAX_VARINT ->
  len (varint n) =
    if n <=? 127 then 1 else if n <=? 16383 then 2 else if n <=? 2097151 then 3 else 4.
Proof.
  unfold MAX_VARINT, varint. intros Hn. cbn [varint_groups].
  repeat (case_if; autorewrite with len); bprop; try lia; zlia.
Qed.

Lemma bytes_ok_varint n : 0 <= n <= MAX_VARINT -> bytes_ok (varint n) = true.
Proof.
  unfold MAX_VARINT, varint, bytes_ok, is_u8. intros Hn. cbn [varint_groups].
  repeat (case_if; cbn [forallb]; bprop); rewrite ?andb_true_iff, ?Z.leb_le, ?Z.ltb_lt;
    repeat split; zlia.
Qed.

(** A block of properties: its length and its bytes. *)
Lemma take_properties_wire ps rest :
  len ps <= MAX_VARINT ->
  take_properties (varint (len ps) ++ ps ++ rest) = Ok (ps, rest).
Proof.
  intros H. pose proof (len_nonneg ps). unfold take_properties.
  rewrite decode_varint by lia. cbn [obind].
  rewrite (proj2 (Z.leb_le _ _)); [now apply split_to_app | ].
  rewrite len_app. pose proof (len_nonneg rest). lia.
Qed.

Lemma take_properties_no_panic src : no_panic (take_properties src).
Proof. unfold take_properties. nopanic. bprop. auto with nopanic. Qed.

Lemma take_properties_consumes src ps rest :
  take_properties src = Ok (ps, rest) -> (length rest < length src)%nat.
Proof.
  unfold take_properties. intros H. apply obind_Ok in H as ([n r] & Hn & H).
  apply decode_varint_bounds in Hn as (Hn & read & -> & Hl).
  case_if; [ | discriminate]. apply split_to_spec in H as [-> _]; [ | lia].
  rewrite !length_app. unfold len in Hl. lia.
Qed.

#[export] Hint Resolve take_properties_no_panic : nopanic.

Lemma read_value_no_panic {T} `{Wire T} (slot : option T) src : no_panic (read_value slot src).
Proof. unfold read_value. nopanic. Qed.

#[export] Hint Extern 1 (no_panic (read_value _ _)) => apply read_value_no_panic : nopanic.

Lemma read_value_wire {T} `{Wire T} (v : T) rest :
  wire_ok v = true -> read_value None (wire v ++ rest) = Ok (Some v, rest).
Proof. intros Hv. unfold read_value. cbn [is_none]. now rewrite wire_decode by assumption. Qed.

Lemma read_value_consumes {T} `{Wire T} (slot : option T) : consumes 1 (read_value slot).
Proof.
  intros src v rest Hr. unfold read_value in Hr. case_if; [ | discriminate].
  apply obind_Ok in Hr as ([x r] & Hd & Hr). injection Hr as <- <-.
  now apply wire_consumes in Hd.
Qed.

(** ** Tactics and loops shared by the packet codecs *)

(** The reads of a decoder, on the bytes of the values they expect. *)
Ltac read_wire T := rewrite (wire_decode (T := T)) by assumption; cbn [obind].

Ltac split_ok :=
  repeat match goal with
  | H : bytes_ok (_ ++ _) = true |- _ => rewrite bytes_ok_app in H
  | H : bytes_ok (_ :: _) = true |- _ => rewrite bytes_ok_cons in H
  | H : _ && bytes_ok _ = true |- _ => apply andb_true_iff in H as [? ?]
  end.

(** Sets up the reads of a successful decoder one after the other. *)
Ltac read_ok T H :=
  let v := fresh "v" in let r := fresh "r" in let Hv := fresh "Hv" in let Hok := fresh "Hok" in
  apply obind_Ok in H as ([v r] & Hv & H);
  apply (wire_sound (T := T)) in Hv as [Hv ->]; [ | assumption];
  match goal with Hs : bytes_ok (_ ++ r) = true |- _ =>
    rewrite bytes_ok_app in Hs; apply andb_true_iff in Hs as [_ Hok] end.

(** A loop that reads one element a round reads back the elements written. *)
Lemma while_elements {A} (step : list A -> bytes -> dres (list A * bytes))
    (out : A -> bytes) (ok : A -> bool) xs :
  (forall acc src acc' rest, step acc src = Ok (acc', rest) -> (length rest < length src)%nat) ->
  (forall x, out x <> []) ->
  (forall acc x rest, ok x = true -> step acc (out x ++ rest) = Ok (acc ++ [x], rest)) ->
  forallb ok xs = true ->
  while_remaining step [] (flat_map out xs) = Ok (xs, []).
Proof.
  intros Hpr Hne Hs. change xs with ([] ++ xs) at 3. generalize (@nil A) as acc.
  induction xs as [|x xs IH]; intros acc Hok; cbn [flat_map forallb] in *.
  - now rewrite app_nil_r.
  - apply andb_true_iff in Hok as [Hx Hxs].
    erewrite while_remaining_step by (try apply Hs; auto;
      intros H; apply app_eq_nil in H as [H _]; now apply (Hne x)).
    rewrite IH by assumption. now rewrite <- app_assoc.
Qed.

Lemma elements_sound {A} (step : list A -> bytes -> dres (list A * bytes))
    (out : A -> bytes) (ok : A -> bool) src xs rest :
  (forall acc src acc' rest, bytes_ok src = true -> step acc src = Ok (acc', rest) ->
     exists x, acc' = acc ++ [x] /\ ok x = true /\ bytes_ok rest = true /\
       len (out x) + len rest = len src) ->
  bytes_ok src = true -> while_remaining step [] src = Ok (xs, rest) ->
  forallb ok xs = true /\ len (flat_map out xs) = len src.
Proof.
  intros Hs Hok H.
  apply (while_remaining_inv step (fun acc r =>
    forallb ok acc = true /\ bytes_ok r = true /\ len (flat_map out acc) + len r = len src)) in H
    as [(Hx & _ & Hl) _].
  - rewrite len_nil in Hl. split; [assumption | lia].
  - intros acc b r acc' r' (Ha & Hr & Hl) Hst. apply Hs in Hst as (x & -> & Hx & Hr' & Hl'); [ | assumption].
    rewrite forallb_app, flat_map_app, len_app. cbn [forallb flat_map]. rewrite Ha, Hx, app_nil_r.
    repeat split; auto. lia.
  - cbn [flat_map]. rewrite len_nil. auto.
Qed.

(** ** Properties *)

(** C34: a variable length integer up to 268435455 is written as its base-128
    groups, read back as the same value whatever follows, and never takes more
    than four bytes; above that the writer panics. *)
Theorem varint_roundtrip (n : Z) (buf rest : bytes) :
  0 <= n ->
  (n <= MAX_VARINT ->
     write_variable_length n buf = (Ok tt, buf ++ varint n) /\
     decode_variable_length (varint n ++ rest) = Ok (Some (n, len (varint n))) /\
     decode_variable_length_cursor (varint n ++ rest) = Ok (n, rest) /\
     1 <= len (varint n) <= 4) /\
  (MAX_VARINT < n -> write_variable_length n buf = (Panic, buf)).
Proof.
  intros Hn. split; intros Hm; [ | now apply write_variable_length_panics].
  repeat split; [apply write_variable_length_writes | apply decode_variable_length_varint
                | apply decode_varint | | ]; try lia;
    rewrite len_varint by lia; repeat case_if; lia.
Qed.

Lemma varint_roundtrip_witness :
  decode_variable_length (varint 321 ++ [7]) = Ok (Some (321, len (varint 321))).
Proof.
  apply (proj1 (varint_roundtrip 321 [] [7] ltac:(lia))). unfold MAX_VARINT. lia.
Defined.

(** Reading a variable length integer is total: on any bytes it returns a
    value of at most 28 bits after one to four bytes, asks for more bytes
    when the ones it has end within the integer, or reports that a fourth byte
    still has its continuation bit; and it never overflows. *)
Theorem varint_decode_total (src : bytes) :
  match decode_variable_length src with
  | Ok (Some (n, consumed)) => 0 <= n <= MAX_VARINT /\ 1 <= consumed <= 4 /\ consumed <= len src
  | Ok None => len src < 4
  | Err e => e = DInvalidLength /\ 4 <= len src
  | Panic => False
  end.
Proof.
  pose proof (dvl_loop_needs src) as Hm.
  destruct (decode_variable_length src) as [[[n k]|] | e | ] eqn:E.
  - now apply decode_variable_length_consumed in E.
  - unfold decode_variable_length in E.
    destruct (decode_variable_length_cursor src) as [[n rest] | [] | ]; easy.
  - unfold decode_variable_length in E. pose proof (decode_varint_errors src) as He.
    destruct (decode_variable_length_cursor src) as [[n rest] | [] | ]; try discriminate;
      injection E as <-; destruct (He _ eq_refl); try discriminate; auto.
  - unfold decode_variable_length in E. pose proof (decode_varint_no_panic src) as Hp.
    destruct (decode_variable_length_cursor src) as [[n rest] | [] | ]; try discriminate.
    now apply Hp.
Qed.
