(* ===== verification/Framing.v ===== *)
(** * Frames on a byte stream

    The [Decoder] of both codecs ([src/v3/codec/codec.rs],
    [src/v5/codec/codec.rs]): a state machine that reads the fixed header of
    a frame, waits for its content and hands it to [decode_packet].  The
    section takes [decode_packet] and the maximum size as arguments; the
    codecs instantiate it.  [drain] is the caller's loop, which takes packets
    while the buffer holds one, and [feed] receives the stream in chunks. *)

From Stdlib Require Import ZArith List Bool Lia.
From S2P Require Import Prelude Types Wire.
Import ListNotations.
Open Scope Z_scope.

Inductive DecodeState : Type :=
| FrameHeader
| Frame (fixed : FixedHeader).

(** One round of [loop]: it returns from the function or goes on. *)
Inductive flow (R : Type) : Type :=
| Return (r : R)
| Continue (st : DecodeState) (src : bytes).
Arguments Return {R} r.
Arguments Continue {R} st src.

Section Framing.
Context {P : Type} (decode_packet : bytes -> Z -> dres P) (max_size : Z).

(** What [decode] leaves: its result, the state and the buffer. *)
Definition decoded : Type := (dres (option P) * DecodeState * bytes)%type.

Definition header_arm (src : bytes) : flow decoded :=
  if len src <? 2 then Return (Ok None, FrameHeader, src)
  else match src with
  | [] => Return (Panic, FrameHeader, src)
  | first :: src_slice =>
      match decode_variable_length src_slice with
      | Err e => Return (Err e, FrameHeader, src)
      | Panic => Return (Panic, FrameHeader, src)
      | Ok None => Return (Ok None, FrameHeader, src)
      | Ok (Some (remaining, consumed)) =>
          if negb (max_size =? 0) && (max_size <? remaining)
          then Return (Err DMaxSizeExceeded, FrameHeader, src)
          else
            let st := Frame {| first_byte := first; remaining_length := remaining |} in
            match @advance DecodeError (consumed + 1) src with
            | Ok src =>
                if len src <? remaining then Return (Ok None, st, src) else Continue st src
            | _ => Return (Panic, FrameHeader, src)
            end
      end
  end.

Definition frame_arm (fixed : FixedHeader) (src : bytes) : flow decoded :=
  if len src <? remaining_length fixed then Return (Ok None, Frame fixed, src)
  else match @split_to DecodeError (remaining_length fixed) src with
  | Ok (packet_buf, src) =>
      match decode_packet packet_buf (first_byte fixed) with
      | Ok packet => Return (Ok (Some packet), FrameHeader, src)
      | Err e => Return (Err e, Frame fixed, src)
      | Panic => Return (Panic, Frame fixed, src)
      end
  | _ => Return (Panic, Frame fixed, src)
  end.

(** [Decoder::decode]: the loop goes from the header to the content and
    returns there, so two rounds are enough ([codec_decode_frame],
    [codec_decode_header]). *)
Fixpoint decode_loop (rounds : nat) (st : DecodeState) (src : bytes) : decoded :=
  match rounds with
  | O => (Panic, st, src)
  | S rounds =>
      match match st with FrameHeader => header_arm src | Frame fixed => frame_arm fixed src end
      with
      | Return r => r
      | Continue st src => decode_loop rounds st src
      end
  end.

Definition frame_decode (st : DecodeState) (src : bytes) : decoded := decode_loop 2 st src.

(** The caller's loop: packets until the buffer has none.  Every packet
    takes bytes out of the buffer, apart from one whose header was read
    before and whose content is empty. *)
Fixpoint drain_fuel (fuel : nat) (st : DecodeState) (src : bytes)
    : list P * dres unit * DecodeState * bytes :=
  match fuel with
  | O => ([], Panic, st, src)
  | S fuel =>
      match frame_decode st src with
      | (Ok (Some p), st, src) =>
          let '(ps, r, st, src) := drain_fuel fuel st src in (p :: ps, r, st, src)
      | (Ok None, st, src) => ([], Ok tt, st, src)
      | (Err e, st, src) => ([], Err e, st, src)
      | (Panic, st, src) => ([], Panic, st, src)
      end
  end.

Definition drain_measure (st : DecodeState) (src : bytes) : nat :=
  length src + match st with FrameHeader => 0 | Frame _ => 1 end.

Definition drain (st : DecodeState) (src : bytes) :=
  drain_fuel (S (drain_measure st src)) st src.

(** The stream arrives in chunks; nothing is decoded after an error. *)
Fixpoint feed (st : DecodeState) (src : bytes) (chunks : list bytes)
    : list P * dres unit * DecodeState * bytes :=
  match chunks with
  | [] => ([], Ok tt, st, src)
  | c :: chunks =>
      match drain st (src ++ c) with
      | (ps, Ok _, st, src) =>
          let '(ps', r, st, src) := feed st src chunks in (ps ++ ps', r, st, src)
      | (ps, r, st, src) => (ps, r, st, src ++ concat chunks)
      end
  end.

(** ** The machine without its loop *)

(** The fixed header at the front of the buffer, once it is complete. *)
Definition read_header (src : bytes) : dres (option (FixedHeader * bytes)) :=
  if len src <? 2 then Ok None
  else match src with
  | [] => Panic
  | first :: src_slice =>
      match decode_variable_length src_slice with
      | Ok (Some (remaining, consumed)) =>
          if negb (max_size =? 0) && (max_size <? remaining) then Err DMaxSizeExceeded
          else let? src := advance (consumed + 1) src in
               Ok (Some ({| first_byte := first; remaining_length := remaining |}, src))
      | Ok None => Ok None
      | Err e => Err e
      | Panic => Panic
      end
  end.

(** The content, once it is complete. *)
Definition read_frame (fixed : FixedHeader) (src : bytes) : decoded :=
  if len src <? remaining_length fixed then (Ok None, Frame fixed, src)
  else
    let n := Z.to_nat (remaining_length fixed) in
    match decode_packet (firstn n src) (first_byte fixed) with
    | Ok packet => (Ok (Some packet), FrameHeader, skipn n src)
    | Err e => (Err e, Frame fixed, skipn n src)
    | Panic => (Panic, Frame fixed, skipn n src)
    end.

Lemma frame_arm_read fixed src : frame_arm fixed src = Return (read_frame fixed src).
Proof using Type.
  unfold frame_arm, read_frame, split_to. case_if; [reflexivity | ]. bprop.
  rewrite (proj2 (Z.leb_le _ _)) by assumption. now destruct (decode_packet _ _).
Qed.

Lemma codec_decode_frame fixed src : frame_decode (Frame fixed) src = read_frame fixed src.
Proof using Type. unfold frame_decode. cbn [decode_loop]. now rewrite frame_arm_read. Qed.

Lemma codec_decode_header src :
  frame_decode FrameHeader src =
  match read_header src with
  | Ok (Some (fixed, rest)) => read_frame fixed rest
  | Ok None => (Ok None, FrameHeader, src)
  | Err e => (Err e, FrameHeader, src)
  | Panic => (Panic, FrameHeader, src)
  end.
Proof using Type.
  unfold frame_decode. cbn [decode_loop]. unfold header_arm, read_header.
  case_if; [reflexivity | ]. destruct src as [|first src]; [reflexivity | ].
  destruct (decode_variable_length src) as [[[n k]|] | | ] eqn:Ev; try reflexivity.
  case_if; [reflexivity | ]. unfold advance, split_to.
  apply decode_variable_length_consumed in Ev as (Hn & Hk & Hl).
  rewrite (proj2 (Z.leb_le _ _)) by (rewrite len_cons; lia). cbn [obind].
  case_if; [ | now rewrite frame_arm_read].
  unfold read_frame. cbn [remaining_length]. now rewrite Heqb1.
Qed.

(** ** More bytes do not change what was decided *)

Lemma read_header_app src more :
  match read_header src with
  | Ok None => True
  | Ok (Some (fixed, rest)) => read_header (src ++ more) = Ok (Some (fixed, rest ++ more))
  | r => read_header (src ++ more) = r
  end.
Proof using Type.
  unfold read_header at 1 2. case_if; [exact I | ]. bprop.
  destruct src as [|first src]; [rewrite len_nil in *; lia | ].
  unfold read_header. rewrite <- app_comm_cons, len_cons, len_app.
  pose proof (len_nonneg more). rewrite len_cons in *.
  rewrite (proj2 (Z.ltb_ge _ _)) by lia. pose proof (decode_variable_length_app src more) as Ha.
  destruct (decode_variable_length src) as [[[n k]|] | | ] eqn:Ev; rewrite ?Ha; try reflexivity.
  case_if; [reflexivity | ].
  apply decode_variable_length_consumed in Ev as (Hn & Hk & Hl).
  unfold advance, split_to. rewrite !(proj2 (Z.leb_le _ _))
    by (rewrite ?len_cons, ?len_app; lia). cbn [obind].
  rewrite (app_comm_cons src more first), skipn_app.
  replace (Z.to_nat (k + 1) - length (first :: src))%nat with 0%nat
    by (unfold len in *; cbn [length]; lia). reflexivity.
Qed.

Lemma read_frame_app fixed src more :
  match read_frame fixed src with
  | (Ok None, st, rest) => st = Frame fixed /\ rest = src
  | (r, st, rest) => read_frame fixed (src ++ more) = (r, st, rest ++ more)
  end.
Proof using Type.
  unfold read_frame at 1 2. case_if; [auto | ]. bprop. unfold read_frame.
  rewrite len_app. pose proof (len_nonneg more). rewrite (proj2 (Z.ltb_ge _ _)) by lia.
  rewrite firstn_app, skipn_app.
  replace (Z.to_nat (remaining_length fixed) - length src)%nat with 0%nat
    by (unfold len in *; lia).
  cbn [firstn skipn]. rewrite app_nil_r. now destruct (decode_packet _ _).
Qed.

Lemma frame_decode_app st src more :
  match frame_decode st src with
  | (Ok None, st', rest) => frame_decode st (src ++ more) = frame_decode st' (rest ++ more)
  | (r, st', rest) => frame_decode st (src ++ more) = (r, st', rest ++ more)
  end.
Proof using Type.
  destruct st as [ | fixed].
  - rewrite (codec_decode_header src). pose proof (read_header_app src more) as Hh.
    destruct (read_header src) as [[[fixed rest]|] | e | ] eqn:Er;
      rewrite ?(codec_decode_header (src ++ more)); try now rewrite Hh.
    + rewrite Hh. pose proof (read_frame_app fixed rest more) as Hf.
      destruct (read_frame fixed rest) as [[[[p|] | e | ] st'] rest'] eqn:Ef;
        rewrite ?codec_decode_frame; try exact Hf.
      destruct Hf as [-> ->]. now rewrite codec_decode_frame.
    + reflexivity.
  - rewrite !codec_decode_frame. pose proof (read_frame_app fixed src more) as Hf.
    destruct (read_frame fixed src) as [[[[p|] | e | ] st'] rest'] eqn:Ef; try exact Hf.
    destruct Hf as [-> ->]. now rewrite codec_decode_frame.
Qed.

(** ** Progress *)

Lemma read_frame_packet fixed src p st rest :
  read_frame fixed src = (Ok (Some p), st, rest) ->
  st = FrameHeader /\ (length rest <= length src)%nat /\
  decode_packet (firstn (Z.to_nat (remaining_length fixed)) src) (first_byte fixed) = Ok p.
Proof using Type.
  unfold read_frame. intros H. case_if; [discriminate | ].
  destruct (decode_packet _ _) eqn:E; try discriminate. injection H as <- <- <-.
  rewrite length_skipn. repeat split; auto; lia.
Qed.

Lemma read_header_length src fixed rest :
  read_header src = Ok (Some (fixed, rest)) ->
  (length rest + 2 <= length src)%nat /\ 0 <= remaining_length fixed <= MAX_VARINT /\
  (max_size = 0 \/ remaining_length fixed <= max_size).
Proof using Type.
  unfold read_header. intros H. case_if; [discriminate | ].
  destruct src as [|first src]; [discriminate | ].
  destruct (decode_variable_length src) as [[[n k]|] | | ] eqn:Ev; try discriminate.
  apply decode_variable_length_consumed in Ev as (Hn & Hk & Hl).
  destruct (_ && _) eqn:Em; [discriminate | ]. apply obind_Ok in H as (r & Hr & H).
  injection H as <- <-. apply obind_Ok in Hr as ([a b] & Hs & Hr). injection Hr as <-.
  apply split_to_spec in Hs as [Hs Ha]; [ | lia]. apply (f_equal (@length Z)) in Hs.
  rewrite length_app in Hs. unfold len in *. cbn [length remaining_length] in *.
  apply andb_false_iff in Em. repeat split; try lia; destruct Em; bprop; auto.
Qed.

Lemma frame_decode_progress st src p st' rest :
  frame_decode st src = (Ok (Some p), st', rest) ->
  st' = FrameHeader /\ (drain_measure st' rest < drain_measure st src)%nat.
Proof using Type.
  unfold drain_measure. destruct st as [ | fixed].
  - rewrite codec_decode_header. intros H.
    destruct (read_header src) as [[[fixed r]|] | e | ] eqn:Er; try discriminate.
    apply read_header_length in Er as (Hr & _). apply read_frame_packet in H as (-> & Hl & _).
    split; [reflexivity | lia].
  - rewrite codec_decode_frame. intros H. apply read_frame_packet in H as (-> & Hl & _).
    split; [reflexivity | lia].
Qed.

Lemma drain_fuel_enough n m st src :
  (drain_measure st src < n)%nat -> (drain_measure st src < m)%nat ->
  drain_fuel n st src = drain_fuel m st src.
Proof using Type.
  revert m st src; induction n as [|n IH]; intros m st src Hn Hm; [lia | ].
  destruct m as [|m]; [lia | ]. cbn [drain_fuel].
  destruct (frame_decode st src) as [[[[p|] | e | ] st'] rest] eqn:E; try reflexivity.
  apply frame_decode_progress in E as [_ E]. now rewrite (IH m) by lia.
Qed.

(** The caller's loop, unrolled once: the fuel is out of the way. *)
Lemma drain_eq st src :
  drain st src =
  match frame_decode st src with
  | (Ok (Some p), st, src) => let '(ps, r, st, src) := drain st src in (p :: ps, r, st, src)
  | (Ok None, st, src) => ([], Ok tt, st, src)
  | (Err e, st, src) => ([], Err e, st, src)
  | (Panic, st, src) => ([], Panic, st, src)
  end.
Proof using Type.
  unfold drain at 1. cbn [drain_fuel].
  destruct (frame_decode st src) as [[[[p|] | e | ] st'] rest] eqn:E; try reflexivity.
  apply frame_decode_progress in E as [_ E]. unfold drain.
  now rewrite (drain_fuel_enough _ (S (drain_measure st' rest))) by lia.
Qed.
(** ** Chunks *)

Lemma drain_app st src more :
  drain st (src ++ more) =
  match drain st src with
  | (ps, Ok _, st', rest) =>
      let '(ps', r, st'', rest') := drain st' (rest ++ more) in (ps ++ ps', r, st'', rest')
  | (ps, r, st', rest) => (ps, r, st', rest ++ more)
  end.
Proof using Type.
  remember (drain_measure st src) as n eqn:En. revert st src En.
  induction n as [n IH] using (well_founded_induction lt_wf). intros st src ->.
  rewrite (drain_eq st src), (drain_eq st (src ++ more)).
  pose proof (frame_decode_app st src more) as Ha.
  destruct (frame_decode st src) as [[[[p|] | e | ] st'] rest] eqn:E; rewrite Ha; try reflexivity.
  - apply frame_decode_progress in E as [_ E].
    rewrite (IH _ E st' rest eq_refl). destruct (drain st' rest) as [[[ps r] st2] rest2].
    destruct r; try reflexivity. now destruct (drain st2 (rest2 ++ more)) as [[[ps' r'] st3] rest3].
  - rewrite <- (drain_eq st' (rest ++ more)).
    now destruct (drain st' (rest ++ more)) as [[[ps' r'] st3] rest3].
Qed.

(** What a drained decoder keeps holds no packet. *)
Lemma drain_idle st src ps u st' rest :
  drain st src = (ps, Ok u, st', rest) -> drain st' rest = ([], Ok tt, st', rest).
Proof using Type.
  intros H. pose proof (drain_app st src []) as Ha. rewrite H, !app_nil_r, H in Ha.
  destruct (drain st' rest) as [[[ps' r'] st3] rest3]. injection Ha as Hp <- -> ->.
  rewrite <- (app_nil_r ps) in Hp at 1. apply app_inv_head in Hp. subst. now destruct u.
Qed.

Lemma feed_drain chunks : forall st src,
  drain st src = ([], Ok tt, st, src) ->
  feed st src chunks = drain st (src ++ concat chunks).
Proof using Type.
  induction chunks as [|c chunks IH]; intros st src Hd; cbn [feed concat].
  - now rewrite app_nil_r.
  - rewrite (app_assoc src), (drain_app st (src ++ c)). destruct (drain st (src ++ c)) as [[[ps r] st'] rest] eqn:E.
    destruct r as [u | e | ]; try reflexivity. apply drain_idle in E. now rewrite IH.
Qed.

Lemma drain_empty : drain FrameHeader [] = ([], Ok tt, FrameHeader, []).
Proof using Type. reflexivity. Qed.

(** ** Frames *)

Definition frame_bytes (first : Z) (content : bytes) : bytes :=
  first :: varint (len content) ++ content.

Definition fits (n : Z) : Prop := n <= MAX_VARINT /\ (max_size = 0 \/ n <= max_size).

Lemma read_header_frame first content rest :
  fits (len content) ->
  read_header (frame_bytes first content ++ rest) =
  Ok (Some ({| first_byte := first; remaining_length := len content |}, content ++ rest)).
Proof using Type.
  intros [Hn Hm]. pose proof (len_nonneg content). pose proof (len_nonneg rest).
  unfold read_header, frame_bytes. rewrite <- app_comm_cons, <- app_assoc, len_cons, !len_app.
  pose proof (len_varint_pos (len content)).
  rewrite (proj2 (Z.ltb_ge _ _)) by lia. rewrite decode_variable_length_varint by lia.
  replace (_ && _) with false by (symmetry; apply andb_false_iff; rewrite negb_false_iff,
    Z.eqb_eq, Z.ltb_ge; lia).
  unfold advance. change (first :: ?x) with ([first] ++ x). rewrite (app_assoc [first]).
  rewrite split_to_app; [reflexivity | ]. rewrite len_app. change (len [first]) with 1. lia.
Qed.

Lemma frame_decode_frame first content rest p :
  fits (len content) -> decode_packet content first = Ok p ->
  frame_decode FrameHeader (frame_bytes first content ++ rest) = (Ok (Some p), FrameHeader, rest).
Proof using Type.
  intros Hf Hp. rewrite codec_decode_header, read_header_frame by assumption.
  unfold read_frame. cbn [remaining_length first_byte]. rewrite len_app.
  pose proof (len_nonneg rest). rewrite (proj2 (Z.ltb_ge _ _)) by lia.
  unfold len. rewrite Nat2Z.id, firstn_app, skipn_app, firstn_all, skipn_all, Nat.sub_diag.
  cbn [firstn skipn app]. now rewrite app_nil_r, Hp.
Qed.

Lemma drain_frames (first : P -> Z) (content : P -> bytes) ps :
  (forall p, In p ps -> fits (len (content p)) /\ decode_packet (content p) (first p) = Ok p) ->
  drain FrameHeader (flat_map (fun p => frame_bytes (first p) (content p)) ps) =
  (ps, Ok tt, FrameHeader, []).
Proof using Type.
  induction ps as [|p ps IH]; intros H; [reflexivity | ]. cbn [flat_map].
  destruct (H p (or_introl eq_refl)) as [Hf Hp].
  rewrite drain_eq, (frame_decode_frame _ _ _ p) by assumption. rewrite IH; [reflexivity | ].
  intros q Hq. apply H. now right.
Qed.

(** A prefix of a stream that decodes gives a prefix of its packets, and no
    error. *)
Lemma drain_prefix st a b ps u st' rest :
  drain st (a ++ b) = (ps, Ok u, st', rest) ->
  exists qs qs' st1 r1, drain st a = (qs, Ok tt, st1, r1) /\ ps = qs ++ qs'.
Proof using Type.
  rewrite drain_app. destruct (drain st a) as [[[qs r] st1] r1]. intros H.
  destruct r as [[] | e | ]; [ | discriminate | discriminate].
  destruct (drain st1 (r1 ++ b)) as [[[ps' r'] st3] rest3]. injection H as <- _ _ _. eauto 6.
Qed.

(** ** Limits and errors *)

(** A frame above the limit is refused as soon as its header is there, and
    nothing is taken from the buffer. *)
Lemma frame_decode_too_long first n rest :
  0 <= n <= MAX_VARINT -> max_size <> 0 -> max_size < n ->
  frame_decode FrameHeader (first :: varint n ++ rest) =
  (Err DMaxSizeExceeded, FrameHeader, first :: varint n ++ rest).
Proof using Type.
  intros Hn H0 Hm. rewrite codec_decode_header. unfold read_header.
  rewrite len_cons, len_app. pose proof (len_nonneg rest). pose proof (len_varint_pos n).
  rewrite (proj2 (Z.ltb_ge _ _)) by lia. rewrite decode_variable_length_varint by lia.
  now rewrite (proj2 (Z.eqb_neq _ _) H0), (proj2 (Z.ltb_lt _ _) Hm).
Qed.

Lemma read_header_no_panic src : no_panic (read_header src).
Proof using Type.
  unfold read_header. case_if; [easy | ]. destruct src as [|first src]; [discriminate | ].
  destruct (decode_variable_length src) as [[[n k]|] | | ] eqn:Ev; try easy.
  - case_if; [easy | ]. apply decode_variable_length_consumed in Ev as (Hn & Hk & Hl).
    unfold advance. nopanic. apply split_to_no_panic. rewrite len_cons. lia.
  - exfalso. unfold decode_variable_length in Ev.
    pose proof (decode_varint_no_panic src) as Hp.
    destruct (decode_variable_length_cursor src) as [[? ?] | [] | ]; try discriminate.
    now apply Hp.
Qed.

Definition state_ok (st : DecodeState) : Prop :=
  match st with
  | FrameHeader => True
  | Frame fixed => 0 <= remaining_length fixed /\ fits (remaining_length fixed)
  end.

(** The decoder returns, and keeps a header it accepted. *)
Lemma frame_decode_ok st src r st' rest :
  (forall b fb, no_panic (decode_packet b fb)) -> state_ok st ->
  frame_decode st src = (r, st', rest) -> no_panic r /\ state_ok st'.
Proof using Type.
  intros Hp Hst.
  assert (Hf : forall fixed src, state_ok (Frame fixed) ->
    read_frame fixed src = (r, st', rest) -> no_panic r /\ state_ok st').
  { intros fixed s Hfx H. unfold read_frame in H. case_if; [now injection H as <- <- <- | ].
    pose proof (Hp (firstn (Z.to_nat (remaining_length fixed)) s) (first_byte fixed)) as Hn.
    destruct (decode_packet _ _); injection H as <- <- <-; try now split. }
  destruct st as [ | fixed].
  - rewrite codec_decode_header. intros H. pose proof (read_header_no_panic src) as Hh.
    destruct (read_header src) as [[[fixed r']|] | e | ] eqn:Er;
      try (injection H as <- <- <-; now split).
    apply read_header_length in Er as (_ & Hr & Hm). apply (Hf fixed r'); [ | assumption].
    unfold state_ok, fits. lia.
  - rewrite codec_decode_frame. now apply Hf.
Qed.
Lemma drain_ok st src ps r st' rest :
  (forall b fb, no_panic (decode_packet b fb)) -> state_ok st ->
  drain st src = (ps, r, st', rest) -> no_panic r /\ state_ok st'.
Proof using Type.
  intros Hp. remember (drain_measure st src) as n eqn:En. revert st src ps En.
  induction n as [n IH] using (well_founded_induction lt_wf). intros st src ps -> Hst.
  rewrite drain_eq. destruct (frame_decode st src) as [[r0 st0] rest0] eqn:E.
  pose proof (frame_decode_ok _ _ _ _ _ Hp Hst E) as [Hr0 Hst0].
  destruct r0 as [[p|] | e | ]; try (intros [= <- <- <- <-]; now split).
  apply frame_decode_progress in E as [_ E].
  destruct (drain st0 rest0) as [[[ps1 r1] st1] rest1] eqn:Ed. intros [= <- <- <- <-].
  now apply (IH _ E st0 rest0 ps1).
Qed.

(** ** What was accepted

    A frame is its first byte, the bytes of its length and its content. *)
Definition stream_frame : Type := (Z * bytes * bytes)%type.
Definition stream_bytes (f : stream_frame) : bytes := let '(first, lb, content) := f in first :: lb ++ content.

(** The decoder makes [p] of a frame: the length is that of the content, it
    is within the limit, and the content decodes to [p]. *)
Definition accepted (f : stream_frame) (p : P) : Prop :=
  let '(first, lb, content) := f in
  decode_variable_length_cursor lb = Ok (len content, []) /\ fits (len content) /\ decode_packet content first = Ok p.

(** The bytes that a decoder has taken for the frame it is in *)
Definition header_of (st : DecodeState) (hd : bytes) : Prop :=
  match st with
  | FrameHeader => hd = []
  | Frame fixed => exists lb, hd = first_byte fixed :: lb /\
      decode_variable_length_cursor lb = Ok (remaining_length fixed, []) /\ fits (remaining_length fixed)
  end.

Lemma read_header_taken src fixed rest :
  read_header src = Ok (Some (fixed, rest)) -> exists hd, src = hd ++ rest /\ header_of (Frame fixed) hd.
Proof using Type.
  intros H. pose proof (read_header_length _ _ _ H) as (_ & Hn & Hm). revert H.
  unfold read_header. intros H. case_if; [discriminate | ]. destruct src as [|first src]; [discriminate | ].
  destruct (decode_variable_length src) as [[[n k]|] | | ] eqn:Ev; try discriminate.
  case_if; [discriminate | ]. apply obind_Ok in H as (r & Hr & H). injection H as <- <-.
  unfold decode_variable_length in Ev. destruct (decode_variable_length_cursor src) as [[n' rest']|[]| ] eqn:Ec; try discriminate.
  injection Ev as <- <-. apply dvl_loop_read in Ec as (lb & -> & Hlb).
  apply obind_Ok in Hr as ([a b] & Hs & Hr). injection Hr as <-.
  assert (Hk : len (lb ++ rest') - len rest' + 1 = len (first :: lb)) by (rewrite len_app, len_cons; lia).
  rewrite Hk in Hs. change (first :: lb ++ rest') with ((first :: lb) ++ rest') in Hs.
  rewrite split_to_app in Hs by reflexivity. injection Hs as <- <-.
  exists (first :: lb). split; [reflexivity | ]. exists lb. split; [reflexivity | ]. split; [exact Hlb | ].
  split; [ | exact Hm]. apply Hn.
Qed.

Lemma read_frame_taken fixed hd src p st rest :
  header_of (Frame fixed) hd -> read_frame fixed src = (Ok (Some p), st, rest) ->
  exists f, hd ++ src = stream_bytes f ++ rest /\ accepted f p.
Proof using Type.
  intros (lb & -> & Hlb & Hf). unfold read_frame. case_if; [discriminate | ]. bprop.
  set (content := firstn (Z.to_nat (remaining_length fixed)) src).
  assert (Hc : 0 <= remaining_length fixed).
  { apply decode_varint_bounds in Hlb as [Hb _]. lia. }
  assert (Hlen : len content = remaining_length fixed).
  { unfold content, len in *. rewrite length_firstn. lia. }
  destruct (decode_packet content (first_byte fixed)) eqn:E; try discriminate. intros [= <- <- <-].
  exists (first_byte fixed, lb, content). cbn [stream_bytes accepted]. rewrite Hlen. split; [ | auto].
  cbn [app]. rewrite <- app_assoc. unfold content. now rewrite firstn_skipn.
Qed.

(** The packets are those of consecutive frames at the front of the stream,
    all within the limit; without an error the rest of the stream is the
    frame that is under way. *)
Lemma drain_accepted st hd src ps r st' rest :
  header_of st hd -> drain st src = (ps, r, st', rest) ->
  exists frames left, hd ++ src = flat_map stream_bytes frames ++ left /\ Forall2 accepted frames ps /\
    (r = Ok tt -> exists hd', header_of st' hd' /\ left = hd' ++ rest).
Proof using Type.
  remember (drain_measure st src) as n eqn:En. revert st hd src ps En.
  induction n as [n IH] using (well_founded_induction lt_wf). intros st hd src ps -> Hh.
  rewrite drain_eq. destruct (frame_decode st src) as [[r0 st0] rest0] eqn:E.
  assert (Ht : match r0 with
               | Ok (Some p) => exists f, hd ++ src = stream_bytes f ++ rest0 /\ accepted f p
               | Ok None => exists hd', header_of st0 hd' /\ hd ++ src = hd' ++ rest0
               | _ => True end).
  { destruct st as [ | fixed]; [rewrite codec_decode_header in E | rewrite codec_decode_frame in E].
    - cbn in Hh. subst hd. cbn [app].
      destruct (read_header src) as [[[fixed r']|] | e | ] eqn:Er; try (injection E as <- <- <-; try exact I).
      + apply read_header_taken in Er as (hd & -> & Hh).
        destruct r0 as [[p|]| | ]; try exact I; [now eapply read_frame_taken; eauto | ].
        exists hd. unfold read_frame in E. case_if; [now injection E as <- <- | ].
        destruct (decode_packet _ _); discriminate.
      + now exists [].
    - destruct r0 as [[p|]| | ]; try exact I; [now eapply read_frame_taken; eauto | ].
      exists hd. unfold read_frame in E. case_if; [now injection E as <- <- | ].
      destruct (decode_packet _ _); discriminate. }
  destruct r0 as [[p|] | e | ].
  - apply frame_decode_progress in E as [-> E]. destruct Ht as (f & Hs & Ha).
    destruct (drain FrameHeader rest0) as [[[ps1 r1] st1] rest1] eqn:Ed. intros [= <- <- <- <-].
    destruct (IH _ E FrameHeader [] rest0 ps1 eq_refl eq_refl Ed) as (fs & left & Hl & Hf & Hr).
    exists (f :: fs), left. cbn [flat_map]. cbn [app] in Hl. rewrite Hs, Hl, app_assoc. auto.
  - intros [= <- <- <- <-]. destruct Ht as (hd' & Hh' & ->). exists [], (hd' ++ rest0). split; [reflexivity | ].
    split; [constructor | eauto].
  - intros [= <- <- <- <-]. exists [], (hd ++ src). split; [reflexivity | ]. split; [constructor | discriminate].
  - intros [= <- <- <- <-]. exists [], (hd ++ src). split; [reflexivity | ]. split; [constructor | discriminate].
Qed.
End Framing.

(** ** Properties *)

(** C3: how the stream is cut into chunks does not matter: the packets, the
    error if any, the state and the bytes left are those of decoding the
    whole stream at once; and the packets of a first part of a stream are the
    first packets of the whole. *)
Theorem chunk_independence {P} (decode_packet : bytes -> Z -> dres P) (max_size : Z)
    (chunks more : list bytes) :
  let '(ps, r, st, rest) := feed decode_packet max_size FrameHeader [] chunks in
  (ps, r, st, rest) = drain decode_packet max_size FrameHeader (concat chunks) /\
  exists ps', fst (fst (fst (feed decode_packet max_size FrameHeader [] (chunks ++ more)))) = ps ++ ps'.
Proof.
  rewrite !feed_drain by apply drain_empty. cbn [app]. rewrite concat_app, drain_app.
  destruct (drain _ _ _ (concat chunks)) as [[[ps r] st] rest]. split; [reflexivity | ].
  destruct r; [ | exists []; now rewrite app_nil_r | exists []; now rewrite app_nil_r].
  destruct (drain _ _ st _) as [[[ps' r'] st'] rest']. now exists ps'.
Qed.

(** A frame longer than the limit is refused as soon as its fixed header
    has arrived, before any of its content, and the buffer is left as it is;
    a frame within the limit is decoded once its content has arrived, and
    until then the decoder asks for more. *)
Theorem max_size_enforced {P} (decode_packet : bytes -> Z -> dres P) (max_size fb n : Z)
    (received : bytes) :
  0 <= n <= MAX_VARINT -> len received <= n ->
  fst (fst (frame_decode decode_packet max_size FrameHeader (fb :: varint n ++ received))) =
    if negb (max_size =? 0) && (max_size <? n) then Err DMaxSizeExceeded
    else if len received <? n then Ok None
    else let? p := decode_packet received fb in Ok (Some p).
Proof.
  intros Hn Hr. destruct (_ && _) eqn:Em.
  - bprop. now rewrite frame_decode_too_long.
  - rewrite codec_decode_header. unfold read_header. rewrite len_cons, len_app.
    pose proof (len_nonneg received). pose proof (len_varint_pos n).
    rewrite (proj2 (Z.ltb_ge _ _)) by lia. rewrite decode_variable_length_varint by lia.
    rewrite Em. unfold advance. change (fb :: ?x) with ([fb] ++ x). rewrite (app_assoc [fb]).
    rewrite split_to_app by (rewrite len_app; change (len [fb]) with 1; lia). cbn [obind].
    unfold read_frame. cbn [remaining_length first_byte]. case_if; [reflexivity | ]. bprop.
    rewrite firstn_all2 by (unfold len in *; lia). now destruct (decode_packet received fb).
Qed.

Lemma max_size_enforced_witness :
  fst (fst (frame_decode (fun b fb => Ok (fb, b)) 1000 FrameHeader (48 :: varint 1001 ++ [1]))) =
    Err DMaxSizeExceeded /\
  fst (fst (frame_decode (fun b fb => Ok (fb, b)) 1000 FrameHeader (48 :: varint 2 ++ [1; 2]))) =
    Ok (Some (48, [1; 2])).
Proof.
  split; [apply (max_size_enforced (fun b fb => Ok (fb, b)) 1000 48 1001 [1])
         | apply (max_size_enforced (fun b fb => Ok (fb, b)) 1000 48 2 [1; 2])];
    unfold MAX_VARINT, len; cbn; lia.
Defined.
