(* ===== verification/V3Codec.v ===== *)
(** * MQTT 3.1.1 packets and their codec functions

    [src/v3/codec/packet.rs], [src/v3/codec/decode.rs] and
    [src/v3/codec/encode.rs].  A packet is encoded as a first byte, the
    length of its content as a variable length integer, and the content. *)

From Stdlib Require Import String ZArith List Bool Lia.
From S2P Require Import Prelude Types Wire Framing.
Import ListNotations.
Open Scope list_scope.
Open Scope Z_scope.

(** ** Packets (src/v3/codec/packet.rs) *)

Inductive ConnectAckReason : Type :=
| ConnectionAccepted
| UnacceptableProtocolVersion
| IdentifierRejected
| ServiceUnavailable
| BadUserNameOrPassword
| NotAuthorized
| Reserved.

Definition ConnectAckReason_try_from (v : Z) : dres ConnectAckReason :=
  match v with
  | 0 => Ok ConnectionAccepted
  | 1 => Ok UnacceptableProtocolVersion
  | 2 => Ok IdentifierRejected
  | 3 => Ok ServiceUnavailable
  | 4 => Ok BadUserNameOrPassword
  | 5 => Ok NotAuthorized
  | 6 => Ok Reserved
  | _ => Err DMalformedPacket
  end.

Definition ConnectAckReason_into_u8 (r : ConnectAckReason) : Z :=
  match r with
  | ConnectionAccepted => 0
  | UnacceptableProtocolVersion => 1
  | IdentifierRejected => 2
  | ServiceUnavailable => 3
  | BadUserNameOrPassword => 4
  | NotAuthorized => 5
  | Reserved => 6
  end.

#[export, refine] Instance ConnectAckReason_prim : PrimEnum ConnectAckReason := {
  try_from := ConnectAckReason_try_from; into_u8 := ConnectAckReason_into_u8 }.
Proof. all: prim_enum_law. Defined.

(** [ConnectAckReason::reason] *)
Definition ConnectAckReason_reason (r : ConnectAckReason) : string :=
  match r with
  | ConnectionAccepted => "Connection Accepted"
  | UnacceptableProtocolVersion => "Connection Refused, unacceptable protocol version"
  | IdentifierRejected => "Connection Refused, identifier rejected"
  | ServiceUnavailable => "Connection Refused, Server unavailable"
  | BadUserNameOrPassword => "Connection Refused, bad user name or password"
  | NotAuthorized => "Connection Refused, not authorized"
  | _ => "Connection Refused"
  end%string.

Record LastWill : Type := mkLastWill {
  will_qos_ : QoS;
  will_retain : bool;
  will_topic : ByteString;
  will_message : Bytes;
}.

Record Connect : Type := mkConnect {
  clean_session : bool;
  keep_alive : u16;
  last_will : option LastWill;
  client_id : ByteString;
  username : option ByteString;
  password : option Bytes;
}.

Record Publish : Type := mkPublish {
  dup : bool;
  retain : bool;
  qos : QoS;
  topic : ByteString;
  packet_id : option NonZeroU16;
  payload : Bytes;
}.

Inductive SubscribeReturnCode : Type :=
| Success (q : QoS)
| Failure.

Inductive Packet : Type :=
| PConnect (c : Connect)
| PConnectAck (session_present : bool) (return_code : ConnectAckReason)
| PPublish (p : Publish)
| PPublishAck (id : NonZeroU16)
| PPublishReceived (id : NonZeroU16)
| PPublishRelease (id : NonZeroU16)
| PPublishComplete (id : NonZeroU16)
| PSubscribe (id : NonZeroU16) (topic_filters : list (ByteString * QoS))
| PSubscribeAck (id : NonZeroU16) (status : list SubscribeReturnCode)
| PUnsubscribe (id : NonZeroU16) (topic_filters : list ByteString)
| PUnsubscribeAck (id : NonZeroU16)
| PPingRequest
| PPingResponse
| PDisconnect.

(** [Packet::packet_type] *)
Definition packet_type (p : Packet) : Z :=
  match p with
  | PConnect _ => pt_CONNECT
  | PConnectAck _ _ => pt_CONNACK
  | PPublish _ => pt_PUBLISH_START
  | PPublishAck _ => pt_PUBACK
  | PPublishReceived _ => pt_PUBREC
  | PPublishRelease _ => pt_PUBREL
  | PPublishComplete _ => pt_PUBCOMP
  | PSubscribe _ _ => pt_SUBSCRIBE
  | PSubscribeAck _ _ => pt_SUBACK
  | PUnsubscribe _ _ => pt_UNSUBSCRIBE
  | PUnsubscribeAck _ => pt_UNSUBACK
  | PPingRequest => pt_PINGREQ
  | PPingResponse => pt_PINGRESP
  | PDisconnect => pt_DISCONNECT
  end.

(** ** Decoding (src/v3/codec/decode.rs) *)

Definition decode_ack (src : bytes) (f : NonZeroU16 -> Packet) : dres Packet :=
  let? '(id, src) := @decode NonZeroU16 _ src in
  ensure! negb (has_remaining src) else DInvalidLength in
  Ok (f id).

Definition decode_will (flags : Z) (src : bytes) : dres (option LastWill * bytes) :=
  if contains flags CF_WILL then
    let? '(t, src) := @decode ByteString _ src in
    let? '(m, src) := @decode Bytes _ src in
    let? q := will_qos flags in
    Ok (Some {| will_qos_ := q;
                will_retain := contains flags CF_WILL_RETAIN;
                will_topic := t;
                will_message := m |}, src)
  else Ok (None, src).

Definition decode_connect_packet (src : bytes) : dres Packet :=
  ensure! 10 <=? len src else DInvalidLength in
  let? '(n, src) := get_u16 src in
  let? same := is_mqtt_name n src in
  ensure! same else DInvalidProtocol in
  let? src := advance 4 src in
  let? '(level, src) := get_u8 src in
  ensure! level =? MQTT_LEVEL_3 else DUnsupportedProtocolLevel in
  let? '(b, src) := get_u8 src in
  let? flags := ok_or (ConnectFlags_from_bits b) DConnectReservedFlagSet in
  let? '(ka, src) := @decode u16 _ src in
  let? '(cid, src) := @decode ByteString _ src in
  ensure! has_remaining cid || contains flags CF_CLEAN_START else DInvalidClientId in
  let? '(will, src) := decode_will flags src in
  let? '(user, src) := @decode_if ByteString _ (contains flags CF_USERNAME) src in
  let? '(pass, src) := @decode_if Bytes _ (contains flags CF_PASSWORD) src in
  Ok (PConnect {| clean_session := contains flags CF_CLEAN_START;
                  keep_alive := ka;
                  last_will := will;
                  client_id := cid;
                  username := user;
                  password := pass |}).

Definition decode_connect_ack_packet (src : bytes) : dres Packet :=
  ensure! 2 <=? len src else DInvalidLength in
  let? '(b, src) := get_u8 src in
  let? flags := ok_or (ConnectAckFlags_from_bits b) DConnAckReservedFlagSet in
  let? '(code, src) := get_u8 src in
  let? code := ConnectAckReason_try_from code in
  Ok (PConnectAck (contains flags CA_SESSION_PRESENT) code).

Definition decode_publish_packet (src : bytes) (packet_flags : Z) : dres Packet :=
  let? '(t, src) := @decode ByteString _ src in
  let? q := QoS_try_from (Z.shiftr (Z.land packet_flags 6) 1) in
  let? '(id, src) := @decode_if NonZeroU16 _ (negb (QoS_eqb q AtMostOnce)) src in
  Ok (PPublish {| dup := Z.land packet_flags 8 =? 8;
                  retain := Z.land packet_flags 1 =? 1;
                  qos := q;
                  topic := t;
                  packet_id := id;
                  payload := src |}).

(** One round of the loop of [decode_subscribe_packet]. *)
Definition subscribe_filter_step (acc : list (ByteString * QoS)) (src : bytes)
    : dres (list (ByteString * QoS) * bytes) :=
  let? '(t, src) := @decode ByteString _ src in
  ensure! 1 <=? len src else DInvalidLength in
  let? '(b, src) := get_u8 src in
  let? q := QoS_try_from (Z.land b 3) in
  Ok (acc ++ [(t, q)], src).

Definition decode_subscribe_packet (src : bytes) : dres Packet :=
  let? '(id, src) := @decode NonZeroU16 _ src in
  let? '(filters, src) := while_remaining subscribe_filter_step [] src in
  Ok (PSubscribe id filters).

Definition subscribe_code (code : Z) : dres SubscribeReturnCode :=
  if code =? 128 then Ok Failure
  else let? q := QoS_try_from code in Ok (Success q).

Definition decode_subscribe_ack_packet (src : bytes) : dres Packet :=
  let? '(id, src) := @decode NonZeroU16 _ src in
  let? status := otraverse subscribe_code src in
  Ok (PSubscribeAck id status).

Definition unsubscribe_filter_step (acc : list ByteString) (src : bytes)
    : dres (list ByteString * bytes) :=
  let? '(t, src) := @decode ByteString _ src in
  Ok (acc ++ [t], src).

Definition decode_unsubscribe_packet (src : bytes) : dres Packet :=
  let? '(id, src) := @decode NonZeroU16 _ src in
  let? '(filters, src) := while_remaining unsubscribe_filter_step [] src in
  Ok (PUnsubscribe id filters).

Definition decode_packet (src : bytes) (first_byte : Z) : dres Packet :=
  if first_byte =? pt_CONNECT then decode_connect_packet src
  else if first_byte =? pt_CONNACK then decode_connect_ack_packet src
  else if (pt_PUBLISH_START <=? first_byte) && (first_byte <=? pt_PUBLISH_END) then
    decode_publish_packet src (Z.land first_byte 15)
  else if first_byte =? pt_PUBACK then decode_ack src PPublishAck
  else if first_byte =? pt_PUBREC then decode_ack src PPublishReceived
  else if first_byte =? pt_PUBREL then decode_ack src PPublishRelease
  else if first_byte =? pt_PUBCOMP then decode_ack src PPublishComplete
  else if first_byte =? pt_SUBSCRIBE then decode_subscribe_packet src
  else if first_byte =? pt_SUBACK then decode_subscribe_ack_packet src
  else if first_byte =? pt_UNSUBSCRIBE then decode_unsubscribe_packet src
  else if first_byte =? pt_UNSUBACK then decode_ack src PUnsubscribeAck
  else if first_byte =? pt_PINGREQ then Ok PPingRequest
  else if first_byte =? pt_PINGRESP then Ok PPingResponse
  else if first_byte =? pt_DISCONNECT then Ok PDisconnect
  else Err DUnsupportedPacketType.

(** ** Encoding (src/v3/codec/encode.rs) *)

Definition connect_size (c : Connect) : Z :=
  let n := 2 + 4 + 1 + 1 + 2 in
  let n := n + (2 + len (client_id c)) in
  let n := match last_will c with
           | Some w => n + (2 + len (will_topic w) + 2 + len (will_message w))
           | None => n
           end in
  let n := match username c with Some s => n + (2 + len s) | None => n end in
  match password c with Some s => n + (2 + len s) | None => n end.

Definition get_encoded_size (p : Packet) : Z :=
  match p with
  | PConnect c => connect_size c
  | PPublish p =>
      if QoS_eqb (qos p) AtLeastOnce || QoS_eqb (qos p) ExactlyOnce
      then 4 + len (topic p) + len (payload p)
      else 2 + len (topic p) + len (payload p)
  | PConnectAck _ _ | PPublishAck _ | PPublishReceived _ | PPublishRelease _
  | PPublishComplete _ | PUnsubscribeAck _ => 2
  | PSubscribe _ filters =>
      2 + fold_left (fun acc f => acc + 2 + len (fst f) + 1) filters 0
  | PSubscribeAck _ status => 2 + len status
  | PUnsubscribe _ filters => 2 + fold_left (fun acc f => acc + 2 + len f) filters 0
  | PPingRequest | PPingResponse | PDisconnect => 0
  end.

Definition encode_connect (c : Connect) : ewriter :=
  bytes_encode MQTT >>
  put_slice [MQTT_LEVEL_3;
             connect_flags (is_some (username c)) (is_some (password c))
               (option_map (fun w => (will_qos_ w, will_retain w)) (last_will c))
               (clean_session c)] >>
  put_u16 (keep_alive c) >>
  @encode ByteString _ (client_id c) >>
  match last_will c with
  | Some w => @encode ByteString _ (will_topic w) >> @encode Bytes _ (will_message w)
  | None => wret
  end >>
  match username c with Some s => @encode ByteString _ s | None => wret end >>
  match password c with Some s => @encode Bytes _ s | None => wret end.

Definition return_code_byte (s : SubscribeReturnCode) : Z :=
  match s with Success q => QoS_into_u8 q | Failure => 128 end.

(** The arms that write a packet identifier only. *)
Definition encode_id (ty : Z) (content_size : Z) (id : NonZeroU16) : ewriter :=
  put_u8 ty >> write_variable_length content_size >> @encode NonZeroU16 _ id.

Definition encode (p : Packet) (content_size : Z) : ewriter :=
  match p with
  | PConnect c => put_u8 pt_CONNECT >> write_variable_length content_size >> encode_connect c
  | PConnectAck session_present return_code =>
      put_u8 pt_CONNACK >> write_variable_length content_size >>
      put_slice [(if session_present then 1 else 0); ConnectAckReason_into_u8 return_code]
  | PPublish p =>
      put_u8 (publish_first_byte (qos p) (dup p) (retain p)) >>
      write_variable_length content_size >>
      @Wire.encode ByteString _ (topic p) >>
      (if QoS_eqb (qos p) AtMostOnce
       then if is_some (packet_id p) then wfail EMalformedPacket else wret
       else let! id := ok_or (packet_id p) EPacketIdRequired in @Wire.encode NonZeroU16 _ id) >>
      put_slice (payload p)
  | PPublishAck id => encode_id pt_PUBACK content_size id
  | PPublishReceived id => encode_id pt_PUBREC content_size id
  | PPublishRelease id => encode_id pt_PUBREL content_size id
  | PPublishComplete id => encode_id pt_PUBCOMP content_size id
  | PSubscribe id filters =>
      put_u8 pt_SUBSCRIBE >> write_variable_length content_size >>
      @Wire.encode NonZeroU16 _ id >>
      wfor filters (fun f => @Wire.encode ByteString _ (fst f) >> put_u8 (QoS_into_u8 (snd f)))
  | PSubscribeAck id status =>
      put_u8 pt_SUBACK >> write_variable_length content_size >>
      @Wire.encode NonZeroU16 _ id >> put_slice (map return_code_byte status)
  | PUnsubscribe id filters =>
      put_u8 pt_UNSUBSCRIBE >> write_variable_length content_size >>
      @Wire.encode NonZeroU16 _ id >> wfor filters (fun f => @Wire.encode ByteString _ f)
  | PUnsubscribeAck id => encode_id pt_UNSUBACK content_size id
  | PPingRequest => put_slice [pt_PINGREQ; 0]
  | PPingResponse => put_slice [pt_PINGRESP; 0]
  | PDisconnect => put_slice [pt_DISCONNECT; 0]
  end.

(** [Encoder::encode] of the codec (src/v3/codec/codec.rs): the packet id is
    checked first. *)
Definition missing_id (p : Packet) : bool :=
  match p with
  | PPublish p =>
      (QoS_eqb (qos p) AtLeastOnce || QoS_eqb (qos p) ExactlyOnce) && is_none (packet_id p)
  | _ => false
  end.

Definition codec_encode (p : Packet) : ewriter :=
  if missing_id p then wfail EPacketIdRequired
  else encode p (as_u32 (get_encoded_size p)).

(** ** The wire format of a packet, as a specification *)

Definition will_content (w : LastWill) : bytes :=
  @wire ByteString _ _ _ (will_topic w) ++ @wire Bytes _ _ _ (will_message w).

Definition connect_content (c : Connect) : bytes :=
  @wire Bytes _ _ _ MQTT ++
  [MQTT_LEVEL_3;
   connect_flags (is_some (username c)) (is_some (password c))
     (option_map (fun w => (will_qos_ w, will_retain w)) (last_will c)) (clean_session c)] ++
  @wire u16 _ _ _ (keep_alive c) ++
  @wire ByteString _ _ _ (client_id c) ++
  match last_will c with Some w => will_content w | None => [] end ++
  opt_wire (username c) ++ opt_wire (password c).

Definition filter_content (f : ByteString * QoS) : bytes :=
  @wire ByteString _ _ _ (fst f) ++ [QoS_into_u8 (snd f)].

Definition content (p : Packet) : bytes :=
  match p with
  | PConnect c => connect_content c
  | PConnectAck sp rc => [(if sp then 1 else 0); ConnectAckReason_into_u8 rc]
  | PPublish p =>
      @wire ByteString _ _ _ (topic p) ++ opt_wire (packet_id p) ++ payload p
  | PPublishAck id | PPublishReceived id | PPublishRelease id | PPublishComplete id
  | PUnsubscribeAck id => @wire NonZeroU16 _ _ _ id
  | PSubscribe id fs => @wire NonZeroU16 _ _ _ id ++ flat_map filter_content fs
  | PSubscribeAck id st => @wire NonZeroU16 _ _ _ id ++ map return_code_byte st
  | PUnsubscribe id fs => @wire NonZeroU16 _ _ _ id ++ flat_map (@wire ByteString _ _ _) fs
  | PPingRequest | PPingResponse | PDisconnect => []
  end.

Definition first_byte_of (p : Packet) : Z :=
  match p with
  | PPublish p => publish_first_byte (qos p) (dup p) (retain p)
  | p => packet_type p
  end.

Definition frame (p : Packet) : bytes :=
  first_byte_of p :: varint (len (content p)) ++ content p.

(** What the encoder accepts: field values in the range of their Rust types,
    strings of at most 65535 bytes, a packet id exactly on QoS 1 and 2, and
    a client id unless the session is clean. *)
Definition will_valid (w : LastWill) : bool :=
  @wire_ok ByteString _ _ _ (will_topic w) && @wire_ok Bytes _ _ _ (will_message w).

Definition connect_valid (c : Connect) : bool :=
  @wire_ok u16 _ _ _ (keep_alive c) &&
  @wire_ok ByteString _ _ _ (client_id c) &&
  (has_remaining (client_id c) || clean_session c) &&
  match last_will c with Some w => will_valid w | None => true end &&
  opt_ok (username c) && opt_ok (password c).

Definition publish_valid (p : Publish) : bool :=
  @wire_ok ByteString _ _ _ (topic p) && opt_ok (packet_id p) &&
  Bool.eqb (is_some (packet_id p)) (negb (QoS_eqb (qos p) AtMostOnce)).

Definition packet_valid (p : Packet) : bool :=
  match p with
  | PConnect c => connect_valid c
  | PConnectAck _ _ => true
  | PPublish p => publish_valid p
  | PPublishAck id | PPublishReceived id | PPublishRelease id | PPublishComplete id
  | PUnsubscribeAck id => @wire_ok NonZeroU16 _ _ _ id
  | PSubscribe id fs =>
      @wire_ok NonZeroU16 _ _ _ id && forallb (fun f => @wire_ok ByteString _ _ _ (fst f)) fs
  | PSubscribeAck id _ => @wire_ok NonZeroU16 _ _ _ id
  | PUnsubscribe id fs => @wire_ok NonZeroU16 _ _ _ id && forallb (@wire_ok ByteString _ _ _) fs
  | PPingRequest | PPingResponse | PDisconnect => true
  end.

(** ** Encoding writes the frame *)

(** The announced size is the number of bytes of the content. *)
Lemma get_encoded_size_content p : packet_valid p = true -> get_encoded_size p = len (content p).
Proof.
  destruct p as [c|sp rc|p|id|id|id|id|id fs|id st|id fs|id| | | ]; cbn [packet_valid]; intros Hv;
    try reflexivity; cbn [get_encoded_size content].
  - unfold connect_size, connect_content, will_content.
    destruct c as [cs ka [w|] cid [u|] [pw|]]; cbn; autorewrite with len; cbn; lia.
  - unfold publish_valid in Hv. apply andb_true_iff in Hv as [_ Hv].
    destruct p as [d r q t [id|] pl]; destruct q; try discriminate Hv; cbn;
      autorewrite with len; lia.
  - rewrite (fold_left_len filter_content); [now rewrite len_app | ].
    intros acc [t q]. unfold filter_content. cbn. autorewrite with len. cbn. lia.
  - now rewrite len_app, len_map.
  - rewrite (fold_left_len (@wire ByteString _ _ _)); [now rewrite len_app | ].
    intros acc t. cbn. autorewrite with len. cbn. lia.
Qed.

Lemma encode_connect_writes c :
  connect_valid c = true -> writes (encode_connect c) (connect_content c).
Proof.
  unfold connect_valid. rewrite !andb_true_iff. intros [[[[[Hka Hid] _] Hw] Hu] Hp].
  unfold encode_connect, connect_content.
  apply writes_seq; [now apply bytes_encode_writes | ].
  apply writes_seq; [apply writes_slice | ].
  apply writes_seq; [apply writes_u16 | ].
  apply writes_seq; [now apply (wire_encode (T := ByteString)) | ].
  apply writes_seq.
  - destruct (last_will c) as [w|]; [ | apply writes_ret]. unfold will_valid in Hw.
    apply andb_true_iff in Hw as [Ht Hm].
    apply writes_seq; [now apply (wire_encode (T := ByteString)) | now apply (wire_encode (T := Bytes))].
  - apply writes_seq; [now apply (writes_opt (T := ByteString)) | now apply (writes_opt (T := Bytes))].
Qed.

Lemma writes_header ty n w out :
  0 <= n <= MAX_VARINT -> writes w out ->
  writes (put_u8 ty >> write_variable_length n >> w) (ty :: varint n ++ out).
Proof.
  intros Hn Hw. change (ty :: varint n ++ out) with ([ty] ++ varint n ++ out).
  apply writes_seq; [apply writes_u8 | ].
  apply writes_seq; auto using write_variable_length_writes.
Qed.

Lemma encode_writes p n :
  packet_valid p = true -> n = len (content p) -> n <= MAX_VARINT ->
  writes (encode p n) (frame p).
Proof.
  intros Hv -> Hn. pose proof (len_nonneg (content p)).
  unfold frame. destruct p as [c|sp rc|p|id|id|id|id|id fs|id st|id fs|id| | | ];
    cbn [packet_valid encode first_byte_of packet_type] in *; unfold encode_id;
    try (apply writes_slice); try (apply writes_header; [lia | ]).
  - now apply encode_connect_writes.
  - apply writes_slice.
  - cbn [content]. unfold publish_valid in Hv. apply andb_true_iff in Hv as [Hv Hq].
    apply andb_true_iff in Hv as [Ht Hid]. apply eqb_prop in Hq.
    apply writes_seq; [now apply (wire_encode (T := ByteString)) | ].
    apply writes_seq; [ | apply writes_slice].
    destruct (QoS_eqb (qos p) AtMostOnce), (packet_id p) as [id|]; try discriminate;
      [apply writes_ret | now apply (wire_encode (T := NonZeroU16))].
  - now apply (wire_encode (T := NonZeroU16)).
  - now apply (wire_encode (T := NonZeroU16)).
  - now apply (wire_encode (T := NonZeroU16)).
  - now apply (wire_encode (T := NonZeroU16)).
  - apply andb_true_iff in Hv as [Hid Hfs].
    apply writes_seq; [now apply (wire_encode (T := NonZeroU16)) | ]. apply writes_for.
    intros f Hf. rewrite forallb_forall in Hfs. apply Hfs in Hf.
    apply writes_seq; [now apply (wire_encode (T := ByteString)) | apply writes_u8].
  - apply writes_seq; [now apply (wire_encode (T := NonZeroU16)) | apply writes_slice].
  - apply andb_true_iff in Hv as [Hid Hfs].
    apply writes_seq; [now apply (wire_encode (T := NonZeroU16)) | ]. apply writes_for.
    intros f Hf. rewrite forallb_forall in Hfs. apply Hfs in Hf.
    now apply (wire_encode (T := ByteString)).
  - now apply (wire_encode (T := NonZeroU16)).
Qed.

Lemma valid_has_id p : packet_valid p = true -> missing_id p = false.
Proof.
  destruct p as [| |p| | | | | | | | | | | ]; try reflexivity. cbn [packet_valid missing_id].
  unfold publish_valid. rewrite !andb_true_iff. intros [_ H].
  now destruct (qos p), (packet_id p).
Qed.

Lemma codec_encode_writes p :
  packet_valid p = true -> len (content p) <= MAX_VARINT -> writes (codec_encode p) (frame p).
Proof.
  intros Hv Hn. unfold codec_encode. rewrite get_encoded_size_content by assumption.
  unfold as_u32. rewrite Z.mod_small.
  2: { unfold MAX_VARINT in Hn. pose proof (len_nonneg (content p)). lia. }
  rewrite valid_has_id by assumption. now apply encode_writes.
Qed.

(** ** Decoding a frame's content gives the packet back *)

Lemma decode_will_wire u p w c rest :
  match w with Some w => will_valid w | None => true end = true ->
  decode_will
    (connect_flags u p (option_map (fun w => (will_qos_ w, will_retain w)) w) c)
    (match w with Some w => will_content w | None => [] end ++ rest) = Ok (w, rest).
Proof.
  intros Hw. set (flags := connect_flags _ _ _ _).
  pose proof (connect_flags_contains u p (option_map (fun w => (will_qos_ w, will_retain w)) w) c)
    as (_ & _ & _ & Hf & Hq). fold flags in Hf, Hq.
  unfold decode_will. rewrite Hf. destruct w as [[q r t m]|]; [ | reflexivity].
  cbn in Hq. destruct Hq as [Hq Hr]. unfold will_valid in Hw.
  apply andb_true_iff in Hw as [Ht Hm]. unfold will_content. rewrite <- app_assoc.
  cbn [option_map is_some is_none negb will_qos_ will_retain will_topic will_message] in *.
  read_wire ByteString. read_wire Bytes. rewrite Hq. cbn [obind]. now rewrite Hr.
Qed.

Lemma decode_connect_wire c :
  connect_valid c = true -> decode_connect_packet (connect_content c) = Ok (PConnect c).
Proof.
  unfold connect_valid. rewrite !andb_true_iff. intros [[[[[Hka Hid] Hcs] Hw] Hu] Hp].
  pose proof (connect_flags_contains (is_some (username c)) (is_some (password c))
    (option_map (fun w => (will_qos_ w, will_retain w)) (last_will c)) (clean_session c))
    as (Fu & Fp & Fc & _). set (flags := connect_flags _ _ _ _) in *.
  unfold decode_connect_packet, connect_content. fold flags.
  rewrite (proj2 (Z.leb_le _ _)).
  2: { cbn [wire Wire_Bytes Wire_u16 Wire_string]. autorewrite with len.
       repeat match goal with |- context [len ?x] => pose proof (len_nonneg x); generalize dependent (len x); intros end. lia. }
  cbn [wire Wire_Bytes]. rewrite <- !app_assoc. rewrite get_u16_be by reflexivity. cbn [obind].
  change (len MQTT) with 4. rewrite is_mqtt_name_MQTT. cbn [obind].
  unfold advance. rewrite split_to_app by reflexivity. cbn [obind app get_u8].
  change (MQTT_LEVEL_3 =? MQTT_LEVEL_3) with true. cbn [obind get_u8].
  unfold flags at 1. rewrite connect_flags_from_bits. fold flags. cbn [ok_or obind].
  read_wire u16. read_wire ByteString. rewrite Fc, Hcs. unfold flags.
  rewrite decode_will_wire by assumption. fold flags. cbn [obind]. rewrite Fu, Fp.
  rewrite (decode_if_wire (T := ByteString)) by assumption. cbn [obind].
  replace (@opt_wire Bytes _ _ _ (password c)) with (@opt_wire Bytes _ _ _ (password c) ++ [])
    by apply app_nil_r.
  rewrite (decode_if_wire (T := Bytes)) by assumption. cbn [obind]. now destruct c.
Qed.

Lemma decode_ack_wire id f :
  @wire_ok NonZeroU16 _ _ _ id = true -> decode_ack (@wire NonZeroU16 _ _ _ id) f = Ok (f id).
Proof.
  intros Hid. unfold decode_ack. rewrite <- (app_nil_r (wire id)). now read_wire NonZeroU16.
Qed.

Lemma subscribe_filter_step_progress acc src acc' rest :
  subscribe_filter_step acc src = Ok (acc', rest) -> (length rest < length src)%nat.
Proof.
  unfold subscribe_filter_step. intros H. apply obind_Ok in H as ([t r] & Ht & H).
  apply (wire_consumes (T := ByteString)) in Ht. case_if; [ | discriminate].
  apply obind_Ok in H as ([b r'] & Hb & H). apply get_u8_Ok in Hb as ->.
  apply obind_Ok in H as (q & _ & H). injection H as <- <-. cbn in *. lia.
Qed.

Lemma unsubscribe_filter_step_progress acc src acc' rest :
  unsubscribe_filter_step acc src = Ok (acc', rest) -> (length rest < length src)%nat.
Proof.
  unfold unsubscribe_filter_step. intros H. apply obind_Ok in H as ([t r] & Ht & H).
  apply (wire_consumes (T := ByteString)) in Ht. injection H as <- <-. lia.
Qed.

Lemma subscribe_filter_step_wire acc f rest :
  @wire_ok ByteString _ _ _ (fst f) = true ->
  subscribe_filter_step acc (filter_content f ++ rest) = Ok (acc ++ [f], rest).
Proof.
  destruct f as [t q]. intros Ht. unfold subscribe_filter_step, filter_content.
  rewrite <- app_assoc. cbn [fst snd] in *. read_wire ByteString. cbn [app].
  rewrite (proj2 (Z.leb_le _ _)) by (rewrite len_cons; pose proof (len_nonneg rest); lia).
  cbn [get_u8 obind]. now destruct q.
Qed.

Lemma unsubscribe_filter_step_wire acc t rest :
  @wire_ok ByteString _ _ _ t = true ->
  unsubscribe_filter_step acc (@wire ByteString _ _ _ t ++ rest) = Ok (acc ++ [t], rest).
Proof. intros Ht. unfold unsubscribe_filter_step. now read_wire ByteString. Qed.

Lemma subscribe_code_byte s : subscribe_code (return_code_byte s) = Ok s.
Proof. now destruct s as [[] | ]. Qed.

Lemma decode_publish_wire p :
  publish_valid p = true ->
  decode_publish_packet (content (PPublish p))
    (Z.land (publish_first_byte (qos p) (dup p) (retain p)) 15) = Ok (PPublish p).
Proof.
  unfold publish_valid. rewrite !andb_true_iff. intros [[Ht Hid] Hq]. apply eqb_prop in Hq.
  pose proof (publish_first_byte_parts (qos p) (dup p) (retain p)) as (_ & Pq & Pd & Pr & _).
  unfold decode_publish_packet. cbn [content]. read_wire ByteString. rewrite Pq. cbn [obind].
  rewrite <- Hq, (decode_if_wire (T := NonZeroU16)) by assumption. cbn [obind].
  rewrite Pd, Pr. now destruct p.
Qed.

Lemma decode_packet_content p :
  packet_valid p = true -> decode_packet (content p) (first_byte_of p) = Ok p.
Proof.
  destruct p as [c|sp rc|p|id|id|id|id|id fs|id st|id fs|id| | | ]; cbn [packet_valid];
    intros Hv; try reflexivity; try now apply decode_ack_wire.
  - now apply decode_connect_wire.
  - now destruct sp, rc.
  - pose proof (publish_first_byte_parts (qos p) (dup p) (retain p)) as (Pr & _).
    unfold decode_packet. cbn [first_byte_of]. rewrite Pr.
    replace (_ =? pt_CONNECT) with false by now destruct (qos p), (dup p), (retain p).
    replace (_ =? pt_CONNACK) with false by now destruct (qos p), (dup p), (retain p).
    now apply decode_publish_wire.
  - apply andb_true_iff in Hv as [Hid Hfs].
    change (decode_packet _ _) with (decode_subscribe_packet (content (PSubscribe id fs))).
    unfold decode_subscribe_packet. cbn [content]. read_wire NonZeroU16.
    rewrite (while_elements _ filter_content (fun f => @wire_ok ByteString _ _ _ (fst f)));
      [reflexivity | exact subscribe_filter_step_progress | now intros [t q]
      | exact subscribe_filter_step_wire | assumption].
  - change (decode_packet _ _) with (decode_subscribe_ack_packet (content (PSubscribeAck id st))).
    unfold decode_subscribe_ack_packet. cbn [content]. read_wire NonZeroU16.
    now rewrite otraverse_inverse by (intros; apply subscribe_code_byte).
  - apply andb_true_iff in Hv as [Hid Hfs].
    change (decode_packet _ _) with (decode_unsubscribe_packet (content (PUnsubscribe id fs))).
    unfold decode_unsubscribe_packet. cbn [content]. read_wire NonZeroU16.
    rewrite (while_elements _ (@wire ByteString _ _ _) (@wire_ok ByteString _ _ _));
      [reflexivity | exact unsubscribe_filter_step_progress | now intros t
      | exact unsubscribe_filter_step_wire | assumption].
Qed.

(** ** Decoding arbitrary bytes *)

Lemma decode_ack_no_panic src f : no_panic (decode_ack src f).
Proof. unfold decode_ack. nopanic. Qed.

Lemma decode_connect_no_panic src : no_panic (decode_connect_packet src).
Proof.
  unfold decode_connect_packet. case_if; [ | easy]. bprop.
  apply no_panic_bind; [apply get_u16_no_panic; lia | ]. intros [n r] Hn.
  apply get_u16_Ok in Hn as (a & b & -> & _). rewrite !len_cons in *.
  destruct r as [|r1 [|r2 [|r3 [|r4 [|r5 [|r6 r]]]]]]; autorewrite with len in *; try lia.
  apply no_panic_bind; [apply is_mqtt_name_no_panic; autorewrite with len; lia | ].
  intros same _. case_if; [ | easy].
  change (r1 :: _) with ([r1; r2; r3; r4] ++ r5 :: r6 :: r). unfold advance.
  rewrite split_to_app by reflexivity. cbn [obind get_u8].
  case_if; [ | easy]. unfold decode_will. nopanic.
Qed.

Lemma decode_packet_no_panic src fb : no_panic (decode_packet src fb).
Proof.
  unfold decode_packet.
  repeat (case_if; [ | ]); try easy; try apply decode_ack_no_panic.
  - apply decode_connect_no_panic.
  - unfold decode_connect_ack_packet. case_if; [ | easy].
    destruct src as [|b [|c src]]; try discriminate. cbn [get_u8 obind].
    nopanic. exact (try_from_no_panic (T := ConnectAckReason) c).
  - unfold decode_publish_packet. nopanic. exact (try_from_no_panic (T := QoS) _).
  - unfold decode_subscribe_packet. nopanic.
    apply while_remaining_no_panic; [exact subscribe_filter_step_progress | ].
    intros acc x r. unfold subscribe_filter_step. nopanic.
    + apply get_u8_no_panic. now destruct b1.
    + exact (try_from_no_panic (T := QoS) _).
  - unfold decode_subscribe_ack_packet. nopanic. apply otraverse_no_panic.
    intros code. unfold subscribe_code. nopanic. exact (try_from_no_panic (T := QoS) _).
  - unfold decode_unsubscribe_packet. nopanic.
    apply while_remaining_no_panic; [exact unsubscribe_filter_step_progress | ].
    intros acc x r. unfold unsubscribe_filter_step. nopanic.
Qed.

Lemma decode_ack_valid src f p :
  bytes_ok src = true -> decode_ack src f = Ok p ->
  exists id, p = f id /\ @wire_ok NonZeroU16 _ _ _ id = true /\ src = @wire NonZeroU16 _ _ _ id.
Proof.
  unfold decode_ack. intros Hok H. read_ok NonZeroU16 H.
  destruct r; [ | discriminate]. injection H as <-. exists v. now rewrite app_nil_r.
Qed.

Lemma decode_will_sound flags src w rest :
  bytes_ok src = true -> decode_will flags src = Ok (w, rest) ->
  match w with Some w => will_valid w | None => true end = true /\
  src = match w with Some w => will_content w | None => [] end ++ rest.
Proof.
  unfold decode_will. intros Hok H. case_if; [ | now injection H as <- <-].
  read_ok ByteString H. read_ok Bytes H. apply obind_Ok in H as (q & _ & H).
  injection H as <- <-. unfold will_valid, will_content. cbn [will_topic will_message].
  now rewrite Hv, Hv0, app_assoc.
Qed.

(** A decoded packet can be sent on: it is one the encoder accepts, and its
    content is no longer than what was read. *)
Definition decoded_ok (src : bytes) (p : Packet) : Prop :=
  packet_valid p = true /\ len (content p) <= len src.

Lemma decode_connect_sound src p :
  bytes_ok src = true -> decode_connect_packet src = Ok p -> decoded_ok src p.
Proof.
  unfold decode_connect_packet, advance. intros Hok H. case_if; [ | discriminate].
  apply obind_Ok in H as ([n r] & Hn & H). apply get_u16_Ok in Hn as (a & b & -> & _).
  apply obind_Ok in H as (same & _ & H). case_if; [ | discriminate].
  apply obind_Ok in H as (r1 & Hr & H). apply obind_Ok in Hr as ([m r2] & Hr & Hm).
  injection Hm as <-. apply split_to_spec in Hr as [-> Hm]; [ | lia].
  apply obind_Ok in H as ([lv r3] & Hl & H). apply get_u8_Ok in Hl as ->.
  case_if; [ | discriminate]. apply obind_Ok in H as ([fb r4] & Hl & H). apply get_u8_Ok in Hl as ->.
  split_ok.
  apply obind_Ok in H as (flags & _ & H). read_ok u16 H. read_ok ByteString H.
  destruct (_ || _) eqn:Hcs; [ | discriminate].
  apply obind_Ok in H as ([w r5] & Hw & H). apply decode_will_sound in Hw as [Hw ->]; [ | assumption].
  split_ok.
  apply obind_Ok in H as ([u r6] & Hu & H). apply (decode_if_sound (T := ByteString)) in Hu as (Hu & _ & ->); [ | assumption].
  split_ok.
  apply obind_Ok in H as ([pw r7] & Hp & H). apply (decode_if_sound (T := Bytes)) in Hp as (Hp & _ & ->); [ | assumption].
  injection H as <-. split.
  - cbn [packet_valid]. unfold connect_valid. cbn [keep_alive client_id clean_session last_will username password].
    now rewrite Hv, Hv0, Hcs, Hw, Hu, Hp.
  - cbn [content]. unfold connect_content. cbn [keep_alive client_id clean_session last_will username password].
    cbn [wire Wire_Bytes Wire_u16]. autorewrite with len. pose proof (len_nonneg r7). lia.
Qed.

Lemma subscribe_filter_step_sound acc src acc' rest :
  bytes_ok src = true -> subscribe_filter_step acc src = Ok (acc', rest) ->
  exists f, acc' = acc ++ [f] /\ @wire_ok ByteString _ _ _ (fst f) = true /\
    bytes_ok rest = true /\ len (filter_content f) + len rest = len src.
Proof.
  unfold subscribe_filter_step. intros Hok H. read_ok ByteString H. case_if; [ | discriminate].
  apply obind_Ok in H as ([b r'] & Hb & H). apply get_u8_Ok in Hb as ->.
  apply obind_Ok in H as (q & _ & H). injection H as <- <-. split_ok.
  exists (v, q). unfold filter_content. autorewrite with len. cbn [fst]. repeat split; auto. lia.
Qed.

Lemma unsubscribe_filter_step_sound acc src acc' rest :
  bytes_ok src = true -> unsubscribe_filter_step acc src = Ok (acc', rest) ->
  exists f, acc' = acc ++ [f] /\ @wire_ok ByteString _ _ _ f = true /\
    bytes_ok rest = true /\ len (@wire ByteString _ _ _ f) + len rest = len src.
Proof.
  unfold unsubscribe_filter_step. intros Hok H. read_ok ByteString H. injection H as <- <-.
  exists v. rewrite len_app. auto.
Qed.

Lemma decode_publish_sound src fl p :
  bytes_ok src = true -> decode_publish_packet src fl = Ok p ->
  decoded_ok src p /\ content p = src.
Proof.
  unfold decode_publish_packet. intros Hok H. read_ok ByteString H.
  apply obind_Ok in H as (q & _ & H). apply obind_Ok in H as ([id r'] & Hid & H).
  apply (decode_if_sound (T := NonZeroU16)) in Hid as (Hid & Hs & ->); [ | assumption].
  injection H as <-. unfold decoded_ok. cbn [packet_valid content topic packet_id payload].
  unfold publish_valid. cbn [topic packet_id qos]. rewrite Hv, Hid, Hs.
  repeat split; auto; [apply eqb_reflx | lia].
Qed.

Lemma subscribe_ack_len src st :
  otraverse subscribe_code src = Ok st -> len st = len src.
Proof.
  revert st; induction src as [|b src IH]; intros st H; cbn in H; [now injection H as <- | ].
  apply obind_Ok in H as (c & _ & H). apply obind_Ok in H as (cs & Hs & H). injection H as <-.
  rewrite !len_cons. now rewrite (IH _ Hs).
Qed.

Lemma decode_packet_sound src fb p :
  bytes_ok src = true -> decode_packet src fb = Ok p -> decoded_ok src p.
Proof.
  intros Hok. unfold decode_packet.
  repeat (case_if; [intros H | ]); intros; try discriminate;
    try (apply decode_ack_valid in H as (id & -> & Hid & ->); [now split | assumption]).
  - now apply decode_connect_sound.
  - unfold decode_connect_ack_packet in H. destruct src as [|b [|c src]]; try discriminate.
    case_if; [ | discriminate]. cbn [get_u8 obind] in H.
    apply obind_Ok in H as (fl & _ & H). apply obind_Ok in H as (rc & _ & H). injection H as <-.
    split; [reflexivity | ]. cbn [content]. autorewrite with len. pose proof (len_nonneg src). lia.
  - now apply decode_publish_sound in H as [H _].
  - unfold decode_subscribe_packet in H. read_ok NonZeroU16 H.
    apply obind_Ok in H as ([fs r'] & Hf & H). injection H as <-.
    apply (elements_sound _ _ _ _ _ _ subscribe_filter_step_sound) in Hf as [Hf Hl]; [ | assumption].
    split; cbn [packet_valid content]; [now rewrite Hv, Hf | ]. rewrite !len_app. lia.
  - unfold decode_subscribe_ack_packet in H. read_ok NonZeroU16 H.
    apply obind_Ok in H as (st & Hst & H). injection H as <-. apply subscribe_ack_len in Hst.
    split; cbn [packet_valid content]; [assumption | ]. rewrite !len_app, len_map. lia.
  - unfold decode_unsubscribe_packet in H. read_ok NonZeroU16 H.
    apply obind_Ok in H as ([fs r'] & Hf & H). injection H as <-.
    apply (elements_sound _ _ _ _ _ _ unsubscribe_filter_step_sound) in Hf as [Hf Hl]; [ | assumption].
    split; cbn [packet_valid content]; [now rewrite Hv, Hf | ]. rewrite !len_app. lia.
  - injection H as <-. split; [reflexivity | apply len_nonneg].
  - injection H as <-. split; [reflexivity | apply len_nonneg].
  - injection H as <-. split; [reflexivity | apply len_nonneg].
Qed.

(** ** The codec (src/v3/codec/codec.rs) *)

Record Codec : Type := mkCodec {
  state : DecodeState;
  max_size : Z;
}.

Definition Codec_new : Codec := {| state := FrameHeader; max_size := 0 |}.

(** [Codec::max_size] and [Codec::set_max_size] *)
Definition set_max_size (c : Codec) (size : Z) : Codec :=
  {| state := state c; max_size := size |}.

Definition codec_decode (c : Codec) (src : bytes) : dres (option Packet) * Codec * bytes :=
  let '(r, st, src) := frame_decode decode_packet (max_size c) (state c) src in
  (r, {| state := st; max_size := max_size c |}, src).

(** Packets received by a codec whose input arrives in chunks. *)
Definition codec_feed (c : Codec) (src : bytes) (chunks : list bytes) :=
  feed decode_packet (max_size c) (state c) src chunks.

(** The packets a codec with this limit can carry. *)
Definition sendable (limit : Z) (p : Packet) : bool :=
  packet_valid p && (len (content p) <=? MAX_VARINT) &&
  ((limit =? 0) || (len (content p) <=? limit)).

Lemma sendable_fits limit p :
  sendable limit p = true -> packet_valid p = true /\ fits limit (len (content p)).
Proof.
  unfold sendable, fits. rewrite !andb_true_iff, orb_true_iff, !Z.leb_le, Z.eqb_eq. tauto.
Qed.

Lemma codec_encode_all limit ps :
  forallb (sendable limit) ps = true ->
  writes (wfor ps codec_encode) (flat_map frame ps).
Proof.
  intros H. apply writes_for. intros p Hp. rewrite forallb_forall in H.
  apply H, sendable_fits in Hp as [Hv [Hn _]]. now apply codec_encode_writes.
Qed.

Lemma drain_packets limit ps :
  forallb (sendable limit) ps = true ->
  drain decode_packet limit FrameHeader (flat_map frame ps) = (ps, Ok tt, FrameHeader, []).
Proof.
  intros H. apply (drain_frames decode_packet limit first_byte_of content). intros p Hp.
  rewrite forallb_forall in H. apply H, sendable_fits in Hp as [Hv Hf].
  auto using decode_packet_content.
Qed.

(** ** Properties *)

(** Packets used to instantiate the properties. *)
Definition sample_connect : Connect :=
  {| clean_session := false; keep_alive := 30;
     last_will := Some {| will_qos_ := ExactlyOnce; will_retain := true;
                          will_topic := [97; 47; 98]; will_message := [0; 255] |};
     client_id := [100; 49]; username := Some [117]; password := Some [1; 2; 3] |}.

Definition sample_publish : Publish :=
  {| dup := true; retain := false; qos := AtLeastOnce; topic := [116];
     packet_id := Some 513; payload := [1; 2; 3; 4] |}.

Definition sample_packets : list Packet :=
  [PConnect sample_connect; PConnectAck true NotAuthorized; PPublish sample_publish;
   PSubscribe 7 [([97], AtMostOnce); ([98; 47; 35], ExactlyOnce)];
   PSubscribeAck 7 [Success AtLeastOnce; Failure]; PUnsubscribe 9 [[97]; [98]];
   PPublishRelease 65535; PPingRequest; PDisconnect].

(** C1: a sequence of packets within the limits, encoded one after the other,
    is accepted by the encoder, and a decoder that receives the bytes in any
    chunks yields exactly these packets, in order, and is left in its initial
    state with nothing in the buffer. *)
Theorem v3_stream_roundtrip (limit : Z) (ps : list Packet) :
  forallb (sendable limit) ps = true ->
  exists buf, wfor ps codec_encode [] = (Ok tt, buf) /\
    forall chunks, concat chunks = buf ->
      codec_feed (set_max_size Codec_new limit) [] chunks = (ps, Ok tt, FrameHeader, []).
Proof.
  intros H. exists (flat_map frame ps). split; [now apply codec_encode_all in H as -> | ].
  intros chunks Hc. unfold codec_feed. cbn [max_size state set_max_size Codec_new].
  rewrite feed_drain by apply drain_empty. rewrite Hc. now apply drain_packets.
Qed.

Lemma v3_stream_roundtrip_witness :
  exists buf, wfor sample_packets codec_encode [] = (Ok tt, buf) /\
    forall chunks, concat chunks = buf ->
      codec_feed (set_max_size Codec_new 64) [] chunks = (sample_packets, Ok tt, FrameHeader, []).
Proof. apply (v3_stream_roundtrip 64 sample_packets). vm_compute. reflexivity. Defined.

(** The size [get_encoded_size] announces is the number of bytes that
    [encode] writes after the fixed header: for every packet within the
    limits, encoding appends the first byte, the variable length of that size
    and a content of exactly that size, whatever is in the buffer. *)
Theorem v3_encode_frame (p : Packet) (buf : bytes) :
  packet_valid p = true -> get_encoded_size p <= MAX_VARINT ->
  codec_encode p buf =
    (Ok tt, buf ++ first_byte_of p :: varint (get_encoded_size p) ++ content p) /\
  len (content p) = get_encoded_size p.
Proof.
  intros Hv Hn. rewrite get_encoded_size_content in * by assumption.
  split; [now apply codec_encode_writes | reflexivity].
Qed.

Lemma v3_encode_frame_witness :
  codec_encode (PPublish sample_publish) [9] =
    (Ok tt, [9] ++ first_byte_of (PPublish sample_publish) ::
       varint (get_encoded_size (PPublish sample_publish)) ++ content (PPublish sample_publish)) /\
  len (content (PPublish sample_publish)) = get_encoded_size (PPublish sample_publish).
Proof. apply (v3_encode_frame (PPublish sample_publish) [9]); vm_compute; congruence. Defined.

(** Decoding the content of a frame returns a packet or an error on every
    input, it never panics; and a decoded packet is one that the encoder
    accepts, with a content no longer than what was received. *)
Theorem v3_decode_total (src : bytes) (fb : Z) :
  no_panic (decode_packet src fb) /\
  (bytes_ok src = true -> forall p, decode_packet src fb = Ok p ->
     packet_valid p = true /\ len (content p) <= len src).
Proof.
  split; [apply decode_packet_no_panic | ]. intros Hok p. now apply decode_packet_sound.
Qed.

Lemma v3_decode_total_witness :
  no_panic (decode_packet [0; 1; 97; 2; 255] pt_PUBREL) /\
  packet_valid (PPublish sample_publish) = true /\
  len (content (PPublish sample_publish)) <= len [0; 1; 116; 2; 1; 1; 2; 3; 4].
Proof.
  split; [apply (v3_decode_total [0; 1; 97; 2; 255] pt_PUBREL) | ].
  apply (proj2 (v3_decode_total [0; 1; 116; 2; 1; 1; 2; 3; 4] 58)); vm_compute; reflexivity.
Defined.

(** A PUBLISH of QoS 1 or 2 without a packet id is refused before
    anything is written; one of QoS 0 with a packet id is refused too, but
    only after its header and its topic are in the buffer. *)
Theorem v3_encode_publish_id (p : Publish) (buf : bytes) :
  wire_ok (topic p) = true -> get_encoded_size (PPublish p) <= MAX_VARINT ->
  is_some (packet_id p) = QoS_eqb (qos p) AtMostOnce ->
  codec_encode (PPublish p) buf =
    if QoS_eqb (qos p) AtMostOnce
    then (Err EMalformedPacket,
          buf ++ first_byte_of (PPublish p) ::
            varint (get_encoded_size (PPublish p)) ++ @wire ByteString _ _ _ (topic p))
    else (Err EPacketIdRequired, buf).
Proof.
  intros Ht Hn Hid. unfold codec_encode, missing_id.
  assert (H0 : 0 <= get_encoded_size (PPublish p)).
  { cbn [get_encoded_size]. pose proof (len_nonneg (topic p)). pose proof (len_nonneg (payload p)).
    case_if; lia. }
  destruct p as [d r q t [id|] pl], q; try discriminate; try reflexivity.
  cbn [qos packet_id is_none andb orb QoS_eqb QoS_into_u8 Z.eqb topic dup retain] in *.
  unfold as_u32. rewrite Z.mod_small by (unfold MAX_VARINT in Hn; lia).
  set (n := get_encoded_size _) in *. cbn [encode qos topic packet_id dup retain payload].
  pose proof (writes_header (publish_first_byte AtMostOnce d r) n (@Wire.encode ByteString _ t)
    (@wire ByteString _ _ _ t) (conj H0 Hn) (wire_encode _ Ht) buf) as Hw.
  unfold wseq in *. destruct (put_u8 _ buf) as [[ | | ] b1]; try discriminate.
  destruct (write_variable_length n b1) as [[ | | ] b2]; try discriminate.
  rewrite Hw. reflexivity.
Qed.

Lemma v3_encode_publish_id_witness :
  codec_encode (PPublish {| dup := false; retain := false; qos := AtMostOnce; topic := [116];
                            packet_id := Some 1; payload := [1] |}) [] =
    (Err EMalformedPacket, [48; 4; 0; 1; 116]).
Proof.
  apply (v3_encode_publish_id {| dup := false; retain := false; qos := AtMostOnce;
    topic := [116]; packet_id := Some 1; payload := [1] |} []); vm_compute; congruence.
Defined.

Lemma writes_header_panics ty n w buf :
  MAX_VARINT < n ->
  (put_u8 ty >> write_variable_length n >> w) buf = (Panic, buf ++ [ty]).
Proof.
  intros Hn. unfold wseq. cbn [put_u8 put_slice]. unfold put_u8, put_slice.
  now rewrite write_variable_length_panics.
Qed.

(** The encoder does not check the size of a packet.  A packet whose
    content does not fit a variable length integer makes the encoder panic,
    after the first byte is written. *)
Theorem v3_encode_oversize (p : Packet) (buf : bytes) :
  packet_valid p = true -> MAX_VARINT < get_encoded_size p < 2 ^ 32 ->
  codec_encode p buf = (Panic, buf ++ [first_byte_of p]).
Proof.
  intros Hv Hn. unfold codec_encode. rewrite valid_has_id by assumption.
  unfold as_u32. rewrite Z.mod_small by (unfold MAX_VARINT in Hn; lia).
  destruct p as [c|sp rc|p|id|id|id|id|id fs|id st|id fs|id| | | ];
    try (apply writes_header_panics; lia); cbn in Hn; unfold MAX_VARINT in Hn; lia.
Qed.

Definition huge_publish : Packet :=
  PPublish {| dup := false; retain := false; qos := AtMostOnce; topic := [116];
              packet_id := None; payload := repeat 0 (Z.to_nat MAX_VARINT) |}.

Lemma v3_encode_oversize_witness : codec_encode huge_publish [] = (Panic, [48]).
Proof.
  apply (v3_encode_oversize huge_publish []); [reflexivity | ].
  unfold huge_publish. cbn [get_encoded_size qos topic payload QoS_eqb QoS_into_u8 Z.eqb orb].
  unfold len at 2 4. rewrite repeat_length, Z2Nat.id by (unfold MAX_VARINT; lia).
  change (len [116]) with 1. unfold MAX_VARINT. lia.
Defined.

(** C32: whatever bytes arrive, in whatever chunks, a codec of MQTT 3.1.1
    returns packets and possibly an error, and never panics.  The packets it
    has returned are those of consecutive frames at the front of the stream,
    every one with a content (the remaining length of its fixed header) within
    the limit of the decoder, and with the length its header announces; if
    there was no error, what is left of the stream is the beginning of a frame,
    whose header has passed the limit too once it was read.  A limit of 0 is
    none. *)
Theorem v3_decoder_safe (limit : Z) (chunks : list bytes) :
  let '(ps, r, st, rest) := codec_feed (set_max_size Codec_new limit) [] chunks in
  no_panic r /\
  exists frames left,
    concat chunks = flat_map stream_bytes frames ++ left /\ Forall2 (accepted decode_packet limit) frames ps /\
    (r = Ok tt -> exists header, header_of limit st header /\ left = header ++ rest).
Proof.
  unfold codec_feed. cbn [max_size state set_max_size Codec_new].
  rewrite feed_drain by apply drain_empty.
  destruct (drain _ _ _ _) as [[[ps r] st] rest] eqn:E. split.
  - now apply drain_ok in E as [Hr _]; [ | apply decode_packet_no_panic | exact I].
  - exact (drain_accepted _ _ FrameHeader [] _ _ _ _ _ eq_refl E).
Qed.
