(* ===== verification/V5Props.v ===== *)
(** * MQTT 5 properties: sizes, encoding and the blocks that may be trimmed

    The helpers of [src/v5/codec/encode.rs], the property types and the
    [ack_props] module of [src/v5/codec/packet/mod.rs].  User properties and
    the reason string are diagnostic: an encoder that is given a limit keeps
    the longest prefix of them that fits ([kept]), and the size it announces
    tells the second pass where to stop. *)

From Stdlib Require Import ZArith List Bool Lia.
From coqutil Require Export Datatypes.RecordSetters.
Export OCamlLikeNotations.
From S2P Require Import Prelude Types Wire.
Import ListNotations.
Open Scope Z_scope.

(** ** Property types ([mod property_type]) *)

Definition pr_UTF8_PAYLOAD : Z := 1.
Definition pr_MSG_EXPIRY_INT : Z := 2.
Definition pr_CONTENT_TYPE : Z := 3.
Definition pr_RESP_TOPIC : Z := 8.
Definition pr_CORR_DATA : Z := 9.
Definition pr_SUB_ID : Z := 11.
Definition pr_SESS_EXPIRY_INT : Z := 17.
Definition pr_ASSND_CLIENT_ID : Z := 18.
Definition pr_SERVER_KA : Z := 19.
Definition pr_AUTH_METHOD : Z := 21.
Definition pr_AUTH_DATA : Z := 22.
Definition pr_REQ_PROB_INFO : Z := 23.
Definition pr_WILL_DELAY_INT : Z := 24.
Definition pr_REQ_RESP_INFO : Z := 25.
Definition pr_RESP_INFO : Z := 26.
Definition pr_SERVER_REF : Z := 28.
Definition pr_REASON_STRING : Z := 31.
Definition pr_RECEIVE_MAX : Z := 33.
Definition pr_TOPIC_ALIAS_MAX : Z := 34.
Definition pr_TOPIC_ALIAS : Z := 35.
Definition pr_MAX_QOS : Z := 36.
Definition pr_RETAIN_AVAIL : Z := 37.
Definition pr_USER : Z := 38.
Definition pr_MAX_PACKET_SIZE : Z := 39.
Definition pr_WILDCARD_SUB_AVAIL : Z := 40.
Definition pr_SUB_IDS_AVAIL : Z := 41.
Definition pr_SHARED_SUB_AVAIL : Z := 42.

(** ** Sizes of variable length integers *)

(** [u32::leading_zeros], [usize::leading_zeros] *)
Definition leading_zeros (width v : Z) : Z :=
  if v =? 0 then width else width - 1 - Z.log2 v.

Definition VAR_INT_LEN_MAP_64 : list Z :=
  [10; 9; 9; 9; 9; 9; 9; 9; 8; 8; 8; 8; 8; 8; 8; 7; 7; 7; 7; 7; 7; 7; 6; 6; 6; 6; 6; 6; 6;
   5; 5; 5; 5; 5; 5; 5; 4; 4; 4; 4; 4; 4; 4; 3; 3; 3; 3; 3; 3; 3; 2; 2; 2; 2; 2; 2; 2; 1;
   1; 1; 1; 1; 1; 1; 1].

(** [get_unchecked] has no answer out of range; [0] stands for it, and
    [var_int_len_spec] shows that it is not used. *)
Definition var_int_len (val : Z) : Z :=
  nth (Z.to_nat (leading_zeros 64 val)) VAR_INT_LEN_MAP_64 0.

Definition VAR_INT_LEN_MAP_32 : list Z :=
  [5; 5; 5; 5; 4; 4; 4; 4; 4; 4; 4; 3; 3; 3; 3; 3; 3; 3; 2; 2; 2; 2; 2; 2; 2; 1; 1; 1; 1;
   1; 1; 1; 1].

Definition var_int_len_u32 (val : Z) : Z :=
  nth (Z.to_nat (leading_zeros 32 val)) VAR_INT_LEN_MAP_32 0.

Definition var_int_len_from_size (val : Z) : eres Z :=
  let over_size := var_int_len_u32 val in
  let? res := u32_sub val over_size in
  let? res := u32_add res 1 in
  u32_sub val (var_int_len_u32 res).

Definition reduce_limit (limit reduction : Z) : Z :=
  if limit <? reduction then 0 else limit - as_u32 reduction.

(** ** Single properties *)

Definition encoded_property_size {T} `{Encode T} (v : option T) : Z :=
  match v with Some v => 1 + encoded_size v | None => 0 end.

Definition encode_property {T} `{Encode T} (v : option T) (prop_type : Z) : ewriter :=
  match v with Some v => put_u8 prop_type >> encode v | None => wret end.

Definition encoded_bool_property_size (v skip_if : bool) : Z :=
  if Bool.eqb v skip_if then 0 else 2.

Definition encode_bool_property (v : bool) (prop_type : Z) (skip_if : bool) : ewriter :=
  if negb (Bool.eqb v skip_if) then put_u8 prop_type >> encode v else wret.

(** [if self.topic_alias_max > 0 { ... }] of CONNECT and CONNACK *)
Definition encode_nonzero_property (v : u16) (prop_type : Z) : ewriter :=
  if 0 <? v then put_u8 prop_type >> encode v else wret.

(** [impl Encode for UserProperties] *)
Abbreviation UserProperties := (list (ByteString * ByteString)).

Definition user_properties_size (ps : UserProperties) : Z :=
  fold_left (fun len prop => len + (1 + encoded_size prop)) ps 0.

Definition user_properties_encode (ps : UserProperties) : ewriter :=
  wfor ps (fun prop => put_u8 pr_USER >> encode prop).

(** ** User properties and reason string within a limit *)

Fixpoint encoded_size_opt_props_loop (user_props : UserProperties)
    (reason_str : option ByteString) (limit len : Z) : Z :=
  match user_props with
  | up :: user_props =>
      let prop_len := 1 + encoded_size up in
      if limit <? prop_len then len
      else encoded_size_opt_props_loop user_props reason_str
             (limit - as_u32 prop_len) (len + prop_len)
  | [] =>
      match reason_str with
      | Some reason =>
          let reason_len := 1 + encoded_size reason in
          if reason_len <=? limit then len + reason_len else len
      | None => len
      end
  end.

Definition encoded_size_opt_props (user_props : UserProperties)
    (reason_str : option ByteString) (limit : Z) : Z :=
  encoded_size_opt_props_loop user_props reason_str limit 0.

Fixpoint encode_opt_props (user_props : UserProperties) (reason_str : option ByteString)
    (size : Z) : ewriter :=
  match user_props with
  | up :: user_props =>
      let prop_len := 1 + encoded_size (fst up) + encoded_size (snd up) in
      if size <? prop_len then wret
      else
        put_u8 pr_USER >> encode up >>
        encode_opt_props user_props reason_str (size - as_u32 prop_len)
  | [] =>
      match reason_str with
      | Some reason =>
          if len reason <? size then put_u8 pr_REASON_STRING >> encode reason else wret
      | None => wret
      end
  end.

(** ** [mod ack_props] *)

Definition ack_props_encoded_size (properties : UserProperties)
    (reason_string : option ByteString) (limit : Z) : Z :=
  if limit <? 4 then 1
  else
    let len := encoded_size_opt_props properties reason_string (limit - 4) in
    var_int_len len + len.

(** [debug_assert!(size > 0)] is a panic, as an overflow is. *)
Definition ack_props_encode (properties : UserProperties)
    (reason_string : option ByteString) (size : Z) : ewriter :=
  if negb (0 <? size) then wpanic
  else if size =? 1 then put_u8 0
  else
    let! size := var_int_len_from_size size in
    write_variable_length size >> encode_opt_props properties reason_string size.

(** The local variables of the loop of [ack_props::decode]. *)
Record AckProps : Type := mkAckProps {
  ap_reason_string : option ByteString;
  ap_user_props : UserProperties;
}.

(** Rounds of the property loops are written with these two steps:
    [slot.read_value(prop_src)?] and [user_props.push(decode(prop_src)?)]. *)
Definition into_slot {S T} `{Decode T} (slot : option T) (put : option T -> S) (src : bytes)
    : dres (S * bytes) :=
  let? '(v, src) := read_value slot src in Ok (put v, src).

Definition push_user {S} (ps : UserProperties) (put : UserProperties -> S) (src : bytes)
    : dres (S * bytes) :=
  let? '(v, src) := vec_read_value ps src in Ok (put v, src).

Definition ack_props_step (s : AckProps) (src : bytes) : dres (AckProps * bytes) :=
  let? '(prop_id, src) := get_u8 src in
  if prop_id =? pr_REASON_STRING then
    into_slot (ap_reason_string s) (fun v => { s with ap_reason_string := v }) src
  else if prop_id =? pr_USER then
    push_user (ap_user_props s) (fun v => { s with ap_user_props := v }) src
  else Err DMalformedPacket.

Definition ack_props_decode (src : bytes)
    : dres ((UserProperties * option ByteString) * bytes) :=
  let? '(prop_src, src) := take_properties src in
  let? '(s, _) := while_remaining ack_props_step
    {| ap_reason_string := None; ap_user_props := [] |} prop_src in
  Ok ((ap_user_props s, ap_reason_string s), src).

(** ** Sizes of variable length integers are right *)

Lemma var_int_len_log2 v : 0 <= v < 2 ^ 64 -> var_int_len v = Z.log2 v / 7 + 1.
Proof.
  intros Hv. unfold var_int_len, leading_zeros. destruct (v =? 0) eqn:E; bprop; [now subst | ].
  assert (Hk : 0 <= Z.log2 v < 64) by (split; [apply Z.log2_nonneg | apply Z.log2_lt_pow2; lia]).
  revert Hk. generalize (Z.log2 v) as k. clear. intros k Hk.
  assert (H : forallb (fun k => nth (Z.to_nat (64 - 1 - k)) VAR_INT_LEN_MAP_64 0 =? k / 7 + 1)
    (map Z.of_nat (seq 0 64)) = true) by (vm_compute; reflexivity).
  rewrite forallb_forall in H. apply Z.eqb_eq, H, in_map_iff.
  exists (Z.to_nat k). rewrite in_seq. lia.
Qed.

Lemma var_int_len_u32_log2 v : 0 <= v < 2 ^ 32 -> var_int_len_u32 v = Z.log2 v / 7 + 1.
Proof.
  intros Hv. unfold var_int_len_u32, leading_zeros. destruct (v =? 0) eqn:E; bprop; [now subst | ].
  assert (Hk : 0 <= Z.log2 v < 32) by (split; [apply Z.log2_nonneg | apply Z.log2_lt_pow2; lia]).
  revert Hk. generalize (Z.log2 v) as k. clear. intros k Hk.
  assert (H : forallb (fun k => nth (Z.to_nat (32 - 1 - k)) VAR_INT_LEN_MAP_32 0 =? k / 7 + 1)
    (map Z.of_nat (seq 0 32)) = true) by (vm_compute; reflexivity).
  rewrite forallb_forall in H. apply Z.eqb_eq, H, in_map_iff.
  exists (Z.to_nat k). rewrite in_seq. lia.
Qed.

(** The number of groups of 7 bits, by thresholds. *)
Lemma groups_thresholds v : 0 <= v < 2 ^ 32 ->
  Z.log2 v / 7 + 1 =
    if v <=? 127 then 1 else if v <=? 16383 then 2 else if v <=? 2097151 then 3
    else if v <=? 268435455 then 4 else 5.
Proof.
  intros Hv. destruct (Z.eq_dec v 0) as [->|]; [reflexivity | ].
  pose proof (Z.log2_lt_pow2 v 7) as H7. pose proof (Z.log2_lt_pow2 v 14) as H14.
  pose proof (Z.log2_lt_pow2 v 21) as H21. pose proof (Z.log2_lt_pow2 v 28) as H28.
  pose proof (Z.log2_lt_pow2 v 32) as H32. pose proof (Z.log2_nonneg v).
  change (2 ^ 7) with 128 in *. change (2 ^ 14) with 16384 in *. change (2 ^ 21) with 2097152 in *.
  change (2 ^ 28) with 268435456 in *. repeat case_if; bprop; zlia.
Qed.

Lemma var_int_len_varint n : 0 <= n <= MAX_VARINT -> var_int_len n = len (varint n).
Proof.
  intros Hn. rewrite len_varint by assumption. unfold MAX_VARINT in Hn.
  rewrite var_int_len_log2, groups_thresholds by lia. repeat case_if; bprop; lia.
Qed.

Lemma var_int_len_from_size_spec n :
  0 <= n <= MAX_VARINT -> var_int_len_from_size (var_int_len n + n) = Ok n.
Proof.
  intros Hn. rewrite var_int_len_varint by assumption. pose proof (len_varint n Hn) as Hl.
  unfold MAX_VARINT in Hn. unfold var_int_len_from_size.
  assert (Hb : 1 <= len (varint n) <= 4) by (rewrite Hl; repeat case_if; lia).
  rewrite (var_int_len_u32_log2 (_ + n)), groups_thresholds by lia.
  set (o := if _ <=? 127 then _ else _).
  assert (Ho : 1 <= o <= len (varint n) + n /\
    (o = len (varint n) \/ o = len (varint n) + 1)).
  { subst o. rewrite Hl. repeat case_if; bprop; lia. }
  rewrite u32_sub_Ok by lia. cbn [obind]. rewrite u32_add_Ok by lia. cbn [obind].
  rewrite var_int_len_u32_log2, groups_thresholds by lia. subst o.
  rewrite u32_sub_Ok; rewrite Hl in *; repeat case_if; bprop; try f_equal; lia.
Qed.

Lemma reduce_limit_bounds limit r :
  0 <= limit < 2 ^ 32 -> 0 <= r ->
  reduce_limit limit r = Z.max 0 (limit - r).
Proof.
  intros Hl Hr. unfold reduce_limit, as_u32. case_if; bprop; [lia | ].
  rewrite Z.mod_small by lia. lia.
Qed.

(** ** Bytes of properties *)

Definition prop_wire {T} `{Wire T} (prop_type : Z) (v : option T) : bytes :=
  match v with Some v => prop_type :: wire v | None => [] end.

Definition user_wire (up : ByteString * ByteString) : bytes := pr_USER :: wire up.

Definition users_wire (ps : UserProperties) : bytes := flat_map user_wire ps.

Definition users_ok (ps : UserProperties) : bool :=
  forallb (wire_ok (T := ByteString * ByteString)) ps.

Lemma encoded_property_size_wire {T} `{Wire T} (v : option T) ty :
  opt_ok v = true -> encoded_property_size v = len (prop_wire ty v).
Proof.
  destruct v as [v|]; cbn; intros Hv; [ | reflexivity]. now rewrite wire_size, len_cons.
Qed.

Lemma encode_property_writes {T} `{Wire T} (v : option T) ty :
  opt_ok v = true -> writes (encode_property v ty) (prop_wire ty v).
Proof.
  destruct v as [v|]; cbn; intros Hv; [ | apply writes_ret].
  change (ty :: wire v) with ([ty] ++ wire v). apply writes_seq; auto with wire.
  now apply wire_encode.
Qed.

(** A [u16] that is only sent when it is not 0. *)
Definition nonzero_opt (v : u16) : option u16 := if 0 <? v then Some v else None.

Lemma encode_nonzero_writes (v : u16) ty :
  is_u16 v = true -> writes (encode_nonzero_property v ty) (prop_wire ty (nonzero_opt v)).
Proof.
  intros Hv. unfold encode_nonzero_property, nonzero_opt. case_if; [ | apply writes_ret].
  now apply (encode_property_writes (Some v)).
Qed.

Lemma nonzero_opt_ok (v : u16) : is_u16 v = true -> opt_ok (nonzero_opt v) = true.
Proof. intros Hv. unfold nonzero_opt. now case_if. Qed.

Lemma len_nonzero_wire (v : u16) ty : len (prop_wire ty (nonzero_opt v)) = if 0 <? v then 3 else 0.
Proof. unfold nonzero_opt. now case_if. Qed.

Lemma encode_bool_property_writes b ty skip :
  writes (encode_bool_property b ty skip) (prop_wire ty (if Bool.eqb b skip then None else Some b)).
Proof.
  unfold encode_bool_property. destruct (Bool.eqb b skip); cbn [negb]; [apply writes_ret | ].
  now apply (encode_property_writes (Some b)).
Qed.

Lemma user_size up : wire_ok up = true -> 1 + encoded_size up = len (user_wire up).
Proof. intros Hu. unfold user_wire. now rewrite len_cons, wire_size. Qed.

Lemma user_properties_size_wire ps : users_ok ps = true -> user_properties_size ps = len (users_wire ps).
Proof.
  unfold user_properties_size, users_wire. intros Hok.
  enough (H : forall acc, fold_left (fun len prop => len + (1 + encoded_size prop)) ps acc =
    acc + len (flat_map user_wire ps)) by apply H.
  induction ps as [|p ps IH]; intros acc; cbn [fold_left flat_map]; [rewrite len_nil; lia | ].
  unfold users_ok in *. cbn [forallb] in Hok. apply andb_true_iff in Hok as [Hp Hps].
  rewrite (IH Hps), len_app, user_size by assumption. lia.
Qed.

Lemma user_properties_encode_writes ps :
  users_ok ps = true -> writes (user_properties_encode ps) (users_wire ps).
Proof.
  intros Hok. apply writes_for. intros up Hup. unfold users_ok in Hok.
  rewrite forallb_forall in Hok. change (user_wire up) with ([pr_USER] ++ wire up).
  apply writes_seq; auto with wire. now apply (wire_encode (T := ByteString * ByteString)), Hok.
Qed.

(** ** What is kept within a limit *)

Fixpoint kept (ps : UserProperties) (reason : option ByteString) (limit : Z)
    : UserProperties * option ByteString :=
  match ps with
  | up :: ps =>
      if limit <? len (user_wire up) then ([], None)
      else let '(k, r) := kept ps reason (limit - len (user_wire up)) in (up :: k, r)
  | [] => ([], if len (prop_wire pr_REASON_STRING reason) <=? limit then reason else None)
  end.

Definition diag_wire (d : UserProperties * option ByteString) : bytes :=
  users_wire (fst d) ++ prop_wire pr_REASON_STRING (snd d).

Definition diag_ok (ps : UserProperties) (reason : option ByteString) : bool :=
  users_ok ps && opt_ok reason.

Lemma diag_wire_cons up k r : diag_wire (up :: k, r) = user_wire up ++ diag_wire (k, r).
Proof. unfold diag_wire, users_wire. cbn [fst snd flat_map]. now rewrite app_assoc. Qed.

Ltac diag0 :=
  unfold diag_wire; cbn [fst snd users_wire flat_map app prop_wire]; rewrite ?len_nil; lia.

Lemma kept_le ps reason limit : 0 <= limit -> len (diag_wire (kept ps reason limit)) <= limit.
Proof.
  revert limit; induction ps as [|up ps IH]; intros limit Hl; cbn [kept].
  - unfold diag_wire. cbn [fst snd users_wire flat_map app]. case_if; bprop; [assumption | diag0].
  - case_if; bprop; [diag0 | ]. specialize (IH (limit - len (user_wire up)) ltac:(lia)).
    revert IH. destruct (kept ps reason _) as [k r]. intros IH. rewrite diag_wire_cons, len_app. lia.
Qed.

(** The reference: nothing is lost when everything fits, and what is kept is a
    prefix of the user properties, with the reason string only if all of them
    are there. *)
Lemma kept_all ps reason limit :
  len (diag_wire (ps, reason)) <= limit -> kept ps reason limit = (ps, reason).
Proof.
  revert limit; induction ps as [|up ps IH]; intros limit Hl; cbn [kept].
  - unfold diag_wire in Hl. cbn [fst snd users_wire flat_map app] in Hl.
    now rewrite (proj2 (Z.leb_le _ _) Hl).
  - rewrite diag_wire_cons, len_app in Hl. pose proof (len_nonneg (diag_wire (ps, reason))).
    rewrite (proj2 (Z.ltb_ge _ _)) by lia. now rewrite IH by lia.
Qed.

Lemma kept_prefix ps reason limit :
  exists dropped, ps = fst (kept ps reason limit) ++ dropped /\
    (snd (kept ps reason limit) = None \/ (dropped = [] /\ snd (kept ps reason limit) = reason)).
Proof.
  revert limit; induction ps as [|up ps IH]; intros limit; cbn [kept].
  - exists []. case_if; auto.
  - case_if; [exists (up :: ps); auto | ].
    destruct (IH (limit - len (user_wire up))) as (d & Hd & Hr).
    revert Hd Hr. destruct (kept ps reason _) as [k r]. intros Hd Hr. exists d. cbn [fst snd app] in *. now rewrite Hd at 1.
Qed.

(** The first property that is dropped does not fit. *)
Lemma kept_maximal ps reason limit k d :
  fst (kept ps reason limit) = k -> ps = k ++ d ->
  match d with
  | up :: _ => limit < len (users_wire k) + len (user_wire up)
  | [] => snd (kept ps reason limit) = reason \/ limit < len (diag_wire (ps, reason))
  end.
Proof.
  revert limit k; induction ps as [|up ps IH]; intros limit k; cbn [kept].
  - cbn [fst snd]. intros <- Hd. destruct d; [ | discriminate]. unfold diag_wire.
    cbn [fst snd users_wire flat_map app]. destruct (len _ <=? limit) eqn:E; bprop; auto.
  - destruct (limit <? len (user_wire up)) eqn:E; bprop.
    + cbn [fst]. intros <- Hd. cbn [app] in Hd. subst d. cbn [users_wire flat_map]. rewrite len_nil. lia.
    + specialize (IH (limit - len (user_wire up))).
      destruct (kept ps reason _) as [k' r]. cbn [fst snd]. intros <- Hd. cbn [app] in Hd.
      injection Hd as Hd. specialize (IH k' eq_refl Hd). destruct d as [|up' d].
      * destruct IH as [IH|IH]; [now left | right]. rewrite diag_wire_cons, len_app. lia.
      * cbn [users_wire flat_map] in *. rewrite len_app. unfold users_wire in IH. lia.
Qed.

Lemma kept_ok ps reason limit :
  diag_ok ps reason = true ->
  diag_ok (fst (kept ps reason limit)) (snd (kept ps reason limit)) = true.
Proof.
  unfold diag_ok, users_ok. rewrite andb_true_iff. intros [Hp Hr].
  destruct (kept_prefix ps reason limit) as (d & Hd & Hk).
  rewrite Hd, forallb_app in Hp. apply andb_true_iff in Hp as [-> _].
  destruct Hk as [-> | [_ ->]]; auto.
Qed.

Lemma encoded_size_opt_props_kept ps reason limit :
  diag_ok ps reason = true -> 0 <= limit < 2 ^ 32 ->
  encoded_size_opt_props ps reason limit = len (diag_wire (kept ps reason limit)).
Proof.
  unfold encoded_size_opt_props, diag_ok. intros Hok Hl.
  enough (H : forall n, encoded_size_opt_props_loop ps reason limit n =
    n + len (diag_wire (kept ps reason limit))) by apply H.
  revert limit Hl. induction ps as [|up ps IH]; intros limit Hl n;
    cbn [encoded_size_opt_props_loop kept].
  - unfold diag_wire. cbn [fst snd users_wire flat_map app].
    apply andb_true_iff in Hok as [_ Hr]. destruct reason as [r|]; cbn [prop_wire]; [ | case_if; diag0].
    rewrite (wire_size (T := ByteString)) by assumption. rewrite <- (len_cons pr_REASON_STRING).
    case_if; [reflexivity | diag0].
  - unfold users_ok in Hok. cbn [forallb] in Hok. rewrite <- andb_assoc in Hok.
    apply andb_true_iff in Hok as [Hu Hok]. rewrite user_size by assumption. specialize (IH Hok).
    case_if; bprop; [diag0 | ]. pose proof (len_nonneg (user_wire up)).
    unfold as_u32. rewrite Z.mod_small by lia. rewrite IH by lia.
    destruct (kept ps reason _) as [k r]. rewrite diag_wire_cons, len_app. lia.
Qed.

Lemma len_user_wire_pos up : 0 < len (user_wire up).
Proof. unfold user_wire. rewrite len_cons. pose proof (len_nonneg (wire up)). lia. Qed.

(** The second pass writes what the first one counted. *)
Lemma encode_opt_props_kept ps reason limit :
  diag_ok ps reason = true -> 0 <= limit < 2 ^ 32 ->
  writes (encode_opt_props ps reason (len (diag_wire (kept ps reason limit))))
    (diag_wire (kept ps reason limit)).
Proof.
  revert limit. induction ps as [|up ps IH]; intros limit Hok Hl; cbn [encode_opt_props kept];
    unfold diag_ok in *.
  - unfold diag_wire. cbn [fst snd users_wire flat_map app].
    apply andb_true_iff in Hok as [_ Hr]. destruct reason as [r|]; [ | case_if; apply writes_ret].
    destruct (len _ <=? limit); cbn [prop_wire wire Wire_string].
    + rewrite (proj2 (Z.ltb_lt _ _)) by (autorewrite with len; lia).
      change (?t :: ?w) with ([t] ++ w). apply writes_seq; auto with wire.
      exact (wire_encode (T := ByteString) r Hr).
    + rewrite len_nil. rewrite (proj2 (Z.ltb_ge _ _)) by apply len_nonneg. apply writes_ret.
  - unfold users_ok in Hok. cbn [forallb] in Hok. rewrite <- andb_assoc in Hok.
    apply andb_true_iff in Hok as [Hu Hok].
    replace (1 + encoded_size (fst up) + encoded_size (snd up)) with (len (user_wire up))
      by (rewrite <- user_size by assumption; cbn; lia).
    pose proof (len_user_wire_pos up). destruct (limit <? len (user_wire up)) eqn:El.
    { change (len (diag_wire _)) with 0. rewrite (proj2 (Z.ltb_lt _ _)) by assumption. apply writes_ret. }
    apply Z.ltb_ge in El. specialize (IH (limit - len (user_wire up)) Hok ltac:(lia)).
    pose proof (kept_le ps reason (limit - len (user_wire up)) ltac:(lia)) as Hk.
    revert IH Hk. destruct (kept ps reason _) as [k r]. intros IH Hk. rewrite diag_wire_cons, len_app.
    pose proof (len_nonneg (diag_wire (k, r))). rewrite (proj2 (Z.ltb_ge _ _)) by lia.
    unfold as_u32. rewrite Z.mod_small by lia.
    replace (len (user_wire up) + len (diag_wire (k, r)) - len (user_wire up))
      with (len (diag_wire (k, r))) by lia.
    change (user_wire up ++ ?w) with ([pr_USER] ++ wire up ++ w).
    apply writes_seq; [auto with wire | ]. apply writes_seq; [ | assumption].
    now apply (wire_encode (T := ByteString * ByteString)).
Qed.

(** ** Property loops *)

Lemma into_slot_progress {S T} `{Wire T} (slot : option T) (put : option T -> S) src s rest :
  into_slot slot put src = Ok (s, rest) -> (length rest < length src)%nat.
Proof.
  unfold into_slot. intros Hs. apply obind_Ok in Hs as ([v r] & Hv & Hs). injection Hs as <- <-.
  apply read_value_consumes in Hv. lia.
Qed.

Lemma push_user_progress {S} ps (put : UserProperties -> S) src s rest :
  push_user ps put src = Ok (s, rest) -> (length rest < length src)%nat.
Proof.
  unfold push_user, vec_read_value. intros Hs. apply obind_Ok in Hs as ([v r] & Hv & Hs).
  injection Hs as <- <-. apply obind_Ok in Hv as ([u r'] & Hu & Hv). injection Hv as <- <-.
  apply (wire_consumes (T := ByteString * ByteString)) in Hu. lia.
Qed.

Lemma into_slot_no_panic {S T} `{Wire T} (slot : option T) (put : option T -> S) src :
  no_panic (into_slot slot put src).
Proof. unfold into_slot. nopanic. Qed.

Lemma push_user_no_panic {S} ps (put : UserProperties -> S) src : no_panic (push_user ps put src).
Proof. unfold push_user, vec_read_value. nopanic. Qed.

Lemma into_slot_wire {S T} `{Wire T} (put : option T -> S) v rest :
  wire_ok v = true -> into_slot None put (wire v ++ rest) = Ok (put (Some v), rest).
Proof. intros Hv. unfold into_slot. now rewrite read_value_wire by assumption. Qed.

Lemma push_user_wire {S} ps (put : UserProperties -> S) up rest :
  wire_ok up = true -> push_user ps put (wire up ++ rest) = Ok (put (ps ++ [up]), rest).
Proof.
  intros Hu. unfold push_user, vec_read_value.
  now rewrite (wire_decode (T := ByteString * ByteString)) by assumption.
Qed.

#[export] Hint Extern 1 (no_panic (into_slot _ _ _)) => apply into_slot_no_panic : nopanic.
#[export] Hint Resolve push_user_no_panic : nopanic.

(** A round of a property loop reads the property type and a value. *)
Ltac prop_progress H :=
  let id := fresh "id" in let r := fresh "r" in let Hid := fresh "Hid" in
  apply obind_Ok in H as ([id r] & Hid & H); apply get_u8_Ok in Hid as ->;
  repeat (case_if; [first [apply into_slot_progress in H | apply push_user_progress in H];
                    cbn [length]; lia | ]);
  try discriminate.

(** A round on a non-empty buffer does not panic. *)
Ltac prop_no_panic := cbn [get_u8 obind]; nopanic.

Section PropLoop.
Context {S : Type} (step : S -> bytes -> dres (S * bytes)).
Hypothesis progress : forall s src s' rest,
  step s src = Ok (s', rest) -> (length rest < length src)%nat.

(** A property that is written once goes to its slot. *)
Lemma while_slot {T} `{Wire T} ty (put : option T -> S) o rest :
  (forall v rest, wire_ok v = true -> step (put None) (ty :: wire v ++ rest) = Ok (put (Some v), rest)) ->
  opt_ok o = true ->
  while_remaining step (put None) (prop_wire ty o ++ rest) = while_remaining step (put o) rest.
Proof using progress.
  intros Hs Ho. destruct o as [v|]; [ | reflexivity]. cbn [prop_wire app].
  apply while_remaining_step; [assumption | easy | now apply Hs].
Qed.

(** User properties are collected in order. *)
Lemma while_users (put : UserProperties -> S) ps rest :
  (forall us up rest, wire_ok up = true ->
     step (put us) (pr_USER :: wire up ++ rest) = Ok (put (us ++ [up]), rest)) ->
  users_ok ps = true ->
  while_remaining step (put []) (users_wire ps ++ rest) = while_remaining step (put ps) rest.
Proof using progress.
  intros Hs. change ps with ([] ++ ps) at 3. generalize (@nil (ByteString * ByteString)) as us.
  induction ps as [|up ps IH]; intros us Hok; [now rewrite app_nil_r | ].
  unfold users_ok, users_wire in *. cbn [forallb flat_map] in *.
  apply andb_true_iff in Hok as [Hu Hok].
  rewrite <- app_assoc. unfold user_wire at 1. rewrite <- app_comm_cons.
  erewrite while_remaining_step; [ | assumption | easy | now apply Hs].
  rewrite IH by assumption. now rewrite <- app_assoc.
Qed.
End PropLoop.

(** ** Blocks of properties *)

Definition props_block (ps : bytes) : bytes := varint (len ps) ++ ps.

Lemma len_props_block ps :
  len ps <= MAX_VARINT -> len (props_block ps) = var_int_len (len ps) + len ps.
Proof.
  intros H. pose proof (len_nonneg ps). unfold props_block. rewrite len_app.
  now rewrite var_int_len_varint by lia.
Qed.

Lemma has_remaining_block ps : has_remaining (props_block ps) = true.
Proof. unfold props_block, varint. cbn [varint_groups]. now repeat case_if. Qed.

Lemma props_block_pos ps : 0 < len (props_block ps).
Proof.
  unfold props_block. rewrite len_app. pose proof (len_varint_pos (len ps)).
  pose proof (len_nonneg ps). lia.
Qed.

Lemma take_props_block ps rest :
  len ps <= MAX_VARINT -> take_properties (props_block ps ++ rest) = Ok (ps, rest).
Proof. intros H. unfold props_block. rewrite <- app_assoc. now apply take_properties_wire. Qed.

Lemma from_size_block ps :
  len ps <= MAX_VARINT -> var_int_len_from_size (len (props_block ps)) = Ok (len ps).
Proof.
  intros H. pose proof (len_nonneg ps). rewrite len_props_block by assumption.
  apply var_int_len_from_size_spec. lia.
Qed.

Definition ack_kept (ps : UserProperties) (reason : option ByteString) (limit : Z) :=
  if limit <? 4 then ([], None) else kept ps reason (limit - 4).

Definition ack_block (ps : UserProperties) (reason : option ByteString) (limit : Z) : bytes :=
  props_block (diag_wire (ack_kept ps reason limit)).

Lemma ack_kept_le ps reason limit :
  0 <= limit <= MAX_VARINT -> len (diag_wire (ack_kept ps reason limit)) <= Z.max 0 (limit - 4).
Proof.
  intros Hl. unfold ack_kept. case_if; bprop; [diag0 | ]. pose proof (kept_le ps reason (limit - 4)). lia.
Qed.

Lemma ack_kept_ok ps reason limit :
  diag_ok ps reason = true ->
  diag_ok (fst (ack_kept ps reason limit)) (snd (ack_kept ps reason limit)) = true.
Proof. intros H. unfold ack_kept. case_if; [reflexivity | now apply kept_ok]. Qed.

Lemma ack_props_size ps reason limit :
  diag_ok ps reason = true -> 0 <= limit <= MAX_VARINT ->
  ack_props_encoded_size ps reason limit = len (ack_block ps reason limit).
Proof.
  intros Hok Hl. pose proof (ack_kept_le ps reason limit Hl). unfold MAX_VARINT in *.
  unfold ack_block. rewrite len_props_block by (unfold MAX_VARINT; lia).
  unfold ack_props_encoded_size, ack_kept. case_if; bprop; [reflexivity | ].
  now rewrite encoded_size_opt_props_kept by (assumption || lia).
Qed.

Lemma ack_props_writes ps reason limit :
  diag_ok ps reason = true -> 0 <= limit <= MAX_VARINT ->
  writes (ack_props_encode ps reason (len (ack_block ps reason limit))) (ack_block ps reason limit).
Proof.
  intros Hok Hl. pose proof (ack_kept_le ps reason limit Hl) as Hk. unfold MAX_VARINT in *.
  unfold ack_block. set (d := diag_wire _) in *. pose proof (len_nonneg d).
  assert (Hd : len d <= MAX_VARINT) by (unfold MAX_VARINT; lia).
  unfold ack_props_encode. rewrite from_size_block by assumption.
  pose proof (len_props_block d Hd) as Hb. pose proof (len_varint_pos (len d)).
  rewrite var_int_len_varint in Hb by lia.
  rewrite (proj2 (Z.ltb_lt _ _)) by lia. cbn [negb]. case_if; bprop.
  - assert (d = []) as -> by (apply length_zero_iff_nil; unfold len in *; lia).
    change (props_block []) with [0]. auto with wire.
  - apply writes_seq; [apply write_variable_length_writes; lia | ]. subst d.
    revert Heqb. unfold ack_kept. destruct (limit <? 4) eqn:El; bprop; [now intros [] | ].
    intros _. apply encode_opt_props_kept; [assumption | lia].
Qed.

Lemma ack_props_step_progress s src s' rest :
  ack_props_step s src = Ok (s', rest) -> (length rest < length src)%nat.
Proof. unfold ack_props_step. intros H. prop_progress H. Qed.

Lemma ack_props_decode_no_panic src : no_panic (ack_props_decode src).
Proof.
  unfold ack_props_decode. nopanic.
  apply while_remaining_no_panic; [exact ack_props_step_progress | ].
  intros s x r. unfold ack_props_step. prop_no_panic.
Qed.

#[export] Hint Resolve ack_props_decode_no_panic : nopanic.

(** The diagnostic part of a property block, in any loop that knows it. *)
Lemma ack_props_decode_wire ps reason rest :
  diag_ok ps reason = true -> len (diag_wire (ps, reason)) <= MAX_VARINT ->
  ack_props_decode (props_block (diag_wire (ps, reason)) ++ rest) = Ok ((ps, reason), rest).
Proof.
  unfold diag_ok. rewrite andb_true_iff. intros [Hp Hr] Hl. unfold ack_props_decode.
  rewrite take_props_block by assumption. cbn [obind]. unfold diag_wire. cbn [fst snd].
  rewrite (while_users _ ack_props_step_progress
    (fun us => {| ap_reason_string := None; ap_user_props := us |})); [ | | assumption].
  2: { intros us up r Hu. exact (push_user_wire us _ up r Hu). }
  rewrite <- (app_nil_r (prop_wire _ _)).
  rewrite (while_slot _ ack_props_step_progress pr_REASON_STRING
    (fun o => {| ap_reason_string := o; ap_user_props := ps |})); [reflexivity | | assumption].
  intros v r Hv. exact (into_slot_wire _ v r Hv).
Qed.

(** ** Encoding within a limit *)

(** [trait EncodeLtd]: [encoded_size] is given the limit, [encode] the size
    that [encoded_size] returned. *)
Class EncodeLtd (T : Type) := {
  ltd_encoded_size : T -> Z -> eres Z;
  ltd_encode : T -> Z -> ewriter;
}.

(** What the codec relies on: for a packet that is [ltd_ok], the size is that
    of [ltd_content limit v], and encoding with that size writes these bytes. *)
Class Ltd (T : Type) `{EncodeLtd T} := {
  ltd_ok : Z -> T -> bool;
  ltd_content : Z -> T -> bytes;
  ltd_size_content : forall v limit,
    ltd_ok limit v = true -> 0 <= limit <= MAX_VARINT ->
    ltd_encoded_size v limit = Ok (len (ltd_content limit v));
  ltd_encode_content : forall v limit,
    ltd_ok limit v = true -> 0 <= limit <= MAX_VARINT ->
    len (ltd_content limit v) <= MAX_VARINT ->
    writes (ltd_encode v (len (ltd_content limit v))) (ltd_content limit v);
}.

(** ** Packets made of a header, properties, and diagnostic properties *)

(** DISCONNECT, AUTH and CONNACK: a header of [len h] bytes, properties
    [base] that are always sent, and what is kept of the others. *)
Section DiagPackets.
Context (h base : bytes) (ps : UserProperties) (reason : option ByteString) (limit : Z).
Hypothesis diag_fine : diag_ok ps reason = true.
Hypothesis limit_fine : 0 <= limit <= MAX_VARINT.
Hypothesis header_short : len h <= 2.

Definition diag_kept := kept ps reason (Z.max 0 (limit - (len base + len h + 4))).
Definition diag_props : bytes := base ++ diag_wire diag_kept.
Definition diag_packet : bytes := h ++ props_block diag_props.

Hypothesis props_fit : len diag_props <= MAX_VARINT.

Lemma diag_packet_size :
  let diag_len := encoded_size_opt_props ps reason
    (reduce_limit limit (len base + len h + 4)) in
  len h + var_int_len (len base + diag_len) + (len base + diag_len) = len diag_packet.
Proof using diag_fine limit_fine props_fit.
  cbv zeta. pose proof (len_nonneg base). pose proof (len_nonneg h). unfold MAX_VARINT in limit_fine.
  rewrite reduce_limit_bounds by lia. rewrite encoded_size_opt_props_kept by (assumption || lia).
  fold diag_kept. unfold diag_packet. rewrite len_app, len_props_block by assumption.
  unfold diag_props. rewrite len_app. lia.
Qed.

Lemma diag_packet_writes (wh : ewriter) (wbase : Z -> ewriter) :
  writes wh h -> (forall n, 0 <= n <= MAX_VARINT -> writes (wbase n) (varint n ++ base)) ->
  writes
    (wsized
      (wh >>
       let! size := u32_sub (len diag_packet) (len h) in
       let! prop_len := var_int_len_from_size size in
       wbase prop_len)
      (fun written =>
       let! size := u32_sub (len diag_packet) (as_u32 written) in
       encode_opt_props ps reason size)) diag_packet.
Proof using diag_fine limit_fine header_short props_fit.
  intros Hh Hb. pose proof (len_nonneg h). pose proof (len_nonneg diag_props).
  pose proof (len_nonneg (diag_wire diag_kept)). pose proof (len_nonneg base).
  assert (Hl : len diag_packet = len h + len (props_block diag_props))
    by (unfold diag_packet; now rewrite len_app).
  assert (Hp : diag_packet = (h ++ varint (len diag_props) ++ base) ++ diag_wire diag_kept).
  { unfold diag_packet, props_block, diag_props at 2. now rewrite !app_assoc. }
  eapply writes_eq; [apply writes_sized | symmetry; exact Hp].
  - apply writes_seq; [assumption | ]. pose proof (len_nonneg (props_block diag_props)).
    apply (writes_let _ _ (len (props_block diag_props))).
    { rewrite u32_sub_Ok by lia. f_equal. lia. }
    apply (writes_let _ _ (len diag_props)); [now apply from_size_block | apply Hb; lia].
  - apply (writes_let _ _ (len (diag_wire diag_kept))).
    + rewrite Hp, (len_app _ (diag_wire diag_kept)). set (w := len (h ++ _)).
      assert (0 <= w < 2 ^ 32) as Hw.
      { subst w. unfold diag_props in props_fit. rewrite !len_app in *.
        pose proof (len_varint (len base + len (diag_wire diag_kept)) ltac:(lia)) as Hv.
        unfold diag_props. rewrite len_app.
        unfold MAX_VARINT in *. repeat case_if; lia. }
      unfold as_u32. rewrite Z.mod_small by lia. rewrite u32_sub_Ok by lia. f_equal. lia.
    + apply encode_opt_props_kept; [assumption | unfold MAX_VARINT in *; lia].
Qed.
End DiagPackets.

(** ** Reading a property block back *)

(** The next property of the block goes to the slot [fld] of the loop's
    state. *)
Ltac read_slot progress fld :=
  match goal with
  | |- context [while_remaining ?step ?s (prop_wire ?ty ?o ++ ?rest)] =>
      let s' := eval cbn in ({ s with fld := o }) in
      let H := fresh in
      assert (H : while_remaining step s (prop_wire ty o ++ rest) = while_remaining step s' rest);
      [ refine (while_slot step progress ty (fun x => { s with fld := x }) o rest _ _);
        [ let v := fresh "v" in let r := fresh "r" in let Hv := fresh "Hv" in
          intros v r Hv; exact (into_slot_wire _ v r Hv)
        | assumption ]
      | rewrite H; clear H ]
  end.

(** The same, for a slot inside a field of the state. *)
Ltac read_slot_in progress outer fld :=
  match goal with
  | |- context [while_remaining ?step ?s (prop_wire ?ty ?o ++ ?rest)] =>
      let s' := eval cbn in ({ s with outer -> fld := o }) in
      let H := fresh in
      assert (H : while_remaining step s (prop_wire ty o ++ rest) = while_remaining step s' rest);
      [ refine (while_slot step progress ty (fun x => { s with outer -> fld := x }) o rest _ _);
        [ let v := fresh "v" in let r := fresh "r" in let Hv := fresh "Hv" in
          intros v r Hv; exact (into_slot_wire _ v r Hv)
        | assumption ]
      | rewrite H; clear H ]
  end.

Ltac read_users progress fld :=
  match goal with
  | |- context [while_remaining ?step ?s (users_wire ?ps ++ ?rest)] =>
      let s' := eval cbn in ({ s with fld := ps }) in
      let H := fresh in
      assert (H : while_remaining step s (users_wire ps ++ rest) = while_remaining step s' rest);
      [ refine (while_users step progress (fun x => { s with fld := x }) ps rest _ _);
        [ let us := fresh "us" in let up := fresh "up" in
          let r := fresh "r" in let Hv := fresh "Hv" in
          intros us up r Hv; exact (push_user_wire us _ up r Hv)
        | assumption ]
      | rewrite H; clear H ]
  end.

Ltac read_users_in progress outer fld :=
  match goal with
  | |- context [while_remaining ?step ?s (users_wire ?ps ++ ?rest)] =>
      let s' := eval cbn in ({ s with outer -> fld := ps }) in
      let H := fresh in
      assert (H : while_remaining step s (users_wire ps ++ rest) = while_remaining step s' rest);
      [ refine (while_users step progress (fun x => { s with outer -> fld := x }) ps rest _ _);
        [ let us := fresh "us" in let up := fresh "up" in
          let r := fresh "r" in let Hv := fresh "Hv" in
          intros us up r Hv; exact (push_user_wire us _ up r Hv)
        | assumption ]
      | rewrite H; clear H ]
  end.

(** The end of the block. *)
Ltac read_end := rewrite while_remaining_nil; cbn [obind].

(** ** Properties *)

(** The tables behind [var_int_len] count the groups of seven bits of a
    value, so they give the length that [write_variable_length] writes; and
    [var_int_len_from_size] undoes [len + var_int_len(len)] without
    overflow. *)
Theorem var_int_len_correct (n : Z) :
  (0 <= n < 2 ^ 64 -> var_int_len n = Z.log2 n / 7 + 1) /\
  (0 <= n < 2 ^ 32 -> var_int_len_u32 n = var_int_len n) /\
  (0 <= n <= MAX_VARINT ->
     var_int_len n = len (varint n) /\ var_int_len_from_size (var_int_len n + n) = Ok n).
Proof.
  split; [apply var_int_len_log2 | ]. split.
  - intros H. rewrite var_int_len_u32_log2, var_int_len_log2; [reflexivity | lia | lia].
  - intros H. split; [now apply var_int_len_varint | now apply var_int_len_from_size_spec].
Qed.

Lemma var_int_len_correct_witness :
  var_int_len 16384 = len (varint 16384) /\ var_int_len_from_size (var_int_len 16384 + 16384) = Ok 16384.
Proof. apply (proj2 (proj2 (var_int_len_correct 16384))). unfold MAX_VARINT. lia. Defined.

(** User properties and reason string under a limit: the size that is
    announced is within the limit and is the number of bytes that are written
    for it; they are a prefix of the user properties, with the reason string
    only after all of them; nothing is dropped when everything fits; and the
    first property that is dropped would not have fitted. *)
Theorem opt_props_within_limit (ps : UserProperties) (reason : option ByteString) (limit : Z) :
  diag_ok ps reason = true -> 0 <= limit < 2 ^ 32 ->
  let size := encoded_size_opt_props ps reason limit in
  exists sent dropped reason',
    ps = sent ++ dropped /\ size <= limit /\ size = len (diag_wire (sent, reason')) /\
    writes (encode_opt_props ps reason size) (diag_wire (sent, reason')) /\
    (reason' = None \/ (dropped = [] /\ reason' = reason)) /\
    (len (diag_wire (ps, reason)) <= limit -> dropped = [] /\ reason' = reason) /\
    match dropped with
    | up :: _ => limit < len (users_wire sent) + len (user_wire up)
    | [] => reason' = reason \/ limit < len (diag_wire (ps, reason))
    end.
Proof.
  intros Hok Hl size. subst size. rewrite encoded_size_opt_props_kept by assumption.
  destruct (kept_prefix ps reason limit) as (d & Hd & Hr).
  pose proof (encode_opt_props_kept ps reason limit Hok Hl) as Hw.
  pose proof (kept_le ps reason limit ltac:(lia)) as Hle.
  pose proof (kept_all ps reason limit) as Ha. pose proof (kept_maximal ps reason limit) as Hm.
  destruct (kept ps reason limit) as [k r]. cbn [fst snd] in *. exists k, d, r.
  specialize (Hm k d eq_refl Hd).
  repeat split; auto.
  - apply Ha in H. injection H as -> ->. rewrite <- (app_nil_r ps) in Hd at 1.
    now apply app_inv_head in Hd.
  - apply Ha in H. now injection H as _ ->.
Qed.

Lemma opt_props_within_limit_witness :
  exists sent dropped reason',
    [([107], [118]); ([107], [119])] = sent ++ dropped /\ 7 <= 13 /\ 7 = len (diag_wire (sent, reason')) /\
    writes (encode_opt_props [([107], [118]); ([107], [119])] (Some [98]) 7) (diag_wire (sent, reason')) /\
    (reason' = None \/ (dropped = [] /\ reason' = Some [98])) /\
    (len (diag_wire ([([107], [118]); ([107], [119])], Some [98])) <= 13 -> dropped = [] /\ reason' = Some [98]) /\
    match dropped with
    | up :: _ => 13 < len (users_wire sent) + len (user_wire up)
    | [] => reason' = Some [98] \/ 13 < len (diag_wire ([([107], [118]); ([107], [119])], Some [98]))
    end.
Proof.
  apply (opt_props_within_limit [([107], [118]); ([107], [119])] (Some [98]) 13);
    [vm_compute; reflexivity | lia].
Defined.
