(* ===== verification/V5PubAcks.v ===== *)
(** * PUBACK, PUBREC, PUBREL and PUBCOMP of MQTT 5 (src/v5/codec/packet/pubacks.rs) *)

From Stdlib Require Import ZArith List Bool Lia.
From S2P Require Import Prelude Types Wire V5Props.
Import ListNotations.
Open Scope Z_scope.

Inductive PublishAckReason : Type :=
| PA_Success
| PA_NoMatchingSubscribers
| PA_UnspecifiedError
| PA_ImplementationSpecificError
| PA_NotAuthorized
| PA_TopicNameInvalid
| PA_PacketIdentifierInUse
| PA_ReceiveMaximumExceeded
| PA_QuotaExceeded
| PA_PayloadFormatInvalid.

Definition PublishAckReason_try_from (v : Z) : dres PublishAckReason :=
  match v with
  | 0 => Ok PA_Success
  | 16 => Ok PA_NoMatchingSubscribers
  | 128 => Ok PA_UnspecifiedError
  | 131 => Ok PA_ImplementationSpecificError
  | 135 => Ok PA_NotAuthorized
  | 144 => Ok PA_TopicNameInvalid
  | 145 => Ok PA_PacketIdentifierInUse
  | 147 => Ok PA_ReceiveMaximumExceeded
  | 151 => Ok PA_QuotaExceeded
  | 153 => Ok PA_PayloadFormatInvalid
  | _ => Err DMalformedPacket
  end.

Definition PublishAckReason_into_u8 (r : PublishAckReason) : Z :=
  match r with
  | PA_Success => 0
  | PA_NoMatchingSubscribers => 16
  | PA_UnspecifiedError => 128
  | PA_ImplementationSpecificError => 131
  | PA_NotAuthorized => 135
  | PA_TopicNameInvalid => 144
  | PA_PacketIdentifierInUse => 145
  | PA_ReceiveMaximumExceeded => 147
  | PA_QuotaExceeded => 151
  | PA_PayloadFormatInvalid => 153
  end.

#[export, refine] Instance PublishAckReason_prim : PrimEnum PublishAckReason := {
  try_from := PublishAckReason_try_from; into_u8 := PublishAckReason_into_u8 }.
Proof. all: prim_enum_law. Defined.

Inductive PublishAck2Reason : Type :=
| PA2_Success
| PA2_PacketIdNotFound.

Definition PublishAck2Reason_try_from (v : Z) : dres PublishAck2Reason :=
  match v with
  | 0 => Ok PA2_Success
  | 146 => Ok PA2_PacketIdNotFound
  | _ => Err DMalformedPacket
  end.

Definition PublishAck2Reason_into_u8 (r : PublishAck2Reason) : Z :=
  match r with PA2_Success => 0 | PA2_PacketIdNotFound => 146 end.

#[export, refine] Instance PublishAck2Reason_prim : PrimEnum PublishAck2Reason := {
  try_from := PublishAck2Reason_try_from; into_u8 := PublishAck2Reason_into_u8 }.
Proof. all: prim_enum_law. Defined.

(** [PublishAck] and [PublishAck2] are the same code at two reason types. *)
Record AckOf (R : Type) : Type := mkAck {
  pa_packet_id : NonZeroU16;
  pa_reason_code : R;
  pa_properties : UserProperties;
  pa_reason_string : option ByteString;
}.
Arguments mkAck {R}.
Arguments pa_packet_id {R}.
Arguments pa_reason_code {R}.
Arguments pa_properties {R}.
Arguments pa_reason_string {R}.

Section Acks.
Context {R : Type} `{PrimEnum R} (success : R).

Definition HEADER_LEN : Z := 2 + 1.

Definition PublishAck_decode (src : bytes) : dres (AckOf R) :=
  let? '(id, src) := @decode NonZeroU16 _ src in
  if has_remaining src then
    let? '(b, src) := get_u8 src in
    let? reason_code := try_from b in
    let? '((properties, reason_string), src) := ack_props_decode src in
    ensure! negb (has_remaining src) else DInvalidLength in
    Ok {| pa_packet_id := id; pa_reason_code := reason_code;
          pa_properties := properties; pa_reason_string := reason_string |}
  else
    Ok {| pa_packet_id := id; pa_reason_code := success;
          pa_properties := []; pa_reason_string := None |}.

Definition PublishAck_encoded_size (a : AckOf R) (limit : Z) : eres Z :=
  let? limit := u32_sub limit HEADER_LEN in
  let? limit := u32_sub limit 4 in
  Ok (HEADER_LEN + ack_props_encoded_size (pa_properties a) (pa_reason_string a) limit).

Definition PublishAck_encode (a : AckOf R) (size : Z) : ewriter :=
  @encode u16 _ (pa_packet_id a) >>
  put_u8 (into_u8 (pa_reason_code a)) >>
  let! size := u32_sub size HEADER_LEN in
  ack_props_encode (pa_properties a) (pa_reason_string a) size.

(** ** Specification *)

Definition ack_ok (limit : Z) (a : AckOf R) : bool :=
  @wire_ok NonZeroU16 _ _ _ (pa_packet_id a) && diag_ok (pa_properties a) (pa_reason_string a)
  && (7 <=? limit).

Definition ack_content (limit : Z) (a : AckOf R) : bytes :=
  @wire NonZeroU16 _ _ _ (pa_packet_id a) ++ [into_u8 (pa_reason_code a)] ++
  ack_block (pa_properties a) (pa_reason_string a) (limit - 7).

(** What arrives: the diagnostic properties may have been cut. *)
Definition ack_trim (limit : Z) (a : AckOf R) : AckOf R :=
  let d := ack_kept (pa_properties a) (pa_reason_string a) (limit - 7) in
  {| pa_packet_id := pa_packet_id a; pa_reason_code := pa_reason_code a;
     pa_properties := fst d; pa_reason_string := snd d |}.

#[export] Instance AckOf_EncodeLtd : EncodeLtd (AckOf R) := {
  ltd_encoded_size := PublishAck_encoded_size; ltd_encode := PublishAck_encode }.

Lemma ack_size a limit :
  ack_ok limit a = true -> 0 <= limit <= MAX_VARINT ->
  PublishAck_encoded_size a limit = Ok (len (ack_content limit a)).
Proof using Type.
  unfold ack_ok. rewrite !andb_true_iff, Z.leb_le. intros [[Hid Hd] Hm] Hl.
  unfold PublishAck_encoded_size, HEADER_LEN. rewrite u32_sub_Ok by lia. cbn [obind].
  rewrite u32_sub_Ok by lia. cbn [obind].
  replace (limit - (2 + 1) - 4) with (limit - 7) by lia.
  rewrite ack_props_size by (assumption || lia). unfold ack_content.
  autorewrite with len. f_equal. lia.
Qed.

Lemma ack_writes a limit :
  ack_ok limit a = true -> 0 <= limit <= MAX_VARINT ->
  writes (PublishAck_encode a (len (ack_content limit a))) (ack_content limit a).
Proof using Type.
  unfold ack_ok. rewrite !andb_true_iff, Z.leb_le. intros [[Hid Hd] Hm] Hl.
  unfold PublishAck_encode, ack_content.
  apply writes_seq; [exact (writes_u16 _) | ]. apply writes_seq; [apply writes_u8 | ].
  set (b := ack_block _ _ _). apply (writes_let _ _ (len b)).
  - unfold HEADER_LEN. autorewrite with len. pose proof (len_nonneg b).
    rewrite u32_sub_Ok by lia. f_equal. lia.
  - apply ack_props_writes; [assumption | lia].
Qed.

#[export, refine] Instance AckOf_Ltd : Ltd (AckOf R) := {
  ltd_ok := ack_ok; ltd_content := ack_content }.
Proof using Type.
  - apply ack_size.
  - intros v limit Hv Hl _. now apply ack_writes.
Defined.

Lemma ack_decode_content a limit :
  ack_ok limit a = true -> 0 <= limit <= MAX_VARINT ->
  PublishAck_decode (ack_content limit a) = Ok (ack_trim limit a).
Proof using Type.
  unfold ack_ok. rewrite !andb_true_iff, Z.leb_le. intros [[Hid Hd] Hm] Hl.
  unfold PublishAck_decode, ack_content, ack_block, ack_trim.
  rewrite (wire_decode (T := NonZeroU16)) by assumption. cbn [obind app has_remaining get_u8].
  rewrite try_from_into. cbn [obind]. rewrite <- (app_nil_r (props_block _)).
  pose proof (ack_kept_le (pa_properties a) (pa_reason_string a) (limit - 7) ltac:(lia)).
  pose proof (ack_kept_ok _ _ (limit - 7) Hd) as Hk.
  destruct (ack_kept _ _ _) as [k r]. cbn [fst snd] in *.
  rewrite ack_props_decode_wire by (assumption || (unfold MAX_VARINT in *; lia)).
  reflexivity.
Qed.

Lemma ack_decode_no_panic src : no_panic (PublishAck_decode src).
Proof using Type. unfold PublishAck_decode. nopanic. Qed.
End Acks.

(** The two packet types and their decoders. *)
Definition PublishAck : Type := AckOf PublishAckReason.
Definition PublishAck2 : Type := AckOf PublishAck2Reason.

Definition decode_publish_ack (src : bytes) : dres PublishAck := PublishAck_decode PA_Success src.
Definition decode_publish_ack2 (src : bytes) : dres PublishAck2 := PublishAck_decode PA2_Success src.
