(* ===== verification/V5Subscribe.v ===== *)
(** * SUBSCRIBE, SUBACK, UNSUBSCRIBE and UNSUBACK of MQTT 5
    (src/v5/codec/packet/subscribe.rs) *)

From Stdlib Require Import ZArith List Bool Lia.
From S2P Require Import Prelude Types Wire V5Props.
Import ListNotations.
Open Scope Z_scope.

Inductive RetainHandling : Type :=
| RH_AtSubscribe
| RH_AtSubscribeNew
| RH_NoAtSubscribe.

Definition RetainHandling_try_from (v : Z) : dres RetainHandling :=
  match v with
  | 0 => Ok RH_AtSubscribe
  | 1 => Ok RH_AtSubscribeNew
  | 2 => Ok RH_NoAtSubscribe
  | _ => Err DMalformedPacket
  end.

Definition RetainHandling_into_u8 (r : RetainHandling) : Z :=
  match r with
  | RH_AtSubscribe => 0
  | RH_AtSubscribeNew => 1
  | RH_NoAtSubscribe => 2
  end.

#[export, refine] Instance RetainHandling_prim : PrimEnum RetainHandling := {
  try_from := RetainHandling_try_from; into_u8 := RetainHandling_into_u8 }.
Proof. all: prim_enum_law. Defined.

Inductive SubscribeAckReason : Type :=
| SA_GrantedQos0
| SA_GrantedQos1
| SA_GrantedQos2
| SA_UnspecifiedError
| SA_ImplementationSpecificError
| SA_NotAuthorized
| SA_TopicFilterInvalid
| SA_PacketIdentifierInUse
| SA_QuotaExceeded
| SA_SharedSubsriptionNotSupported
| SA_SubscriptionIdentifiersNotSupported
| SA_WildcardSubscriptionsNotSupported.

Definition SubscribeAckReason_try_from (v : Z) : dres SubscribeAckReason :=
  match v with
  | 0 => Ok SA_GrantedQos0
  | 1 => Ok SA_GrantedQos1
  | 2 => Ok SA_GrantedQos2
  | 128 => Ok SA_UnspecifiedError
  | 131 => Ok SA_ImplementationSpecificError
  | 135 => Ok SA_NotAuthorized
  | 143 => Ok SA_TopicFilterInvalid
  | 145 => Ok SA_PacketIdentifierInUse
  | 151 => Ok SA_QuotaExceeded
  | 158 => Ok SA_SharedSubsriptionNotSupported
  | 161 => Ok SA_SubscriptionIdentifiersNotSupported
  | 162 => Ok SA_WildcardSubscriptionsNotSupported
  | _ => Err DMalformedPacket
  end.

Definition SubscribeAckReason_into_u8 (r : SubscribeAckReason) : Z :=
  match r with
  | SA_GrantedQos0 => 0
  | SA_GrantedQos1 => 1
  | SA_GrantedQos2 => 2
  | SA_UnspecifiedError => 128
  | SA_ImplementationSpecificError => 131
  | SA_NotAuthorized => 135
  | SA_TopicFilterInvalid => 143
  | SA_PacketIdentifierInUse => 145
  | SA_QuotaExceeded => 151
  | SA_SharedSubsriptionNotSupported => 158
  | SA_SubscriptionIdentifiersNotSupported => 161
  | SA_WildcardSubscriptionsNotSupported => 162
  end.

#[export, refine] Instance SubscribeAckReason_prim : PrimEnum SubscribeAckReason := {
  try_from := SubscribeAckReason_try_from; into_u8 := SubscribeAckReason_into_u8 }.
Proof. all: prim_enum_law. Defined.

Inductive UnsubscribeAckReason : Type :=
| UA_Success
| UA_NoSubscriptionExisted
| UA_UnspecifiedError
| UA_ImplementationSpecificError
| UA_NotAuthorized
| UA_TopicFilterInvalid
| UA_PacketIdentifierInUse.

Definition UnsubscribeAckReason_try_from (v : Z) : dres UnsubscribeAckReason :=
  match v with
  | 0 => Ok UA_Success
  | 17 => Ok UA_NoSubscriptionExisted
  | 128 => Ok UA_UnspecifiedError
  | 131 => Ok UA_ImplementationSpecificError
  | 135 => Ok UA_NotAuthorized
  | 143 => Ok UA_TopicFilterInvalid
  | 145 => Ok UA_PacketIdentifierInUse
  | _ => Err DMalformedPacket
  end.

Definition UnsubscribeAckReason_into_u8 (r : UnsubscribeAckReason) : Z :=
  match r with
  | UA_Success => 0
  | UA_NoSubscriptionExisted => 17
  | UA_UnspecifiedError => 128
  | UA_ImplementationSpecificError => 131
  | UA_NotAuthorized => 135
  | UA_TopicFilterInvalid => 143
  | UA_PacketIdentifierInUse => 145
  end.

#[export, refine] Instance UnsubscribeAckReason_prim : PrimEnum UnsubscribeAckReason := {
  try_from := UnsubscribeAckReason_try_from; into_u8 := UnsubscribeAckReason_into_u8 }.
Proof. all: prim_enum_law. Defined.

Record SubscriptionOptions : Type := mkSubscriptionOptions {
  so_qos : QoS;
  so_no_local : bool;
  so_retain_as_published : bool;
  so_retain_handling : RetainHandling;
}.

Record Subscribe : Type := mkSubscribe {
  su_packet_id : NonZeroU16;
  su_id : option NonZeroU32;
  su_user_properties : UserProperties;
  su_topic_filters : list (ByteString * SubscriptionOptions);
}.

Record Unsubscribe : Type := mkUnsubscribe {
  un_packet_id : NonZeroU16;
  un_user_properties : UserProperties;
  un_topic_filters : list ByteString;
}.

(** [SubscribeAck] and [UnsubscribeAck] have the same fields and the same
    decoder, at two status types. *)
Record StatusAck (R : Type) : Type := mkStatusAck {
  sa_packet_id : NonZeroU16;
  sa_properties : UserProperties;
  sa_reason_string : option ByteString;
  sa_status : list R;
}.
Arguments mkStatusAck {R}.
Arguments sa_packet_id {R}.
Arguments sa_properties {R}.
Arguments sa_reason_string {R}.
Arguments sa_status {R}.

Definition SubscribeAck : Type := StatusAck SubscribeAckReason.
Definition UnsubscribeAck : Type := StatusAck UnsubscribeAckReason.

(** ** Subscription options *)

Definition SubscriptionOptions_decode (src : bytes) : dres (SubscriptionOptions * bytes) :=
  ensure! has_remaining src else DInvalidLength in
  let? '(val, src) := get_u8 src in
  let? qos := QoS_try_from (Z.land val 3) in
  let? retain_handling := RetainHandling_try_from (Z.shiftr (Z.land val 48) 4) in
  Ok ({| so_qos := qos;
         so_no_local := negb (Z.land val 4 =? 0);
         so_retain_as_published := negb (Z.land val 8 =? 0);
         so_retain_handling := retain_handling |}, src).

Definition options_byte (o : SubscriptionOptions) : Z :=
  Z.lor (Z.lor (Z.lor (QoS_into_u8 (so_qos o))
                      (as_u8 (Z.shiftl (Z.b2z (so_no_local o)) 2)))
               (as_u8 (Z.shiftl (Z.b2z (so_retain_as_published o)) 3)))
        (as_u8 (Z.shiftl (RetainHandling_into_u8 (so_retain_handling o)) 4)).

Definition SubscriptionOptions_encode (o : SubscriptionOptions) : ewriter :=
  put_u8 (options_byte o).

(** ** SUBSCRIBE *)

Record SubscribeProps : Type := mkSubscribeProps {
  sp_sub_id : option NonZeroU32;
  sp_user_properties : UserProperties;
}.

Definition Subscribe_props_step (s : SubscribeProps) (src : bytes)
    : dres (SubscribeProps * bytes) :=
  let? '(prop_id, src) := get_u8 src in
  if prop_id =? pr_SUB_ID then
    ensure! is_none (sp_sub_id s) else DMalformedPacket in
    let? '(val, src) := decode_variable_length_cursor src in
    let? val := ok_or (non_zero val) DMalformedPacket in
    Ok ({ s with sp_sub_id := Some val }, src)
  else if prop_id =? pr_USER then
    push_user (sp_user_properties s) (fun v => { s with sp_user_properties := v }) src
  else Err DMalformedPacket.

Definition Subscribe_filter_step (acc : list (ByteString * SubscriptionOptions)) (src : bytes)
    : dres (list (ByteString * SubscriptionOptions) * bytes) :=
  let? '(topic, src) := @decode ByteString _ src in
  let? '(opts, src) := SubscriptionOptions_decode src in
  Ok (acc ++ [(topic, opts)], src).

Definition Subscribe_decode (src : bytes) : dres Subscribe :=
  let? '(packet_id, src) := @decode NonZeroU16 _ src in
  let? '(prop_src, src) := take_properties src in
  let? '(s, _) := while_remaining Subscribe_props_step
    {| sp_sub_id := None; sp_user_properties := [] |} prop_src in
  let? '(topic_filters, _) := while_remaining Subscribe_filter_step [] src in
  Ok {| su_packet_id := packet_id; su_id := sp_sub_id s;
        su_user_properties := sp_user_properties s; su_topic_filters := topic_filters |}.

Definition sub_id_len (s : Subscribe) : Z :=
  match su_id s with Some v => var_int_len v | None => 0 end.

Definition Subscribe_encoded_size (s : Subscribe) (_limit : Z) : eres Z :=
  let prop_len := sub_id_len s + user_properties_size (su_user_properties s) in
  let payload_len :=
    fold_left (fun acc f => acc + encoded_size (fst f) + 1) (su_topic_filters s) 0 in
  Ok (@encoded_size NonZeroU16 _ (su_packet_id s) + var_int_len prop_len + prop_len + payload_len).

Definition Subscribe_encode (s : Subscribe) (_size : Z) : ewriter :=
  @encode NonZeroU16 _ (su_packet_id s) >>
  let! prop_len := u32_add (sub_id_len s) (as_u32 (user_properties_size (su_user_properties s))) in
  write_variable_length prop_len >>
  @encode_property NonZeroU32 _ (su_id s) pr_SUB_ID >>
  wfor (su_topic_filters s) (fun f =>
    @encode ByteString _ (fst f) >> SubscriptionOptions_encode (snd f)).

(** ** UNSUBSCRIBE *)

Definition Unsubscribe_props_step (ps : UserProperties) (src : bytes)
    : dres (UserProperties * bytes) :=
  let? '(prop_id, src) := get_u8 src in
  if prop_id =? pr_USER then push_user ps (fun v => v) src else Err DMalformedPacket.

Definition Unsubscribe_filter_step (acc : list ByteString) (src : bytes)
    : dres (list ByteString * bytes) :=
  let? '(topic, src) := @decode ByteString _ src in
  Ok (acc ++ [topic], src).

Definition Unsubscribe_decode (src : bytes) : dres Unsubscribe :=
  let? '(packet_id, src) := @decode NonZeroU16 _ src in
  let? '(prop_src, src) := take_properties src in
  let? '(user_properties, _) := while_remaining Unsubscribe_props_step [] prop_src in
  let? '(topic_filters, _) := while_remaining Unsubscribe_filter_step [] src in
  Ok {| un_packet_id := packet_id; un_user_properties := user_properties;
        un_topic_filters := topic_filters |}.

Definition Unsubscribe_encoded_size (u : Unsubscribe) (_limit : Z) : eres Z :=
  let prop_len := user_properties_size (un_user_properties u) in
  Ok (2 + var_int_len prop_len + prop_len +
      fold_left (fun acc f => acc + 2 + len f) (un_topic_filters u) 0).

Definition Unsubscribe_encode (u : Unsubscribe) (_size : Z) : ewriter :=
  @encode NonZeroU16 _ (un_packet_id u) >>
  write_variable_length (as_u32 (user_properties_size (un_user_properties u))) >>
  wfor (un_topic_filters u) (fun f => @encode ByteString _ f).

(** ** SUBACK and UNSUBACK *)

Definition StatusAck_decode {R} `{PrimEnum R} (src : bytes) : dres (StatusAck R) :=
  let? '(packet_id, src) := @decode NonZeroU16 _ src in
  let? '((properties, reason_string), src) := ack_props_decode src in
  let? status := otraverse try_from src in
  Ok {| sa_packet_id := packet_id; sa_properties := properties;
        sa_reason_string := reason_string; sa_status := status |}.

(** [usize::max_value()] is the answer that the size check refuses. *)
Definition SubscribeAck_encoded_size (a : SubscribeAck) (limit : Z) : eres Z :=
  let n := len (sa_status a) in
  if (2 ^ 32 - 1) - 2 <? n then Ok (2 ^ 64 - 1)
  else
    let? limit := u32_sub limit 2 in
    let? limit := u32_sub limit (as_u32 n) in
    Ok (2 + ack_props_encoded_size (sa_properties a) (sa_reason_string a) limit + n).

Definition UnsubscribeAck_encoded_size (a : UnsubscribeAck) (limit : Z) : eres Z :=
  let n := len (sa_status a) in
  Ok (2 + n + ack_props_encoded_size (sa_properties a) (sa_reason_string a)
                (reduce_limit limit (2 + n))).

(** The same code in both packets. *)
Definition StatusAck_encode {R} `{PrimEnum R} (a : StatusAck R) (size : Z) : ewriter :=
  @encode NonZeroU16 _ (sa_packet_id a) >>
  let! size := u32_sub size 2 in
  let! size := u32_sub size (as_u32 (len (sa_status a))) in
  ack_props_encode (sa_properties a) (sa_reason_string a) size >>
  wfor (sa_status a) (fun reason => put_u8 (into_u8 reason)).

(** ** Specification *)

Definition option_filter_wire (f : ByteString * SubscriptionOptions) : bytes :=
  @wire ByteString _ _ _ (fst f) ++ [options_byte (snd f)].

(** The packets whose encoding is the MQTT one: the encoder does not write the
    user properties and writes the subscription identifier in a form that
    its own decoder does not read. *)
Definition subscribe_ok (_limit : Z) (s : Subscribe) : bool :=
  @wire_ok NonZeroU16 _ _ _ (su_packet_id s) && is_none (su_id s) &&
  negb (0 <? len (su_user_properties s)) &&
  forallb (fun f => @wire_ok ByteString _ _ _ (fst f)) (su_topic_filters s).

Definition subscribe_content (_limit : Z) (s : Subscribe) : bytes :=
  @wire NonZeroU16 _ _ _ (su_packet_id s) ++ [0] ++
  flat_map option_filter_wire (su_topic_filters s).

Definition unsubscribe_ok (_limit : Z) (u : Unsubscribe) : bool :=
  @wire_ok NonZeroU16 _ _ _ (un_packet_id u) && negb (0 <? len (un_user_properties u)) &&
  forallb (@wire_ok ByteString _ _ _) (un_topic_filters u).

Definition unsubscribe_content (_limit : Z) (u : Unsubscribe) : bytes :=
  @wire NonZeroU16 _ _ _ (un_packet_id u) ++ [0] ++
  flat_map (@wire ByteString _ _ _) (un_topic_filters u).

Lemma no_users (ps : UserProperties) : negb (0 <? len ps) = true -> ps = [].
Proof.
  intros H. bprop. apply length_zero_iff_nil. unfold len in *. lia.
Qed.

Lemma options_byte_decode o rest :
  SubscriptionOptions_decode (options_byte o :: rest) = Ok (o, rest).
Proof. now destruct o as [[] [] [] []]. Qed.

#[export] Instance Subscribe_EncodeLtd : EncodeLtd Subscribe := {
  ltd_encoded_size := Subscribe_encoded_size; ltd_encode := Subscribe_encode }.

#[export, refine] Instance Subscribe_Ltd : Ltd Subscribe := {
  ltd_ok := subscribe_ok; ltd_content := subscribe_content }.
Proof.
  - intros s limit. unfold subscribe_ok. rewrite !andb_true_iff. intros [[[Hid Hs] Hu] Hf] _.
    destruct s as [id [sid|] ps fs]; [discriminate | ].
    cbn [su_user_properties su_topic_filters] in Hu, Hf.
    apply no_users in Hu as ->. cbn [ltd_encoded_size Subscribe_EncodeLtd].
    unfold Subscribe_encoded_size, subscribe_content, sub_id_len.
    cbn [su_id su_user_properties su_topic_filters su_packet_id].
    rewrite (fold_left_len option_filter_wire).
    + autorewrite with len. change (var_int_len _) with 1. change (user_properties_size []) with 0.
      change (encoded_size id) with 2. f_equal. lia.
    + intros acc [t o]. unfold option_filter_wire. cbn. autorewrite with len. unfold bytes_encoded_size. lia.
  - intros s limit. unfold subscribe_ok. rewrite !andb_true_iff. intros [[[Hid Hs] Hu] Hf] _ _.
    destruct s as [id [sid|] ps fs]; [discriminate | ].
    cbn [su_user_properties su_topic_filters] in Hu, Hf.
    apply no_users in Hu as ->. cbn [ltd_encode Subscribe_EncodeLtd].
    unfold Subscribe_encode, subscribe_content, sub_id_len.
    cbn [su_id su_user_properties su_topic_filters su_packet_id].
    apply writes_seq; [exact (writes_u16 _) | ]. apply (writes_let _ _ 0); [reflexivity | ].
    apply writes_seq; [apply (write_variable_length_writes 0); unfold MAX_VARINT; lia | ].
    rewrite <- (app_nil_l (flat_map _ _)). apply writes_seq; [apply writes_ret | ].
    apply writes_for. intros f Hin. rewrite forallb_forall in Hf. apply Hf in Hin.
    apply writes_seq; [exact (wire_encode (T := ByteString) _ Hin) | apply writes_u8].
Defined.

#[export] Instance Unsubscribe_EncodeLtd : EncodeLtd Unsubscribe := {
  ltd_encoded_size := Unsubscribe_encoded_size; ltd_encode := Unsubscribe_encode }.

#[export, refine] Instance Unsubscribe_Ltd : Ltd Unsubscribe := {
  ltd_ok := unsubscribe_ok; ltd_content := unsubscribe_content }.
Proof.
  - intros s limit. unfold unsubscribe_ok. rewrite !andb_true_iff. intros [[Hid Hu] Hf] _.
    destruct s as [id ps fs]. cbn [un_user_properties un_topic_filters] in Hu, Hf. apply no_users in Hu as ->.
    cbn [ltd_encoded_size Unsubscribe_EncodeLtd]. unfold Unsubscribe_encoded_size, unsubscribe_content.
    cbn [un_user_properties un_topic_filters un_packet_id].
    rewrite (fold_left_len (@wire ByteString _ _ _)).
    + autorewrite with len. change (var_int_len _) with 1. change (user_properties_size []) with 0.
      f_equal. lia.
    + intros acc t. cbn. autorewrite with len. lia.
  - intros s limit. unfold unsubscribe_ok. rewrite !andb_true_iff. intros [[Hid Hu] Hf] _ _.
    destruct s as [id ps fs]. cbn [un_user_properties un_topic_filters] in Hu, Hf. apply no_users in Hu as ->.
    cbn [ltd_encode Unsubscribe_EncodeLtd]. unfold Unsubscribe_encode, unsubscribe_content.
    cbn [un_user_properties un_topic_filters un_packet_id].
    apply writes_seq; [exact (writes_u16 _) | ].
    apply writes_seq; [apply (write_variable_length_writes 0); unfold MAX_VARINT; lia | ].
    apply writes_for. intros f Hin. rewrite forallb_forall in Hf. apply Hf in Hin.
    exact (wire_encode (T := ByteString) _ Hin).
Defined.

(** ** Decoding *)

Lemma Subscribe_props_step_progress s src s' rest :
  Subscribe_props_step s src = Ok (s', rest) -> (length rest < length src)%nat.
Proof.
  unfold Subscribe_props_step. intros H. apply obind_Ok in H as ([id r] & Hid & H).
  apply get_u8_Ok in Hid as ->. case_if.
  - case_if; [ | discriminate]. apply obind_Ok in H as ([v r'] & Hv & H).
    apply decode_varint_bounds in Hv as (_ & read & -> & _).
    apply obind_Ok in H as (v' & _ & H). injection H as <- <-. cbn [length]. rewrite length_app. lia.
  - case_if; [ | discriminate]. apply push_user_progress in H. cbn [length]. lia.
Qed.

Lemma SubscriptionOptions_decode_rest src o rest :
  SubscriptionOptions_decode src = Ok (o, rest) -> (length rest < length src)%nat.
Proof.
  unfold SubscriptionOptions_decode. intros H. case_if; [ | discriminate].
  apply obind_Ok in H as ([b r'] & Hb & H). apply get_u8_Ok in Hb as ->.
  apply obind_Ok in H as (q & _ & H). apply obind_Ok in H as (h & _ & H). injection H as <- <-.
  cbn. lia.
Qed.

Lemma Subscribe_filter_step_progress acc src acc' rest :
  Subscribe_filter_step acc src = Ok (acc', rest) -> (length rest < length src)%nat.
Proof.
  unfold Subscribe_filter_step. intros H. apply obind_Ok in H as ([t r] & Ht & H).
  apply (wire_consumes (T := ByteString)) in Ht. apply obind_Ok in H as ([o r'] & Ho & H).
  apply SubscriptionOptions_decode_rest in Ho. injection H as <- <-. lia.
Qed.

Lemma Unsubscribe_props_step_progress s src s' rest :
  Unsubscribe_props_step s src = Ok (s', rest) -> (length rest < length src)%nat.
Proof. unfold Unsubscribe_props_step. intros H. prop_progress H. Qed.

Lemma Unsubscribe_filter_step_progress acc src acc' rest :
  Unsubscribe_filter_step acc src = Ok (acc', rest) -> (length rest < length src)%nat.
Proof.
  unfold Unsubscribe_filter_step. intros H. apply obind_Ok in H as ([t r] & Ht & H).
  apply (wire_consumes (T := ByteString)) in Ht. injection H as <- <-. lia.
Qed.

Lemma Subscribe_decode_no_panic src : no_panic (Subscribe_decode src).
Proof.
  unfold Subscribe_decode. nopanic.
  - apply while_remaining_no_panic; [exact Subscribe_props_step_progress | ].
    intros s x r. unfold Subscribe_props_step. prop_no_panic.
  - apply while_remaining_no_panic; [exact Subscribe_filter_step_progress | ].
    intros acc x r. unfold Subscribe_filter_step, SubscriptionOptions_decode. nopanic;
      [exact (try_from_no_panic (T := QoS) _) | exact (try_from_no_panic (T := RetainHandling) _)].
Qed.

Lemma Unsubscribe_decode_no_panic src : no_panic (Unsubscribe_decode src).
Proof.
  unfold Unsubscribe_decode. nopanic.
  - apply while_remaining_no_panic; [exact Unsubscribe_props_step_progress | ].
    intros s x r. unfold Unsubscribe_props_step. prop_no_panic.
  - apply while_remaining_no_panic; [exact Unsubscribe_filter_step_progress | ].
    intros s x r. unfold Unsubscribe_filter_step. nopanic.
Qed.

Lemma Subscribe_decode_content limit s :
  subscribe_ok limit s = true -> Subscribe_decode (subscribe_content limit s) = Ok s.
Proof.
  unfold subscribe_ok. rewrite !andb_true_iff. intros [[[Hid Hs] Hu] Hf].
  destruct s as [id [sid|] ps fs]; [discriminate | ]. cbn [su_packet_id su_user_properties su_topic_filters] in *.
  apply no_users in Hu as ->. unfold Subscribe_decode, subscribe_content.
  cbn [su_topic_filters su_packet_id]. read_wire NonZeroU16.
  change ([0] ++ ?x) with (props_block [] ++ x).
  rewrite take_props_block by (rewrite len_nil; unfold MAX_VARINT; lia).
  cbn [obind]. rewrite while_remaining_nil. cbn [obind sp_sub_id sp_user_properties].
  rewrite (while_elements _ option_filter_wire (fun f => @wire_ok ByteString _ _ _ (fst f)));
    [reflexivity | exact Subscribe_filter_step_progress | now intros [t o] | | assumption].
  intros acc [t o] rest Ht. unfold Subscribe_filter_step, option_filter_wire. cbn [fst snd] in *.
  rewrite <- app_assoc. read_wire ByteString. cbn [app]. now rewrite options_byte_decode.
Qed.

Lemma Unsubscribe_decode_content limit u :
  unsubscribe_ok limit u = true -> Unsubscribe_decode (unsubscribe_content limit u) = Ok u.
Proof.
  unfold unsubscribe_ok. rewrite !andb_true_iff. intros [[Hid Hu] Hf].
  destruct u as [id ps fs]. cbn [un_packet_id un_user_properties un_topic_filters] in *.
  apply no_users in Hu as ->. unfold Unsubscribe_decode, unsubscribe_content.
  cbn [un_topic_filters un_packet_id]. read_wire NonZeroU16.
  change ([0] ++ ?x) with (props_block [] ++ x).
  rewrite take_props_block by (rewrite len_nil; unfold MAX_VARINT; lia).
  cbn [obind]. rewrite while_remaining_nil. cbn [obind].
  rewrite (while_elements _ (@wire ByteString _ _ _) (@wire_ok ByteString _ _ _));
    [reflexivity | exact Unsubscribe_filter_step_progress | now intros t | | assumption].
  intros acc t rest Ht. unfold Unsubscribe_filter_step. now read_wire ByteString.
Qed.

(** ** SUBACK and UNSUBACK: specification *)

Section StatusAcks.
Context {R : Type} `{PrimEnum R}.

Definition status_limit (limit : Z) (a : StatusAck R) : Z := limit - 2 - len (sa_status a).

Definition status_ok (limit : Z) (a : StatusAck R) : bool :=
  @wire_ok NonZeroU16 _ _ _ (sa_packet_id a) && diag_ok (sa_properties a) (sa_reason_string a)
  && (0 <=? status_limit limit a).

Definition status_content (limit : Z) (a : StatusAck R) : bytes :=
  @wire NonZeroU16 _ _ _ (sa_packet_id a) ++
  ack_block (sa_properties a) (sa_reason_string a) (status_limit limit a) ++
  map into_u8 (sa_status a).

Definition status_trim (limit : Z) (a : StatusAck R) : StatusAck R :=
  let d := ack_kept (sa_properties a) (sa_reason_string a) (status_limit limit a) in
  {| sa_packet_id := sa_packet_id a; sa_properties := fst d; sa_reason_string := snd d;
     sa_status := sa_status a |}.

Lemma status_ok_bounds limit a :
  status_ok limit a = true -> 0 <= limit <= MAX_VARINT ->
  @wire_ok NonZeroU16 _ _ _ (sa_packet_id a) = true /\
  diag_ok (sa_properties a) (sa_reason_string a) = true /\
  0 <= status_limit limit a <= MAX_VARINT /\ len (sa_status a) <= limit - 2.
Proof using Type.
  unfold status_ok, status_limit. rewrite !andb_true_iff, Z.leb_le. intros [[? ?] ?] ?.
  pose proof (len_nonneg (sa_status a)). repeat split; auto; lia.
Qed.

Lemma status_writes a limit :
  status_ok limit a = true -> 0 <= limit <= MAX_VARINT ->
  writes (StatusAck_encode a (len (status_content limit a))) (status_content limit a).
Proof using Type.
  intros Ha Hl. apply status_ok_bounds in Ha as (Hid & Hd & Hm & Hn); [ | assumption].
  unfold StatusAck_encode, status_content. pose proof (len_nonneg (sa_status a)).
  apply writes_seq; [exact (writes_u16 _) | ]. set (b := ack_block _ _ _).
  pose proof (len_nonneg b). autorewrite with len.
  apply (writes_let _ _ (len b + len (sa_status a))).
  { rewrite u32_sub_Ok by lia. f_equal. lia. }
  apply (writes_let _ _ (len b)).
  { unfold as_u32. unfold MAX_VARINT in *. rewrite Z.mod_small by lia.
    rewrite u32_sub_Ok by lia. f_equal. lia. }
  apply writes_seq; [now apply ack_props_writes | ].
  rewrite <- flat_map_singleton. apply writes_for. intros r _. apply writes_u8.
Qed.

Lemma status_decode_content a limit :
  status_ok limit a = true -> 0 <= limit <= MAX_VARINT ->
  StatusAck_decode (status_content limit a) = Ok (status_trim limit a).
Proof using Type.
  intros Ha Hl. apply status_ok_bounds in Ha as (Hid & Hd & Hm & Hn); [ | assumption].
  unfold StatusAck_decode, status_content, status_trim, ack_block. read_wire NonZeroU16.
  pose proof (ack_kept_le (sa_properties a) (sa_reason_string a) _ Hm).
  pose proof (ack_kept_ok _ _ (status_limit limit a) Hd) as Hk.
  destruct (ack_kept _ _ _) as [k r]. cbn [fst snd] in *.
  rewrite ack_props_decode_wire by (assumption || (unfold MAX_VARINT in *; lia)).
  cbn [obind]. rewrite otraverse_inverse; [reflexivity | ]. intros y _. apply try_from_into.
Qed.

Lemma status_decode_no_panic src : no_panic (StatusAck_decode (R := R) src).
Proof using Type.
  unfold StatusAck_decode. nopanic. apply otraverse_no_panic. intros x. apply try_from_no_panic.
Qed.
End StatusAcks.

#[export] Instance SubscribeAck_EncodeLtd : EncodeLtd SubscribeAck := {
  ltd_encoded_size := SubscribeAck_encoded_size; ltd_encode := StatusAck_encode }.

#[export, refine] Instance SubscribeAck_Ltd : Ltd SubscribeAck := {
  ltd_ok := status_ok; ltd_content := status_content }.
Proof.
  - intros a limit Ha Hl. apply status_ok_bounds in Ha as (Hid & Hd & Hm & Hn); [ | assumption].
    cbn [ltd_encoded_size SubscribeAck_EncodeLtd]. unfold SubscribeAck_encoded_size, status_content.
    pose proof (len_nonneg (sa_status a)). unfold MAX_VARINT in Hl.
    rewrite (proj2 (Z.ltb_ge _ _)) by lia. rewrite u32_sub_Ok by lia. cbn [obind].
    unfold as_u32. rewrite Z.mod_small by lia. rewrite u32_sub_Ok by lia. cbn [obind].
    fold (status_limit limit a). rewrite ack_props_size by assumption. autorewrite with len.
    f_equal. lia.
  - intros a limit Ha Hl _. now apply status_writes.
Defined.

#[export] Instance UnsubscribeAck_EncodeLtd : EncodeLtd UnsubscribeAck := {
  ltd_encoded_size := UnsubscribeAck_encoded_size; ltd_encode := StatusAck_encode }.

#[export, refine] Instance UnsubscribeAck_Ltd : Ltd UnsubscribeAck := {
  ltd_ok := status_ok; ltd_content := status_content }.
Proof.
  - intros a limit Ha Hl. apply status_ok_bounds in Ha as (Hid & Hd & Hm & Hn); [ | assumption].
    cbn [ltd_encoded_size UnsubscribeAck_EncodeLtd]. unfold UnsubscribeAck_encoded_size, status_content.
    pose proof (len_nonneg (sa_status a)). pose proof Hl as Hl'. unfold MAX_VARINT in Hl'.
    rewrite reduce_limit_bounds by lia.
    replace (Z.max 0 (limit - (2 + len (sa_status a)))) with (status_limit limit a)
      by (unfold status_limit in *; lia).
    rewrite ack_props_size by assumption. autorewrite with len. f_equal. lia.
  - intros a limit Ha Hl _. now apply status_writes.
Defined.

(** ** Properties *)

(** The SUBSCRIBE encoder does not write what it counts: a subscription
    identifier takes five bytes where only its variable length is counted, and
    the user properties are counted but not written.  The content of the frame
    is therefore not as long as the frame says, unless the two differences
    cancel. *)
Theorem v5_subscribe_size_mismatch (s : Subscribe) (id : Z) (limit size : Z) :
  su_id s = Some id -> @wire_ok NonZeroU32 _ _ _ id = true ->
  users_ok (su_user_properties s) = true ->
  forallb (fun f => @wire_ok ByteString _ _ _ (fst f)) (su_topic_filters s) = true ->
  len (users_wire (su_user_properties s)) <= 2 ^ 24 ->
  exists out, writes (Subscribe_encode s size) out /\
    Subscribe_encoded_size s limit =
      Ok (len out - 5 + var_int_len id + len (users_wire (su_user_properties s))).
Proof.
  intros Hid Hok Hu Hf Hn. pose proof (len_nonneg (users_wire (su_user_properties s))).
  assert (Hv : 1 <= var_int_len id <= 5).
  { cbn in Hok. unfold is_u32 in Hok. bprop. rewrite var_int_len_log2, groups_thresholds by lia.
    repeat case_if; lia. }
  set (plen := var_int_len id + len (users_wire (su_user_properties s))).
  assert (Hp : 0 <= plen <= MAX_VARINT) by (unfold plen, MAX_VARINT; lia).
  exists (@wire NonZeroU16 _ _ _ (su_packet_id s) ++ varint plen ++ (pr_SUB_ID :: u32_be id) ++
          flat_map option_filter_wire (su_topic_filters s)). split.
  - unfold Subscribe_encode, sub_id_len. rewrite Hid, user_properties_size_wire by assumption.
    apply writes_seq; [exact (writes_u16 _) | ]. apply (writes_let _ _ plen).
    { unfold as_u32. rewrite Z.mod_small by lia. apply u32_add_Ok. lia. }
    apply writes_seq; [now apply write_variable_length_writes | ].
    apply writes_seq; [exact (writes_seq _ _ _ _ (writes_u8 _) (writes_u32 _)) | ].
    apply writes_for. intros f Hin. rewrite forallb_forall in Hf. apply Hf in Hin.
    apply writes_seq; [exact (wire_encode (T := ByteString) _ Hin) | apply writes_u8].
  - unfold Subscribe_encoded_size, sub_id_len. rewrite Hid, user_properties_size_wire by assumption.
    fold plen. rewrite (fold_left_len option_filter_wire).
    + rewrite !len_app, var_int_len_varint by assumption. autorewrite with len.
      change (@encoded_size NonZeroU16 _ _) with 2. f_equal. unfold plen. lia.
    + intros acc [t o]. unfold option_filter_wire. cbn. autorewrite with len.
      unfold bytes_encoded_size. lia.
Qed.

Lemma v5_subscribe_size_mismatch_witness :
  exists out,
    writes (Subscribe_encode {| su_packet_id := 1; su_id := Some 11; su_user_properties := [];
              su_topic_filters := [] |} 4) out /\
    Subscribe_encoded_size {| su_packet_id := 1; su_id := Some 11; su_user_properties := [];
              su_topic_filters := [] |} 100 = Ok (len out - 5 + 1 + 0).
Proof.
  apply (v5_subscribe_size_mismatch {| su_packet_id := 1; su_id := Some 11;
    su_user_properties := []; su_topic_filters := [] |} 11 100 4); try reflexivity.
  vm_compute. discriminate.
Defined.
