(* ===== verification/V5Disconnect.v ===== *)
(** * DISCONNECT and AUTH of MQTT 5
    (src/v5/codec/packet/disconnect.rs, src/v5/codec/packet/auth.rs) *)

From Stdlib Require Import ZArith List Bool Lia.
From S2P Require Import Prelude Types Wire V5Props.
Import ListNotations.
Open Scope Z_scope.

Inductive DisconnectReasonCode : Type :=
| DR_NormalDisconnection
| DR_DisconnectWithWillMessage
| DR_UnspecifiedError
| DR_MalformedPacket
| DR_ProtocolError
| DR_ImplementationSpecificError
| DR_NotAuthorized
| DR_ServerBusy
| DR_ServerShuttingDown
| DR_BadAuthenticationMethod
| DR_KeepAliveTimeout
| DR_SessionTakenOver
| DR_TopicFilterInvalid
| DR_TopicNameInvalid
| DR_ReceiveMaximumExceeded
| DR_TopicAliasInvalid
| DR_PacketTooLarge
| DR_MessageRateTooHigh
| DR_QuotaExceeded
| DR_AdministrativeAction
| DR_PayloadFormatInvalid
| DR_RetainNotSupported
| DR_QosNotSupported
| DR_UseAnotherServer
| DR_ServerMoved
| DR_SharedSubsriptionNotSupported
| DR_ConnectionRateExceeded
| DR_MaximumConnectTime
| DR_SubscriptionIdentifiersNotSupported
| DR_WildcardSubscriptionsNotSupported.

Definition DisconnectReasonCode_try_from (v : Z) : dres DisconnectReasonCode :=
  match v with
  | 0 => Ok DR_NormalDisconnection
  | 4 => Ok DR_DisconnectWithWillMessage
  | 128 => Ok DR_UnspecifiedError
  | 129 => Ok DR_MalformedPacket
  | 130 => Ok DR_ProtocolError
  | 131 => Ok DR_ImplementationSpecificError
  | 135 => Ok DR_NotAuthorized
  | 137 => Ok DR_ServerBusy
  | 139 => Ok DR_ServerShuttingDown
  | 140 => Ok DR_BadAuthenticationMethod
  | 141 => Ok DR_KeepAliveTimeout
  | 142 => Ok DR_SessionTakenOver
  | 143 => Ok DR_TopicFilterInvalid
  | 144 => Ok DR_TopicNameInvalid
  | 147 => Ok DR_ReceiveMaximumExceeded
  | 148 => Ok DR_TopicAliasInvalid
  | 149 => Ok DR_PacketTooLarge
  | 150 => Ok DR_MessageRateTooHigh
  | 151 => Ok DR_QuotaExceeded
  | 152 => Ok DR_AdministrativeAction
  | 153 => Ok DR_PayloadFormatInvalid
  | 154 => Ok DR_RetainNotSupported
  | 155 => Ok DR_QosNotSupported
  | 156 => Ok DR_UseAnotherServer
  | 157 => Ok DR_ServerMoved
  | 158 => Ok DR_SharedSubsriptionNotSupported
  | 159 => Ok DR_ConnectionRateExceeded
  | 160 => Ok DR_MaximumConnectTime
  | 161 => Ok DR_SubscriptionIdentifiersNotSupported
  | 162 => Ok DR_WildcardSubscriptionsNotSupported
  | _ => Err DMalformedPacket
  end.

Definition DisconnectReasonCode_into_u8 (r : DisconnectReasonCode) : Z :=
  match r with
  | DR_NormalDisconnection => 0
  | DR_DisconnectWithWillMessage => 4
  | DR_UnspecifiedError => 128
  | DR_MalformedPacket => 129
  | DR_ProtocolError => 130
  | DR_ImplementationSpecificError => 131
  | DR_NotAuthorized => 135
  | DR_ServerBusy => 137
  | DR_ServerShuttingDown => 139
  | DR_BadAuthenticationMethod => 140
  | DR_KeepAliveTimeout => 141
  | DR_SessionTakenOver => 142
  | DR_TopicFilterInvalid => 143
  | DR_TopicNameInvalid => 144
  | DR_ReceiveMaximumExceeded => 147
  | DR_TopicAliasInvalid => 148
  | DR_PacketTooLarge => 149
  | DR_MessageRateTooHigh => 150
  | DR_QuotaExceeded => 151
  | DR_AdministrativeAction => 152
  | DR_PayloadFormatInvalid => 153
  | DR_RetainNotSupported => 154
  | DR_QosNotSupported => 155
  | DR_UseAnotherServer => 156
  | DR_ServerMoved => 157
  | DR_SharedSubsriptionNotSupported => 158
  | DR_ConnectionRateExceeded => 159
  | DR_MaximumConnectTime => 160
  | DR_SubscriptionIdentifiersNotSupported => 161
  | DR_WildcardSubscriptionsNotSupported => 162
  end.

#[export, refine] Instance DisconnectReasonCode_prim : PrimEnum DisconnectReasonCode := {
  try_from := DisconnectReasonCode_try_from; into_u8 := DisconnectReasonCode_into_u8 }.
Proof. all: prim_enum_law. Defined.

Inductive AuthReasonCode : Type :=
| AR_Success
| AR_ContinueAuth
| AR_ReAuth.

Definition AuthReasonCode_try_from (v : Z) : dres AuthReasonCode :=
  match v with
  | 0 => Ok AR_Success
  | 24 => Ok AR_ContinueAuth
  | 25 => Ok AR_ReAuth
  | _ => Err DMalformedPacket
  end.

Definition AuthReasonCode_into_u8 (r : AuthReasonCode) : Z :=
  match r with
  | AR_Success => 0
  | AR_ContinueAuth => 24
  | AR_ReAuth => 25
  end.

#[export, refine] Instance AuthReasonCode_prim : PrimEnum AuthReasonCode := {
  try_from := AuthReasonCode_try_from; into_u8 := AuthReasonCode_into_u8 }.
Proof. all: prim_enum_law. Defined.

(** ** DISCONNECT *)

Record Disconnect : Type := mkDisconnect {
  di_reason_code : DisconnectReasonCode;
  di_session_expiry_interval_secs : option u32;
  di_server_reference : option ByteString;
  di_reason_string : option ByteString;
  di_user_properties : UserProperties;
}.

Definition Disconnect_new (reason_code : DisconnectReasonCode) : Disconnect :=
  {| di_reason_code := reason_code;
     di_session_expiry_interval_secs := None;
     di_server_reference := None;
     di_reason_string := None;
     di_user_properties := [] |}.

Definition Disconnect_default : Disconnect := Disconnect_new DR_NormalDisconnection.

(** The loop assigns the fields of the result. *)
Definition Disconnect_props_step (s : Disconnect) (src : bytes) : dres (Disconnect * bytes) :=
  let? '(id, src) := get_u8 src in
  if id =? pr_SESS_EXPIRY_INT then
    into_slot (di_session_expiry_interval_secs s)
      (fun v => { s with di_session_expiry_interval_secs := v }) src
  else if id =? pr_REASON_STRING then
    into_slot (di_reason_string s) (fun v => { s with di_reason_string := v }) src
  else if id =? pr_USER then
    push_user (di_user_properties s) (fun v => { s with di_user_properties := v }) src
  else if id =? pr_SERVER_REF then
    into_slot (di_server_reference s) (fun v => { s with di_server_reference := v }) src
  else Err DMalformedPacket.

Definition Disconnect_decode (src : bytes) : dres Disconnect :=
  if has_remaining src then
    let? '(b, src) := get_u8 src in
    let? reason_code := DisconnectReasonCode_try_from b in
    let? '(prop_src, src) := take_properties src in
    let? '(s, _) := while_remaining Disconnect_props_step (Disconnect_new reason_code) prop_src in
    ensure! negb (has_remaining src) else DInvalidLength in
    Ok s
  else Ok Disconnect_default.

Definition Disconnect_encoded_size (d : Disconnect) (limit : Z) : eres Z :=
  let header_len := 1 in
  let prop_len := encoded_property_size (di_session_expiry_interval_secs d) +
                  encoded_property_size (di_server_reference d) in
  let diag_len := encoded_size_opt_props (di_user_properties d) (di_reason_string d)
                    (reduce_limit limit (prop_len + header_len + 4)) in
  let prop_len := prop_len + diag_len in
  Ok (header_len + var_int_len prop_len + prop_len).

Definition Disconnect_encode (d : Disconnect) (size : Z) : ewriter :=
  wsized
    (put_u8 (DisconnectReasonCode_into_u8 (di_reason_code d)) >>
     let! size := u32_sub size 1 in
     let! prop_len := var_int_len_from_size size in
     write_variable_length prop_len >>
     encode_property (di_session_expiry_interval_secs d) pr_SESS_EXPIRY_INT >>
     encode_property (di_server_reference d) pr_SERVER_REF)
    (fun written =>
     let! size := u32_sub size (as_u32 written) in
     encode_opt_props (di_user_properties d) (di_reason_string d) size).

(** ** AUTH *)

Record Auth : Type := mkAuth {
  au_reason_code : AuthReasonCode;
  au_auth_method : option ByteString;
  au_auth_data : option Bytes;
  au_reason_string : option ByteString;
  au_user_properties : UserProperties;
}.

Definition Auth_new (reason_code : AuthReasonCode) : Auth :=
  {| au_reason_code := reason_code; au_auth_method := None; au_auth_data := None;
     au_reason_string := None; au_user_properties := [] |}.

Definition Auth_default : Auth := Auth_new AR_Success.

Definition Auth_props_step (s : Auth) (src : bytes) : dres (Auth * bytes) :=
  let? '(id, src) := get_u8 src in
  if id =? pr_AUTH_METHOD then
    into_slot (au_auth_method s) (fun v => { s with au_auth_method := v }) src
  else if id =? pr_AUTH_DATA then
    into_slot (au_auth_data s) (fun v => { s with au_auth_data := v }) src
  else if id =? pr_REASON_STRING then
    into_slot (au_reason_string s) (fun v => { s with au_reason_string := v }) src
  else if id =? pr_USER then
    push_user (au_user_properties s) (fun v => { s with au_user_properties := v }) src
  else Err DMalformedPacket.

Definition Auth_decode (src : bytes) : dres Auth :=
  if has_remaining src then
    ensure! 1 <? len src else DInvalidLength in
    let? '(b, src) := get_u8 src in
    let? reason_code := AuthReasonCode_try_from b in
    if negb (AuthReasonCode_into_u8 reason_code =? AuthReasonCode_into_u8 AR_Success)
       || has_remaining src
    then
      let? '(prop_src, src) := take_properties src in
      let? '(s, _) := while_remaining Auth_props_step (Auth_new reason_code) prop_src in
      ensure! negb (has_remaining src) else DInvalidLength in
      Ok s
    else Ok (Auth_new reason_code)
  else Ok Auth_default.

Definition Auth_encoded_size (a : Auth) (limit : Z) : eres Z :=
  let header_len := 1 in
  let prop_len := encoded_property_size (au_auth_method a) +
                  encoded_property_size (au_auth_data a) in
  let diag_len := encoded_size_opt_props (au_user_properties a) (au_reason_string a)
                    (reduce_limit limit (prop_len + header_len + 4)) in
  let prop_len := prop_len + diag_len in
  Ok (header_len + var_int_len prop_len + prop_len).

Definition Auth_encode (a : Auth) (size : Z) : ewriter :=
  wsized
    (put_u8 (AuthReasonCode_into_u8 (au_reason_code a)) >>
     let! size := u32_sub size 1 in
     let! prop_len := var_int_len_from_size size in
     write_variable_length prop_len >>
     encode_property (au_auth_method a) pr_AUTH_METHOD >>
     encode_property (au_auth_data a) pr_AUTH_DATA)
    (fun written =>
     let! size := u32_sub size (as_u32 written) in
     encode_opt_props (au_user_properties a) (au_reason_string a) size).

(** ** Specification *)

Definition disconnect_header (d : Disconnect) : bytes :=
  [DisconnectReasonCode_into_u8 (di_reason_code d)].

Definition disconnect_base (d : Disconnect) : bytes :=
  prop_wire pr_SESS_EXPIRY_INT (di_session_expiry_interval_secs d) ++
  prop_wire pr_SERVER_REF (di_server_reference d).

Definition disconnect_content (limit : Z) (d : Disconnect) : bytes :=
  diag_packet (disconnect_header d) (disconnect_base d) (di_user_properties d)
    (di_reason_string d) limit.

Definition disconnect_kept (limit : Z) (d : Disconnect) :=
  diag_kept (disconnect_header d) (disconnect_base d) (di_user_properties d)
    (di_reason_string d) limit.

Definition disconnect_trim (limit : Z) (d : Disconnect) : Disconnect :=
  { d with di_user_properties := fst (disconnect_kept limit d);
           di_reason_string := snd (disconnect_kept limit d) }.

Definition disconnect_ok (limit : Z) (d : Disconnect) : bool :=
  opt_ok (di_session_expiry_interval_secs d) && opt_ok (di_server_reference d) &&
  diag_ok (di_user_properties d) (di_reason_string d) &&
  (len (diag_props (disconnect_header d) (disconnect_base d) (di_user_properties d)
     (di_reason_string d) limit) <=? MAX_VARINT).

Definition auth_header (a : Auth) : bytes := [AuthReasonCode_into_u8 (au_reason_code a)].

Definition auth_base (a : Auth) : bytes :=
  prop_wire pr_AUTH_METHOD (au_auth_method a) ++ prop_wire pr_AUTH_DATA (au_auth_data a).

Definition auth_content (limit : Z) (a : Auth) : bytes :=
  diag_packet (auth_header a) (auth_base a) (au_user_properties a) (au_reason_string a) limit.

Definition auth_kept (limit : Z) (a : Auth) :=
  diag_kept (auth_header a) (auth_base a) (au_user_properties a) (au_reason_string a) limit.

Definition auth_trim (limit : Z) (a : Auth) : Auth :=
  { a with au_user_properties := fst (auth_kept limit a);
           au_reason_string := snd (auth_kept limit a) }.

Definition auth_ok (limit : Z) (a : Auth) : bool :=
  opt_ok (au_auth_method a) && opt_ok (au_auth_data a) &&
  diag_ok (au_user_properties a) (au_reason_string a) &&
  (len (diag_props (auth_header a) (auth_base a) (au_user_properties a)
     (au_reason_string a) limit) <=? MAX_VARINT).

#[export] Instance Disconnect_EncodeLtd : EncodeLtd Disconnect := {
  ltd_encoded_size := Disconnect_encoded_size; ltd_encode := Disconnect_encode }.

#[export, refine] Instance Disconnect_Ltd : Ltd Disconnect := {
  ltd_ok := disconnect_ok; ltd_content := disconnect_content }.
Proof.
  - intros d limit. unfold disconnect_ok. rewrite !andb_true_iff, Z.leb_le.
    intros [[[He Hs] Hd] Hp] Hl. cbn [ltd_encoded_size Disconnect_EncodeLtd].
    unfold Disconnect_encoded_size. f_equal.
    rewrite (encoded_property_size_wire _ pr_SESS_EXPIRY_INT), (encoded_property_size_wire _ pr_SERVER_REF)
      by assumption. rewrite <- len_app. now apply (diag_packet_size (disconnect_header d) (disconnect_base d)).
  - intros d limit. unfold disconnect_ok. rewrite !andb_true_iff, Z.leb_le.
    intros [[[He Hs] Hd] Hp] Hl _.
    apply (diag_packet_writes (disconnect_header d) (disconnect_base d) _ _ limit Hd Hl ltac:(easy) Hp
      (put_u8 (DisconnectReasonCode_into_u8 (di_reason_code d)))
      (fun prop_len => write_variable_length prop_len >>
         encode_property (di_session_expiry_interval_secs d) pr_SESS_EXPIRY_INT >>
         encode_property (di_server_reference d) pr_SERVER_REF)); [apply writes_u8 | ].
    intros n Hn. apply writes_seq; [now apply write_variable_length_writes | ].
    apply writes_seq; now apply encode_property_writes.
Defined.

#[export] Instance Auth_EncodeLtd : EncodeLtd Auth := {
  ltd_encoded_size := Auth_encoded_size; ltd_encode := Auth_encode }.

#[export, refine] Instance Auth_Ltd : Ltd Auth := {
  ltd_ok := auth_ok; ltd_content := auth_content }.
Proof.
  - intros d limit. unfold auth_ok. rewrite !andb_true_iff, Z.leb_le.
    intros [[[He Hs] Hd] Hp] Hl. cbn [ltd_encoded_size Auth_EncodeLtd].
    unfold Auth_encoded_size. f_equal.
    rewrite (encoded_property_size_wire _ pr_AUTH_METHOD), (encoded_property_size_wire _ pr_AUTH_DATA)
      by assumption. rewrite <- len_app. now apply (diag_packet_size (auth_header d) (auth_base d)).
  - intros d limit. unfold auth_ok. rewrite !andb_true_iff, Z.leb_le.
    intros [[[He Hs] Hd] Hp] Hl _.
    apply (diag_packet_writes (auth_header d) (auth_base d) _ _ limit Hd Hl ltac:(easy) Hp
      (put_u8 (AuthReasonCode_into_u8 (au_reason_code d)))
      (fun prop_len => write_variable_length prop_len >>
         encode_property (au_auth_method d) pr_AUTH_METHOD >>
         encode_property (au_auth_data d) pr_AUTH_DATA)); [apply writes_u8 | ].
    intros n Hn. apply writes_seq; [now apply write_variable_length_writes | ].
    apply writes_seq; now apply encode_property_writes.
Defined.

(** ** Decoding *)

Lemma Disconnect_props_step_progress s src s' rest :
  Disconnect_props_step s src = Ok (s', rest) -> (length rest < length src)%nat.
Proof. unfold Disconnect_props_step. intros H. prop_progress H. Qed.

Lemma Auth_props_step_progress s src s' rest :
  Auth_props_step s src = Ok (s', rest) -> (length rest < length src)%nat.
Proof. unfold Auth_props_step. intros H. prop_progress H. Qed.

Lemma Disconnect_decode_no_panic src : no_panic (Disconnect_decode src).
Proof.
  unfold Disconnect_decode. nopanic; [exact (try_from_no_panic (T := DisconnectReasonCode) _) | ].
  apply while_remaining_no_panic; [exact Disconnect_props_step_progress | ].
  intros s x r. unfold Disconnect_props_step. prop_no_panic.
Qed.

Lemma Auth_decode_no_panic src : no_panic (Auth_decode src).
Proof.
  unfold Auth_decode. nopanic; [exact (try_from_no_panic (T := AuthReasonCode) _) | ].
  apply while_remaining_no_panic; [exact Auth_props_step_progress | ].
  intros s x r. unfold Auth_props_step. prop_no_panic.
Qed.

Lemma Disconnect_decode_content limit d :
  disconnect_ok limit d = true ->
  Disconnect_decode (disconnect_content limit d) = Ok (disconnect_trim limit d).
Proof.
  unfold disconnect_ok. rewrite !andb_true_iff, Z.leb_le. intros [[[He Hs] Hd] Hp].
  unfold Disconnect_decode, disconnect_content, diag_packet.
  cbn [app has_remaining get_u8 obind disconnect_header].
  pose proof (try_from_into (di_reason_code d)) as Hrc.
  cbn [try_from into_u8 DisconnectReasonCode_prim] in Hrc. rewrite Hrc. cbn [obind]. rewrite <- (app_nil_r (props_block _)), take_props_block by assumption.
  cbn [obind]. unfold diag_props, disconnect_base, diag_wire. rewrite <- !app_assoc.
  fold (disconnect_base d). change (diag_kept _ _ _ _ _) with (disconnect_kept limit d).
  pose proof (kept_ok _ _ (Z.max 0 (limit - (len (disconnect_base d) + 1 + 4))) Hd) as Hk.
  change (kept _ _ _) with (disconnect_kept limit d) in Hk. unfold diag_ok in Hk.
  apply andb_true_iff in Hk as [Hk Hr]. unfold Disconnect_new.
  read_slot Disconnect_props_step_progress di_session_expiry_interval_secs.
  read_slot Disconnect_props_step_progress di_server_reference.
  read_users Disconnect_props_step_progress di_user_properties.
  rewrite <- (app_nil_r (prop_wire _ _)).
  read_slot Disconnect_props_step_progress di_reason_string.
  read_end. reflexivity.
Qed.

Lemma Auth_decode_content limit a :
  auth_ok limit a = true -> Auth_decode (auth_content limit a) = Ok (auth_trim limit a).
Proof.
  unfold auth_ok. rewrite !andb_true_iff, Z.leb_le. intros [[[He Hs] Hd] Hp].
  unfold Auth_decode, auth_content, diag_packet.
  cbn [app has_remaining get_u8 obind auth_header].
  rewrite (proj2 (Z.ltb_lt _ _)).
  2: { rewrite len_cons.
       match goal with |- context [props_block ?b] => pose proof (props_block_pos b) end. lia. }
  pose proof (try_from_into (au_reason_code a)) as Hrc.
  cbn [try_from into_u8 AuthReasonCode_prim] in Hrc. rewrite Hrc. cbn [obind].
  rewrite has_remaining_block, orb_true_r, <- (app_nil_r (props_block _)), take_props_block by assumption.
  cbn [obind]. unfold diag_props, auth_base, diag_wire. rewrite <- !app_assoc.
  fold (auth_base a). change (diag_kept _ _ _ _ _) with (auth_kept limit a).
  pose proof (kept_ok _ _ (Z.max 0 (limit - (len (auth_base a) + 1 + 4))) Hd) as Hk.
  change (kept _ _ _) with (auth_kept limit a) in Hk. unfold diag_ok in Hk.
  apply andb_true_iff in Hk as [Hk Hr]. unfold Auth_new.
  read_slot Auth_props_step_progress au_auth_method.
  read_slot Auth_props_step_progress au_auth_data.
  read_users Auth_props_step_progress au_user_properties.
  rewrite <- (app_nil_r (prop_wire _ _)).
  read_slot Auth_props_step_progress au_reason_string.
  read_end. reflexivity.
Qed.
