(* ===== verification/V5ConnAck.v ===== *)
(** * CONNACK of MQTT 5 (src/v5/codec/packet/connack.rs) *)

From Stdlib Require Import String ZArith List Bool Lia.
From S2P Require Import Prelude Types Wire V5Props.
Import ListNotations.
Open Scope list_scope.
Open Scope Z_scope.

Inductive ConnectAckReason : Type :=
| CR_Success
| CR_UnspecifiedError
| CR_MalformedPacket
| CR_ProtocolError
| CR_ImplementationSpecificError
| CR_UnsupportedProtocolVersion
| CR_ClientIdentifierNotValid
| CR_BadUserNameOrPassword
| CR_NotAuthorized
| CR_ServerUnavailable
| CR_ServerBusy
| CR_Banned
| CR_BadAuthenticationMethod
| CR_TopicNameInvalid
| CR_PacketTooLarge
| CR_QuotaExceeded
| CR_PayloadFormatInvalid
| CR_RetainNotSupported
| CR_QosNotSupported
| CR_UseAnotherServer
| CR_ServerMoved
| CR_ConnectionRateExceeded.

Definition ConnectAckReason_try_from (v : Z) : dres ConnectAckReason :=
  match v with
  | 0 => Ok CR_Success
  | 128 => Ok CR_UnspecifiedError
  | 129 => Ok CR_MalformedPacket
  | 130 => Ok CR_ProtocolError
  | 131 => Ok CR_ImplementationSpecificError
  | 132 => Ok CR_UnsupportedProtocolVersion
  | 133 => Ok CR_ClientIdentifierNotValid
  | 134 => Ok CR_BadUserNameOrPassword
  | 135 => Ok CR_NotAuthorized
  | 136 => Ok CR_ServerUnavailable
  | 137 => Ok CR_ServerBusy
  | 138 => Ok CR_Banned
  | 140 => Ok CR_BadAuthenticationMethod
  | 144 => Ok CR_TopicNameInvalid
  | 149 => Ok CR_PacketTooLarge
  | 151 => Ok CR_QuotaExceeded
  | 153 => Ok CR_PayloadFormatInvalid
  | 154 => Ok CR_RetainNotSupported
  | 155 => Ok CR_QosNotSupported
  | 156 => Ok CR_UseAnotherServer
  | 157 => Ok CR_ServerMoved
  | 159 => Ok CR_ConnectionRateExceeded
  | _ => Err DMalformedPacket
  end.

Definition ConnectAckReason_into_u8 (r : ConnectAckReason) : Z :=
  match r with
  | CR_Success => 0
  | CR_UnspecifiedError => 128
  | CR_MalformedPacket => 129
  | CR_ProtocolError => 130
  | CR_ImplementationSpecificError => 131
  | CR_UnsupportedProtocolVersion => 132
  | CR_ClientIdentifierNotValid => 133
  | CR_BadUserNameOrPassword => 134
  | CR_NotAuthorized => 135
  | CR_ServerUnavailable => 136
  | CR_ServerBusy => 137
  | CR_Banned => 138
  | CR_BadAuthenticationMethod => 140
  | CR_TopicNameInvalid => 144
  | CR_PacketTooLarge => 149
  | CR_QuotaExceeded => 151
  | CR_PayloadFormatInvalid => 153
  | CR_RetainNotSupported => 154
  | CR_QosNotSupported => 155
  | CR_UseAnotherServer => 156
  | CR_ServerMoved => 157
  | CR_ConnectionRateExceeded => 159
  end.

#[export, refine] Instance ConnectAckReason_prim : PrimEnum ConnectAckReason := {
  try_from := ConnectAckReason_try_from; into_u8 := ConnectAckReason_into_u8 }.
Proof. all: prim_enum_law. Defined.

(** [ConnectAckReason::reason] *)
Definition ConnectAckReason_reason (r : ConnectAckReason) : string :=
  match r with
  | CR_Success => "Connection Accepted"
  | CR_UnsupportedProtocolVersion => "protocol version is not supported"
  | CR_ClientIdentifierNotValid => "client identifier is invalid"
  | CR_ServerUnavailable => "Server unavailable"
  | CR_BadUserNameOrPassword => "bad user name or password"
  | CR_NotAuthorized => "not authorized"
  | _ => "Connection Refused"
  end%string.

Record ConnectAck : Type := mkConnectAck {
  ca_session_present : bool;
  ca_reason_code : ConnectAckReason;
  ca_session_expiry_interval_secs : option u32;
  ca_receive_max : option NonZeroU16;
  ca_max_qos : option QoS;
  ca_retain_available : option bool;
  ca_max_packet_size : option u32;
  ca_assigned_client_id : option ByteString;
  ca_topic_alias_max : u16;
  ca_reason_string : option ByteString;
  ca_user_properties : UserProperties;
  ca_wildcard_subscription_available : option bool;
  ca_subscription_identifiers_available : option bool;
  ca_shared_subscription_available : option bool;
  ca_server_keepalive_sec : option u16;
  ca_response_info : option ByteString;
  ca_server_reference : option ByteString;
  ca_auth_method : option ByteString;
  ca_auth_data : option Bytes;
}.

Definition ConnectAck_default : ConnectAck := {|
  ca_session_present := false;
  ca_reason_code := CR_Success;
  ca_session_expiry_interval_secs := None;
  ca_receive_max := None;
  ca_max_qos := None;
  ca_retain_available := None;
  ca_max_packet_size := None;
  ca_assigned_client_id := None;
  ca_topic_alias_max := 0;
  ca_reason_string := None;
  ca_user_properties := [];
  ca_wildcard_subscription_available := None;
  ca_subscription_identifiers_available := None;
  ca_shared_subscription_available := None;
  ca_server_keepalive_sec := None;
  ca_response_info := None;
  ca_server_reference := None;
  ca_auth_method := None;
  ca_auth_data := None |}.

(** The loop assigns the fields of the result, apart from [topic_alias_max],
    which is optional while it is being read. *)
Record ConnectAckProps : Type := mkConnectAckProps {
  cap_ack : ConnectAck;
  cap_topic_alias_max : option u16;
}.

(** The QoS of [pt::MAX_QOS] is not a [Decode] type: the arm checks the slot,
    the length and the value itself. *)
Definition max_qos_arm (slot : option QoS) (src : bytes) : dres (QoS * bytes) :=
  ensure! is_none slot else DMalformedPacket in
  ensure! has_remaining src else DInvalidLength in
  let? '(b, src) := get_u8 src in
  let? q := QoS_try_from b in
  Ok (q, src).

Definition ConnectAck_props_step (s : ConnectAckProps) (src : bytes)
    : dres (ConnectAckProps * bytes) :=
  let a := cap_ack s in
  let? '(id, src) := get_u8 src in
  if id =? pr_SESS_EXPIRY_INT then
    into_slot (ca_session_expiry_interval_secs a)
      (fun v => { s with cap_ack -> ca_session_expiry_interval_secs := v }) src
  else if id =? pr_RECEIVE_MAX then
    into_slot (ca_receive_max a) (fun v => { s with cap_ack -> ca_receive_max := v }) src
  else if id =? pr_MAX_QOS then
    let? '(q, src) := max_qos_arm (ca_max_qos a) src in
    Ok ({ s with cap_ack -> ca_max_qos := Some q }, src)
  else if id =? pr_RETAIN_AVAIL then
    into_slot (ca_retain_available a) (fun v => { s with cap_ack -> ca_retain_available := v }) src
  else if id =? pr_MAX_PACKET_SIZE then
    into_slot (ca_max_packet_size a) (fun v => { s with cap_ack -> ca_max_packet_size := v }) src
  else if id =? pr_ASSND_CLIENT_ID then
    into_slot (ca_assigned_client_id a)
      (fun v => { s with cap_ack -> ca_assigned_client_id := v }) src
  else if id =? pr_TOPIC_ALIAS_MAX then
    into_slot (cap_topic_alias_max s) (fun v => { s with cap_topic_alias_max := v }) src
  else if id =? pr_REASON_STRING then
    into_slot (ca_reason_string a) (fun v => { s with cap_ack -> ca_reason_string := v }) src
  else if id =? pr_USER then
    push_user (ca_user_properties a) (fun v => { s with cap_ack -> ca_user_properties := v }) src
  else if id =? pr_WILDCARD_SUB_AVAIL then
    into_slot (ca_wildcard_subscription_available a)
      (fun v => { s with cap_ack -> ca_wildcard_subscription_available := v }) src
  else if id =? pr_SUB_IDS_AVAIL then
    into_slot (ca_subscription_identifiers_available a)
      (fun v => { s with cap_ack -> ca_subscription_identifiers_available := v }) src
  else if id =? pr_SHARED_SUB_AVAIL then
    into_slot (ca_shared_subscription_available a)
      (fun v => { s with cap_ack -> ca_shared_subscription_available := v }) src
  else if id =? pr_SERVER_KA then
    into_slot (ca_server_keepalive_sec a)
      (fun v => { s with cap_ack -> ca_server_keepalive_sec := v }) src
  else if id =? pr_RESP_INFO then
    into_slot (ca_response_info a) (fun v => { s with cap_ack -> ca_response_info := v }) src
  else if id =? pr_SERVER_REF then
    into_slot (ca_server_reference a) (fun v => { s with cap_ack -> ca_server_reference := v }) src
  else if id =? pr_AUTH_METHOD then
    into_slot (ca_auth_method a) (fun v => { s with cap_ack -> ca_auth_method := v }) src
  else if id =? pr_AUTH_DATA then
    into_slot (ca_auth_data a) (fun v => { s with cap_ack -> ca_auth_data := v }) src
  else Err DMalformedPacket.

Definition or_zero (v : option u16) : u16 := match v with Some v => v | None => 0 end.

Definition ConnectAck_decode (src : bytes) : dres ConnectAck :=
  ensure! 2 <=? len src else DInvalidLength in
  let? '(b, src) := get_u8 src in
  let? flags := ok_or (ConnectAckFlags_from_bits b) DConnAckReservedFlagSet in
  let? '(b, src) := get_u8 src in
  let? reason_code := ConnectAckReason_try_from b in
  let? '(prop_src, src) := take_properties src in
  let? '(s, _) := while_remaining ConnectAck_props_step
    {| cap_ack := { ConnectAck_default with
                    ca_session_present := contains flags CA_SESSION_PRESENT;
                    ca_reason_code := reason_code };
       cap_topic_alias_max := None |} prop_src in
  ensure! negb (has_remaining src) else DInvalidLength in
  Ok { cap_ack s with ca_topic_alias_max := or_zero (cap_topic_alias_max s) }.

Definition ConnectAck_encoded_size (a : ConnectAck) (limit : Z) : eres Z :=
  let header_len := 2 in
  let prop_len :=
    encoded_property_size (ca_session_expiry_interval_secs a) +
    encoded_property_size (ca_receive_max a) +
    match ca_max_qos a with Some _ => 1 + 1 | None => 0 end +
    encoded_property_size (ca_retain_available a) +
    encoded_property_size (ca_max_packet_size a) +
    encoded_property_size (ca_assigned_client_id a) +
    encoded_property_size (ca_wildcard_subscription_available a) +
    encoded_property_size (ca_subscription_identifiers_available a) +
    encoded_property_size (ca_shared_subscription_available a) +
    encoded_property_size (ca_server_keepalive_sec a) +
    encoded_property_size (ca_response_info a) +
    encoded_property_size (ca_server_reference a) +
    encoded_property_size (ca_auth_method a) +
    encoded_property_size (ca_auth_data a) in
  let prop_len :=
    if 0 <? ca_topic_alias_max a
    then prop_len + (1 + @encoded_size u16 _ (ca_topic_alias_max a)) else prop_len in
  let diag_len := encoded_size_opt_props (ca_user_properties a) (ca_reason_string a)
                    (reduce_limit limit (header_len + 4 + prop_len)) in
  let prop_len := prop_len + diag_len in
  Ok (header_len + var_int_len prop_len + prop_len).

Definition ConnectAck_encode (a : ConnectAck) (size : Z) : ewriter :=
  wsized
    (put_slice [(if ca_session_present a then 1 else 0);
                ConnectAckReason_into_u8 (ca_reason_code a)] >>
     let! size := u32_sub size 2 in
     let! prop_len := var_int_len_from_size size in
     write_variable_length prop_len >>
     encode_property (ca_session_expiry_interval_secs a) pr_SESS_EXPIRY_INT >>
     encode_property (ca_receive_max a) pr_RECEIVE_MAX >>
     match ca_max_qos a with
     | Some max_qos => put_slice [pr_MAX_QOS; QoS_into_u8 max_qos]
     | None => wret
     end >>
     encode_property (ca_retain_available a) pr_RETAIN_AVAIL >>
     encode_property (ca_max_packet_size a) pr_MAX_PACKET_SIZE >>
     encode_property (ca_assigned_client_id a) pr_ASSND_CLIENT_ID >>
     encode_nonzero_property (ca_topic_alias_max a) pr_TOPIC_ALIAS_MAX >>
     encode_property (ca_wildcard_subscription_available a) pr_WILDCARD_SUB_AVAIL >>
     encode_property (ca_subscription_identifiers_available a) pr_SUB_IDS_AVAIL >>
     encode_property (ca_shared_subscription_available a) pr_SHARED_SUB_AVAIL >>
     encode_property (ca_server_keepalive_sec a) pr_SERVER_KA >>
     encode_property (ca_response_info a) pr_RESP_INFO >>
     encode_property (ca_server_reference a) pr_SERVER_REF >>
     encode_property (ca_auth_method a) pr_AUTH_METHOD >>
     encode_property (ca_auth_data a) pr_AUTH_DATA)
    (fun written =>
     let! size := u32_sub size (as_u32 written) in
     encode_opt_props (ca_user_properties a) (ca_reason_string a) size).

(** ** Specification *)

Definition max_qos_wire (q : option QoS) : bytes :=
  match q with Some q => [pr_MAX_QOS; QoS_into_u8 q] | None => [] end.

Definition connack_header (a : ConnectAck) : bytes :=
  [(if ca_session_present a then 1 else 0); ConnectAckReason_into_u8 (ca_reason_code a)].

Definition connack_base (a : ConnectAck) : bytes :=
  prop_wire pr_SESS_EXPIRY_INT (ca_session_expiry_interval_secs a) ++
  prop_wire pr_RECEIVE_MAX (ca_receive_max a) ++
  max_qos_wire (ca_max_qos a) ++
  prop_wire pr_RETAIN_AVAIL (ca_retain_available a) ++
  prop_wire pr_MAX_PACKET_SIZE (ca_max_packet_size a) ++
  prop_wire pr_ASSND_CLIENT_ID (ca_assigned_client_id a) ++
  prop_wire pr_TOPIC_ALIAS_MAX (nonzero_opt (ca_topic_alias_max a)) ++
  prop_wire pr_WILDCARD_SUB_AVAIL (ca_wildcard_subscription_available a) ++
  prop_wire pr_SUB_IDS_AVAIL (ca_subscription_identifiers_available a) ++
  prop_wire pr_SHARED_SUB_AVAIL (ca_shared_subscription_available a) ++
  prop_wire pr_SERVER_KA (ca_server_keepalive_sec a) ++
  prop_wire pr_RESP_INFO (ca_response_info a) ++
  prop_wire pr_SERVER_REF (ca_server_reference a) ++
  prop_wire pr_AUTH_METHOD (ca_auth_method a) ++
  prop_wire pr_AUTH_DATA (ca_auth_data a).

Definition connack_fields_ok (a : ConnectAck) : bool :=
  opt_ok (ca_session_expiry_interval_secs a) && opt_ok (ca_receive_max a) &&
  opt_ok (ca_retain_available a) && opt_ok (ca_max_packet_size a) &&
  opt_ok (ca_assigned_client_id a) && is_u16 (ca_topic_alias_max a) &&
  opt_ok (ca_wildcard_subscription_available a) &&
  opt_ok (ca_subscription_identifiers_available a) &&
  opt_ok (ca_shared_subscription_available a) && opt_ok (ca_server_keepalive_sec a) &&
  opt_ok (ca_response_info a) && opt_ok (ca_server_reference a) &&
  opt_ok (ca_auth_method a) && opt_ok (ca_auth_data a).

Definition connack_content (limit : Z) (a : ConnectAck) : bytes :=
  diag_packet (connack_header a) (connack_base a) (ca_user_properties a) (ca_reason_string a) limit.

Definition connack_kept (limit : Z) (a : ConnectAck) :=
  diag_kept (connack_header a) (connack_base a) (ca_user_properties a) (ca_reason_string a) limit.

Definition connack_trim (limit : Z) (a : ConnectAck) : ConnectAck :=
  { a with ca_user_properties := fst (connack_kept limit a);
           ca_reason_string := snd (connack_kept limit a) }.

Definition connack_ok (limit : Z) (a : ConnectAck) : bool :=
  connack_fields_ok a && diag_ok (ca_user_properties a) (ca_reason_string a) &&
  (len (diag_props (connack_header a) (connack_base a) (ca_user_properties a)
     (ca_reason_string a) limit) <=? MAX_VARINT).

Ltac split_fields H :=
  unfold connack_fields_ok in H; rewrite !andb_true_iff in H; decompose [and] H; clear H.

Lemma connack_base_writes a n :
  connack_fields_ok a = true -> 0 <= n <= MAX_VARINT ->
  writes
    (write_variable_length n >>
     encode_property (ca_session_expiry_interval_secs a) pr_SESS_EXPIRY_INT >>
     encode_property (ca_receive_max a) pr_RECEIVE_MAX >>
     match ca_max_qos a with
     | Some max_qos => put_slice [pr_MAX_QOS; QoS_into_u8 max_qos]
     | None => wret
     end >>
     encode_property (ca_retain_available a) pr_RETAIN_AVAIL >>
     encode_property (ca_max_packet_size a) pr_MAX_PACKET_SIZE >>
     encode_property (ca_assigned_client_id a) pr_ASSND_CLIENT_ID >>
     encode_nonzero_property (ca_topic_alias_max a) pr_TOPIC_ALIAS_MAX >>
     encode_property (ca_wildcard_subscription_available a) pr_WILDCARD_SUB_AVAIL >>
     encode_property (ca_subscription_identifiers_available a) pr_SUB_IDS_AVAIL >>
     encode_property (ca_shared_subscription_available a) pr_SHARED_SUB_AVAIL >>
     encode_property (ca_server_keepalive_sec a) pr_SERVER_KA >>
     encode_property (ca_response_info a) pr_RESP_INFO >>
     encode_property (ca_server_reference a) pr_SERVER_REF >>
     encode_property (ca_auth_method a) pr_AUTH_METHOD >>
     encode_property (ca_auth_data a) pr_AUTH_DATA)
    (varint n ++ connack_base a).
Proof.
  intros Hf Hn. split_fields Hf. apply writes_seq; [now apply write_variable_length_writes | ].
  unfold connack_base.
  repeat first
    [ apply writes_seq; [first [ now apply encode_property_writes | now apply encode_nonzero_writes
                               | destruct (ca_max_qos a); [apply writes_slice | apply writes_ret]] | ]
    | now apply encode_property_writes ].
Qed.

#[export] Instance ConnectAck_EncodeLtd : EncodeLtd ConnectAck := {
  ltd_encoded_size := ConnectAck_encoded_size; ltd_encode := ConnectAck_encode }.

#[export, refine] Instance ConnectAck_Ltd : Ltd ConnectAck := {
  ltd_ok := connack_ok; ltd_content := connack_content }.
Proof.
  - intros a limit. unfold connack_ok. rewrite !andb_true_iff, Z.leb_le.
    intros [[Hf Hd] Hp] Hl. cbn [ltd_encoded_size ConnectAck_EncodeLtd].
    pose proof (diag_packet_size (connack_header a) (connack_base a) _ _ limit Hd Hl Hp) as Hs.
    cbv zeta in Hs. change (len (connack_header a)) with 2 in Hs. unfold connack_content.
    rewrite <- Hs. unfold ConnectAck_encoded_size. cbv zeta.
    match goal with |- context [if 0 <? ?x then ?p + ?y else ?p] =>
      replace (if 0 <? x then p + y else p) with (len (connack_base a)) end.
    + now replace (2 + 4 + len (connack_base a)) with (len (connack_base a) + 2 + 4) by lia.
    + split_fields Hf. unfold connack_base. rewrite !len_app, len_nonzero_wire.
      rewrite <- !encoded_property_size_wire by assumption.
      change (@encoded_size u16 _ _) with 2. destruct (ca_max_qos a); cbn [max_qos_wire];
        autorewrite with len; case_if; lia.
  - intros a limit. unfold connack_ok. rewrite !andb_true_iff, Z.leb_le.
    intros [[Hf Hd] Hp] Hl _.
    apply (diag_packet_writes (connack_header a) (connack_base a) _ _ limit Hd Hl ltac:(easy) Hp
      (put_slice (connack_header a)) _ (writes_slice _)
      (fun n Hn => connack_base_writes a n Hf Hn)).
Defined.

(** ** Decoding *)

Lemma max_qos_arm_progress slot src q rest :
  max_qos_arm slot src = Ok (q, rest) -> (length rest < length src)%nat.
Proof.
  unfold max_qos_arm. intros H. repeat (case_if; [ | discriminate]).
  apply obind_Ok in H as ([b r] & Hb & H). apply get_u8_Ok in Hb as ->.
  apply obind_Ok in H as (q' & _ & H). injection H as <- <-. cbn. lia.
Qed.

Lemma ConnectAck_props_step_progress s src s' rest :
  ConnectAck_props_step s src = Ok (s', rest) -> (length rest < length src)%nat.
Proof.
  unfold ConnectAck_props_step. intros H. apply obind_Ok in H as ([id r] & Hid & H).
  apply get_u8_Ok in Hid as ->.
  repeat (case_if;
    [first [ apply into_slot_progress in H | apply push_user_progress in H
           | apply obind_Ok in H as ([q r'] & Hq & H); apply max_qos_arm_progress in Hq;
             injection H as <- <- ]; cbn [length]; lia | ]).
  discriminate.
Qed.

Lemma ConnectAck_decode_no_panic src : no_panic (ConnectAck_decode src).
Proof.
  unfold ConnectAck_decode. case_if; [ | easy].
  destruct src as [|b1 [|b2 src]]; try discriminate. cbn [get_u8 obind].
  nopanic; [exact (try_from_no_panic (T := ConnectAckReason) _) | ].
  apply while_remaining_no_panic; [exact ConnectAck_props_step_progress | ].
  intros s x r. unfold ConnectAck_props_step, max_qos_arm. prop_no_panic.
  exact (try_from_no_panic (T := QoS) _).
Qed.

(** The QoS property, in a loop whose slot is free. *)
Lemma while_max_qos s q rest :
  ca_max_qos (cap_ack s) = None ->
  while_remaining ConnectAck_props_step s (max_qos_wire q ++ rest) =
  while_remaining ConnectAck_props_step ({ s with cap_ack -> ca_max_qos := q }) rest.
Proof.
  intros Hs. destruct s as [a t], a. cbn in Hs. subst. destruct q as [q|]; [ | reflexivity].
  apply while_remaining_step; [exact ConnectAck_props_step_progress | easy | now destruct q].
Qed.

Lemma or_zero_nonzero v : is_u16 v = true -> or_zero (nonzero_opt v) = v.
Proof. unfold is_u16, nonzero_opt. intros H. bprop. case_if; bprop; [reflexivity | cbn; lia]. Qed.

Lemma ConnectAck_decode_content limit a :
  connack_ok limit a = true -> ConnectAck_decode (connack_content limit a) = Ok (connack_trim limit a).
Proof.
  unfold connack_ok. rewrite !andb_true_iff, Z.leb_le. intros [[Hf Hd] Hp].
  unfold ConnectAck_decode, connack_content, diag_packet. set (props := diag_props _ _ _ _ _) in *.
  cbn [app connack_header]. rewrite (proj2 (Z.leb_le _ _)).
  2: { rewrite !len_cons. pose proof (len_nonneg (props_block props)). lia. }
  cbn [get_u8 obind]. replace (ok_or (ConnectAckFlags_from_bits _) _)
    with (@Ok DecodeError _ (if ca_session_present a then 1 else 0)) by now destruct (ca_session_present a).
  cbn [get_u8 obind]. pose proof (try_from_into (ca_reason_code a)) as Hrc.
  cbn [try_from into_u8 ConnectAckReason_prim] in Hrc. rewrite Hrc. cbn [obind].
  rewrite <- (app_nil_r (props_block _)), take_props_block by assumption. cbn [obind].
  replace (contains _ _) with (ca_session_present a) by now destruct (ca_session_present a).
  subst props. unfold diag_props. change (diag_kept _ _ _ _ _) with (connack_kept limit a).
  pose proof (kept_ok _ _ (Z.max 0 (limit - (len (connack_base a) + 2 + 4))) Hd) as Hk.
  change (kept _ _ _) with (connack_kept limit a) in Hk. unfold diag_ok in Hk.
  apply andb_true_iff in Hk as [Hk Hr]. split_fields Hf.
  assert (Ht : opt_ok (nonzero_opt (ca_topic_alias_max a)) = true) by now apply nonzero_opt_ok.
  unfold diag_wire, connack_base. rewrite <- !app_assoc.
  match goal with |- context [while_remaining _ ?s _] => let s' := eval cbn in s in change s with s' end.
  read_slot_in ConnectAck_props_step_progress cap_ack ca_session_expiry_interval_secs.
  read_slot_in ConnectAck_props_step_progress cap_ack ca_receive_max.
  rewrite while_max_qos by reflexivity.
  read_slot_in ConnectAck_props_step_progress cap_ack ca_retain_available.
  read_slot_in ConnectAck_props_step_progress cap_ack ca_max_packet_size.
  read_slot_in ConnectAck_props_step_progress cap_ack ca_assigned_client_id.
  read_slot ConnectAck_props_step_progress cap_topic_alias_max.
  read_slot_in ConnectAck_props_step_progress cap_ack ca_wildcard_subscription_available.
  read_slot_in ConnectAck_props_step_progress cap_ack ca_subscription_identifiers_available.
  read_slot_in ConnectAck_props_step_progress cap_ack ca_shared_subscription_available.
  read_slot_in ConnectAck_props_step_progress cap_ack ca_server_keepalive_sec.
  read_slot_in ConnectAck_props_step_progress cap_ack ca_response_info.
  read_slot_in ConnectAck_props_step_progress cap_ack ca_server_reference.
  read_slot_in ConnectAck_props_step_progress cap_ack ca_auth_method.
  read_slot_in ConnectAck_props_step_progress cap_ack ca_auth_data.
  read_users_in ConnectAck_props_step_progress cap_ack ca_user_properties.
  rewrite <- (app_nil_r (prop_wire _ _)).
  read_slot_in ConnectAck_props_step_progress cap_ack ca_reason_string.
  read_end. cbn [has_remaining negb cap_topic_alias_max]. unfold constant.
  rewrite or_zero_nonzero by assumption. reflexivity.
Qed.
