(* ===== verification/V5Publish.v ===== *)
(** * PUBLISH of MQTT 5 (src/v5/codec/packet/publish.rs) *)

From Stdlib Require Import ZArith List Bool Lia.
From S2P Require Import Prelude Types Wire V5Props.
Import ListNotations.
Open Scope Z_scope.

Record PublishProperties : Type := mkPublishProperties {
  pp_topic_alias : option NonZeroU16;
  pp_correlation_data : option Bytes;
  pp_message_expiry_interval : option NonZeroU32;
  pp_content_type : option ByteString;
  pp_user_properties : UserProperties;
  pp_is_utf8_payload : option bool;
  pp_response_topic : option ByteString;
  pp_subscription_ids : option (list NonZeroU32);
}.

Definition PublishProperties_default : PublishProperties := {|
  pp_topic_alias := None;
  pp_correlation_data := None;
  pp_message_expiry_interval := None;
  pp_content_type := None;
  pp_user_properties := [];
  pp_is_utf8_payload := None;
  pp_response_topic := None;
  pp_subscription_ids := None |}.

Record Publish : Type := mkPublish {
  pu_dup : bool;
  pu_retain : bool;
  pu_qos : QoS;
  pu_packet_id : option NonZeroU16;
  pu_topic : ByteString;
  pu_payload : Bytes;
  pu_properties : PublishProperties;
}.

(** ** Decoding *)

(** [ids.get_or_insert_with(Vec::new).push(id)] *)
Definition push_id (ids : option (list NonZeroU32)) (id : NonZeroU32) : option (list NonZeroU32) :=
  Some (match ids with Some l => l | None => [] end ++ [id]).

Definition Publish_props_step (s : PublishProperties) (src : bytes)
    : dres (PublishProperties * bytes) :=
  let? '(id, src) := get_u8 src in
  if id =? pr_UTF8_PAYLOAD then
    into_slot (pp_is_utf8_payload s) (fun v => { s with pp_is_utf8_payload := v }) src
  else if id =? pr_MSG_EXPIRY_INT then
    into_slot (pp_message_expiry_interval s) (fun v => { s with pp_message_expiry_interval := v }) src
  else if id =? pr_CONTENT_TYPE then
    into_slot (pp_content_type s) (fun v => { s with pp_content_type := v }) src
  else if id =? pr_RESP_TOPIC then
    into_slot (pp_response_topic s) (fun v => { s with pp_response_topic := v }) src
  else if id =? pr_CORR_DATA then
    into_slot (pp_correlation_data s) (fun v => { s with pp_correlation_data := v }) src
  else if id =? pr_SUB_ID then
    let? '(v, src) := decode_variable_length_cursor src in
    let? v := ok_or (non_zero v) DMalformedPacket in
    Ok ({ s with pp_subscription_ids := push_id (pp_subscription_ids s) v }, src)
  else if id =? pr_TOPIC_ALIAS then
    into_slot (pp_topic_alias s) (fun v => { s with pp_topic_alias := v }) src
  else if id =? pr_USER then
    push_user (pp_user_properties s) (fun v => { s with pp_user_properties := v }) src
  else Err DMalformedPacket.

Definition parse_publish_properties (src : bytes) : dres (PublishProperties * bytes) :=
  let? '(prop_src, src) := take_properties src in
  let? '(s, _) := while_remaining Publish_props_step PublishProperties_default prop_src in
  Ok (s, src).

Definition Publish_decode (src : bytes) (packet_flags : Z) : dres Publish :=
  let? '(topic, src) := @decode ByteString _ src in
  let? qos := QoS_try_from (Z.shiftr (Z.land packet_flags 6) 1) in
  let? '(packet_id, src) := @decode_if NonZeroU16 _ (negb (QoS_eqb qos AtMostOnce)) src in
  let? '(properties, src) := parse_publish_properties src in
  Ok {| pu_dup := Z.land packet_flags 8 =? 8;
        pu_retain := Z.land packet_flags 1 =? 1;
        pu_qos := qos;
        pu_packet_id := packet_id;
        pu_topic := topic;
        pu_payload := src;
        pu_properties := properties |}.

(** ** Encoding *)

Definition PublishProperties_encoded_size (p : PublishProperties) (_limit : Z) : Z :=
  let prop_len :=
    encoded_property_size (pp_topic_alias p) +
    encoded_property_size (pp_correlation_data p) +
    encoded_property_size (pp_message_expiry_interval p) +
    encoded_property_size (pp_content_type p) +
    encoded_property_size (pp_is_utf8_payload p) +
    encoded_property_size (pp_response_topic p) +
    match pp_subscription_ids p with
    | Some v => fold_left (fun acc id => acc + 1 + var_int_len id) v 0
    | None => 0
    end +
    user_properties_size (pp_user_properties p) in
  prop_len + var_int_len prop_len.

Definition PublishProperties_encode (p : PublishProperties) (size : Z) : ewriter :=
  let! prop_len := var_int_len_from_size size in
  write_variable_length prop_len >>
  encode_property (pp_topic_alias p) pr_TOPIC_ALIAS >>
  encode_property (pp_correlation_data p) pr_CORR_DATA >>
  encode_property (pp_message_expiry_interval p) pr_MSG_EXPIRY_INT >>
  encode_property (pp_content_type p) pr_CONTENT_TYPE >>
  encode_property (pp_is_utf8_payload p) pr_UTF8_PAYLOAD >>
  encode_property (pp_response_topic p) pr_RESP_TOPIC >>
  match pp_subscription_ids p with
  | Some sub_ids => wfor sub_ids (fun sub_id => put_u8 pr_SUB_ID >> @encode NonZeroU32 _ sub_id)
  | None => wret
  end >>
  user_properties_encode (pp_user_properties p).

Definition Publish_encoded_size (p : Publish) (limit : Z) : eres Z :=
  let packet_id_size := if QoS_eqb (pu_qos p) AtMostOnce then 0 else 2 in
  Ok (@encoded_size ByteString _ (pu_topic p) + packet_id_size +
      PublishProperties_encoded_size (pu_properties p) limit + len (pu_payload p)).

Definition Publish_encode (p : Publish) (size : Z) : ewriter :=
  wsized
    (@encode ByteString _ (pu_topic p) >>
     (if QoS_eqb (pu_qos p) AtMostOnce
      then if is_some (pu_packet_id p) then wfail EMalformedPacket else wret
      else let! id := ok_or (pu_packet_id p) EPacketIdRequired in @encode NonZeroU16 _ id))
    (fun written =>
      let! size := u32_sub size (as_u32 (written + len (pu_payload p))) in
      PublishProperties_encode (pu_properties p) size >>
      put_slice (pu_payload p)).

(** ** Specification *)

Definition publish_props_wire (p : PublishProperties) : bytes :=
  prop_wire pr_TOPIC_ALIAS (pp_topic_alias p) ++
  prop_wire pr_CORR_DATA (pp_correlation_data p) ++
  prop_wire pr_MSG_EXPIRY_INT (pp_message_expiry_interval p) ++
  prop_wire pr_CONTENT_TYPE (pp_content_type p) ++
  prop_wire pr_UTF8_PAYLOAD (pp_is_utf8_payload p) ++
  prop_wire pr_RESP_TOPIC (pp_response_topic p) ++
  users_wire (pp_user_properties p).

(** Subscription identifiers are left out: the encoder writes them in a form
    that the decoder does not read. *)
Definition publish_props_ok (p : PublishProperties) : bool :=
  opt_ok (pp_topic_alias p) && opt_ok (pp_correlation_data p) &&
  opt_ok (pp_message_expiry_interval p) && opt_ok (pp_content_type p) &&
  opt_ok (pp_is_utf8_payload p) && opt_ok (pp_response_topic p) &&
  is_none (pp_subscription_ids p) && users_ok (pp_user_properties p).

Definition publish_header (p : Publish) : bytes :=
  @wire ByteString _ _ _ (pu_topic p) ++ opt_wire (pu_packet_id p).

Definition publish_content (_limit : Z) (p : Publish) : bytes :=
  publish_header p ++ props_block (publish_props_wire (pu_properties p)) ++ pu_payload p.

Definition publish_ok (_limit : Z) (p : Publish) : bool :=
  @wire_ok ByteString _ _ _ (pu_topic p) && opt_ok (pu_packet_id p) &&
  Bool.eqb (is_some (pu_packet_id p)) (negb (QoS_eqb (pu_qos p) AtMostOnce)) &&
  publish_props_ok (pu_properties p) &&
  (len (publish_props_wire (pu_properties p)) <=? MAX_VARINT).

Ltac split_publish_props H :=
  unfold publish_props_ok in H; rewrite !andb_true_iff in H; decompose [and] H; clear H.

Lemma publish_props_size p limit :
  publish_props_ok p = true -> len (publish_props_wire p) <= MAX_VARINT ->
  PublishProperties_encoded_size p limit = len (props_block (publish_props_wire p)).
Proof.
  intros Hf Hl. rewrite len_props_block by assumption. unfold PublishProperties_encoded_size. cbv zeta.
  match goal with |- ?x + var_int_len ?x = _ => replace x with (len (publish_props_wire p)) end; [lia | ].
  split_publish_props Hf. unfold publish_props_wire. rewrite !len_app.
  rewrite <- !encoded_property_size_wire by assumption.
  rewrite user_properties_size_wire by assumption.
  destruct (pp_subscription_ids p); [discriminate | lia].
Qed.

Lemma publish_props_writes p :
  publish_props_ok p = true -> len (publish_props_wire p) <= MAX_VARINT ->
  writes (PublishProperties_encode p (len (props_block (publish_props_wire p))))
    (props_block (publish_props_wire p)).
Proof.
  intros Hf Hl. unfold PublishProperties_encode. pose proof (len_nonneg (publish_props_wire p)).
  apply (writes_let _ _ (len (publish_props_wire p))); [now apply from_size_block | ].
  split_publish_props Hf. apply writes_seq; [apply write_variable_length_writes; lia | ].
  unfold publish_props_wire.
  do 6 (apply writes_seq; [now apply encode_property_writes | ]).
  destruct (pp_subscription_ids p); [discriminate | ].
  rewrite <- (app_nil_l (users_wire _)). apply writes_seq; [apply writes_ret | ].
  now apply user_properties_encode_writes.
Qed.

#[export] Instance Publish_EncodeLtd : EncodeLtd Publish := {
  ltd_encoded_size := Publish_encoded_size; ltd_encode := Publish_encode }.

Lemma publish_header_writes p :
  @wire_ok ByteString _ _ _ (pu_topic p) = true -> opt_ok (pu_packet_id p) = true ->
  is_some (pu_packet_id p) = negb (QoS_eqb (pu_qos p) AtMostOnce) ->
  writes
    (@encode ByteString _ (pu_topic p) >>
     (if QoS_eqb (pu_qos p) AtMostOnce
      then if is_some (pu_packet_id p) then wfail EMalformedPacket else wret
      else let! id := ok_or (pu_packet_id p) EPacketIdRequired in @encode NonZeroU16 _ id))
    (publish_header p).
Proof.
  intros Ht Hid Hq. apply writes_seq; [exact (wire_encode (T := ByteString) _ Ht) | ].
  destruct (QoS_eqb (pu_qos p) AtMostOnce), (pu_packet_id p) as [id|]; try discriminate;
    [apply writes_ret | exact (wire_encode (T := NonZeroU16) _ Hid)].
Qed.

#[export, refine] Instance Publish_Ltd : Ltd Publish := {
  ltd_ok := publish_ok; ltd_content := publish_content }.
Proof.
  - intros p limit. unfold publish_ok. rewrite !andb_true_iff, Z.leb_le.
    intros [[[[Ht Hid] Hq] Hf] Hp] Hl. apply eqb_prop in Hq.
    cbn [ltd_encoded_size Publish_EncodeLtd]. unfold Publish_encoded_size. f_equal.
    rewrite publish_props_size by assumption. unfold publish_content, publish_header.
    rewrite (wire_size (T := ByteString)) by assumption. rewrite !len_app.
    destruct (QoS_eqb (pu_qos p) AtMostOnce), (pu_packet_id p) as [id|]; try discriminate;
      cbn [opt_wire]; autorewrite with len; lia.
  - intros p limit. unfold publish_ok. rewrite !andb_true_iff, Z.leb_le.
    intros [[[[Ht Hid] Hq] Hf] Hp] Hl Hn. apply eqb_prop in Hq.
    set (size := len (publish_content limit p)) in *. unfold publish_content.
    apply writes_sized; [now apply publish_header_writes | ].
    pose proof (len_nonneg (publish_header p)). pose proof (len_nonneg (pu_payload p)).
    set (b := props_block _) in *. pose proof (len_nonneg b).
    assert (Hs : size = len (publish_header p) + len b + len (pu_payload p))
      by (subst size; unfold publish_content; fold b; rewrite !len_app; lia).
    unfold MAX_VARINT in Hn. apply (writes_let _ _ (len b)).
    + unfold as_u32. rewrite Z.mod_small by lia. rewrite u32_sub_Ok by lia. f_equal. lia.
    + apply writes_seq; [now apply publish_props_writes | apply writes_slice].
Defined.

(** ** Decoding gives the packet back *)

Lemma Publish_props_step_progress s src s' rest :
  Publish_props_step s src = Ok (s', rest) -> (length rest < length src)%nat.
Proof.
  unfold Publish_props_step. intros H. apply obind_Ok in H as ([id r] & Hid & H).
  apply get_u8_Ok in Hid as ->.
  repeat (case_if;
    [first [ apply into_slot_progress in H | apply push_user_progress in H
           | apply obind_Ok in H as ([v r'] & Hv & H);
             apply decode_varint_bounds in Hv as (_ & read & -> & _);
             apply obind_Ok in H as (v' & _ & H);
             injection H as <- <-; rewrite ?length_app ]; cbn [length]; rewrite ?length_app; lia | ]).
  discriminate.
Qed.

Lemma Publish_decode_no_panic src fl : no_panic (Publish_decode src fl).
Proof.
  unfold Publish_decode, parse_publish_properties.
  nopanic; [exact (try_from_no_panic (T := QoS) _) | ].
  apply while_remaining_no_panic; [exact Publish_props_step_progress | ].
  intros s x r. unfold Publish_props_step. prop_no_panic.
Qed.

Lemma parse_publish_properties_wire p rest :
  publish_props_ok p = true -> len (publish_props_wire p) <= MAX_VARINT ->
  parse_publish_properties (props_block (publish_props_wire p) ++ rest) = Ok (p, rest).
Proof.
  intros Hf Hp. unfold parse_publish_properties. rewrite take_props_block by assumption.
  cbn [obind]. split_publish_props Hf. unfold publish_props_wire, PublishProperties_default.
  read_slot Publish_props_step_progress pp_topic_alias.
  read_slot Publish_props_step_progress pp_correlation_data.
  read_slot Publish_props_step_progress pp_message_expiry_interval.
  read_slot Publish_props_step_progress pp_content_type.
  read_slot Publish_props_step_progress pp_is_utf8_payload.
  read_slot Publish_props_step_progress pp_response_topic.
  rewrite <- (app_nil_r (users_wire _)).
  read_users Publish_props_step_progress pp_user_properties.
  read_end. destruct p as [? ? ? ? ? ? ? [ids|]]; [discriminate | reflexivity].
Qed.

Lemma Publish_decode_content limit p :
  publish_ok limit p = true ->
  Publish_decode (publish_content limit p)
    (Z.land (publish_first_byte (pu_qos p) (pu_dup p) (pu_retain p)) 15) = Ok p.
Proof.
  unfold publish_ok. rewrite !andb_true_iff, Z.leb_le.
  intros [[[[Ht Hid] Hq] Hf] Hp]. apply eqb_prop in Hq.
  pose proof (publish_first_byte_parts (pu_qos p) (pu_dup p) (pu_retain p)) as (_ & Pq & Pd & Pr & _).
  unfold Publish_decode, publish_content, publish_header. rewrite <- app_assoc.
  read_wire ByteString. rewrite Pq. cbn [obind].
  rewrite <- Hq, (decode_if_wire (T := NonZeroU16)) by assumption. cbn [obind].
  rewrite parse_publish_properties_wire by assumption. cbn [obind]. rewrite Pd, Pr. now destruct p.
Qed.

(** ** Properties *)

(** The bytes the encoder writes for the subscription identifiers, and the
    number that it counts. *)
Definition ids_written (p : PublishProperties) : bytes :=
  match pp_subscription_ids p with
  | Some ids => flat_map (fun id => pr_SUB_ID :: u32_be id) ids
  | None => []
  end.

Lemma ids_counted ids :
  forallb (fun id => (0 <? id) && (id <? 2 ^ 21)) ids = true -> forall acc,
  let c := fold_left (fun acc id => acc + 1 + var_int_len id) ids acc in
  acc + 2 * len ids <= c /\ c + len ids <= acc + len (flat_map (fun id => pr_SUB_ID :: u32_be id) ids).
Proof.
  induction ids as [|id ids IH]; intros Hr acc; cbn [fold_left flat_map]; cbv zeta;
    [autorewrite with len; lia | ].
  cbn [forallb] in Hr. apply andb_true_iff in Hr as [Hid Hr].
  specialize (IH Hr (acc + 1 + var_int_len id)). cbv zeta in IH.
  rewrite len_app, !len_cons, len_u32_be. bprop.
  assert (1 <= var_int_len id <= 3); [ | lia].
  rewrite var_int_len_log2, groups_thresholds by lia. repeat case_if; bprop; lia.
Qed.

Lemma var_int_len_nonneg n : 0 <= var_int_len n.
Proof.
  unfold var_int_len.
  destruct (nth_in_or_default (Z.to_nat (leading_zeros 64 n)) VAR_INT_LEN_MAP_64 0) as [H | ->]; [ | lia].
  assert (Hf : forallb (Z.leb 0) VAR_INT_LEN_MAP_64 = true) by reflexivity.
  rewrite forallb_forall in Hf. now apply Z.leb_le, Hf.
Qed.

(** The size that is computed, with the identifiers as they are counted. *)
Lemma publish_ids_size p ids limit :
  publish_props_ok ({ p with pp_subscription_ids := None }) = true -> pp_subscription_ids p = Some ids ->
  let n := len (publish_props_wire p) + fold_left (fun acc id => acc + 1 + var_int_len id) ids 0 in
  PublishProperties_encoded_size p limit = var_int_len n + n.
Proof.
  intros Hok Hids n. unfold PublishProperties_encoded_size. cbv zeta. rewrite Hids.
  match goal with |- ?x + var_int_len ?x = _ => replace x with n end; [lia | ].
  split_publish_props Hok. cbn in *. unfold constant in *. unfold n, publish_props_wire.
  rewrite !len_app. rewrite <- !encoded_property_size_wire by assumption.
  rewrite user_properties_size_wire by assumption. lia.
Qed.

(** The bytes that are written for a block announced with length [n]. *)
Lemma publish_ids_writes p ids n :
  publish_props_ok ({ p with pp_subscription_ids := None }) = true -> pp_subscription_ids p = Some ids ->
  0 <= n <= MAX_VARINT ->
  exists out, writes (PublishProperties_encode p (var_int_len n + n)) (varint n ++ out) /\
    len out = len (publish_props_wire p) + len (ids_written p).
Proof.
  intros Hok Hids Hn. split_publish_props Hok. cbn in *. unfold constant in *.
  eexists. split.
  - apply (writes_let _ _ n); [now apply var_int_len_from_size_spec | ].
    apply writes_seq; [now apply write_variable_length_writes | ].
    do 6 (apply writes_seq; [now apply encode_property_writes | ]).
    apply writes_seq; [ | now apply user_properties_encode_writes].
    rewrite Hids. apply (writes_for _ (fun id => pr_SUB_ID :: u32_be id)). intros id _.
    exact (writes_seq _ _ _ _ (writes_u8 _) (writes_u32 _)).
  - unfold publish_props_wire, ids_written. rewrite Hids, !len_app. cbn [app]. lia.
Qed.

(** The PUBLISH encoder counts a subscription identifier as a type byte
    and a variable length integer but writes the type byte and four bytes:
    each identifier below 2^21 makes the property block longer than the
    length in front of it. *)
Theorem v5_publish_ids_size_mismatch (p : PublishProperties) (ids : list Z) (limit : Z) :
  publish_props_ok ({ p with pp_subscription_ids := None }) = true ->
  pp_subscription_ids p = Some ids ->
  forallb (fun id => (0 <? id) && (id <? 2 ^ 21)) ids = true -> ids <> [] ->
  PublishProperties_encoded_size p limit <= MAX_VARINT ->
  exists n out,
    PublishProperties_encoded_size p limit = var_int_len n + n /\ 0 <= n /\
    writes (PublishProperties_encode p (PublishProperties_encoded_size p limit)) (varint n ++ out) /\
    n < len out.
Proof.
  intros Hok Hids Hr Hne Hs. rewrite (publish_ids_size p ids limit Hok Hids) in *.
  pose proof (ids_counted ids Hr 0) as Hc. cbv zeta in Hc.
  set (c := fold_left _ ids 0) in *. pose proof (len_nonneg (publish_props_wire p)).
  assert (0 < len ids) by (destruct ids; [easy | rewrite len_cons; pose proof (len_nonneg ids); lia]).
  pose proof (var_int_len_nonneg (len (publish_props_wire p) + c)).
  destruct (publish_ids_writes p ids (len (publish_props_wire p) + c) Hok Hids ltac:(lia)) as (out & Hw & Ho).
  exists (len (publish_props_wire p) + c), out. unfold ids_written in Ho. rewrite Hids in Ho.
  repeat split; auto; lia.
Qed.

Lemma v5_publish_ids_size_mismatch_witness :
  let p := { PublishProperties_default with pp_subscription_ids := Some [5; 300] } in
  exists n out,
    PublishProperties_encoded_size p 100 = var_int_len n + n /\ 0 <= n /\
    writes (PublishProperties_encode p (PublishProperties_encoded_size p 100)) (varint n ++ out) /\
    n < len out.
Proof.
  apply (v5_publish_ids_size_mismatch ({ PublishProperties_default with
    pp_subscription_ids := Some [5; 300] }) [5; 300] 100); try reflexivity; [discriminate | ].
  vm_compute. discriminate.
Defined.
