(* ===== verification/V5Connect.v ===== *)
(** * CONNECT of MQTT 5 (src/v5/codec/packet/connect.rs) *)

From Stdlib Require Import ZArith List Bool Lia.
From S2P Require Import Prelude Types Wire V5Props.
Import ListNotations.
Open Scope Z_scope.

Record LastWill : Type := mkLastWill {
  lw_qos : QoS;
  lw_retain : bool;
  lw_topic : ByteString;
  lw_message : Bytes;
  lw_will_delay_interval_sec : option u32;
  lw_correlation_data : option Bytes;
  lw_message_expiry_interval : option NonZeroU32;
  lw_content_type : option ByteString;
  lw_user_properties : UserProperties;
  lw_is_utf8_payload : option bool;
  lw_response_topic : option ByteString;
}.

Record Connect : Type := mkConnect {
  co_clean_start : bool;
  co_keep_alive : u16;
  co_session_expiry_interval_secs : option u32;
  co_auth_method : option ByteString;
  co_auth_data : option Bytes;
  co_request_problem_info : bool;
  co_request_response_info : bool;
  co_receive_max : option NonZeroU16;
  co_topic_alias_max : u16;
  co_user_properties : UserProperties;
  co_max_packet_size : option NonZeroU32;
  co_last_will : option LastWill;
  co_client_id : ByteString;
  co_username : option ByteString;
  co_password : option Bytes;
}.

Definition Connect_default : Connect := {|
  co_clean_start := false;
  co_keep_alive := 0;
  co_session_expiry_interval_secs := None;
  co_auth_method := None;
  co_auth_data := None;
  co_request_problem_info := true;
  co_request_response_info := false;
  co_receive_max := None;
  co_topic_alias_max := 0;
  co_user_properties := [];
  co_max_packet_size := None;
  co_last_will := None;
  co_client_id := [];
  co_username := None;
  co_password := None |}.

Definition Connect_receive_max (c : Connect) (max : u16) : Connect :=
  { c with co_receive_max := non_zero max }.

(** ** Decoding *)

Record WillProps : Type := mkWillProps {
  wp_will_delay_interval_sec : option u32;
  wp_correlation_data : option Bytes;
  wp_message_expiry_interval : option NonZeroU32;
  wp_content_type : option ByteString;
  wp_user_properties : UserProperties;
  wp_is_utf8_payload : option bool;
  wp_response_topic : option ByteString;
}.

Definition Will_props_step (s : WillProps) (src : bytes) : dres (WillProps * bytes) :=
  let? '(id, src) := get_u8 src in
  if id =? pr_WILL_DELAY_INT then
    into_slot (wp_will_delay_interval_sec s) (fun v => { s with wp_will_delay_interval_sec := v }) src
  else if id =? pr_CORR_DATA then
    into_slot (wp_correlation_data s) (fun v => { s with wp_correlation_data := v }) src
  else if id =? pr_MSG_EXPIRY_INT then
    into_slot (wp_message_expiry_interval s) (fun v => { s with wp_message_expiry_interval := v }) src
  else if id =? pr_CONTENT_TYPE then
    into_slot (wp_content_type s) (fun v => { s with wp_content_type := v }) src
  else if id =? pr_UTF8_PAYLOAD then
    into_slot (wp_is_utf8_payload s) (fun v => { s with wp_is_utf8_payload := v }) src
  else if id =? pr_RESP_TOPIC then
    into_slot (wp_response_topic s) (fun v => { s with wp_response_topic := v }) src
  else if id =? pr_USER then
    push_user (wp_user_properties s) (fun v => { s with wp_user_properties := v }) src
  else Err DMalformedPacket.

Definition decode_last_will (src : bytes) (flags : Z) : dres (LastWill * bytes) :=
  let? '(prop_src, src) := take_properties src in
  let? '(s, _) := while_remaining Will_props_step
    {| wp_will_delay_interval_sec := None; wp_correlation_data := None;
       wp_message_expiry_interval := None; wp_content_type := None;
       wp_user_properties := []; wp_is_utf8_payload := None; wp_response_topic := None |}
    prop_src in
  let? '(topic, src) := @decode ByteString _ src in
  let? '(message, src) := @decode Bytes _ src in
  let? qos := will_qos flags in
  Ok ({| lw_qos := qos;
         lw_retain := contains flags CF_WILL_RETAIN;
         lw_topic := topic;
         lw_message := message;
         lw_will_delay_interval_sec := wp_will_delay_interval_sec s;
         lw_correlation_data := wp_correlation_data s;
         lw_message_expiry_interval := wp_message_expiry_interval s;
         lw_content_type := wp_content_type s;
         lw_user_properties := wp_user_properties s;
         lw_is_utf8_payload := wp_is_utf8_payload s;
         lw_response_topic := wp_response_topic s |}, src).

(** The local variables that the property loop of [Connect::decode] fills. *)
Record ConnectProps : Type := mkConnectProps {
  cp_session_expiry_interval_secs : option u32;
  cp_auth_method : option ByteString;
  cp_auth_data : option Bytes;
  cp_request_problem_info : option bool;
  cp_request_response_info : option bool;
  cp_receive_max : option NonZeroU16;
  cp_topic_alias_max : option u16;
  cp_user_properties : UserProperties;
  cp_max_packet_size : option NonZeroU32;
}.

Definition Connect_props_step (s : ConnectProps) (src : bytes) : dres (ConnectProps * bytes) :=
  let? '(id, src) := get_u8 src in
  if id =? pr_SESS_EXPIRY_INT then
    into_slot (cp_session_expiry_interval_secs s)
      (fun v => { s with cp_session_expiry_interval_secs := v }) src
  else if id =? pr_AUTH_METHOD then
    into_slot (cp_auth_method s) (fun v => { s with cp_auth_method := v }) src
  else if id =? pr_AUTH_DATA then
    into_slot (cp_auth_data s) (fun v => { s with cp_auth_data := v }) src
  else if id =? pr_REQ_PROB_INFO then
    into_slot (cp_request_problem_info s) (fun v => { s with cp_request_problem_info := v }) src
  else if id =? pr_REQ_RESP_INFO then
    into_slot (cp_request_response_info s) (fun v => { s with cp_request_response_info := v }) src
  else if id =? pr_RECEIVE_MAX then
    into_slot (cp_receive_max s) (fun v => { s with cp_receive_max := v }) src
  else if id =? pr_TOPIC_ALIAS_MAX then
    into_slot (cp_topic_alias_max s) (fun v => { s with cp_topic_alias_max := v }) src
  else if id =? pr_USER then
    push_user (cp_user_properties s) (fun v => { s with cp_user_properties := v }) src
  else if id =? pr_MAX_PACKET_SIZE then
    into_slot (cp_max_packet_size s) (fun v => { s with cp_max_packet_size := v }) src
  else Err DMalformedPacket.

Definition unwrap_or {A} (o : option A) (d : A) : A := match o with Some v => v | None => d end.

Definition Connect_decode (src : bytes) : dres Connect :=
  ensure! 10 <=? len src else DInvalidLength in
  let? '(n, src) := get_u16 src in
  let? same := is_mqtt_name n src in
  ensure! same else DInvalidProtocol in
  let? src := advance 4 src in
  let? '(level, src) := get_u8 src in
  ensure! level =? MQTT_LEVEL_5 else DUnsupportedProtocolLevel in
  let? '(b, src) := get_u8 src in
  let? flags := ok_or (ConnectFlags_from_bits b) DConnectReservedFlagSet in
  let? '(keep_alive, src) := get_u16 src in
  let? '(prop_src, src) := take_properties src in
  let? '(s, _) := while_remaining Connect_props_step
    {| cp_session_expiry_interval_secs := None; cp_auth_method := None; cp_auth_data := None;
       cp_request_problem_info := None; cp_request_response_info := None;
       cp_receive_max := None; cp_topic_alias_max := None; cp_user_properties := [];
       cp_max_packet_size := None |} prop_src in
  let? '(client_id, src) := @decode ByteString _ src in
  ensure! has_remaining client_id || contains flags CF_CLEAN_START else DInvalidClientId in
  let? '(last_will, src) :=
    if contains flags CF_WILL
    then let? '(w, src) := decode_last_will src flags in Ok (Some w, src)
    else Ok (None, src) in
  let? '(username, src) := @decode_if ByteString _ (contains flags CF_USERNAME) src in
  let? '(password, src) := @decode_if Bytes _ (contains flags CF_PASSWORD) src in
  Ok {| co_clean_start := contains flags CF_CLEAN_START;
        co_keep_alive := keep_alive;
        co_session_expiry_interval_secs := cp_session_expiry_interval_secs s;
        co_auth_method := cp_auth_method s;
        co_auth_data := cp_auth_data s;
        co_request_problem_info := unwrap_or (cp_request_problem_info s) true;
        co_request_response_info := unwrap_or (cp_request_response_info s) false;
        co_receive_max := cp_receive_max s;
        co_topic_alias_max := unwrap_or (cp_topic_alias_max s) 0;
        co_user_properties := cp_user_properties s;
        co_max_packet_size := cp_max_packet_size s;
        co_last_will := last_will;
        co_client_id := client_id;
        co_username := username;
        co_password := password |}.

(** ** Encoding *)

Definition LastWill_properties_len (w : LastWill) : Z :=
  encoded_property_size (lw_will_delay_interval_sec w) +
  encoded_property_size (lw_correlation_data w) +
  encoded_property_size (lw_message_expiry_interval w) +
  encoded_property_size (lw_content_type w) +
  encoded_property_size (lw_is_utf8_payload w) +
  encoded_property_size (lw_response_topic w) +
  user_properties_size (lw_user_properties w).

Definition Connect_properties_len (c : Connect) : Z :=
  let prop_len :=
    encoded_property_size (co_session_expiry_interval_secs c) +
    encoded_property_size (co_auth_method c) +
    encoded_property_size (co_auth_data c) +
    encoded_bool_property_size (co_request_problem_info c) true +
    encoded_bool_property_size (co_request_response_info c) false +
    encoded_property_size (co_receive_max c) +
    encoded_property_size (co_max_packet_size c) +
    user_properties_size (co_user_properties c) in
  if 0 <? co_topic_alias_max c
  then prop_len + (1 + @encoded_size u16 _ (co_topic_alias_max c)) else prop_len.

Definition Connect_encoded_size (c : Connect) (_limit : Z) : eres Z :=
  let prop_len := Connect_properties_len c in
  Ok (6 + 1 + 1 + 2 + var_int_len prop_len + prop_len +
      @encoded_size ByteString _ (co_client_id c) +
      match co_last_will c with
      | Some will =>
          let prop_len := LastWill_properties_len will in
          var_int_len prop_len + prop_len + @encoded_size ByteString _ (lw_topic will) +
          @encoded_size Bytes _ (lw_message will)
      | None => 0
      end +
      match co_username c with Some v => @encoded_size ByteString _ v | None => 0 end +
      match co_password c with Some v => @encoded_size Bytes _ v | None => 0 end).

Definition Connect_flags_byte (c : Connect) : Z :=
  connect_flags (is_some (co_username c)) (is_some (co_password c))
    (option_map (fun w => (lw_qos w, lw_retain w)) (co_last_will c)) (co_clean_start c).

(** The properties of the will are counted but not written. *)
Definition Connect_encode (c : Connect) (_size : Z) : ewriter :=
  bytes_encode MQTT >>
  put_slice [MQTT_LEVEL_5; Connect_flags_byte c] >>
  @encode u16 _ (co_keep_alive c) >>
  write_variable_length (as_u32 (Connect_properties_len c)) >>
  encode_property (co_session_expiry_interval_secs c) pr_SESS_EXPIRY_INT >>
  encode_property (co_auth_method c) pr_AUTH_METHOD >>
  encode_property (co_auth_data c) pr_AUTH_DATA >>
  encode_bool_property (co_request_problem_info c) pr_REQ_PROB_INFO true >>
  encode_bool_property (co_request_response_info c) pr_REQ_RESP_INFO false >>
  encode_property (co_receive_max c) pr_RECEIVE_MAX >>
  encode_property (co_max_packet_size c) pr_MAX_PACKET_SIZE >>
  encode_nonzero_property (co_topic_alias_max c) pr_TOPIC_ALIAS_MAX >>
  user_properties_encode (co_user_properties c) >>
  @encode ByteString _ (co_client_id c) >>
  match co_last_will c with
  | Some will =>
      write_variable_length (as_u32 (LastWill_properties_len will)) >>
      @encode ByteString _ (lw_topic will) >> @encode Bytes _ (lw_message will)
  | None => wret
  end >>
  match co_username c with Some s => @encode ByteString _ s | None => wret end >>
  match co_password c with Some s => @encode Bytes _ s | None => wret end.

(** ** Specification *)

Definition skip_bool (b skip_if : bool) : option bool := if Bool.eqb b skip_if then None else Some b.

Definition connect_props_wire (c : Connect) : bytes :=
  prop_wire pr_SESS_EXPIRY_INT (co_session_expiry_interval_secs c) ++
  prop_wire pr_AUTH_METHOD (co_auth_method c) ++
  prop_wire pr_AUTH_DATA (co_auth_data c) ++
  prop_wire pr_REQ_PROB_INFO (skip_bool (co_request_problem_info c) true) ++
  prop_wire pr_REQ_RESP_INFO (skip_bool (co_request_response_info c) false) ++
  prop_wire pr_RECEIVE_MAX (co_receive_max c) ++
  prop_wire pr_MAX_PACKET_SIZE (co_max_packet_size c) ++
  prop_wire pr_TOPIC_ALIAS_MAX (nonzero_opt (co_topic_alias_max c)) ++
  users_wire (co_user_properties c).

Definition connect_props_ok (c : Connect) : bool :=
  opt_ok (co_session_expiry_interval_secs c) && opt_ok (co_auth_method c) &&
  opt_ok (co_auth_data c) && opt_ok (co_receive_max c) && opt_ok (co_max_packet_size c) &&
  is_u16 (co_topic_alias_max c) && users_ok (co_user_properties c).

(** A will without properties: the others are not encoded faithfully. *)
Definition plain_will (q : QoS) (r : bool) (topic : ByteString) (message : Bytes) : LastWill :=
  {| lw_qos := q; lw_retain := r; lw_topic := topic; lw_message := message;
     lw_will_delay_interval_sec := None; lw_correlation_data := None;
     lw_message_expiry_interval := None; lw_content_type := None; lw_user_properties := [];
     lw_is_utf8_payload := None; lw_response_topic := None |}.

Definition will_ok (w : LastWill) : bool :=
  @wire_ok ByteString _ _ _ (lw_topic w) && @wire_ok Bytes _ _ _ (lw_message w) &&
  is_none (lw_will_delay_interval_sec w) && is_none (lw_correlation_data w) &&
  is_none (lw_message_expiry_interval w) && is_none (lw_content_type w) &&
  negb (has_remaining (users_wire (lw_user_properties w))) && is_none (lw_is_utf8_payload w) &&
  is_none (lw_response_topic w).

Definition will_wire (w : LastWill) : bytes :=
  [0] ++ @wire ByteString _ _ _ (lw_topic w) ++ @wire Bytes _ _ _ (lw_message w).

Definition opt_will_wire (w : option LastWill) : bytes :=
  match w with Some w => will_wire w | None => [] end.

Definition connect_content (_limit : Z) (c : Connect) : bytes :=
  @wire Bytes _ _ _ MQTT ++ [MQTT_LEVEL_5; Connect_flags_byte c] ++
  @wire u16 _ _ _ (co_keep_alive c) ++ props_block (connect_props_wire c) ++
  @wire ByteString _ _ _ (co_client_id c) ++ opt_will_wire (co_last_will c) ++
  opt_wire (co_username c) ++ opt_wire (co_password c).

Definition connect_ok (_limit : Z) (c : Connect) : bool :=
  connect_props_ok c && (len (connect_props_wire c) <=? MAX_VARINT) &&
  @wire_ok u16 _ _ _ (co_keep_alive c) && @wire_ok ByteString _ _ _ (co_client_id c) &&
  (has_remaining (co_client_id c) || co_clean_start c) &&
  match co_last_will c with Some w => will_ok w | None => true end &&
  opt_ok (co_username c) && opt_ok (co_password c).

Lemma will_ok_plain w :
  will_ok w = true ->
  w = plain_will (lw_qos w) (lw_retain w) (lw_topic w) (lw_message w) /\
  @wire_ok ByteString _ _ _ (lw_topic w) = true /\ @wire_ok Bytes _ _ _ (lw_message w) = true.
Proof.
  unfold will_ok, is_none. rewrite !andb_true_iff. intros H. decompose [and] H. clear H.
  destruct w as [q r t m [] [] [] [] [|u us] [] []]; try discriminate. now split.
Qed.

Ltac split_connect_props H :=
  unfold connect_props_ok in H; rewrite !andb_true_iff in H; decompose [and] H; clear H.

Lemma connect_properties_len_wire c :
  connect_props_ok c = true -> Connect_properties_len c = len (connect_props_wire c).
Proof.
  intros H. split_connect_props H. unfold Connect_properties_len, connect_props_wire.
  rewrite !len_app, len_nonzero_wire. change (@encoded_size u16 _ _) with 2.
  rewrite user_properties_size_wire by assumption.
  assert (Hb : forall b skip ty, encoded_bool_property_size b skip = len (prop_wire ty (skip_bool b skip)))
    by now intros [] [].
  rewrite (Hb _ _ pr_REQ_PROB_INFO), (Hb _ _ pr_REQ_RESP_INFO).
  rewrite (encoded_property_size_wire _ pr_SESS_EXPIRY_INT), (encoded_property_size_wire (co_auth_method c) pr_AUTH_METHOD),
    (encoded_property_size_wire (co_auth_data c) pr_AUTH_DATA), (encoded_property_size_wire (co_receive_max c) pr_RECEIVE_MAX),
    (encoded_property_size_wire (co_max_packet_size c) pr_MAX_PACKET_SIZE) by assumption.
  case_if; lia.
Qed.

Lemma connect_props_writes c w out :
  connect_props_ok c = true -> writes w out ->
  writes
    (encode_property (co_session_expiry_interval_secs c) pr_SESS_EXPIRY_INT >>
     encode_property (co_auth_method c) pr_AUTH_METHOD >>
     encode_property (co_auth_data c) pr_AUTH_DATA >>
     encode_bool_property (co_request_problem_info c) pr_REQ_PROB_INFO true >>
     encode_bool_property (co_request_response_info c) pr_REQ_RESP_INFO false >>
     encode_property (co_receive_max c) pr_RECEIVE_MAX >>
     encode_property (co_max_packet_size c) pr_MAX_PACKET_SIZE >>
     encode_nonzero_property (co_topic_alias_max c) pr_TOPIC_ALIAS_MAX >>
     user_properties_encode (co_user_properties c) >> w)
    (connect_props_wire c ++ out).
Proof.
  intros H Hw. split_connect_props H. unfold connect_props_wire. rewrite <- !app_assoc.
  do 8 (apply writes_seq; [first [ now apply encode_property_writes | now apply encode_nonzero_writes
    | apply encode_bool_property_writes ] | ]).
  apply writes_seq; [now apply user_properties_encode_writes | assumption].
Qed.

#[export] Instance Connect_EncodeLtd : EncodeLtd Connect := {
  ltd_encoded_size := Connect_encoded_size; ltd_encode := Connect_encode }.

Lemma opt_will_size w :
  match w with Some w => will_ok w | None => true end = true ->
  match w with
  | Some will =>
      let prop_len := LastWill_properties_len will in
      var_int_len prop_len + prop_len + @encoded_size ByteString _ (lw_topic will) +
      @encoded_size Bytes _ (lw_message will)
  | None => 0
  end = len (opt_will_wire w).
Proof.
  destruct w as [w|]; [ | reflexivity]. intros Hw. apply will_ok_plain in Hw as (Hp & Ht & Hm).
  unfold opt_will_wire, will_wire. rewrite !len_app, <- (wire_size (T := ByteString)),
    <- (wire_size (T := Bytes)) by assumption. rewrite Hp. cbv zeta.
  change (LastWill_properties_len _) with 0. change (var_int_len 0) with 1.
  change (len [0]) with 1. cbn [plain_will lw_topic lw_message]. lia.
Qed.

Lemma opt_will_writes w :
  match w with Some w => will_ok w | None => true end = true ->
  writes
    (match w with
     | Some will =>
         write_variable_length (as_u32 (LastWill_properties_len will)) >>
         @encode ByteString _ (lw_topic will) >> @encode Bytes _ (lw_message will)
     | None => wret
     end) (opt_will_wire w).
Proof.
  destruct w as [w|]; [ | intros; apply writes_ret]. intros Hw. apply will_ok_plain in Hw as (Hp & Ht & Hm).
  unfold opt_will_wire, will_wire. apply writes_seq.
  - rewrite Hp. change (as_u32 _) with 0. apply (write_variable_length_writes 0). unfold MAX_VARINT. lia.
  - apply writes_seq; [exact (wire_encode (T := ByteString) _ Ht) | exact (wire_encode (T := Bytes) _ Hm)].
Qed.

#[export, refine] Instance Connect_Ltd : Ltd Connect := {
  ltd_ok := connect_ok; ltd_content := connect_content }.
Proof.
  - intros c limit. unfold connect_ok. rewrite !andb_true_iff, Z.leb_le.
    intros [[[[[[[Hf Hp] Hka] Hid] Hcs] Hw] Hu] Hpw] Hl.
    cbn [ltd_encoded_size Connect_EncodeLtd]. unfold Connect_encoded_size. cbv zeta.
    rewrite connect_properties_len_wire by assumption. rewrite opt_will_size by assumption.
    unfold connect_content. rewrite !len_app, len_props_block by assumption.
    change (len (@wire Bytes _ _ _ MQTT)) with 6. change (len (@wire u16 _ _ _ _)) with 2.
    change (len [_; _]) with 2. rewrite (wire_size (T := ByteString)) by assumption.
    rewrite (opt_size (T := ByteString)), (opt_size (T := Bytes)) by assumption.
    f_equal. lia.
  - intros c limit. unfold connect_ok. rewrite !andb_true_iff, Z.leb_le.
    intros [[[[[[[Hf Hp] Hka] Hid] Hcs] Hw] Hu] Hpw] Hl _.
    cbn [ltd_encode Connect_EncodeLtd]. unfold Connect_encode, connect_content.
    apply writes_seq; [now apply bytes_encode_writes | ].
    apply writes_seq; [apply writes_slice | ]. apply writes_seq; [exact (writes_u16 _) | ].
    rewrite connect_properties_len_wire by assumption. pose proof (len_nonneg (connect_props_wire c)).
    unfold as_u32 at 1. unfold MAX_VARINT in Hp. rewrite Z.mod_small by lia.
    unfold props_block. rewrite <- app_assoc.
    apply writes_seq; [apply write_variable_length_writes; unfold MAX_VARINT; lia | ].
    apply connect_props_writes; [assumption | ].
    apply writes_seq; [exact (wire_encode (T := ByteString) _ Hid) | ].
    apply writes_seq; [now apply opt_will_writes | ].
    apply writes_seq; [now apply (writes_opt (T := ByteString)) | now apply (writes_opt (T := Bytes))].
Defined.

(** ** Decoding gives the packet back *)

Lemma Will_props_step_progress s src s' rest :
  Will_props_step s src = Ok (s', rest) -> (length rest < length src)%nat.
Proof. unfold Will_props_step. intros H. prop_progress H. Qed.

Lemma Connect_props_step_progress s src s' rest :
  Connect_props_step s src = Ok (s', rest) -> (length rest < length src)%nat.
Proof. unfold Connect_props_step. intros H. prop_progress H. Qed.

Lemma decode_last_will_no_panic src flags : no_panic (decode_last_will src flags).
Proof.
  unfold decode_last_will. nopanic.
  apply while_remaining_no_panic; [exact Will_props_step_progress | ].
  intros s x r. unfold Will_props_step. prop_no_panic.
Qed.

#[export] Hint Resolve decode_last_will_no_panic : nopanic.

Lemma Connect_decode_no_panic src : no_panic (Connect_decode src).
Proof.
  unfold Connect_decode. case_if; [ | easy]. bprop.
  apply no_panic_bind; [apply get_u16_no_panic; lia | ]. intros [n r] Hn.
  apply get_u16_Ok in Hn as (a & b & -> & _). rewrite !len_cons in *.
  destruct r as [|r1 [|r2 [|r3 [|r4 [|r5 [|r6 [|r7 [|r8 r]]]]]]]];
    autorewrite with len in *; try lia.
  apply no_panic_bind; [apply is_mqtt_name_no_panic; autorewrite with len; lia | ].
  intros same _. case_if; [ | easy].
  change (r1 :: _) with ([r1; r2; r3; r4] ++ r5 :: r6 :: r7 :: r8 :: r). unfold advance.
  rewrite split_to_app by reflexivity. cbn [obind get_u8].
  case_if; [ | easy]. apply no_panic_bind; [auto with nopanic | ]. intros flags _.
  cbn [get_u16 obind]. nopanic.
  apply while_remaining_no_panic; [exact Connect_props_step_progress | ].
  intros s x l. unfold Connect_props_step. prop_no_panic.
Qed.

Lemma decode_last_will_wire w flags rest :
  will_ok w = true -> will_qos flags = Ok (lw_qos w) -> contains flags CF_WILL_RETAIN = lw_retain w ->
  decode_last_will (will_wire w ++ rest) flags = Ok (w, rest).
Proof.
  intros Hw Hq Hr. apply will_ok_plain in Hw as (Hp & Ht & Hm).
  unfold decode_last_will, will_wire. rewrite <- !app_assoc.
  change ([0] ++ ?x) with (props_block [] ++ x).
  rewrite take_props_block by (rewrite len_nil; unfold MAX_VARINT; lia). cbn [obind].
  rewrite while_remaining_nil. cbn [obind]. read_wire ByteString. read_wire Bytes.
  rewrite Hq, Hr. cbn [obind]. do 2 f_equal. now symmetry.
Qed.

Lemma decode_opt_will_wire u p w c rest :
  match w with Some w => will_ok w | None => true end = true ->
  let flags := connect_flags u p (option_map (fun w => (lw_qos w, lw_retain w)) w) c in
  (if contains flags CF_WILL
   then let? '(w, src) := decode_last_will (opt_will_wire w ++ rest) flags in Ok (Some w, src)
   else Ok (None, opt_will_wire w ++ rest)) = Ok (w, rest).
Proof.
  intros Hw. cbv zeta.
  pose proof (connect_flags_contains u p (option_map (fun w => (lw_qos w, lw_retain w)) w) c)
    as (_ & _ & _ & Hf & Hq). rewrite Hf. destruct w as [w|]; [ | reflexivity].
  cbn [option_map is_some is_none negb opt_will_wire] in *. destruct Hq as [Hq Hr].
  now rewrite decode_last_will_wire.
Qed.

Lemma skip_bool_unwrap b skip : unwrap_or (skip_bool b skip) skip = b.
Proof. now destruct b, skip. Qed.

Lemma nonzero_unwrap v : is_u16 v = true -> unwrap_or (nonzero_opt v) 0 = v.
Proof. unfold is_u16, nonzero_opt. intros H. bprop. case_if; bprop; [reflexivity | cbn; lia]. Qed.

Lemma connect_props_read c :
  connect_props_ok c = true ->
  while_remaining Connect_props_step
    {| cp_session_expiry_interval_secs := None; cp_auth_method := None; cp_auth_data := None;
       cp_request_problem_info := None; cp_request_response_info := None;
       cp_receive_max := None; cp_topic_alias_max := None; cp_user_properties := [];
       cp_max_packet_size := None |} (connect_props_wire c) =
  Ok ({| cp_session_expiry_interval_secs := co_session_expiry_interval_secs c;
         cp_auth_method := co_auth_method c; cp_auth_data := co_auth_data c;
         cp_request_problem_info := skip_bool (co_request_problem_info c) true;
         cp_request_response_info := skip_bool (co_request_response_info c) false;
         cp_receive_max := co_receive_max c;
         cp_topic_alias_max := nonzero_opt (co_topic_alias_max c);
         cp_user_properties := co_user_properties c;
         cp_max_packet_size := co_max_packet_size c |}, []).
Proof.
  intros H. split_connect_props H.
  assert (Ht : opt_ok (nonzero_opt (co_topic_alias_max c)) = true) by now apply nonzero_opt_ok.
  assert (Hb : forall b skip, opt_ok (skip_bool b skip) = true) by now intros [] [].
  pose proof (Hb (co_request_problem_info c) true). pose proof (Hb (co_request_response_info c) false).
  unfold connect_props_wire.
  read_slot Connect_props_step_progress cp_session_expiry_interval_secs.
  read_slot Connect_props_step_progress cp_auth_method.
  read_slot Connect_props_step_progress cp_auth_data.
  read_slot Connect_props_step_progress cp_request_problem_info.
  read_slot Connect_props_step_progress cp_request_response_info.
  read_slot Connect_props_step_progress cp_receive_max.
  read_slot Connect_props_step_progress cp_max_packet_size.
  read_slot Connect_props_step_progress cp_topic_alias_max.
  rewrite <- (app_nil_r (users_wire _)).
  read_users Connect_props_step_progress cp_user_properties.
  now rewrite while_remaining_nil.
Qed.

Lemma Connect_decode_content limit c :
  connect_ok limit c = true -> Connect_decode (connect_content limit c) = Ok c.
Proof.
  unfold connect_ok. rewrite !andb_true_iff, Z.leb_le.
  intros [[[[[[[Hf Hp] Hka] Hid] Hcs] Hw] Hu] Hpw].
  pose proof (connect_flags_contains (is_some (co_username c)) (is_some (co_password c))
    (option_map (fun w => (lw_qos w, lw_retain w)) (co_last_will c)) (co_clean_start c))
    as (Fu & Fp & Fc & _). fold (Connect_flags_byte c) in Fu, Fp, Fc.
  unfold Connect_decode, connect_content. rewrite (proj2 (Z.leb_le _ _)).
  2: { rewrite !len_app. change (len (@wire Bytes _ _ _ MQTT)) with 6. change (len [_; _]) with 2.
       change (len (@wire u16 _ _ _ _)) with 2.
       repeat match goal with |- context [len ?x] => pose proof (len_nonneg x); generalize dependent (len x); intros end. lia. }
  cbn [wire Wire_Bytes Wire_u16]. rewrite <- !app_assoc. rewrite get_u16_be by reflexivity. cbn [obind].
  change (len MQTT) with 4. rewrite is_mqtt_name_MQTT. cbn [obind].
  unfold advance. rewrite split_to_app by reflexivity. cbn [obind app get_u8].
  change (MQTT_LEVEL_5 =? MQTT_LEVEL_5) with true. cbn [obind get_u8].
  unfold Connect_flags_byte at 1. rewrite connect_flags_from_bits.
  fold (Connect_flags_byte c). cbn [ok_or obind].
  rewrite get_u16_be by exact Hka. cbn [obind]. rewrite take_props_block by assumption. cbn [obind].
  rewrite connect_props_read by assumption. cbn [obind]. read_wire ByteString.
  rewrite Fc, Hcs. unfold Connect_flags_byte at 1 2.
  rewrite decode_opt_will_wire by assumption. cbn [obind]. rewrite Fu, Fp.
  rewrite (decode_if_wire (T := ByteString)) by assumption. cbn [obind].
  rewrite <- (app_nil_r (opt_wire (co_password c))).
  rewrite (decode_if_wire (T := Bytes)) by assumption. cbn [obind].
  cbn [cp_session_expiry_interval_secs cp_auth_method cp_auth_data cp_request_problem_info
    cp_request_response_info cp_receive_max cp_topic_alias_max cp_user_properties cp_max_packet_size].
  rewrite !skip_bool_unwrap. split_connect_props Hf. rewrite nonzero_unwrap by assumption.
  now destruct c.
Qed.

(** ** Properties *)

Definition will_props_wire (w : LastWill) : bytes :=
  prop_wire pr_WILL_DELAY_INT (lw_will_delay_interval_sec w) ++
  prop_wire pr_CORR_DATA (lw_correlation_data w) ++
  prop_wire pr_MSG_EXPIRY_INT (lw_message_expiry_interval w) ++
  prop_wire pr_CONTENT_TYPE (lw_content_type w) ++
  prop_wire pr_UTF8_PAYLOAD (lw_is_utf8_payload w) ++
  prop_wire pr_RESP_TOPIC (lw_response_topic w) ++
  users_wire (lw_user_properties w).

Definition will_fields_ok (w : LastWill) : bool :=
  opt_ok (lw_will_delay_interval_sec w) && opt_ok (lw_correlation_data w) &&
  opt_ok (lw_message_expiry_interval w) && opt_ok (lw_content_type w) &&
  opt_ok (lw_is_utf8_payload w) && opt_ok (lw_response_topic w) &&
  users_ok (lw_user_properties w) && @wire_ok ByteString _ _ _ (lw_topic w) &&
  @wire_ok Bytes _ _ _ (lw_message w).

Lemma will_properties_len_wire w :
  will_fields_ok w = true -> LastWill_properties_len w = len (will_props_wire w).
Proof.
  unfold will_fields_ok. rewrite !andb_true_iff. intros H. decompose [and] H. clear H.
  unfold LastWill_properties_len, will_props_wire. rewrite !len_app.
  rewrite <- !encoded_property_size_wire by assumption.
  rewrite user_properties_size_wire by assumption. lia.
Qed.

(** A CONNECT with a will is encoded without the properties of the will,
    although their length is written and counted: the frame announces more
    bytes than it has, by exactly the size of the properties that are
    missing. *)
Theorem v5_will_properties_lost (c : Connect) (w : LastWill) (limit size : Z) :
  co_last_will c = Some w -> will_fields_ok w = true -> len (will_props_wire w) <= MAX_VARINT ->
  connect_ok limit ({ c with co_last_will := None }) = true ->
  exists out, writes (Connect_encode c size) out /\
    Connect_encoded_size c limit = Ok (len out + len (will_props_wire w)).
Proof.
  intros Hw Hwf Hwl. unfold connect_ok. rewrite !andb_true_iff, Z.leb_le.
  destruct c. cbn [co_last_will] in Hw. subst.
  intros [[[[[[[Hf' Hp'] _] Hid'] _] _] Hu'] Hpw']. set (c := mkConnect _ _ _ _ _ _ _ _ _ _ _ _ _ _ _).
  assert (Hf : connect_props_ok c = true) by exact Hf'.
  assert (Hp : len (connect_props_wire c) <= MAX_VARINT) by exact Hp'.
  assert (Hid : @wire_ok ByteString _ _ _ (co_client_id c) = true) by exact Hid'.
  assert (Hu : opt_ok (co_username c) = true) by exact Hu'.
  assert (Hpw : opt_ok (co_password c) = true) by exact Hpw'.
  clear Hf' Hp' Hid' Hu' Hpw'. assert (Hw : co_last_will c = Some w) by reflexivity. clearbody c.
  pose proof (len_nonneg (connect_props_wire c)). pose proof (len_nonneg (will_props_wire w)).
  unfold MAX_VARINT in Hp, Hwl.
  pose proof Hwf as Hw2. unfold will_fields_ok in Hw2. rewrite !andb_true_iff in Hw2.
  destruct Hw2 as [[_ Ht] Hm]. eexists. split.
  - unfold Connect_encode. rewrite connect_properties_len_wire by assumption.
    unfold as_u32 at 1. rewrite Z.mod_small by lia.
    apply writes_seq; [now apply bytes_encode_writes | ].
    apply writes_seq; [apply writes_slice | ]. apply writes_seq; [exact (writes_u16 _) | ].
    apply writes_seq; [apply write_variable_length_writes; unfold MAX_VARINT; lia | ].
    apply connect_props_writes; [assumption | ].
    apply writes_seq; [exact (wire_encode (T := ByteString) _ Hid) | ]. rewrite Hw.
    rewrite will_properties_len_wire by assumption. unfold as_u32. rewrite Z.mod_small by lia.
    apply writes_seq; [apply writes_seq; [apply write_variable_length_writes; unfold MAX_VARINT; lia |
      apply writes_seq; [exact (wire_encode (T := ByteString) _ Ht) | exact (wire_encode (T := Bytes) _ Hm)]] | ].
    apply writes_seq; [exact (writes_opt (T := ByteString) _ Hu) | exact (writes_opt (T := Bytes) _ Hpw)].
  - unfold Connect_encoded_size. cbv zeta. rewrite connect_properties_len_wire by assumption.
    rewrite Hw, will_properties_len_wire by assumption. rewrite !var_int_len_varint by (unfold MAX_VARINT; lia).
    rewrite !len_app, !(wire_size (T := ByteString)), (wire_size (T := Bytes)) by assumption.
    change (len [_; _]) with 2. rewrite !len_u16_be, len_MQTT. f_equal.
    rewrite (opt_size (T := ByteString)), (opt_size (T := Bytes)) by assumption. lia.
Qed.

Lemma v5_will_properties_lost_witness :
  let w := { plain_will AtLeastOnce false [116] [1] with lw_will_delay_interval_sec := Some 30 } in
  let c := { Connect_default with co_client_id := [99]; co_last_will := Some w } in
  exists out, writes (Connect_encode c 30) out /\
    Connect_encoded_size c 100 = Ok (len out + len (will_props_wire w)).
Proof.
  cbv zeta.
  apply (v5_will_properties_lost
    ({ Connect_default with co_client_id := [99]; co_last_will :=
       Some ({ plain_will AtLeastOnce false [116] [1] with lw_will_delay_interval_sec := Some 30 }) })
    ({ plain_will AtLeastOnce false [116] [1] with lw_will_delay_interval_sec := Some 30 }) 100 30);
    try reflexivity. vm_compute. discriminate.
Defined.
