(* ===== verification/V5Codec.v ===== *)
(** * MQTT 5 packets and codec

    The [Packet] type of [src/v5/codec/packet/mod.rs], [decode_packet] of
    [src/v5/codec/decode.rs], [EncodeLtd for Packet] of
    [src/v5/codec/encode.rs] and the codec of [src/v5/codec/codec.rs].  The
    packets are used through the interface [Ltd]. *)

From Stdlib Require Import ZArith List Bool Lia.
From S2P Require Import Prelude Types Wire Framing V5Props V5PubAcks V5Subscribe.
From S2P Require Import V5Disconnect V5ConnAck V5Publish V5Connect.
Import ListNotations.
Open Scope Z_scope.

Inductive Packet : Type :=
| Pkt_Connect (c : Connect)
| Pkt_ConnectAck (a : ConnectAck)
| Pkt_Publish (p : Publish)
| Pkt_PublishAck (a : PublishAck)
| Pkt_PublishReceived (a : PublishAck)
| Pkt_PublishRelease (a : PublishAck2)
| Pkt_PublishComplete (a : PublishAck2)
| Pkt_Subscribe (s : Subscribe)
| Pkt_SubscribeAck (a : SubscribeAck)
| Pkt_Unsubscribe (u : Unsubscribe)
| Pkt_UnsubscribeAck (a : UnsubscribeAck)
| Pkt_PingRequest
| Pkt_PingResponse
| Pkt_Disconnect (d : Disconnect)
| Pkt_Auth (a : Auth).

Definition packet_type (p : Packet) : Z :=
  match p with
  | Pkt_Connect _ => pt_CONNECT
  | Pkt_ConnectAck _ => pt_CONNACK
  | Pkt_Publish _ => pt_PUBLISH_START
  | Pkt_PublishAck _ => pt_PUBACK
  | Pkt_PublishReceived _ => pt_PUBREC
  | Pkt_PublishRelease _ => pt_PUBREL
  | Pkt_PublishComplete _ => pt_PUBCOMP
  | Pkt_Subscribe _ => pt_SUBSCRIBE
  | Pkt_SubscribeAck _ => pt_SUBACK
  | Pkt_Unsubscribe _ => pt_UNSUBSCRIBE
  | Pkt_UnsubscribeAck _ => pt_UNSUBACK
  | Pkt_PingRequest => pt_PINGREQ
  | Pkt_PingResponse => pt_PINGRESP
  | Pkt_Disconnect _ => pt_DISCONNECT
  | Pkt_Auth _ => pt_AUTH
  end.

(** ** Decoding *)

Definition decode_packet (src : bytes) (first_byte : Z) : dres Packet :=
  if (pt_PUBLISH_START <=? first_byte) && (first_byte <=? pt_PUBLISH_END) then
    omap Pkt_Publish (Publish_decode src (Z.land first_byte 15))
  else if first_byte =? pt_PUBACK then omap Pkt_PublishAck (decode_publish_ack src)
  else if first_byte =? pt_PINGREQ then Ok Pkt_PingRequest
  else if first_byte =? pt_PINGRESP then Ok Pkt_PingResponse
  else if first_byte =? pt_SUBSCRIBE then omap Pkt_Subscribe (Subscribe_decode src)
  else if first_byte =? pt_SUBACK then omap Pkt_SubscribeAck (StatusAck_decode src)
  else if first_byte =? pt_UNSUBSCRIBE then omap Pkt_Unsubscribe (Unsubscribe_decode src)
  else if first_byte =? pt_UNSUBACK then omap Pkt_UnsubscribeAck (StatusAck_decode src)
  else if first_byte =? pt_CONNECT then omap Pkt_Connect (Connect_decode src)
  else if first_byte =? pt_CONNACK then omap Pkt_ConnectAck (ConnectAck_decode src)
  else if first_byte =? pt_DISCONNECT then omap Pkt_Disconnect (Disconnect_decode src)
  else if first_byte =? pt_AUTH then omap Pkt_Auth (Auth_decode src)
  else if first_byte =? pt_PUBREC then omap Pkt_PublishReceived (decode_publish_ack src)
  else if first_byte =? pt_PUBREL then omap Pkt_PublishRelease (decode_publish_ack2 src)
  else if first_byte =? pt_PUBCOMP then omap Pkt_PublishComplete (decode_publish_ack2 src)
  else Err DUnsupportedPacketType.

(** ** Encoding *)

#[export] Instance PublishAck_EncodeLtd : EncodeLtd PublishAck := AckOf_EncodeLtd.
#[export] Instance PublishAck2_EncodeLtd : EncodeLtd PublishAck2 := AckOf_EncodeLtd.
#[export] Instance PublishAck_Ltd : Ltd PublishAck := AckOf_Ltd.
#[export] Instance PublishAck2_Ltd : Ltd PublishAck2 := AckOf_Ltd.

Definition Packet_encoded_size (p : Packet) (limit : Z) : eres Z :=
  match p with
  | Pkt_Connect c => ltd_encoded_size c limit
  | Pkt_Publish p => ltd_encoded_size p limit
  | Pkt_ConnectAck a => ltd_encoded_size a limit
  | Pkt_PublishAck a | Pkt_PublishReceived a => ltd_encoded_size a limit
  | Pkt_PublishRelease a | Pkt_PublishComplete a => ltd_encoded_size a limit
  | Pkt_Subscribe s => ltd_encoded_size s limit
  | Pkt_SubscribeAck a => ltd_encoded_size a limit
  | Pkt_Unsubscribe u => ltd_encoded_size u limit
  | Pkt_UnsubscribeAck a => ltd_encoded_size a limit
  | Pkt_PingRequest | Pkt_PingResponse => Ok 0
  | Pkt_Disconnect d => ltd_encoded_size d limit
  | Pkt_Auth a => ltd_encoded_size a limit
  end.

Definition first_byte_of (p : Packet) : Z :=
  match p with
  | Pkt_Publish p => publish_first_byte (pu_qos p) (pu_dup p) (pu_retain p)
  | p => packet_type p
  end.

(** The first byte, the size and the content; the two PING packets are
    written in one go. *)
Definition Packet_encode (p : Packet) (check_size : Z) : ewriter :=
  let framed (content : ewriter) : ewriter :=
    put_u8 (first_byte_of p) >> write_variable_length check_size >> content in
  match p with
  | Pkt_Connect c => framed (ltd_encode c check_size)
  | Pkt_ConnectAck a => framed (ltd_encode a check_size)
  | Pkt_Publish p => framed (ltd_encode p check_size)
  | Pkt_PublishAck a => framed (ltd_encode a check_size)
  | Pkt_PublishReceived a => framed (ltd_encode a check_size)
  | Pkt_PublishRelease a => framed (ltd_encode a check_size)
  | Pkt_PublishComplete a => framed (ltd_encode a check_size)
  | Pkt_Subscribe s => framed (ltd_encode s check_size)
  | Pkt_SubscribeAck a => framed (ltd_encode a check_size)
  | Pkt_Unsubscribe u => framed (ltd_encode u check_size)
  | Pkt_UnsubscribeAck a => framed (ltd_encode a check_size)
  | Pkt_PingRequest => put_slice [pt_PINGREQ; 0]
  | Pkt_PingResponse => put_slice [pt_PINGRESP; 0]
  | Pkt_Disconnect d => framed (ltd_encode d check_size)
  | Pkt_Auth a => framed (ltd_encode a check_size)
  end.

(** ** The codec *)

(** [flags] holds the single flag [NO_PROBLEM_INFO]. *)
Record Codec : Type := mkCodec {
  state : DecodeState;
  max_in_size : Z;
  max_out_size : Z;
  no_problem_info : bool;
}.

Definition Codec_new : Codec :=
  {| state := FrameHeader; max_in_size := 0; max_out_size := 0; no_problem_info := false |}.

(** [max_inbound_size] and [set_max_inbound_size] *)
Definition set_max_inbound_size (c : Codec) (size : Z) : Codec := { c with max_in_size := size }.

(** The builder leaves room for the fixed header ... *)
Definition max_outbound_size (c : Codec) (size : Z) : Codec :=
  { c with max_out_size := if 5 <? size then size - 5 else size }.

(** ... and the setter does not. *)
Definition set_max_outbound_size (c : Codec) (size : Z) : Codec := { c with max_out_size := size }.

Definition codec_decode (c : Codec) (src : bytes) : dres (option Packet) * Codec * bytes :=
  let '(r, st, src) := frame_decode decode_packet (max_in_size c) (state c) src in
  let c := { c with state := st } in
  match r with
  | Ok (Some (Pkt_Connect pkt)) =>
      (r, { c with no_problem_info := negb (co_request_problem_info pkt) }, src)
  | _ => (r, c, src)
  end.

(** [MQTT 3.1.2.11.7]: no diagnostic properties for a client that asked for none. *)
Definition clear_ack {R} (a : AckOf R) : AckOf R :=
  {| pa_packet_id := pa_packet_id a; pa_reason_code := pa_reason_code a;
     pa_properties := []; pa_reason_string := None |}.

Definition clear_status {R} (a : StatusAck R) : StatusAck R :=
  {| sa_packet_id := sa_packet_id a; sa_properties := []; sa_reason_string := None;
     sa_status := sa_status a |}.

Definition strip_problem_info (p : Packet) : Packet :=
  match p with
  | Pkt_PublishAck a => Pkt_PublishAck (clear_ack a)
  | Pkt_PublishReceived a => Pkt_PublishReceived (clear_ack a)
  | Pkt_PublishRelease a => Pkt_PublishRelease (clear_ack a)
  | Pkt_PublishComplete a => Pkt_PublishComplete (clear_ack a)
  | Pkt_Subscribe s => Pkt_Subscribe ({ s with su_user_properties := [] })
  | Pkt_SubscribeAck a => Pkt_SubscribeAck (clear_status a)
  | Pkt_Unsubscribe u => Pkt_Unsubscribe ({ u with un_user_properties := [] })
  | Pkt_UnsubscribeAck a => Pkt_UnsubscribeAck (clear_status a)
  | Pkt_Auth a => Pkt_Auth ({ a with au_user_properties := []; au_reason_string := None })
  | p => p
  end.

Definition out_limit (c : Codec) : Z :=
  if negb (max_out_size c =? 0) then max_out_size c else MAX_PACKET_SIZE.

Definition codec_encode (c : Codec) (item : Packet) : ewriter :=
  let item := if no_problem_info c then strip_problem_info item else item in
  let max_size := out_limit c in
  let! content_size := Packet_encoded_size item max_size in
  if max_size <? content_size then wfail EInvalidLength
  else Packet_encode item (as_u32 content_size).

Definition codec_feed (c : Codec) (src : bytes) (chunks : list bytes) :=
  feed decode_packet (max_in_size c) (state c) src chunks.

(** ** Specification *)

Definition packet_ok (limit : Z) (p : Packet) : bool :=
  match p with
  | Pkt_Connect c => ltd_ok limit c
  | Pkt_Publish p => ltd_ok limit p
  | Pkt_ConnectAck a => ltd_ok limit a
  | Pkt_PublishAck a | Pkt_PublishReceived a => ltd_ok limit a
  | Pkt_PublishRelease a | Pkt_PublishComplete a => ltd_ok limit a
  | Pkt_Subscribe s => ltd_ok limit s
  | Pkt_SubscribeAck a => ltd_ok limit a
  | Pkt_Unsubscribe u => ltd_ok limit u
  | Pkt_UnsubscribeAck a => ltd_ok limit a
  | Pkt_PingRequest | Pkt_PingResponse => true
  | Pkt_Disconnect d => ltd_ok limit d
  | Pkt_Auth a => ltd_ok limit a
  end.

Definition content (limit : Z) (p : Packet) : bytes :=
  match p with
  | Pkt_Connect c => ltd_content limit c
  | Pkt_Publish p => ltd_content limit p
  | Pkt_ConnectAck a => ltd_content limit a
  | Pkt_PublishAck a | Pkt_PublishReceived a => ltd_content limit a
  | Pkt_PublishRelease a | Pkt_PublishComplete a => ltd_content limit a
  | Pkt_Subscribe s => ltd_content limit s
  | Pkt_SubscribeAck a => ltd_content limit a
  | Pkt_Unsubscribe u => ltd_content limit u
  | Pkt_UnsubscribeAck a => ltd_content limit a
  | Pkt_PingRequest | Pkt_PingResponse => []
  | Pkt_Disconnect d => ltd_content limit d
  | Pkt_Auth a => ltd_content limit a
  end.

(** What the peer decodes: the packet with the diagnostic properties that fit. *)
Definition trim (limit : Z) (p : Packet) : Packet :=
  match p with
  | Pkt_ConnectAck a => Pkt_ConnectAck (connack_trim limit a)
  | Pkt_PublishAck a => Pkt_PublishAck (ack_trim limit a)
  | Pkt_PublishReceived a => Pkt_PublishReceived (ack_trim limit a)
  | Pkt_PublishRelease a => Pkt_PublishRelease (ack_trim limit a)
  | Pkt_PublishComplete a => Pkt_PublishComplete (ack_trim limit a)
  | Pkt_SubscribeAck a => Pkt_SubscribeAck (status_trim limit a)
  | Pkt_UnsubscribeAck a => Pkt_UnsubscribeAck (status_trim limit a)
  | Pkt_Disconnect d => Pkt_Disconnect (disconnect_trim limit d)
  | Pkt_Auth a => Pkt_Auth (auth_trim limit a)
  | p => p
  end.

Definition frame (limit : Z) (p : Packet) : bytes :=
  frame_bytes (first_byte_of p) (content limit p).

Lemma packet_size p limit :
  packet_ok limit p = true -> 0 <= limit <= MAX_VARINT ->
  Packet_encoded_size p limit = Ok (len (content limit p)).
Proof. destruct p; intros Hp Hl; try reflexivity; now apply ltd_size_content. Qed.

Lemma packet_encode_frame p limit :
  packet_ok limit p = true -> 0 <= limit <= MAX_VARINT -> len (content limit p) <= MAX_VARINT ->
  writes (Packet_encode p (len (content limit p))) (frame limit p).
Proof.
  intros Hp Hl Hn. pose proof (len_nonneg (content limit p)).
  assert (Hf : forall w, writes w (content limit p) ->
    writes (put_u8 (first_byte_of p) >> write_variable_length (len (content limit p)) >> w) (frame limit p)).
  { intros w Hw. unfold frame, frame_bytes. change (?a :: ?b) with ([a] ++ b).
    apply writes_seq; [apply writes_u8 | ].
    apply writes_seq; [apply write_variable_length_writes; lia | assumption]. }
  destruct p; cbn [Packet_encode]; try (apply Hf; now apply ltd_encode_content); apply writes_slice.
Qed.

Lemma decode_packet5_content p limit :
  packet_ok limit p = true -> 0 <= limit <= MAX_VARINT ->
  decode_packet (content limit p) (first_byte_of p) = Ok (trim limit p).
Proof.
  intros Hp Hl. destruct p as [c|a|p|a|a|a|a|s|a|u|a| | |d|a]; cbn [packet_ok] in Hp; try reflexivity.
  - change (decode_packet _ _) with (omap Pkt_Connect (Connect_decode (connect_content limit c))).
    now rewrite Connect_decode_content.
  - change (decode_packet _ _) with (omap Pkt_ConnectAck (ConnectAck_decode (connack_content limit a))).
    now rewrite ConnectAck_decode_content.
  - unfold decode_packet. cbn [first_byte_of].
    pose proof (publish_first_byte_parts (pu_qos p) (pu_dup p) (pu_retain p)) as (-> & _).
    change (content limit (Pkt_Publish p)) with (publish_content limit p).
    now rewrite Publish_decode_content.
  - change (decode_packet _ _) with (omap Pkt_PublishAck (decode_publish_ack (ack_content limit a))).
    unfold decode_publish_ack. now rewrite ack_decode_content.
  - change (decode_packet _ _) with (omap Pkt_PublishReceived (decode_publish_ack (ack_content limit a))).
    unfold decode_publish_ack. now rewrite ack_decode_content.
  - change (decode_packet _ _) with (omap Pkt_PublishRelease (decode_publish_ack2 (ack_content limit a))).
    unfold decode_publish_ack2. now rewrite ack_decode_content.
  - change (decode_packet _ _) with (omap Pkt_PublishComplete (decode_publish_ack2 (ack_content limit a))).
    unfold decode_publish_ack2. now rewrite ack_decode_content.
  - change (decode_packet _ _) with (omap Pkt_Subscribe (Subscribe_decode (subscribe_content limit s))).
    now rewrite Subscribe_decode_content.
  - change (decode_packet _ _) with (omap Pkt_SubscribeAck (StatusAck_decode (status_content limit a))).
    now rewrite status_decode_content.
  - change (decode_packet _ _) with (omap Pkt_Unsubscribe (Unsubscribe_decode (unsubscribe_content limit u))).
    now rewrite Unsubscribe_decode_content.
  - change (decode_packet _ _) with (omap Pkt_UnsubscribeAck (StatusAck_decode (status_content limit a))).
    now rewrite status_decode_content.
  - change (decode_packet _ _) with (omap Pkt_Disconnect (Disconnect_decode (disconnect_content limit d))).
    now rewrite Disconnect_decode_content.
  - change (decode_packet _ _) with (omap Pkt_Auth (Auth_decode (auth_content limit a))).
    now rewrite Auth_decode_content.
Qed.

Lemma decode_packet5_no_panic src fb : no_panic (decode_packet src fb).
Proof.
  unfold decode_packet, omap, decode_publish_ack, decode_publish_ack2. nopanic;
    first [ apply Publish_decode_no_panic | apply ack_decode_no_panic
          | apply Subscribe_decode_no_panic | apply status_decode_no_panic
          | apply Unsubscribe_decode_no_panic | apply Connect_decode_no_panic
          | apply ConnectAck_decode_no_panic | apply Disconnect_decode_no_panic
          | apply Auth_decode_no_panic ].
Qed.

(** The properties of a will *)
Definition will_has_properties (w : LastWill) : bool :=
  negb (is_none (lw_will_delay_interval_sec w) && is_none (lw_correlation_data w) &&
        is_none (lw_message_expiry_interval w) && is_none (lw_content_type w) &&
        negb (0 <? len (lw_user_properties w)) && is_none (lw_is_utf8_payload w) && is_none (lw_response_topic w)).

(** The packets that the encoder does not write as it counts them
    ([v5_will_properties_lost], [v5_subscribe_size_mismatch],
    [v5_publish_ids_size_mismatch]): a CONNECT with properties of the will, a
    SUBSCRIBE with an identifier, a SUBSCRIBE or UNSUBSCRIBE with user
    properties, and a PUBLISH with subscription identifiers *)
Definition defective (p : Packet) : bool :=
  match p with
  | Pkt_Connect c => match co_last_will c with Some w => will_has_properties w | None => false end
  | Pkt_Subscribe s => negb (is_none (su_id s)) || (0 <? len (su_user_properties s))
  | Pkt_Unsubscribe u => 0 <? len (un_user_properties u)
  | Pkt_Publish p => match pp_subscription_ids (pu_properties p) with Some _ => true | None => false end
  | _ => false
  end.

(** The packets that a codec with limit [limit] can send to a decoder with
    limit [max_in]: none of the above, every field within what the wire format
    can hold, an acknowledgement only if its fixed part fits the limit
    ([packet_ok]), and a content within both limits *)
Definition sendable (limit max_in : Z) (p : Packet) : bool :=
  negb (defective p) && packet_ok limit p && (len (content limit p) <=? limit) &&
  ((max_in =? 0) || (len (content limit p) <=? max_in)).

Lemma sendable_fits5 limit max_in p :
  limit <= MAX_VARINT -> sendable limit max_in p = true ->
  packet_ok limit p = true /\ len (content limit p) <= limit /\ fits max_in (len (content limit p)).
Proof.
  unfold sendable, fits. rewrite !andb_true_iff, orb_true_iff, !Z.leb_le, Z.eqb_eq.
  intros Hl [[[_ H1] H2] H3]. repeat split; auto. lia.
Qed.

Lemma codec_encode_frame c p :
  let p' := if no_problem_info c then strip_problem_info p else p in
  0 <= out_limit c <= MAX_VARINT -> packet_ok (out_limit c) p' = true ->
  len (content (out_limit c) p') <= out_limit c ->
  writes (codec_encode c p) (frame (out_limit c) p').
Proof.
  cbv zeta. intros Hl Hp Hn. unfold codec_encode. set (p' := if no_problem_info c then strip_problem_info p else p) in *.
  pose proof (len_nonneg (content (out_limit c) p')).
  apply (writes_let _ _ (len (content (out_limit c) p'))); [now apply packet_size | ].
  rewrite (proj2 (Z.ltb_ge _ _)) by assumption. unfold as_u32. unfold MAX_VARINT in Hl.
  rewrite Z.mod_small by lia. apply packet_encode_frame; [assumption | | ]; unfold MAX_VARINT; lia.
Qed.

Lemma drain_packets5 limit max_in ps :
  0 <= limit <= MAX_VARINT -> forallb (sendable limit max_in) ps = true ->
  drain decode_packet max_in FrameHeader (flat_map (frame limit) ps) =
  (map (trim limit) ps, Ok tt, FrameHeader, []).
Proof.
  intros Hl. induction ps as [|p ps IH]; intros H; [reflexivity | ]. cbn [flat_map map forallb] in *.
  apply andb_true_iff in H as [Hp Hps]. apply sendable_fits5 in Hp as (Hp & Hn & Hf); [ | lia].
  rewrite drain_eq. unfold frame at 1. rewrite (frame_decode_frame _ _ _ _ _ (trim limit p));
    [now rewrite IH | assumption | now apply decode_packet5_content].
Qed.

(** Sample packets. *)
Definition sample_connect : Connect :=
  { Connect_default with
    co_keep_alive := 60; co_client_id := [49; 50]; co_request_problem_info := false;
    co_receive_max := Some 10; co_topic_alias_max := 3; co_user_properties := [([107], [118])];
    co_last_will := Some (plain_will ExactlyOnce true [116] [1; 2]); co_username := Some [117] }.

Definition sample_publish : Publish :=
  {| pu_dup := false; pu_retain := true; pu_qos := AtLeastOnce; pu_packet_id := Some 7;
     pu_topic := [97; 47; 98]; pu_payload := [9; 8; 7];
     pu_properties := { PublishProperties_default with
       pp_topic_alias := Some 2; pp_content_type := Some [106]; pp_user_properties := [([107], [118])] } |}.

Definition sample_ack : PublishAck :=
  {| pa_packet_id := 7; pa_reason_code := PA_NotAuthorized;
     pa_properties := [([107], [118]); ([107], [119])]; pa_reason_string := Some [110; 111] |}.

Definition sample_packets : list Packet :=
  [Pkt_Connect sample_connect;
   Pkt_ConnectAck ({ ConnectAck_default with
     ca_reason_code := CR_ServerBusy; ca_max_qos := Some AtLeastOnce; ca_topic_alias_max := 9;
     ca_reason_string := Some [98] });
   Pkt_Publish sample_publish; Pkt_PublishAck sample_ack;
   Pkt_Subscribe {| su_packet_id := 3; su_id := None; su_user_properties := [];
     su_topic_filters := [([35], {| so_qos := ExactlyOnce; so_no_local := true;
       so_retain_as_published := false; so_retain_handling := RH_NoAtSubscribe |})] |};
   Pkt_SubscribeAck {| sa_packet_id := 3; sa_properties := []; sa_reason_string := Some [120];
     sa_status := [SA_GrantedQos2] |};
   Pkt_PingRequest; Pkt_Disconnect (Disconnect_new DR_ServerShuttingDown);
   Pkt_Auth ({ Auth_default with au_auth_method := Some [109] })].

(** ** Properties *)

(** C2: a sequence of packets, encoded one after the other by a codec and
    received in any chunks by another, arrives as the same packets in the
    same order, each with exactly the diagnostic properties that fit the
    sender's limit (none if the sender was asked to leave them out), and leaves
    the receiver in its initial state.  It holds for packets that are within
    the limits of both codecs and the wire format and are not [defective]: the
    encoder breaks a CONNECT with properties of the will, a SUBSCRIBE with an
    identifier, SUBSCRIBE and UNSUBSCRIBE with user properties, and a PUBLISH
    with subscription identifiers. *)
Theorem v5_stream_roundtrip (c : Codec) (max_in : Z) (ps : list Packet) :
  let sent := map (fun p => if no_problem_info c then strip_problem_info p else p) ps in
  0 <= out_limit c <= MAX_VARINT ->
  forallb (sendable (out_limit c) max_in) sent = true ->
  exists buf, wfor ps (codec_encode c) [] = (Ok tt, buf) /\
    forall chunks, concat chunks = buf ->
      codec_feed (set_max_inbound_size Codec_new max_in) [] chunks =
      (map (trim (out_limit c)) sent, Ok tt, FrameHeader, []).
Proof.
  intros sent Hl H. exists (flat_map (frame (out_limit c)) sent). split.
  - rewrite (writes_for (codec_encode c) (fun p => frame (out_limit c) (if no_problem_info c then strip_problem_info p else p))).
    + unfold sent. now rewrite flat_map_concat_map, flat_map_concat_map, map_map.
    + intros p Hp. rewrite forallb_forall in H. apply (in_map (fun p => if no_problem_info c then strip_problem_info p else p)) in Hp.
      apply H, sendable_fits5 in Hp as (Hp & Hn & _); [ | lia]. now apply (codec_encode_frame c p).
  - intros chunks Hc. unfold codec_feed. rewrite feed_drain by apply drain_empty.
    rewrite Hc. now apply drain_packets5.
Qed.

Lemma v5_stream_roundtrip_witness :
  exists buf, wfor sample_packets (codec_encode (max_outbound_size Codec_new 69)) [] = (Ok tt, buf) /\
    forall chunks, concat chunks = buf ->
      codec_feed (set_max_inbound_size Codec_new 64) [] chunks =
      (map (trim 64) sample_packets, Ok tt, FrameHeader, []).
Proof.
  apply (v5_stream_roundtrip (max_outbound_size Codec_new 69) 64 sample_packets);
    [vm_compute; split; discriminate | vm_compute; reflexivity].
Defined.

(** C31: a codec built with [max_outbound_size n], with [n] above 5, refuses
    every packet whose computed size is above [n - 5] with [InvalidLength], and
    writes nothing; a packet that cannot be sized is not written either.  For a
    packet that is not [defective] and whose fields the wire format can hold
    ([packet_ok], which asks for room for the fixed part of an
    acknowledgement), the computed size is the size of the content, the whole
    frame is written if it is within the limit, and that frame has at most [n]
    bytes. *)
Theorem v5_encode_within_limit (n : Z) (p : Packet) (buf : bytes) :
  let c := max_outbound_size Codec_new n in
  5 < n <= MAX_VARINT + 5 ->
  match Packet_encoded_size p (out_limit c) with
  | Ok size => n - 5 < size -> codec_encode c p buf = (Err EInvalidLength, buf)
  | Err e => codec_encode c p buf = (Err e, buf)
  | Panic => codec_encode c p buf = (Panic, buf)
  end /\
  (defective p = false -> packet_ok (out_limit c) p = true ->
   let size := len (content (out_limit c) p) in
   Packet_encoded_size p (out_limit c) = Ok size /\
   codec_encode c p buf =
     (if n - 5 <? size then (Err EInvalidLength, buf) else (Ok tt, buf ++ frame (out_limit c) p)) /\
   (size <= n - 5 -> len (frame (out_limit c) p) <= n)).
Proof.
  intros c Hn.
  assert (Hl : out_limit c = n - 5).
  { unfold c, out_limit, max_outbound_size. cbn [max_out_size apply_update]. unfold constant.
    rewrite (proj2 (Z.ltb_lt _ _)) by lia. now rewrite (proj2 (Z.eqb_neq _ _)) by lia. }
  split.
  { unfold codec_encode, wlet. cbn [no_problem_info c max_outbound_size Codec_new]. rewrite Hl. cbv zeta.
    change (if no_problem_info c then strip_problem_info p else p) with p.
    destruct (Packet_encoded_size p (n - 5)) as [size| | ]; try reflexivity.
    intros Hs. now rewrite (proj2 (Z.ltb_lt (n - 5) size) Hs). }
  intros _ Hp size.
  subst size. rewrite Hl in *. split; [apply packet_size; [assumption | lia] | ]. split.
  - case_if; bprop.
    + unfold codec_encode, wlet. cbn [no_problem_info c max_outbound_size Codec_new].
      rewrite Hl, packet_size by (assumption || lia). now rewrite (proj2 (Z.ltb_lt _ _)).
    + pose proof (codec_encode_frame c p) as He. cbv zeta in He. rewrite Hl in He.
      apply He; [lia | assumption | assumption].
  - intros Hs. unfold frame, frame_bytes. rewrite len_cons, len_app.
    pose proof (len_nonneg (content (n - 5) p)). rewrite (len_varint (len (content (n - 5) p))) by lia.
    repeat case_if; lia.
Qed.

Lemma v5_encode_within_limit_witness :
  let c := max_outbound_size Codec_new 24 in
  Packet_encoded_size (Pkt_PublishAck sample_ack) (out_limit c) =
    Ok (len (content (out_limit c) (Pkt_PublishAck sample_ack))) /\
  codec_encode c (Pkt_PublishAck sample_ack) [] = (Ok tt, frame 19 (Pkt_PublishAck sample_ack)) /\
  (len (content (out_limit c) (Pkt_PublishAck sample_ack)) <= 19 ->
   len (frame (out_limit c) (Pkt_PublishAck sample_ack)) <= 24).
Proof.
  apply (v5_encode_within_limit 24 (Pkt_PublishAck sample_ack) []);
    [unfold MAX_VARINT; lia | vm_compute; reflexivity ..].
Defined.

(** C33: whatever bytes arrive, in whatever chunks, the codec of MQTT 5
    returns packets and possibly an error, and never panics.  The packets it
    has returned are those of consecutive frames at the front of the stream,
    every one with a content (the remaining length of its fixed header) within
    the limit of the decoder, and with the length its header announces; if
    there was no error, what is left of the stream is the beginning of a frame,
    whose header has passed the limit too once it was read.  A limit of 0 is
    none. *)
Theorem v5_decoder_safe (limit : Z) (chunks : list bytes) :
  let '(ps, r, st, rest) := codec_feed (set_max_inbound_size Codec_new limit) [] chunks in
  no_panic r /\
  exists frames left,
    concat chunks = flat_map stream_bytes frames ++ left /\ Forall2 (accepted decode_packet limit) frames ps /\
    (r = Ok tt -> exists header, header_of limit st header /\ left = header ++ rest).
Proof.
  unfold codec_feed.
  rewrite feed_drain by apply drain_empty.
  destruct (drain _ _ _ _) as [[[ps r] st] rest] eqn:E. split.
  - now apply drain_ok in E as [Hr _]; [ | apply decode_packet5_no_panic | exact I].
  - exact (drain_accepted _ _ FrameHeader [] _ _ _ _ _ eq_refl E).
Qed.

(** Packets without diagnostic properties. *)
Definition no_diagnostics (p : Packet) : bool :=
  match p with
  | Pkt_PublishAck a | Pkt_PublishReceived a => is_none (pa_reason_string a) && negb (0 <? len (pa_properties a))
  | Pkt_PublishRelease a | Pkt_PublishComplete a => is_none (pa_reason_string a) && negb (0 <? len (pa_properties a))
  | Pkt_SubscribeAck a => is_none (sa_reason_string a) && negb (0 <? len (sa_properties a))
  | Pkt_UnsubscribeAck a => is_none (sa_reason_string a) && negb (0 <? len (sa_properties a))
  | Pkt_Auth a => is_none (au_reason_string a) && negb (0 <? len (au_user_properties a))
  | _ => true
  end.

Lemma kept_nil limit : kept [] None limit = ([], None).
Proof. cbn [kept]. now case_if. Qed.

Lemma ack_kept_nil limit : ack_kept [] None limit = ([], None).
Proof. unfold ack_kept. case_if; [reflexivity | apply kept_nil]. Qed.

Lemma strip_no_diagnostics limit p : no_diagnostics (trim limit (strip_problem_info p)) = true.
Proof.
  destruct p; try reflexivity; cbn [strip_problem_info trim no_diagnostics].
  1-4: unfold ack_trim, clear_ack; cbn; now rewrite ack_kept_nil.
  1-2: unfold status_trim, clear_status; cbn; now rewrite ack_kept_nil.
  unfold auth_trim, auth_kept, diag_kept. cbn [au_user_properties au_reason_string apply_update].
  unfold constant. now rewrite kept_nil.
Qed.

(** A client that asks for no problem information gets none: after the
    codec decodes its CONNECT, every PUBACK, PUBREC, PUBREL, PUBCOMP, SUBACK,
    UNSUBACK and AUTH the codec sends is received without user properties and
    without reason string; a CONNECT that asks for it switches it on again. *)
Theorem v5_problem_info (c c' : Codec) (src rest : bytes) (pkt : Connect) (p : Packet) :
  codec_decode c src = (Ok (Some (Pkt_Connect pkt)), c', rest) ->
  0 <= out_limit c <= MAX_VARINT ->
  let p' := if co_request_problem_info pkt then p else strip_problem_info p in
  packet_ok (out_limit c) p' = true -> len (content (out_limit c) p') <= out_limit c ->
  writes (codec_encode c' p) (frame (out_limit c) p') /\
  decode_packet (content (out_limit c) p') (first_byte_of p') = Ok (trim (out_limit c) p') /\
  (co_request_problem_info pkt = false -> no_diagnostics (trim (out_limit c) p') = true).
Proof.
  intros Hd Hl p' Hp Hn.
  assert (Hc : no_problem_info c' = negb (co_request_problem_info pkt) /\ out_limit c' = out_limit c).
  { unfold codec_decode in Hd. destruct (frame_decode _ _ _ _) as [[r st] src'].
    destruct r as [[[]|] | | ]; try discriminate. injection Hd as -> <- <-. now split. }
  destruct Hc as [Hi Ho]. split; [ | split; [now apply decode_packet5_content | ]].
  - pose proof (codec_encode_frame c' p) as He. cbv zeta in He. rewrite Hi, Ho in He.
    subst p'. destruct (co_request_problem_info pkt); now apply He.
  - intros Hr. subst p'. rewrite Hr. apply strip_no_diagnostics.
Qed.

Lemma v5_problem_info_witness :
  no_diagnostics (trim MAX_PACKET_SIZE (strip_problem_info (Pkt_PublishAck sample_ack))) = true.
Proof.
  apply (v5_problem_info Codec_new ({ Codec_new with no_problem_info := true })
    (frame MAX_PACKET_SIZE (Pkt_Connect sample_connect)) [] sample_connect (Pkt_PublishAck sample_ack));
    try (vm_compute; reflexivity); vm_compute; try (split; discriminate); discriminate.
Defined.

(** C38: sending an acknowledgement under a small limit.  When the peer's
    maximum packet size leaves a limit below 7, computing the size of a
    PUBACK, PUBREC, PUBREL or PUBCOMP underflows; so does that of a SUBACK
    with more status codes than the limit has room for. *)
Theorem v5_small_limit_underflow (c : Codec) (a : PublishAck) (a2 : PublishAck2) (s : SubscribeAck)
    (buf : bytes) :
  0 <= out_limit c < 2 ^ 32 -> len (sa_status s) < 2 ^ 32 - 2 ->
  (out_limit c < 7 ->
     codec_encode c (Pkt_PublishAck a) buf = (Panic, buf) /\
     codec_encode c (Pkt_PublishReceived a) buf = (Panic, buf) /\
     codec_encode c (Pkt_PublishRelease a2) buf = (Panic, buf) /\
     codec_encode c (Pkt_PublishComplete a2) buf = (Panic, buf)) /\
  (out_limit c < 2 + len (sa_status s) ->
     codec_encode c (Pkt_SubscribeAck s) buf = (Panic, buf)).
Proof.
  intros Hl Hs. split.
  - intros H7.
    assert (Ha : forall R (a : AckOf R), PublishAck_encoded_size a (out_limit c) = Panic).
    { intros R x. unfold PublishAck_encoded_size, HEADER_LEN, u32_sub at 1. case_if; [ | reflexivity].
      cbn [obind]. unfold u32_sub. bprop. now rewrite (proj2 (Z.leb_gt _ _)) by lia. }
    unfold codec_encode, wlet.
    repeat split; destruct (no_problem_info c); cbn [strip_problem_info Packet_encoded_size
      ltd_encoded_size PublishAck_EncodeLtd PublishAck2_EncodeLtd AckOf_EncodeLtd]; now rewrite Ha.
  - intros Hn. unfold codec_encode, wlet.
    assert (Hz : forall x : SubscribeAck, len (sa_status x) = len (sa_status s) ->
      SubscribeAck_encoded_size x (out_limit c) = Panic).
    { intros x Hx. unfold SubscribeAck_encoded_size. rewrite Hx, (proj2 (Z.ltb_ge _ _)) by lia.
      pose proof (len_nonneg (sa_status s)). unfold u32_sub at 1. case_if; [ | reflexivity]. cbn [obind].
      unfold u32_sub, as_u32. bprop. rewrite Z.mod_small by lia. now rewrite (proj2 (Z.leb_gt _ _)) by lia. }
    destruct (no_problem_info c); cbn [strip_problem_info Packet_encoded_size ltd_encoded_size
      SubscribeAck_EncodeLtd]; now rewrite Hz.
Qed.

Lemma v5_small_limit_underflow_witness :
  codec_encode (set_max_outbound_size Codec_new 6) (Pkt_PublishAck sample_ack) [] = (Panic, []).
Proof.
  apply (v5_small_limit_underflow (set_max_outbound_size Codec_new 6) sample_ack
    {| pa_packet_id := 1; pa_reason_code := PA2_Success; pa_properties := []; pa_reason_string := None |}
    {| sa_packet_id := 1; sa_properties := []; sa_reason_string := None; sa_status := [] |} []);
    first [reflexivity | vm_compute; split; congruence].
Defined.

(** The setter that the handshake uses for the peer's maximum packet
    size does not subtract the fixed header, as the builder does: a packet
    can be accepted whose frame is longer than the size that was set. *)
Theorem v5_set_max_outbound_exceeded (n : Z) (p : Packet) (buf : bytes) :
  let c := set_max_outbound_size Codec_new n in
  0 < n <= MAX_VARINT -> packet_ok n p = true -> len (content n p) = n ->
  codec_encode c p buf = (Ok tt, buf ++ frame n p) /\ n < len (frame n p).
Proof.
  intros c Hn Hp Hs.
  assert (Hl : out_limit c = n).
  { unfold c, out_limit, set_max_outbound_size. cbn [max_out_size apply_update]. unfold constant.
    now rewrite (proj2 (Z.eqb_neq _ _)) by lia. }
  split.
  - pose proof (codec_encode_frame c p) as He. cbv zeta in He. rewrite Hl in He. apply He; [lia | exact Hp | exact (Z.eq_le_incl _ _ Hs)].
  - unfold frame, frame_bytes. rewrite len_cons, len_app. pose proof (len_varint_pos (len (content n p))). lia.
Qed.

Lemma v5_set_max_outbound_exceeded_witness :
  codec_encode (set_max_outbound_size Codec_new 25) (Pkt_Publish sample_publish) [] =
    (Ok tt, frame 25 (Pkt_Publish sample_publish)) /\
  25 < len (frame 25 (Pkt_Publish sample_publish)).
Proof.
  apply (v5_set_max_outbound_exceeded 25 (Pkt_Publish sample_publish) []);
    [unfold MAX_VARINT; lia | vm_compute; reflexivity | vm_compute; reflexivity].
Defined.
