(* ===== verification/Version.v ===== *)
(** * Protocol version detection (src/version.rs)

    [VersionCodec] looks at the first bytes of a connection, without taking
    them from the buffer, and tells which protocol its CONNECT speaks. *)

From Stdlib Require Import ZArith List Bool Lia.
From S2P Require Import Prelude Types Wire Framing.
From S2P Require Import V3Codec V5Connect V5Codec.
Import ListNotations.
Open Scope Z_scope.

Inductive ProtocolVersion : Type := MQTT3 | MQTT5.

Definition version_decode (src : bytes) : dres (option ProtocolVersion) :=
  let len_ := len src in
  if len_ <? 2 then Ok None
  else match src with
  | [] => Panic
  | first_byte :: src_slice =>
      let? r := decode_variable_length src_slice in
      match r with
      | Some (_, consumed) =>
          let consumed := consumed + 1 in
          if first_byte =? pt_CONNECT then
            if len_ <=? consumed + 6 then Ok None
            else
              let? src := advance consumed src in
              let? '(n, src) := get_u16 src in
              let? same := is_mqtt_name n src in
              ensure! same else DInvalidProtocol in
              let? src := advance 4 src in
              let? '(level, _) := get_u8 src in
              if level =? MQTT_LEVEL_3 then Ok (Some MQTT3)
              else if level =? MQTT_LEVEL_5 then Ok (Some MQTT5)
              else Err DInvalidProtocol
          else Err DUnsupportedPacketType
      | None => Ok None
      end
  end.

(** [Encoder for VersionCodec] *)
Definition version_encode (_item : ProtocolVersion) : ewriter := wfail EUnsupportedVersion.

Lemma advance_no_panic {E} n src : n <= len src -> no_panic (@advance E n src).
Proof. intros H. unfold advance. nopanic. Qed.

Lemma advance_Ok {E} n src rest : 0 <= n -> @advance E n src = Ok rest -> len rest = len src - n.
Proof.
  unfold advance. intros Hn H. apply obind_Ok in H as ([a b] & Hs & H). injection H as <-.
  apply split_to_spec in Hs as [-> <-]; [ | assumption]. rewrite len_app. lia.
Qed.

Lemma decode_variable_length_no_panic src : no_panic (decode_variable_length src).
Proof.
  unfold decode_variable_length. pose proof (decode_varint_no_panic src) as H.
  destruct (decode_variable_length_cursor src) as [[n r] | [] | ]; easy.
Qed.

Lemma version_decode_no_panic src : no_panic (version_decode src).
Proof.
  unfold version_decode. cbv zeta. case_if; [easy | ]. destruct src as [|fb src]; [discriminate | ].
  apply no_panic_bind; [apply decode_variable_length_no_panic | ]. intros [[n k]|] Hr; [ | easy].
  apply decode_variable_length_consumed in Hr as (_ & Hk & _).
  case_if; [ | easy]. case_if; [easy | ]. bprop.
  apply no_panic_bind; [apply advance_no_panic; lia | ]. intros r Hr.
  apply advance_Ok in Hr; [ | lia].
  apply no_panic_bind; [apply get_u16_no_panic; lia | ]. intros [m r'] Hm.
  apply get_u16_Ok in Hm as (a & b & -> & _). rewrite !len_cons in *.
  apply no_panic_bind; [apply is_mqtt_name_no_panic; lia | ]. intros same _. case_if; [ | easy].
  apply no_panic_bind; [apply advance_no_panic; lia | ]. intros r2 Hr2.
  apply advance_Ok in Hr2; [ | lia].
  destruct r2 as [|lv r2]; [rewrite len_nil in Hr2; lia | ]. cbn. repeat case_if; easy.
Qed.

(** The protocol name in front of a list that has four bytes at least. *)
Definition name_is (n m1 m2 m3 m4 : Z) : bool := (n =? 4) && bytes_eqb [m1; m2; m3; m4] MQTT.

Lemma is_mqtt_name_cons n m1 m2 m3 m4 tail :
  is_mqtt_name n (m1 :: m2 :: m3 :: m4 :: tail) = Ok (name_is n m1 m2 m3 m4).
Proof.
  unfold is_mqtt_name, name_is. change (m1 :: m2 :: m3 :: m4 :: tail) with ([m1; m2; m3; m4] ++ tail).
  rewrite split_to_app by reflexivity. now destruct (n =? 4).
Qed.

Lemma advance_4_cons {E} (m1 m2 m3 m4 : Z) tail :
  @advance E 4 (m1 :: m2 :: m3 :: m4 :: tail) = Ok tail.
Proof.
  unfold advance. change (m1 :: m2 :: m3 :: m4 :: tail) with ([m1; m2; m3; m4] ++ tail). now rewrite split_to_app.
Qed.

(** The decision needs the fixed header and seven bytes of the content. *)
Lemma version_decode_connect n x y m1 m2 m3 m4 lv tail :
  0 <= n <= MAX_VARINT ->
  version_decode (pt_CONNECT :: varint n ++ x :: y :: m1 :: m2 :: m3 :: m4 :: lv :: tail) =
    if name_is (x * 2 ^ 8 + y) m1 m2 m3 m4 then
      if lv =? MQTT_LEVEL_3 then Ok (Some MQTT3)
      else if lv =? MQTT_LEVEL_5 then Ok (Some MQTT5) else Err DInvalidProtocol
    else Err DInvalidProtocol.
Proof.
  intros Hn. pose proof (len_varint_pos n). pose proof (len_nonneg tail). unfold version_decode.
  rewrite len_cons, !len_app, !len_cons. rewrite (proj2 (Z.ltb_ge _ _)) by lia.
  rewrite decode_variable_length_varint by assumption. cbn [obind].
  change (pt_CONNECT =? pt_CONNECT) with true. rewrite (proj2 (Z.leb_gt _ _)) by lia.
  unfold advance at 1. change (pt_CONNECT :: ?x) with ([pt_CONNECT] ++ x). rewrite (app_assoc [pt_CONNECT]).
  rewrite split_to_app by (rewrite len_app; change (len [pt_CONNECT]) with 1; lia).
  cbn [obind get_u16]. rewrite is_mqtt_name_cons. cbn [obind].
  case_if; [ | reflexivity]. now rewrite advance_4_cons.
Qed.

(** A list of at least seven bytes. *)
Lemma seven_bytes (l : bytes) :
  10 <= len l -> exists x y m1 m2 m3 m4 lv tail, l = x :: y :: m1 :: m2 :: m3 :: m4 :: lv :: tail.
Proof.
  intros H. destruct l as [|x [|y [|m1 [|m2 [|m3 [|m4 [|lv tail]]]]]]];
    autorewrite with len in H; try lia. eauto 10.
Qed.

Lemma v3_connect_level content p :
  V3Codec.decode_packet content pt_CONNECT = Ok p ->
  exists x y m1 m2 m3 m4 tail,
    content = x :: y :: m1 :: m2 :: m3 :: m4 :: MQTT_LEVEL_3 :: tail /\
    name_is (x * 2 ^ 8 + y) m1 m2 m3 m4 = true.
Proof.
  change (V3Codec.decode_packet _ _) with (V3Codec.decode_connect_packet content).
  unfold V3Codec.decode_connect_packet. intros H. destruct (10 <=? len content) eqn:El; [ | discriminate].
  apply Z.leb_le, seven_bytes in El as (x & y & m1 & m2 & m3 & m4 & lv & tail & ->).
  cbn [get_u16 obind] in H. rewrite is_mqtt_name_cons in H. cbn [obind] in H.
  destruct (name_is _ _ _ _ _) eqn:Hn; [ | discriminate]. rewrite advance_4_cons in H.
  cbn [obind get_u8] in H. destruct (lv =? MQTT_LEVEL_3) eqn:Hlv; [ | discriminate].
  apply Z.eqb_eq in Hlv. subst lv. eauto 10.
Qed.

Lemma v5_connect_level content p :
  V5Codec.decode_packet content pt_CONNECT = Ok p ->
  exists x y m1 m2 m3 m4 tail,
    content = x :: y :: m1 :: m2 :: m3 :: m4 :: MQTT_LEVEL_5 :: tail /\
    name_is (x * 2 ^ 8 + y) m1 m2 m3 m4 = true.
Proof.
  change (V5Codec.decode_packet _ _) with (omap V5Codec.Pkt_Connect (V5Connect.Connect_decode content)).
  unfold omap, V5Connect.Connect_decode. intros H. apply obind_Ok in H as (c & H & _).
  destruct (10 <=? len content) eqn:El; [ | discriminate].
  apply Z.leb_le, seven_bytes in El as (x & y & m1 & m2 & m3 & m4 & lv & tail & ->).
  cbn [get_u16 obind] in H. rewrite is_mqtt_name_cons in H. cbn [obind] in H.
  destruct (name_is _ _ _ _ _) eqn:Hn; [ | discriminate]. rewrite advance_4_cons in H.
  cbn [obind get_u8] in H. destruct (lv =? MQTT_LEVEL_5) eqn:Hlv; [ | discriminate].
  apply Z.eqb_eq in Hlv. subst lv. eauto 10.
Qed.

(** The version that is detected is the one whose codec decodes CONNECT. *)
Lemma version_codec (content rest : bytes) :
  len content <= MAX_VARINT ->
  (forall p, V3Codec.decode_packet content pt_CONNECT = Ok p ->
     version_decode (frame_bytes pt_CONNECT content ++ rest) = Ok (Some MQTT3)) /\
  (forall p, V5Codec.decode_packet content pt_CONNECT = Ok p ->
     version_decode (frame_bytes pt_CONNECT content ++ rest) = Ok (Some MQTT5)).
Proof.
  intros Hl. pose proof (len_nonneg content).
  split; intros p Hp; [apply v3_connect_level in Hp | apply v5_connect_level in Hp];
    destruct Hp as (x & y & m1 & m2 & m3 & m4 & tail & -> & Hn); unfold frame_bytes;
    rewrite <- app_comm_cons, <- app_assoc; cbn [app];
    rewrite version_decode_connect by lia; now rewrite Hn.
Qed.

(** ** Properties *)

(** The version that is detected is the one whose codec accepts the
    connection: if the MQTT 3.1.1 (MQTT 5) codec decodes the content of a
    CONNECT frame, the detection on that frame, whatever follows it, answers
    MQTT 3.1.1 (MQTT 5); and it never panics on any input. *)
Theorem version_agrees (content rest src : bytes) :
  no_panic (version_decode src) /\
  (len content <= MAX_VARINT ->
   (forall p, V3Codec.decode_packet content pt_CONNECT = Ok p ->
      version_decode (frame_bytes pt_CONNECT content ++ rest) = Ok (Some MQTT3)) /\
   (forall p, V5Codec.decode_packet content pt_CONNECT = Ok p ->
      version_decode (frame_bytes pt_CONNECT content ++ rest) = Ok (Some MQTT5))).
Proof.
  split; [apply version_decode_no_panic | apply version_codec].
Qed.

Lemma version_agrees_witness :
  version_decode (frame_bytes pt_CONNECT
    (V3Codec.content (V3Codec.PConnect V3Codec.sample_connect)) ++ [1]) = Ok (Some MQTT3) /\
  version_decode (frame_bytes pt_CONNECT
    (V5Codec.content MAX_PACKET_SIZE (V5Codec.Pkt_Connect V5Codec.sample_connect)) ++ []) = Ok (Some MQTT5).
Proof.
  split.
  - refine (proj1 (proj2 (version_agrees (V3Codec.content (V3Codec.PConnect V3Codec.sample_connect)) [1] []) _) _ _);
      [vm_compute; discriminate | vm_compute; reflexivity].
  - refine (proj2 (proj2 (version_agrees
      (V5Codec.content MAX_PACKET_SIZE (V5Codec.Pkt_Connect V5Codec.sample_connect)) [] []) _) _ _);
      [vm_compute; discriminate | vm_compute; reflexivity].
Defined.
