(* ===== verification/Topic.v ===== *)
(** * Topic filters (src/topic.rs)

    A topic filter is a list of levels.  Strings are lists of bytes: the four
    characters the code looks for are ASCII, so they never occur inside the
    encoding of another character. *)

From Stdlib Require Import ZArith List Bool Lia Ascii String.
From S2P Require Import Prelude.
Import ListNotations.
Open Scope Z_scope.

Definition str (s : string) : bytes :=
  map (fun a => Z.of_nat (nat_of_ascii a)) (list_ascii_of_string s).

Definition SLASH : Z := 47.
Definition PLUS : Z := 43.
Definition HASH : Z := 35.
Definition DOLLAR : Z := 36.

Inductive TopicError : Type := InvalidTopic | InvalidLevel.

Inductive Level : Type :=
| Normal (s : bytes)
| Metadata (s : bytes)
| Blank
| SingleWildcard
| MultiWildcard.

Abbreviation tres := (outcome TopicError).

(** [str::starts_with('$')] and [str::contains(|c| c == '+' || c == '#')] *)
Definition is_metadata (s : bytes) : bool :=
  match s with b :: _ => b =? DOLLAR | [] => false end.
Definition has_wildcard (s : bytes) : bool := existsb (fun c => (c =? PLUS) || (c =? HASH)) s.

Definition Level_normal (s : bytes) : tres Level :=
  if has_wildcard s then Panic else if is_metadata s then Panic else Ok (Normal s).

Definition Level_metadata (s : bytes) : tres Level :=
  if has_wildcard s then Panic else if negb (is_metadata s) then Panic else Ok (Metadata s).

Definition Level_value (l : Level) : option bytes :=
  match l with Normal s | Metadata s => Some s | _ => None end.

Definition Level_is_normal (l : Level) : bool := match l with Normal _ => true | _ => false end.
Definition Level_is_metadata (l : Level) : bool := match l with Metadata _ => true | _ => false end.

Definition Level_is_valid (l : Level) : bool :=
  match l with
  | Normal s => negb (is_metadata s) && negb (has_wildcard s)
  | Metadata s => is_metadata s && negb (has_wildcard s)
  | _ => true
  end.

Definition Level_from_str (s : bytes) : tres Level :=
  if bytes_eqb s [PLUS] then Ok SingleWildcard
  else if bytes_eqb s [HASH] then Ok MultiWildcard
  else if bytes_eqb s [] then Ok Blank
  else if has_wildcard s then Err InvalidLevel
  else if is_metadata s then Ok (Metadata s)
  else Ok (Normal s).

(** ** Topics *)

Abbreviation Topic := (list Level).

(** [Iterator::position] and [enumerate] *)
Fixpoint position {A} (f : A -> bool) (l : list A) : option nat :=
  match l with
  | [] => None
  | x :: l => if f x then Some O else option_map S (position f l)
  end.

Fixpoint enumerate_from {A} (n : Z) (l : list A) : list (Z * A) :=
  match l with [] => [] | x :: l => (n, x) :: enumerate_from (n + 1) l end.

Definition misplaced (n : Z) (p : Z * Level) : bool :=
  match snd p with
  | MultiWildcard => negb (fst p =? n - 1)
  | Metadata _ => negb (fst p =? 0)
  | _ => false
  end.

Definition Topic_is_valid (t : Topic) : bool :=
  is_none
    (match position (fun level => negb (Level_is_valid level)) t with
     | Some n => Some n
     | None => position (misplaced (len t)) (enumerate_from 0 t)
     end).

(** [str::split(c)]: at least one piece, and one more for every [c]. *)
Fixpoint split_on (c : Z) (s : bytes) : list bytes :=
  match s with
  | [] => [[]]
  | b :: s =>
      if b =? c then [] :: split_on c s
      else match split_on c s with
           | piece :: pieces => (b :: piece) :: pieces
           | [] => [[b]]
           end
  end.

Definition Topic_from_str (s : bytes) : tres Topic :=
  let? topic := otraverse Level_from_str (split_on SLASH s) in
  if Topic_is_valid topic then Ok topic else Err InvalidTopic.

(** [Display for Level] and [Display for Topic] *)
Definition Level_fmt (l : Level) : bytes :=
  match l with
  | Normal s | Metadata s => s
  | Blank => []
  | SingleWildcard => [PLUS]
  | MultiWildcard => [HASH]
  end.

Fixpoint Topic_fmt_loop (first : bool) (t : Topic) : bytes :=
  match t with
  | [] => []
  | level :: t => (if first then [] else [SLASH]) ++ Level_fmt level ++ Topic_fmt_loop false t
  end.

Definition Topic_fmt (t : Topic) : bytes := Topic_fmt_loop true t.

(** [WriteTopicExt]: the bytes written and the number returned, for a writer
    that takes all it is given. *)
Definition write_level (l : Level) : bytes * Z := (Level_fmt l, len (Level_fmt l)).

Fixpoint write_topic_loop (first : bool) (n : Z) (t : Topic) : bytes * Z :=
  match t with
  | [] => ([], n)
  | level :: t =>
      let sep := if first then [] else [SLASH] in
      let n := n + len sep in
      let '(out, m) := write_level level in
      let '(rest, n) := write_topic_loop false (n + m) t in
      (sep ++ out ++ rest, n)
  end.

Definition write_topic (t : Topic) : bytes * Z := write_topic_loop true 0 t.

(** ** Matching *)

(** [trait MatchLevel], for levels and for strings *)
Class MatchLevel (R : Type) := { match_level : R -> Level -> bool }.

Definition level_match_level (rhs level : Level) : bool :=
  match level with
  | Normal lhs => match rhs with Normal rhs => bytes_eqb lhs rhs | _ => false end
  | Metadata lhs => match rhs with Metadata rhs => bytes_eqb lhs rhs | _ => false end
  | Blank => true
  | SingleWildcard | MultiWildcard => negb (Level_is_metadata rhs)
  end.

Definition str_match_level (rhs : bytes) (level : Level) : bool :=
  match level with
  | Normal lhs => negb (is_metadata rhs) && bytes_eqb lhs rhs
  | Metadata lhs => is_metadata rhs && bytes_eqb lhs rhs
  | Blank => negb (has_remaining rhs)
  | SingleWildcard | MultiWildcard => negb (is_metadata rhs)
  end.

#[export] Instance MatchLevel_Level : MatchLevel Level := { match_level := level_match_level }.
#[export] Instance MatchLevel_str : MatchLevel bytes := { match_level := str_match_level }.

(** The [matches!] macro: the loop, and the check after it, which [break]
    reaches as well. *)
Definition match_rest (lhs : list Level) : bool :=
  match lhs with
  | MultiWildcard :: _ => true
  | _ :: _ => false
  | [] => true
  end.

Fixpoint match_loop {R} `{MatchLevel R} (lhs : list Level) (levels : list R) : bool :=
  match levels with
  | [] => match_rest lhs
  | rhs :: levels =>
      match lhs with
      | SingleWildcard :: lhs =>
          if negb (match_level rhs SingleWildcard) then match_rest lhs else match_loop lhs levels
      | MultiWildcard :: _ => match_level rhs MultiWildcard
      | level :: lhs => if match_level rhs level then match_loop lhs levels else false
      | [] => false
      end
  end.

Definition Topic_matches (self topic : Topic) : bool := match_loop self topic.
Definition Topic_matches_str (self : Topic) (topic : bytes) : bool :=
  match_loop self (split_on SLASH topic).

(** ** Splitting and joining *)

Fixpoint join (c : Z) (pieces : list bytes) : bytes :=
  match pieces with
  | [] => []
  | [p] => p
  | p :: pieces => p ++ c :: join c pieces
  end.

Lemma split_on_cons c s : exists p ps, split_on c s = p :: ps.
Proof.
  destruct s as [|b s]; cbn [split_on]; [eauto | ]. destruct (b =? c); [eauto | ].
  destruct (split_on c s); eauto.
Qed.

Lemma join_split c s : join c (split_on c s) = s.
Proof.
  induction s as [|b s IH]; [reflexivity | ]. cbn [split_on].
  destruct (split_on_cons c s) as (p & ps & Hs). destruct (b =? c) eqn:E.
  - bprop. subst. rewrite Hs in *. cbn [join app] in *. now rewrite IH.
  - rewrite Hs in *. destruct ps; cbn [join app] in *; now rewrite IH.
Qed.

Lemma split_app c p s :
  existsb (Z.eqb c) p = false -> split_on c (p ++ c :: s) = p :: split_on c s.
Proof.
  induction p as [|b p IH]; cbn [app split_on existsb]; intros H; [now rewrite Z.eqb_refl | ].
  apply orb_false_iff in H as [Hb Hp]. rewrite Z.eqb_sym, Hb, IH by assumption. reflexivity.
Qed.

Lemma split_piece c p : existsb (Z.eqb c) p = false -> split_on c p = [p].
Proof.
  induction p as [|b p IH]; cbn [split_on existsb]; intros H; [reflexivity | ].
  apply orb_false_iff in H as [Hb Hp]. now rewrite Z.eqb_sym, Hb, IH by assumption.
Qed.

Lemma split_join c ps :
  ps <> [] -> forallb (fun p => negb (existsb (Z.eqb c) p)) ps = true -> split_on c (join c ps) = ps.
Proof.
  induction ps as [|p ps IH]; [easy | ]. intros _ H. cbn [forallb] in H.
  apply andb_true_iff in H as [Hp Hps]. apply negb_true_iff in Hp.
  destruct ps as [|q ps]; [now apply split_piece | ].
  change (join c (p :: q :: ps)) with (p ++ c :: join c (q :: ps)). rewrite split_app by assumption. now rewrite IH.
Qed.

Lemma Topic_fmt_loop_false t :
  Topic_fmt_loop false t = match t with [] => [] | _ => SLASH :: join SLASH (map Level_fmt t) end.
Proof.
  induction t as [|l t IH]; [reflexivity | ]. cbn [Topic_fmt_loop]. rewrite IH. cbn [app map].
  destruct t; cbn [join map]; [now rewrite app_nil_r | reflexivity].
Qed.

Lemma Topic_fmt_join t : Topic_fmt t = join SLASH (map Level_fmt t).
Proof.
  unfold Topic_fmt. destruct t as [|l t]; [reflexivity | ]. cbn [Topic_fmt_loop app map].
  rewrite Topic_fmt_loop_false. destruct t; cbn [join map]; [now rewrite app_nil_r | reflexivity].
Qed.

Lemma write_topic_loop_fmt first n t :
  write_topic_loop first n t = (Topic_fmt_loop first t, n + len (Topic_fmt_loop first t)).
Proof.
  revert first n; induction t as [|l t IH]; intros first n; cbn [write_topic_loop Topic_fmt_loop].
  - rewrite len_nil. f_equal. lia.
  - unfold write_level. rewrite IH, !len_app. f_equal. lia.
Qed.

(** ** Levels *)

Lemma Level_from_str_fmt s l : Level_from_str s = Ok l -> Level_fmt l = s.
Proof.
  unfold Level_from_str. destruct (bytes_eqb s [PLUS]) eqn:E1; [apply bytes_eqb_eq in E1 as ->; now intros [= <-] | ].
  destruct (bytes_eqb s [HASH]) eqn:E2; [apply bytes_eqb_eq in E2 as ->; now intros [= <-] | ].
  destruct (bytes_eqb s []) eqn:E3; [apply bytes_eqb_eq in E3 as ->; now intros [= <-] | ].
  destruct (has_wildcard s); [discriminate | ]. destruct (is_metadata s); now intros [= <-].
Qed.

Lemma Level_from_str_valid s l : Level_from_str s = Ok l -> Level_is_valid l = true.
Proof.
  unfold Level_from_str. repeat (case_if; [try (now intros [= <-]); try discriminate | ]).
  - intros [= <-]. cbn. now rewrite Heqb3, Heqb2.
  - intros [= <-]. cbn. now rewrite Heqb3, Heqb2.
Qed.

(** A level that is printed as itself. *)
Definition canonical (l : Level) : bool :=
  Level_is_valid l && negb (existsb (Z.eqb SLASH) (Level_fmt l)) &&
  match l with Normal s => has_remaining s | _ => true end.

Lemma Level_fmt_from_str l : canonical l = true -> Level_from_str (Level_fmt l) = Ok l.
Proof.
  unfold canonical. rewrite !andb_true_iff. intros [[Hv _] Hn].
  destruct l as [s|s| | | ]; try reflexivity; cbn [Level_fmt Level_is_valid] in *;
    apply andb_true_iff in Hv as [Hm Hw]; apply negb_true_iff in Hw;
    unfold Level_from_str; destruct s as [|b s]; try discriminate; rewrite Hw;
    (destruct (bytes_eqb (b :: s) [PLUS]) eqn:E1;
      [apply bytes_eqb_eq in E1; injection E1 as -> ->; discriminate | ]);
    (destruct (bytes_eqb (b :: s) [HASH]) eqn:E2;
      [apply bytes_eqb_eq in E2; injection E2 as -> ->; discriminate | ]);
    cbn [bytes_eqb].
  - apply negb_true_iff in Hm. now rewrite Hm.
  - now rewrite Hm.
Qed.

(** ** Validity *)

Lemma position_none {A} (f : A -> bool) l : position f l = None <-> forallb (fun x => negb (f x)) l = true.
Proof.
  induction l as [|x l IH]; [easy | ]. cbn. destruct (f x); cbn; [easy | ].
  rewrite <- IH. now destruct (position f l).
Qed.

Lemma Topic_is_valid_split t :
  Topic_is_valid t =
  forallb Level_is_valid t && forallb (fun p => negb (misplaced (len t) p)) (enumerate_from 0 t).
Proof.
  unfold Topic_is_valid.
  pose proof (position_none (fun level => negb (Level_is_valid level)) t) as H1.
  pose proof (position_none (misplaced (len t)) (enumerate_from 0 t)) as H2.
  assert (He : forallb (fun x => negb (negb (Level_is_valid x))) t = forallb Level_is_valid t)
    by (clear; induction t as [|l t IH]; [reflexivity | cbn; now rewrite negb_involutive, IH]).
  cbv beta in H1. rewrite He in H1. revert H1 H2.
  destruct (position _ t), (position _ (enumerate_from 0 t)), (forallb Level_is_valid t),
    (forallb _ (enumerate_from 0 t)); cbn; try reflexivity; intuition congruence.
Qed.

Lemma enumerate_forallb {A} (P : Z * A -> bool) l n :
  forallb P (enumerate_from n l) = true <->
  forall i x, nth_error l i = Some x -> P (n + Z.of_nat i, x) = true.
Proof.
  revert n; induction l as [|y l IH]; intros n; cbn [enumerate_from forallb].
  - split; [intros _ [|i] x; discriminate | easy].
  - rewrite andb_true_iff, IH. split.
    + intros [Hy Hl] [|i] x Hx; cbn in Hx.
      * injection Hx as <-. now rewrite Z.add_0_r.
      * apply Hl in Hx. replace (n + Z.of_nat (S i)) with (n + 1 + Z.of_nat i) by lia. assumption.
    + intros H. split; [specialize (H 0%nat y eq_refl); now rewrite Z.add_0_r in H | ].
      intros i x Hx. specialize (H (S i) x Hx). replace (n + 1 + Z.of_nat i) with (n + Z.of_nat (S i)) by lia.
      assumption.
Qed.

(** ** Matching as the MQTT specification has it *)

(** Level by level: [#] takes the rest and the parent level, [+] one level, any
    other level itself. *)
Fixpoint mqtt_match_levels (f : list Level) (ls : list bytes) : bool :=
  match f, ls with
  | [], [] => true
  | MultiWildcard :: _, _ => true
  | SingleWildcard :: f, _ :: ls => mqtt_match_levels f ls
  | l :: f, s :: ls => bytes_eqb (Level_fmt l) s && mqtt_match_levels f ls
  | _, _ => false
  end.

Definition starts_with_wildcard (f : list Level) : bool :=
  match f with SingleWildcard :: _ | MultiWildcard :: _ => true | _ => false end.

(** A filter that starts with a wildcard matches no topic that starts with [$]. *)
Definition mqtt_match (f : list Level) (ls : list bytes) : bool :=
  match ls with
  | s :: _ => if is_metadata s && starts_with_wildcard f then false else mqtt_match_levels f ls
  | [] => mqtt_match_levels f ls
  end.

Lemma is_metadata_neq a b : is_metadata a = true -> is_metadata b = false -> bytes_eqb a b = false.
Proof.
  intros Ha Hb. destruct (bytes_eqb a b) eqn:E; [ | reflexivity]. apply bytes_eqb_eq in E. congruence.
Qed.

(** A level that is no wildcard compares as its text. *)
Lemma str_match_level_text s l :
  Level_is_valid l = true -> l <> SingleWildcard -> l <> MultiWildcard ->
  str_match_level s l = bytes_eqb (Level_fmt l) s.
Proof.
  destruct l as [t|t| | | ]; cbn [Level_is_valid str_match_level Level_fmt]; intros Hv H1 H2; try easy.
  - apply andb_true_iff in Hv as [Hv _]. apply negb_true_iff in Hv.
    destruct (is_metadata s) eqn:Hs; cbn [negb andb]; [ | reflexivity].
    destruct (bytes_eqb t s) eqn:E; [ | reflexivity]. apply bytes_eqb_eq in E. congruence.
  - apply andb_true_iff in Hv as [Hv _]. destruct (is_metadata s) eqn:Hs; cbn [andb]; [reflexivity | ].
    now rewrite is_metadata_neq.
  - now destruct s.
Qed.

(** The filter from its first wildcard on that meets a level starting with
    [$], if the levels before it match *)
Fixpoint dollar_met (f : list Level) (ls : list bytes) : option (list Level) :=
  match f, ls with
  | SingleWildcard :: f', s :: ls => if is_metadata s then Some f else dollar_met f' ls
  | MultiWildcard :: _, s :: _ => if is_metadata s then Some f else None
  | l :: f', s :: ls => if bytes_eqb (Level_fmt l) s then dollar_met f' ls else None
  | _, _ => None
  end.

(** There [#] does not match, and [+] ends the loop. *)
Lemma match_loop_levels f ls :
  forallb Level_is_valid f = true ->
  match_loop f ls = match dollar_met f ls with
                    | None => mqtt_match_levels f ls
                    | Some (SingleWildcard :: rest) => match_rest rest
                    | Some _ => false
                    end.
Proof.
  revert f; induction ls as [|s ls IH]; intros f Hf.
  - destruct f as [|[] f]; reflexivity.
  - destruct f as [|l f]; [reflexivity | ]. cbn [forallb] in Hf. apply andb_true_iff in Hf as [Hv Hf].
    specialize (IH f Hf). cbn [match_loop match_level MatchLevel_str].
    destruct l; cbn [mqtt_match_levels dollar_met];
      try (rewrite str_match_level_text by easy; destruct (bytes_eqb _ s); [assumption | reflexivity]);
      cbn [str_match_level]; destruct (is_metadata s); cbn [negb]; reflexivity || assumption.
Qed.

(** Without such a wildcard the rule for [$] does not apply. *)
Lemma dollar_met_none f ls : dollar_met f ls = None -> mqtt_match f ls = mqtt_match_levels f ls.
Proof.
  destruct ls as [|s ls]; [reflexivity | ]. cbn [mqtt_match]. destruct (is_metadata s) eqn:Hs; [ | reflexivity].
  destruct f as [|[] f]; cbn; rewrite ?Hs; easy.
Qed.

(** ** A parsed topic and its text *)

Lemma Normal_not_wild t r :
  Level_is_valid (Normal t) = true \/ Level_is_valid (Metadata t) = true -> has_wildcard r = true ->
  bytes_eqb t r = false.
Proof.
  intros Ht Hr. destruct (bytes_eqb t r) eqn:E; [ | reflexivity]. apply bytes_eqb_eq in E. subst.
  cbn in Ht. rewrite Hr, !andb_false_r in Ht. now destruct Ht.
Qed.

(** Levels as the parser makes them: no empty text. *)
Definition parsed_level (l : Level) : bool :=
  Level_is_valid l && match l with Normal s => has_remaining s | Blank => false | _ => true end.

Lemma level_str_match l rhs r :
  parsed_level l = true -> Level_from_str r = Ok rhs ->
  level_match_level rhs l = str_match_level r l.
Proof.
  unfold parsed_level. rewrite andb_true_iff. intros [Hv Hb] Hr.
  pose proof (Level_from_str_valid _ _ Hr) as Hrv.
  pose proof (Level_from_str_fmt _ _ Hr) as Hf.
  destruct rhs as [x|x| | | ]; cbn [Level_fmt] in Hf; subst r;
    destruct l as [t|t| | | ]; try discriminate Hb;
    cbn [level_match_level str_match_level Level_is_metadata];
    try (cbn [Level_is_valid] in Hrv; apply andb_true_iff in Hrv as [Hrv _]);
    try (apply negb_true_iff in Hrv); rewrite ?Hrv; try reflexivity;
    cbn [is_metadata negb andb]; try (symmetry; apply Normal_not_wild; [auto | reflexivity]).
  all: try (destruct t; [ | reflexivity]); try discriminate Hv; try discriminate Hb; reflexivity.
Qed.

Lemma match_loop_agree f ts ss :
  forallb parsed_level f = true ->
  otraverse Level_from_str ss = Ok ts ->
  match_loop f ts = match_loop f ss.
Proof.
  revert f ts; induction ss as [|s ss IH]; intros f ts Hf Ht; cbn in Ht.
  - injection Ht as <-. now destruct f.
  - apply obind_Ok in Ht as (t & Ht & H). apply obind_Ok in H as (ts' & Hts & H). injection H as <-.
    destruct f as [|l f]; [reflexivity | ]. cbn [forallb] in *.
    apply andb_true_iff in Hf as [Hv Hf]. specialize (IH f ts' Hf Hts). cbn [match_loop match_level MatchLevel_str MatchLevel_Level].
    assert (Hm : level_match_level t l = str_match_level s l)
      by now apply level_str_match.
    destruct l; try discriminate; now rewrite Hm, ?IH.
Qed.

(** ** Properties *)

(** C35: parsing and printing are inverse: a string that parses as a topic is
    what the topic prints as, and a valid topic whose levels print as
    themselves parses back from its text.  Writing a topic to a writer gives
    the same text and returns its length. *)
Theorem topic_roundtrip (s : bytes) (t : Topic) :
  (Topic_from_str s = Ok t -> Topic_fmt t = s /\ Topic_is_valid t = true) /\
  (t <> [] -> forallb canonical t = true -> Topic_is_valid t = true ->
     Topic_from_str (Topic_fmt t) = Ok t) /\
  write_topic t = (Topic_fmt t, len (Topic_fmt t)).
Proof.
  split; [ | split; [ | apply write_topic_loop_fmt]].
  - unfold Topic_from_str. intros H. apply obind_Ok in H as (t' & Ht & H).
    destruct (Topic_is_valid t') eqn:Hv; [ | discriminate]. injection H as ->.
    apply (otraverse_sound _ Level_fmt) in Ht; [ | exact Level_from_str_fmt].
    split; [ | assumption]. now rewrite Topic_fmt_join, <- Ht, join_split.
  - intros Hne Hc Hv. unfold Topic_from_str. rewrite Topic_fmt_join, split_join.
    + rewrite otraverse_inverse; [cbn [obind]; now rewrite Hv | ]. intros l Hl.
      rewrite forallb_forall in Hc. now apply Level_fmt_from_str, Hc.
    + now destruct t.
    + clear - Hc. induction t as [|l t IH]; [reflexivity | ]. cbn [map forallb] in *.
      apply andb_true_iff in Hc as [Hl Hc]. rewrite IH by assumption. unfold canonical in Hl.
      rewrite !andb_true_iff in Hl. now destruct Hl as [[_ ->] _].
Qed.

Lemma topic_roundtrip_witness :
  Topic_fmt [Metadata (str "$SYS"); SingleWildcard; Blank; MultiWildcard] = str "$SYS/+//#" /\
  Topic_from_str (Topic_fmt [Normal (str "a"); Blank; MultiWildcard]) =
    Ok [Normal (str "a"); Blank; MultiWildcard].
Proof.
  split.
  - apply (proj1 (topic_roundtrip (str "$SYS/+//#")
      [Metadata (str "$SYS"); SingleWildcard; Blank; MultiWildcard])). vm_compute. reflexivity.
  - apply (proj1 (proj2 (topic_roundtrip [] [Normal (str "a"); Blank; MultiWildcard])));
      [discriminate | vm_compute; reflexivity | vm_compute; reflexivity].
Defined.

(** What [is_valid] accepts: every level is well formed, [#] is only the
    last level, and a level that starts with [$] only the first. *)
Theorem topic_is_valid_spec (t : Topic) :
  Topic_is_valid t = true <->
  (forall i l, nth_error t i = Some l ->
     Level_is_valid l = true /\
     (l = MultiWildcard -> S i = List.length t) /\
     (Level_is_metadata l = true -> i = 0%nat)).
Proof.
  rewrite Topic_is_valid_split, andb_true_iff, enumerate_forallb. rewrite forallb_forall. split.
  - intros [Hv Hm] i l Hl. split; [apply Hv; now apply nth_error_In in Hl | ].
    specialize (Hm i l Hl). unfold misplaced in Hm. cbn [fst snd] in Hm.
    split; intros Hx; destruct l; try discriminate; bprop; unfold len in *; lia.
  - intros H. split.
    + intros l Hl. apply In_nth_error in Hl as (i & Hi). now apply H in Hi.
    + intros i l Hl. specialize (H i l Hl) as (_ & H1 & H2). unfold misplaced. cbn [fst snd].
      destruct l; try reflexivity; apply negb_true_iff, negb_false_iff, Z.eqb_eq; unfold len.
      * specialize (H2 eq_refl). lia.
      * specialize (H1 eq_refl). lia.
Qed.

(** C36: matching a topic name, for every valid filter and every topic.
    Unless a wildcard of the filter meets a level that starts with [$], it
    agrees with the MQTT rules.  Where [#] meets such a level, at whatever
    depth, there is no match; where [+] meets one, the rest of the topic is not
    looked at, and the answer is whether nothing or [#] comes next in the
    filter.  (The rules have an exception for [$] at the first level only, and
    there neither wildcard matches.) *)
Theorem matches_str_spec (f : Topic) (topic : bytes) :
  Topic_is_valid f = true ->
  Topic_matches_str f topic =
    match dollar_met f (split_on SLASH topic) with
    | None => mqtt_match f (split_on SLASH topic)
    | Some (SingleWildcard :: rest) => match_rest rest
    | Some _ => false
    end.
Proof.
  intros Hf. unfold Topic_matches_str. rewrite Topic_is_valid_split in Hf. apply andb_true_iff in Hf as [Hf _].
  rewrite match_loop_levels by assumption. destruct (dollar_met _ _) eqn:E; [reflexivity | ].
  now rewrite dollar_met_none.
Qed.

Lemma matches_str_spec_witness :
  Topic_matches_str [Normal (str "sport"); SingleWildcard; MultiWildcard] (str "sport/tennis") =
    mqtt_match [Normal (str "sport"); SingleWildcard; MultiWildcard] (split_on SLASH (str "sport/tennis")) /\
  Topic_matches_str [MultiWildcard] (str "$SYS/monitor") = false /\
  Topic_matches_str [SingleWildcard] (str "$SYS/monitor") = true.
Proof.
  split; [ | split].
  - apply (matches_str_spec [Normal (str "sport"); SingleWildcard; MultiWildcard] (str "sport/tennis")). reflexivity.
  - apply (matches_str_spec [MultiWildcard] (str "$SYS/monitor")). reflexivity.
  - apply (matches_str_spec [SingleWildcard] (str "$SYS/monitor")). reflexivity.
Defined.

(** The case the rules exclude: a filter [+], or [+/#], matches every
    topic that starts with [$], of any depth, because the loop stops at the
    first level and the check after it only looks at the rest of the filter. *)
Theorem plus_matches_metadata (f : Topic) (s : bytes) (ls : list bytes) :
  match_rest f = true -> is_metadata s = true ->
  match_loop (SingleWildcard :: f) (s :: ls) = true /\ mqtt_match (SingleWildcard :: f) (s :: ls) = false.
Proof.
  intros Hf Hs. cbn [match_loop match_level MatchLevel_str str_match_level mqtt_match].
  rewrite Hs. cbn [negb andb starts_with_wildcard]. now split.
Qed.

Lemma plus_matches_metadata_witness :
  match_loop [SingleWildcard] [str "$SYS"; str "monitor"] = true /\
  mqtt_match [SingleWildcard] [str "$SYS"; str "monitor"] = false.
Proof. apply (plus_matches_metadata [] (str "$SYS") [str "monitor"]); reflexivity. Defined.

(** C37: matching a parsed topic agrees with matching its text, for every
    filter whose levels are as the parser makes them and not blank.  A blank level of a filter matches any single
    level of a parsed topic, and only a blank level of a text. *)
Theorem matches_agree (f t : Topic) (s : bytes) :
  Topic_from_str s = Ok t ->
  (forallb parsed_level f = true -> Topic_matches f t = Topic_matches_str f s) /\
  (forall l, Topic_matches [Blank] [l] = true) /\
  Topic_matches_str [Blank] s = negb (has_remaining s).
Proof.
  intros Ht. split; [ | split; [reflexivity | ]].
  - intros Hf. unfold Topic_from_str in Ht. apply obind_Ok in Ht as (t' & Ht & H).
    destruct (Topic_is_valid t'); [ | discriminate]. injection H as ->.
    now apply match_loop_agree.
  - unfold Topic_matches_str. destruct s as [|b s]; [reflexivity | ]. cbn [split_on].
    destruct (split_on_cons SLASH s) as (p & ps & Hs). rewrite Hs.
    destruct (b =? SLASH); reflexivity.
Qed.

Lemma matches_agree_witness :
  Topic_matches [Normal (str "a"); MultiWildcard] [Normal (str "a"); Normal (str "b")] =
    Topic_matches_str [Normal (str "a"); MultiWildcard] (str "a/b").
Proof.
  apply (proj1 (matches_agree [Normal (str "a"); MultiWildcard] [Normal (str "a"); Normal (str "b")]
    (str "a/b") ltac:(vm_compute; reflexivity))).
  vm_compute. reflexivity.
Defined.
