(* ===== verification/Testing.v ===== *)
(** * The repository's unit tests, run on the model

    A model can be wrong in a way no theorem about it shows.  The unit tests
    of the sources are translated here and in [V3Tests] and [V5Tests]
    assertion by assertion, with the same input bytes, and evaluated on the
    definitions of this development.  A test is a computation that may panic,
    as [unwrap] does; it passes when it returns [true].

    This file has the assertions, and the tests of [src/utils.rs],
    [src/topic.rs] and [src/version.rs]. *)

From stdpp Require Import base decidable numbers list.
From Stdlib Require Import ZArith List Bool String Ascii.
From S2P Require Import Prelude Types Wire Topic Version.
Import ListNotations.
Open Scope Z_scope.

(** ** Assertions *)

Abbreviation test := (outcome Empty_set bool).

Definition passes (t : test) : bool := match t with Ok b => b | _ => false end.

(** [Result::unwrap] and [Option::unwrap] *)
Definition unwrap {E F A} (o : outcome E A) : outcome F A :=
  match o with Ok a => Ok a | _ => Panic end.

Definition unwrap_some {F A} (o : option A) : outcome F A :=
  match o with Some a => Ok a | None => Panic end.

Definition is_err {E A} (o : outcome E A) : bool := match o with Err _ => true | _ => false end.

Definition assert_eq {A} `{EqDecision A} (a b : A) : bool := bool_decide (a = b).

(** [assert_eq!] on [Result<A, DecodeError>], with the equality that
    [src/error.rs] gives to errors *)
Definition assert_eq_res {A} `{EqDecision A} (a b : dres A) : bool :=
  match a, b with
  | Ok a, Ok b => bool_decide (a = b)
  | Err a, Err b => decode_error_eq a b
  | _, _ => false
  end.

Definition all (asserts : list bool) : test := Ok (forallb id asserts).

(** [&bytes[n..]], which panics past the end *)
Definition slice_from {F} (n : Z) (src : bytes) : outcome F bytes :=
  let? '(_, rest) := split_to n src in Ok rest.

(** What a writer leaves in an empty buffer, [unwrap]ped *)
Definition written {E F} (w : writer E) : outcome F bytes :=
  match w [] with (Ok _, buf) => Ok buf | _ => Panic end.

(** ** Byte string literals: the escapes [\xHH] and [\0] *)

Definition hex_digit (c : ascii) : Z :=
  let n := Z.of_N (N_of_ascii c) in
  if n <? 58 then n - 48 else if n <? 71 then n - 55 else n - 87.

Fixpoint b (s : string) : bytes :=
  match s with
  | EmptyString => []
  | String c s =>
      if Ascii.eqb c (ascii_of_N 92) then
        match s with
        | String e s =>
            if Ascii.eqb e "0" then 0 :: b s
            else match s with
                 | String h (String l s) => hex_digit h * 16 + hex_digit l :: b s
                 | _ => []
                 end
        | EmptyString => []
        end
      else Z.of_N (N_of_ascii c) :: b s
  end.

(** ** Equality of the types the assertions compare *)

#[export] Instance QoS_eq_dec : EqDecision QoS.
Proof. solve_decision. Defined.
#[export] Instance u16_eq_dec : EqDecision u16 := Z.eq_dec.
#[export] Instance u32_eq_dec : EqDecision u32 := Z.eq_dec.
#[export] Instance nz16_eq_dec : EqDecision NonZeroU16 := Z.eq_dec.
#[export] Instance nz32_eq_dec : EqDecision NonZeroU32 := Z.eq_dec.
#[export] Instance bytes_eq_dec : EqDecision bytes := (_ : EqDecision (list Z)).
#[export] Instance Bytes_eq_dec : EqDecision Bytes := (_ : EqDecision (list Z)).
#[export] Instance ByteString_eq_dec : EqDecision ByteString := (_ : EqDecision (list Z)).
#[export] Instance Level_eq_dec : EqDecision Level.
Proof. solve_decision. Defined.
#[export] Instance ProtocolVersion_eq_dec : EqDecision ProtocolVersion.
Proof. solve_decision. Defined.

(** ** src/utils.rs *)

Definition assert_variable_length (src : bytes) (res : Z * Z) : bool :=
  assert_eq_res (decode_variable_length src) (Ok (Some res)).

Definition test_decode_variable_length : test :=
  all [assert_variable_length (b "\x7f\x7f") (127, 1);
       assert_eq_res (decode_variable_length (b "\xff\xff\xff")) (Ok None);
       assert_eq_res (decode_variable_length (b "\xff\xff\xff\xff\xff\xff")) (Err DInvalidLength);
       assert_variable_length (b "\x00") (0, 1);
       assert_variable_length (b "\x7f") (127, 1);
       assert_variable_length (b "\x80\x01") (128, 2);
       assert_variable_length (b "\xff\x7f") (16383, 2);
       assert_variable_length (b "\x80\x80\x01") (16384, 3);
       assert_variable_length (b "\xff\xff\x7f") (2097151, 3);
       assert_variable_length (b "\x80\x80\x80\x01") (2097152, 4);
       assert_variable_length (b "\xff\xff\xff\x7f") (268435455, 4)].

Definition test_encode_variable_length : test :=
  let? v1 := written (write_variable_length 123) in
  let? v2 := written (write_variable_length 129) in
  let? v3 := written (write_variable_length 16383) in
  let? v4 := written (write_variable_length 2097151) in
  let? v5 := written (write_variable_length 268435455) in
  all [assert_eq v1 [123];
       assert_eq v2 (b "\x81\x01");
       assert_eq v3 (b "\xff\x7f");
       assert_eq v4 (b "\xff\xff\x7f");
       assert_eq v5 (b "\xff\xff\xff\x7f")].

(** ** src/topic.rs *)

Definition normal {F} (s : string) : outcome F Level := unwrap (Level_normal (b s)).
Definition metadata {F} (s : string) : outcome F Level := unwrap (Level_metadata (b s)).

Definition test_level : test :=
  let? sport := normal "sport" in
  let? sys := metadata "$SYS" in
  let? sport' := unwrap (Level_from_str (b "sport")) in
  let? sys' := unwrap (Level_from_str (b "$SYS")) in
  all [Level_is_normal sport;
       Level_is_metadata sys;
       assert_eq (Level_value sport) (Some (b "sport"));
       assert_eq (Level_value sys) (Some (b "$SYS"));
       assert_eq sport sport';
       assert_eq sys sys';
       Level_is_valid (Normal (b "sport"));
       Level_is_valid (Metadata (b "$SYS"));
       negb (Level_is_valid (Normal (b "$sport")));
       negb (Level_is_valid (Metadata (b "SYS")));
       negb (Level_is_valid (Normal (b "sport#")));
       negb (Level_is_valid (Metadata (b "SYS+")))].

Definition test_valid_topic : test :=
  let? sport := normal "sport" in
  let? tennis := normal "tennis" in
  let? player1 := normal "player1" in
  let? sys := metadata "$SYS" in
  all [Topic_is_valid [sport; tennis; player1];
       Topic_is_valid [sport; tennis; MultiWildcard];
       Topic_is_valid [sys; tennis; MultiWildcard];
       Topic_is_valid [sport; SingleWildcard; player1];
       negb (Topic_is_valid [sport; MultiWildcard; player1]);
       negb (Topic_is_valid [sport; sys; player1])].

(** The [topic!] macro *)
Definition topic {F} (s : string) : outcome F (list Level) := unwrap (Topic_from_str (b s)).

Definition test_parse_topic : test :=
  let? sport := normal "sport" in
  let? tennis := normal "tennis" in
  let? player1 := normal "player1" in
  let? finance := normal "finance" in
  let? sys := metadata "$SYS" in
  let? t1 := topic "sport/tennis/player1" in
  let? t2 := topic "" in
  let? t3 := topic "/finance" in
  let? t4 := topic "$SYS" in
  all [Topic_matches t1 [sport; tennis; player1];
       Topic_matches t2 [Blank];
       Topic_matches t3 [Blank; finance];
       Topic_matches t4 [sys];
       is_err (Topic_from_str (b "sport/$SYS"))].

Definition test_multi_wildcard_topic : test :=
  let? sport := normal "sport" in
  let? tennis := normal "tennis" in
  let? t1 := topic "sport/tennis/#" in
  let? t2 := topic "#" in
  all [Topic_matches t1 [sport; tennis; MultiWildcard];
       Topic_matches t2 [MultiWildcard];
       is_err (Topic_from_str (b "sport/tennis#"));
       is_err (Topic_from_str (b "sport/tennis/#/ranking"))].

Definition test_single_wildcard_topic : test :=
  let? sport := normal "sport" in
  let? tennis := normal "tennis" in
  let? player1 := normal "player1" in
  let? t1 := topic "+" in
  let? t2 := topic "+/tennis/#" in
  let? t3 := topic "sport/+/player1" in
  all [Topic_matches t1 [SingleWildcard];
       Topic_matches t2 [SingleWildcard; tennis; MultiWildcard];
       Topic_matches t3 [sport; SingleWildcard; player1];
       is_err (Topic_from_str (b "sport+"))].

Definition test_write_topic : test :=
  let? tennis := normal "tennis" in
  let t := [SingleWildcard; tennis; MultiWildcard] in
  let '(v, n) := write_topic t in
  all [assert_eq n 10;
       assert_eq v (b "+/tennis/#");
       assert_eq (Topic_fmt t) (b "+/tennis/#")].

Definition test_matches : test :=
  let? test_ := normal "test" in
  let? sys := metadata "$SYS" in
  let? t1 := topic "sport/tennis/player1/#" in
  let? t2 := topic "sport/#" in
  let? t3 := topic "sport/tennis/+" in
  let? t4 := topic "sport/+" in
  let? t5 := topic "+/+" in
  let? t6 := topic "/+" in
  let? t7 := topic "+" in
  let? t8 := topic "#" in
  let? t9 := topic "+/monitor/Clients" in
  let? t10 := topic "$SYS/#" in
  let? t11 := topic "$SYS/monitor/+" in
  all [str_match_level (b "test") test_;
       str_match_level (b "$SYS") sys;
       Topic_matches_str t1 (b "sport/tennis/player1");
       Topic_matches_str t1 (b "sport/tennis/player1/ranking");
       Topic_matches_str t1 (b "sport/tennis/player1/score/wimbledon");
       Topic_matches_str t2 (b "sport");
       Topic_matches_str t3 (b "sport/tennis/player1");
       Topic_matches_str t3 (b "sport/tennis/player2");
       negb (Topic_matches_str t3 (b "sport/tennis/player1/ranking"));
       negb (Topic_matches_str t4 (b "sport"));
       Topic_matches_str t4 (b "sport/");
       Topic_matches_str t5 (b "/finance");
       Topic_matches_str t6 (b "/finance");
       negb (Topic_matches_str t7 (b "/finance"));
       negb (Topic_matches_str t8 (b "$SYS"));
       negb (Topic_matches_str t9 (b "$SYS/monitor/Clients"));
       Topic_matches_str t10 (b "$SYS/");
       Topic_matches_str t11 (b "$SYS/monitor/Clients")].

(** ** src/version.rs *)

Definition test_decode_connect_packets : test :=
  let decode_some src := let? r := unwrap (version_decode src) in unwrap_some r in
  let? v2 := decode_some (b "\x10\x98\x02\0\x04MQTT\x04\xc0\0\x0f\0\x02d1\0|testhub.") in
  let? v3 := decode_some (b "\x10\x98\x02\0\x04MQTT\x05\xc0\0\x0f\0\x02d1\0|testhub.") in
  let? v4 := decode_some (b "\x10\x98\x02\0\x04MQTT\x05") in
  let? v5 := unwrap (version_decode (b "\x10\x98\x02\0\x04")) in
  let? v6 := unwrap (version_decode (b "\x10\x98\x02\0\x04MQTT")) in
  all [assert_eq_res (Err DInvalidProtocol)
         (version_decode
            (b "\x10\x7f\x7f\x00\x04MQTT\x06\xC0\x00\x3C\x00\x0512345\x00\x04user\x00\x04pass"));
       assert_eq MQTT3 v2;
       assert_eq MQTT5 v3;
       assert_eq MQTT5 v4;
       assert_eq None v5;
       assert_eq None v6].

(** ** The tests pass *)

Lemma utils_tests_pass :
  forallb passes [test_decode_variable_length; test_encode_variable_length] = true.
Proof. vm_compute. reflexivity. Qed.

Lemma topic_tests_pass :
  forallb passes [test_level; test_valid_topic; test_parse_topic; test_multi_wildcard_topic;
                  test_single_wildcard_topic; test_write_topic; test_matches] = true.
Proof. vm_compute. reflexivity. Qed.

Lemma version_tests_pass : passes test_decode_connect_packets = true.
Proof. vm_compute. reflexivity. Qed.
