(* ===== verification/V3Tests.v ===== *)
(** * The unit tests of [src/v3/codec], run on the model

    See [Testing] for the assertions.  [derive(PartialEq)] on the packets is
    the decidable equality of their types. *)

From stdpp Require Import base decidable numbers list strings.
From Stdlib Require Import String ZArith List Bool.
From S2P Require Import Prelude Types Wire Framing Topic Testing V3Codec.
Import ListNotations.
Open Scope list_scope.
Open Scope Z_scope.

#[export] Instance ConnectAckReason_eq_dec : EqDecision ConnectAckReason.
Proof. solve_decision. Defined.
#[export] Instance LastWill_eq_dec : EqDecision LastWill.
Proof. solve_decision. Defined.
#[export] Instance Connect_eq_dec : EqDecision Connect.
Proof. solve_decision. Defined.
#[export] Instance Publish_eq_dec : EqDecision Publish.
Proof. solve_decision. Defined.
#[export] Instance SubscribeReturnCode_eq_dec : EqDecision SubscribeReturnCode.
Proof. solve_decision. Defined.
#[export] Instance Packet_eq_dec : EqDecision Packet.
Proof. solve_decision. Defined.

(** ** src/v3/codec/codec.rs *)

Definition test_max_size : test :=
  let codec := set_max_size Codec_new 5 in
  let '(r, _, _) := codec_decode codec (b "\0\x09") in
  all [assert_eq_res r (Err DMaxSizeExceeded)].

Definition test_packet : test :=
  let codec := Codec_new in
  let pkt := {| dup := false; retain := false; qos := AtMostOnce; topic := b "/test";
                packet_id := None; payload := repeat 97 (260 * 1024) |} in
  let? buf := written (codec_encode (PPublish pkt)) in
  let '(r, _, _) := codec_decode codec buf in
  let? o := unwrap r in
  let? p := unwrap_some o in
  let? pkt2 := match p with PPublish v => Ok v | _ => Panic end in
  all [assert_eq pkt pkt2].

(** ** src/v3/codec/packet.rs *)

Definition test_ack_reason : test :=
  all [assert_eq (ConnectAckReason_reason ConnectionAccepted) "Connection Accepted"%string;
       assert_eq (ConnectAckReason_reason UnacceptableProtocolVersion)
         "Connection Refused, unacceptable protocol version"%string;
       assert_eq (ConnectAckReason_reason IdentifierRejected)
         "Connection Refused, identifier rejected"%string;
       assert_eq (ConnectAckReason_reason ServiceUnavailable)
         "Connection Refused, Server unavailable"%string;
       assert_eq (ConnectAckReason_reason BadUserNameOrPassword)
         "Connection Refused, bad user name or password"%string;
       assert_eq (ConnectAckReason_reason NotAuthorized)
         "Connection Refused, not authorized"%string].

(** ** src/v3/codec/decode.rs *)

(** [assert_decode_packet!] *)
Definition assert_decode_packet (src : bytes) (res : Packet) : test :=
  let? first_byte := unwrap_some (head src) in
  let? tail := slice_from 1 src in
  let? r := unwrap (decode_variable_length tail) in
  let? '(_len, consumed) := unwrap_some r in
  let? cur := slice_from (consumed + 1) src in
  all [assert_eq_res (decode_packet cur first_byte) (Ok res)].

Definition ok_packet_connect (will : option LastWill) (user : option ByteString)
    (pass : option Bytes) : Packet :=
  PConnect {| clean_session := false; keep_alive := 60; client_id := b "12345";
              last_will := will; username := user; password := pass |}.

Definition test_decode_connect_packets : test :=
  let? ack := assert_decode_packet (b "\x20\x02\x01\x04")
                (PConnectAck true BadUserNameOrPassword) in
  let? disconnect := assert_decode_packet (b "\xe0\x00") PDisconnect in
  all [assert_eq_res
         (decode_connect_packet
            (b "\x00\x04MQTT\x04\xC0\x00\x3C\x00\x0512345\x00\x04user\x00\x04pass"))
         (Ok (ok_packet_connect None (Some (b "user")) (Some (b "pass"))));
       assert_eq_res
         (decode_connect_packet
            (b "\x00\x04MQTT\x04\x14\x00\x3C\x00\x0512345\x00\x05topic\x00\x07message"))
         (Ok (ok_packet_connect
                (Some {| will_qos_ := ExactlyOnce; will_retain := false;
                         will_topic := b "topic"; will_message := b "message" |})
                None None));
       assert_eq_res (decode_connect_packet (b "\x00\x02MQ00000000000000000000"))
         (Err DInvalidProtocol);
       assert_eq_res (decode_connect_packet (b "\x00\x10MQ00000000000000000000"))
         (Err DInvalidProtocol);
       assert_eq_res (decode_connect_packet (b "\x00\x04MQAA00000000000000000000"))
         (Err DInvalidProtocol);
       assert_eq_res (decode_connect_packet (b "\x00\x04MQTT\x0300000000000000000000"))
         (Err DUnsupportedProtocolLevel);
       assert_eq_res (decode_connect_packet (b "\x00\x04MQTT\x04\xff00000000000000000000"))
         (Err DConnectReservedFlagSet);
       assert_eq_res (decode_connect_ack_packet (b "\x01\x04"))
         (Ok (PConnectAck true BadUserNameOrPassword));
       assert_eq_res (decode_connect_ack_packet (b "\x03\x04")) (Err DConnAckReservedFlagSet);
       ack; disconnect].

Definition qos2_publish : Publish :=
  {| dup := true; retain := true; qos := ExactlyOnce; topic := b "topic";
     packet_id := Some 0x4321; payload := b "data" |}.

Definition qos0_publish : Publish :=
  {| dup := false; retain := false; qos := AtMostOnce; topic := b "topic";
     packet_id := None; payload := b "data" |}.

Definition test_decode_publish_packets : test :=
  let? p1 := assert_decode_packet (b "\x3d\x0D\x00\x05topic\x43\x21data") (PPublish qos2_publish) in
  let? p2 := assert_decode_packet (b "\x30\x0b\x00\x05topicdata") (PPublish qos0_publish) in
  let? p3 := assert_decode_packet (b "\x40\x02\x43\x21") (PPublishAck 0x4321) in
  let? p4 := assert_decode_packet (b "\x50\x02\x43\x21") (PPublishReceived 0x4321) in
  let? p5 := assert_decode_packet (b "\x62\x02\x43\x21") (PPublishRelease 0x4321) in
  let? p6 := assert_decode_packet (b "\x70\x02\x43\x21") (PPublishComplete 0x4321) in
  all [p1; p2; p3; p4; p5; p6].

Definition test_decode_subscribe_packets : test :=
  let sub := PSubscribe 0x1234 [(b "test", AtLeastOnce); (b "filter", ExactlyOnce)] in
  let suback := PSubscribeAck 0x1234 [Success AtLeastOnce; Failure; Success ExactlyOnce] in
  let unsub := PUnsubscribe 0x1234 [b "test"; b "filter"] in
  let? p1 := assert_decode_packet (b "\x82\x12\x12\x34\x00\x04test\x01\x00\x06filter\x02") sub in
  let? p2 := assert_decode_packet (b "\x90\x05\x12\x34\x01\x80\x02") suback in
  let? p3 := assert_decode_packet (b "\xa2\x10\x12\x34\x00\x04test\x00\x06filter") unsub in
  let? p4 := assert_decode_packet (b "\xb0\x02\x43\x21") (PUnsubscribeAck 0x4321) in
  all [assert_eq_res (decode_subscribe_packet (b "\x12\x34\x00\x04test\x01\x00\x06filter\x02"))
         (Ok sub);
       p1;
       assert_eq_res (decode_subscribe_ack_packet (b "\x12\x34\x01\x80\x02")) (Ok suback);
       p2;
       assert_eq_res (decode_unsubscribe_packet (b "\x12\x34\x00\x04test\x00\x06filter"))
         (Ok unsub);
       p3; p4].

Definition test_decode_ping_packets : test :=
  let? p1 := assert_decode_packet (b "\xc0\x00") PPingRequest in
  let? p2 := assert_decode_packet (b "\xd0\x00") PPingResponse in
  all [p1; p2].

(** ** src/v3/codec/encode.rs *)

Definition test_encode_fixed_header : test :=
  let? v1 := written (encode PPingRequest 0) in
  let p := PPublish {| dup := true; retain := true; qos := ExactlyOnce; topic := b "topic";
                       packet_id := Some 0x4321; payload := map Z.of_nat (seq 0 255) |} in
  let? v2 := written (encode p 264) in
  let? '(v2_head, _) := split_to 3 v2 in
  all [assert_eq (get_encoded_size PPingRequest) 0;
       assert_eq v1 (b "\xc0\x00");
       assert_eq (get_encoded_size p) 264;
       assert_eq v2_head (b "\x3d\x88\x02")].

Definition assert_encode_packet (packet : Packet) (expected : bytes) : test :=
  let? v := written (encode packet (as_u32 (get_encoded_size packet))) in
  all [assert_eq (len expected) (len v); assert_eq expected v].

Definition test_encode_connect_packets : test :=
  let? p1 := assert_encode_packet
    (ok_packet_connect None (Some (b "user")) (Some (b "pass")))
    (b "\x10\x1D\x00\x04MQTT\x04\xC0\x00\x3C\x00\x0512345\x00\x04user\x00\x04pass") in
  let? p2 := assert_encode_packet
    (ok_packet_connect
       (Some {| will_qos_ := ExactlyOnce; will_retain := false;
                will_topic := b "topic"; will_message := b "message" |})
       None None)
    (b "\x10\x21\x00\x04MQTT\x04\x14\x00\x3C\x00\x0512345\x00\x05topic\x00\x07message") in
  let? p3 := assert_encode_packet PDisconnect (b "\xe0\x00") in
  all [p1; p2; p3].

Definition test_encode_publish_packets : test :=
  let? p1 := assert_encode_packet (PPublish qos2_publish) (b "\x3d\x0D\x00\x05topic\x43\x21data") in
  let? p2 := assert_encode_packet (PPublish qos0_publish) (b "\x30\x0b\x00\x05topicdata") in
  all [p1; p2].

Definition test_encode_subscribe_packets : test :=
  let? p1 := assert_encode_packet
    (PSubscribe 0x1234 [(b "test", AtLeastOnce); (b "filter", ExactlyOnce)])
    (b "\x82\x12\x12\x34\x00\x04test\x01\x00\x06filter\x02") in
  let? p2 := assert_encode_packet
    (PSubscribeAck 0x1234 [Success AtLeastOnce; Failure; Success ExactlyOnce])
    (b "\x90\x05\x12\x34\x01\x80\x02") in
  let? p3 := assert_encode_packet (PUnsubscribe 0x1234 [b "test"; b "filter"])
    (b "\xa2\x10\x12\x34\x00\x04test\x00\x06filter") in
  let? p4 := assert_encode_packet (PUnsubscribeAck 0x4321) (b "\xb0\x02\x43\x21") in
  all [p1; p2; p3; p4].

Definition test_encode_ping_packets : test :=
  let? p1 := assert_encode_packet PPingRequest (b "\xc0\x00") in
  let? p2 := assert_encode_packet PPingResponse (b "\xd0\x00") in
  all [p1; p2].

(** ** The tests pass *)

Lemma v3_codec_tests_pass : forallb passes [test_max_size; test_packet; test_ack_reason] = true.
Proof. vm_compute. reflexivity. Qed.

Lemma v3_decode_tests_pass :
  forallb passes [test_decode_connect_packets; test_decode_publish_packets;
                  test_decode_subscribe_packets; test_decode_ping_packets] = true.
Proof. vm_compute. reflexivity. Qed.

Lemma v3_encode_tests_pass :
  forallb passes [test_encode_fixed_header; test_encode_connect_packets;
                  test_encode_publish_packets; test_encode_subscribe_packets;
                  test_encode_ping_packets] = true.
Proof. vm_compute. reflexivity. Qed.
