(* ===== verification/V5Tests.v ===== *)
(** * The unit tests of [src/v5/codec], run on the model

    See [Testing] for the assertions.  [derive(PartialEq)] on the packets is
    the decidable equality of their types. *)

From stdpp Require Import base decidable numbers list.
From Stdlib Require Import String ZArith List Bool.
From S2P Require Import Prelude Types Wire Framing Topic Testing.
From S2P Require Import V5Props V5PubAcks V5Subscribe V5Disconnect V5ConnAck V5Publish V5Connect V5Codec.
Import ListNotations.
Open Scope list_scope.
Open Scope Z_scope.

#[export] Instance UserProperty_eq_dec : EqDecision UserProperty :=
  (_ : EqDecision (ByteString * ByteString)).
#[export] Instance LastWill5_eq_dec : EqDecision LastWill.
Proof. solve_decision. Defined.
#[export] Instance Connect5_eq_dec : EqDecision Connect.
Proof. solve_decision. Defined.
#[export] Instance ConnectAckReason5_eq_dec : EqDecision ConnectAckReason.
Proof. solve_decision. Defined.
#[export] Instance ConnectAck_eq_dec : EqDecision ConnectAck.
Proof. solve_decision. Defined.
#[export] Instance PublishProperties_eq_dec : EqDecision PublishProperties.
Proof. solve_decision. Defined.
#[export] Instance Publish5_eq_dec : EqDecision Publish.
Proof. solve_decision. Defined.
#[export] Instance PublishAckReason_eq_dec : EqDecision PublishAckReason.
Proof. solve_decision. Defined.
#[export] Instance PublishAck2Reason_eq_dec : EqDecision PublishAck2Reason.
Proof. solve_decision. Defined.
#[export] Instance AckOf_eq_dec {R} `{EqDecision R} : EqDecision (AckOf R).
Proof. solve_decision. Defined.
#[export] Instance PublishAck_eq_dec : EqDecision PublishAck := AckOf_eq_dec.
#[export] Instance PublishAck2_eq_dec : EqDecision PublishAck2 := AckOf_eq_dec.
#[export] Instance RetainHandling_eq_dec : EqDecision RetainHandling.
Proof. solve_decision. Defined.
#[export] Instance SubscribeAckReason_eq_dec : EqDecision SubscribeAckReason.
Proof. solve_decision. Defined.
#[export] Instance UnsubscribeAckReason_eq_dec : EqDecision UnsubscribeAckReason.
Proof. solve_decision. Defined.
#[export] Instance SubscriptionOptions_eq_dec : EqDecision SubscriptionOptions.
Proof. solve_decision. Defined.
#[export] Instance Subscribe_eq_dec : EqDecision Subscribe.
Proof. solve_decision. Defined.
#[export] Instance Unsubscribe_eq_dec : EqDecision Unsubscribe.
Proof. solve_decision. Defined.
#[export] Instance StatusAck_eq_dec {R} `{EqDecision R} : EqDecision (StatusAck R).
Proof. solve_decision. Defined.
#[export] Instance SubscribeAck_eq_dec : EqDecision SubscribeAck := StatusAck_eq_dec.
#[export] Instance UnsubscribeAck_eq_dec : EqDecision UnsubscribeAck := StatusAck_eq_dec.
#[export] Instance DisconnectReasonCode_eq_dec : EqDecision DisconnectReasonCode.
Proof. solve_decision. Defined.
#[export] Instance Disconnect_eq_dec : EqDecision Disconnect.
Proof. solve_decision. Defined.
#[export] Instance AuthReasonCode_eq_dec : EqDecision AuthReasonCode.
Proof. solve_decision. Defined.
#[export] Instance Auth_eq_dec : EqDecision Auth.
Proof. solve_decision. Defined.
#[export] Instance Packet5_eq_dec : EqDecision Packet.
Proof. solve_decision. Defined.

(** ** src/v5/codec/codec.rs *)

Definition test_max_size : test :=
  let codec := set_max_inbound_size Codec_new 5 in
  let '(r, _, _) := codec_decode codec (b "\0\x09") in
  all [assert_eq_res r (Err DMaxSizeExceeded)].

(** ** src/v5/codec/decode.rs *)

Definition assert_decode_packet (src : bytes) (res : Packet) : test :=
  let? fixed := unwrap_some (head src) in
  let? tail := slice_from 1 src in
  let? r := unwrap (decode_variable_length tail) in
  let? '(_len, consumed) := unwrap_some r in
  let? cur := slice_from (consumed + 1) src in
  let? _tmp := written (codec_encode Codec_new res) in
  all [assert_eq_res (decode_packet cur fixed) (Ok res)].

Definition test_connect (will : option LastWill) (user : option ByteString) (pass : option Bytes)
    : Connect :=
  {| co_clean_start := false; co_keep_alive := 60; co_client_id := b "12345";
     co_last_will := will; co_username := user; co_password := pass;
     co_session_expiry_interval_secs := None; co_auth_method := None; co_auth_data := None;
     co_request_problem_info := true; co_request_response_info := false;
     co_receive_max := None; co_topic_alias_max := 0; co_user_properties := [];
     co_max_packet_size := None |}.

Definition test_will : LastWill :=
  {| lw_qos := ExactlyOnce; lw_retain := false; lw_topic := b "topic"; lw_message := b "message";
     lw_will_delay_interval_sec := None; lw_correlation_data := None;
     lw_message_expiry_interval := None; lw_content_type := None; lw_user_properties := [];
     lw_is_utf8_payload := None; lw_response_topic := None |}.

Definition test_decode_connect_packets : test :=
  let ack := { ConnectAck_default with ca_session_present := true;
                 ca_reason_code := CR_BadUserNameOrPassword } in
  let? p1 := assert_decode_packet (b "\x20\x03\x01\x86\x00") (Pkt_ConnectAck ack) in
  let? p2 := assert_decode_packet [0xe0; 0] (Pkt_Disconnect Disconnect_default) in
  all [assert_eq_res
         (Connect_decode
            (b "\x00\x04MQTT\x05\xC0\x00\x3C\x00\x00\x0512345\x00\x04user\x00\x04pass"))
         (Ok (test_connect None (Some (b "user")) (Some (b "pass"))));
       assert_eq_res
         (Connect_decode
            (b "\x00\x04MQTT\x05\x14\x00\x3C\x00\x00\x0512345\x00\x00\x05topic\x00\x07message"))
         (Ok (test_connect (Some test_will) None None));
       assert_eq_res (Connect_decode (b "\x00\x02MQ00000000000000000000")) (Err DInvalidProtocol);
       assert_eq_res (Connect_decode (b "\x00\x04MQAA00000000000000000000")) (Err DInvalidProtocol);
       assert_eq_res (Connect_decode (b "\x00\x04MQTT\x0300000000000000000000"))
         (Err DUnsupportedProtocolLevel);
       assert_eq_res (Connect_decode (b "\x00\x04MQTT\x05\xff00000000000000000000"))
         (Err DConnectReservedFlagSet);
       assert_eq_res (ConnectAck_decode (b "\x01\x86\x00")) (Ok ack);
       assert_eq_res (ConnectAck_decode (b "\x03\x86\x00")) (Err DConnAckReservedFlagSet);
       p1; p2].

Definition default_test_publish : Publish :=
  {| pu_dup := false; pu_retain := false; pu_qos := AtMostOnce; pu_topic := [];
     pu_packet_id := Some 1; pu_payload := []; pu_properties := PublishProperties_default |}.

Definition qos2_publish : Publish :=
  { default_test_publish with pu_dup := true; pu_retain := true; pu_qos := ExactlyOnce;
      pu_topic := b "topic"; pu_packet_id := Some 0x4321; pu_payload := b "data" }.

Definition qos0_publish : Publish :=
  { default_test_publish with pu_dup := false; pu_retain := false; pu_qos := AtMostOnce;
      pu_topic := b "topic"; pu_packet_id := None; pu_payload := b "data" }.

Definition test_decode_publish_packets : test :=
  let ack := {| pa_packet_id := 0x4321; pa_reason_code := PA_Success; pa_properties := [];
                pa_reason_string := None |} in
  let ack2 := {| pa_packet_id := 0x4321; pa_reason_code := PA2_Success; pa_properties := [];
                 pa_reason_string := None |} in
  let? p1 := assert_decode_packet (b "\x3d\x0E\x00\x05topic\x43\x21\x00data")
               (Pkt_Publish qos2_publish) in
  let? p2 := assert_decode_packet (b "\x30\x0C\x00\x05topic\x00data") (Pkt_Publish qos0_publish) in
  let? p3 := assert_decode_packet (b "\x40\x02\x43\x21") (Pkt_PublishAck ack) in
  let? p4 := assert_decode_packet (b "\x50\x02\x43\x21") (Pkt_PublishReceived ack) in
  let? p5 := assert_decode_packet (b "\x62\x02\x43\x21") (Pkt_PublishRelease ack2) in
  let? p6 := assert_decode_packet (b "\x70\x02\x43\x21") (Pkt_PublishComplete ack2) in
  all [p1; p2; p3; p4; p5; p6].

Definition test_options (q : QoS) : SubscriptionOptions :=
  {| so_qos := q; so_no_local := false; so_retain_as_published := false;
     so_retain_handling := RH_AtSubscribe |}.

Definition test_subscribe : Subscribe :=
  {| su_packet_id := 0x1234;
     su_topic_filters := [(b "test", test_options AtLeastOnce);
                          (b "filter", test_options ExactlyOnce)];
     su_id := None; su_user_properties := [] |}.

Definition test_subscribe_ack : SubscribeAck :=
  {| sa_packet_id := 0x1234;
     sa_status := [SA_GrantedQos1; SA_UnspecifiedError; SA_GrantedQos2];
     sa_properties := []; sa_reason_string := None |}.

Definition test_unsubscribe : Unsubscribe :=
  {| un_packet_id := 0x1234; un_topic_filters := [b "test"; b "filter"];
     un_user_properties := [] |}.

Definition test_unsubscribe_ack (status : list UnsubscribeAckReason) : UnsubscribeAck :=
  {| sa_packet_id := 0x4321; sa_properties := []; sa_reason_string := None; sa_status := status |}.

Definition test_decode_subscribe_packets : test :=
  let p := Pkt_Unsubscribe test_unsubscribe in
  let? p1 := assert_decode_packet (b "\x82\x13\x12\x34\x00\x00\x04test\x01\x00\x06filter\x02")
               (Pkt_Subscribe test_subscribe) in
  let? p2 := assert_decode_packet (b "\x90\x05\x12\x34\x00\x01\x80\x02")
               (Pkt_SubscribeAck test_subscribe_ack) in
  let? u := unwrap (Unsubscribe_decode (b "\x12\x34\x00\x00\x04test\x00\x06filter")) in
  let? p3 := assert_decode_packet (b "\xa2\x11\x12\x34\x00\x00\x04test\x00\x06filter") p in
  let? p4 := assert_decode_packet (b "\xb0\x03\x43\x21\x00")
               (Pkt_UnsubscribeAck (test_unsubscribe_ack [])) in
  all [p1; p2; assert_eq (Pkt_Unsubscribe u) p; p3; p4].

Definition test_decode_ping_packets : test :=
  let? p1 := assert_decode_packet (b "\xc0\x00") Pkt_PingRequest in
  let? p2 := assert_decode_packet (b "\xd0\x00") Pkt_PingResponse in
  all [p1; p2].

(** ** src/v5/codec/encode.rs *)

Definition test_encode_fixed_header : test :=
  let? s1 := unwrap (Packet_encoded_size Pkt_PingRequest MAX_PACKET_SIZE) in
  let? v1 := written (Packet_encode Pkt_PingRequest 0) in
  let? '(v1_head, _) := split_to 2 v1 in
  let p := Pkt_Publish {| pu_dup := true; pu_retain := true; pu_qos := ExactlyOnce;
                          pu_topic := b "topic"; pu_packet_id := Some 0x4321;
                          pu_payload := map Z.of_nat (seq 0 255);
                          pu_properties := PublishProperties_default |} in
  let? s2 := unwrap (Packet_encoded_size p MAX_PACKET_SIZE) in
  let? v2 := written (Packet_encode p 265) in
  let? '(v2_head, _) := split_to 3 v2 in
  all [assert_eq s1 0; assert_eq v1_head (b "\xc0\x00");
       assert_eq s2 265; assert_eq v2_head (b "\x3d\x89\x02")].

Definition assert_encode_packet (packet : Packet) (expected : bytes) : test :=
  let? size := unwrap (Packet_encoded_size packet 1024) in
  let? v := written (Packet_encode packet (as_u32 size)) in
  all [assert_eq (len expected) (len v); assert_eq expected v].

Definition test_encode_connect_packets : test :=
  let? p1 := assert_encode_packet
    (Pkt_Connect (test_connect None (Some (b "user")) (Some (b "pass"))))
    (b "\x10\x1E\x00\x04MQTT\x05\xC0\x00\x3C\x00\x00\x0512345\x00\x04user\x00\x04pass") in
  let? p2 := assert_encode_packet (Pkt_Connect (test_connect (Some test_will) None None))
    (b "\x10\x23\x00\x04MQTT\x05\x14\x00\x3C\x00\x00\x0512345\x00\x00\x05topic\x00\x07message") in
  let? p3 := assert_encode_packet
    (Pkt_Disconnect {| di_reason_code := DR_NormalDisconnection;
                       di_session_expiry_interval_secs := None; di_server_reference := None;
                       di_reason_string := None; di_user_properties := [] |})
    (b "\xe0\x02\x00\x00") in
  all [p1; p2; p3].

Definition test_encode_publish_packets : test :=
  let? p1 := assert_encode_packet (Pkt_Publish qos2_publish)
               (b "\x3d\x0E\x00\x05topic\x43\x21\x00data") in
  let? p2 := assert_encode_packet (Pkt_Publish qos0_publish) (b "\x30\x0c\x00\x05topic\x00data") in
  all [p1; p2].

Definition test_encode_subscribe_packets : test :=
  let? p1 := assert_encode_packet (Pkt_Subscribe test_subscribe)
               (b "\x82\x13\x12\x34\x00\x00\x04test\x01\x00\x06filter\x02") in
  let? p2 := assert_encode_packet (Pkt_SubscribeAck test_subscribe_ack)
               (b "\x90\x06\x12\x34\x00\x01\x80\x02") in
  let? p3 := assert_encode_packet (Pkt_Unsubscribe test_unsubscribe)
               (b "\xa2\x11\x12\x34\x00\x00\x04test\x00\x06filter") in
  let? p4 := assert_encode_packet
               (Pkt_UnsubscribeAck (test_unsubscribe_ack [UA_Success; UA_NotAuthorized]))
               (b "\xb0\x05\x43\x21\x00\x00\x87") in
  all [p1; p2; p3; p4].

Definition test_encode_ping_packets : test :=
  let? p1 := assert_encode_packet Pkt_PingRequest (b "\xc0\x00") in
  let? p2 := assert_encode_packet Pkt_PingResponse (b "\xd0\x00") in
  all [p1; p2].

(** ** src/v5/codec/packet/subscribe.rs *)

(** One round of [test_sub_ack]: encode with a size computed under the limit
    99999, and decode. *)
Definition ack_roundtrip {R} `{PrimEnum R, EqDecision R}
    (encoded_size : StatusAck R -> Z -> eres Z) (ack : StatusAck R) : test :=
  let? size := unwrap (encoded_size ack 99999) in
  let? buf := written (StatusAck_encode ack (as_u32 size)) in
  let? ack' := unwrap (StatusAck_decode buf) in
  all [assert_eq ack ack'].

Definition test_sub_ack : test :=
  let user_props := [(b "prop1", b "val1"); (b "prop2", b "val2")] in
  let? a1 := ack_roundtrip SubscribeAck_encoded_size
    {| sa_packet_id := 1; sa_properties := []; sa_reason_string := Some (b "some reason");
       sa_status := [] |} in
  let? a2 := ack_roundtrip SubscribeAck_encoded_size
    {| sa_packet_id := 1; sa_properties := user_props; sa_reason_string := None;
       sa_status := [SA_GrantedQos0] |} in
  let? a3 := ack_roundtrip UnsubscribeAck_encoded_size
    {| sa_packet_id := 1; sa_properties := []; sa_reason_string := Some (b "some reason");
       sa_status := [] |} in
  let? a4 := ack_roundtrip UnsubscribeAck_encoded_size
    {| sa_packet_id := 1; sa_properties := user_props; sa_reason_string := None;
       sa_status := [UA_Success] |} in
  all [a1; a2; a3; a4].

(** ** The tests pass *)

Lemma v5_codec_tests_pass : forallb passes [test_max_size; test_sub_ack] = true.
Proof. vm_compute. reflexivity. Qed.

Lemma v5_decode_tests_pass :
  forallb passes [test_decode_connect_packets; test_decode_publish_packets;
                  test_decode_subscribe_packets; test_decode_ping_packets] = true.
Proof. vm_compute. reflexivity. Qed.

Lemma v5_encode_tests_pass :
  forallb passes [test_encode_fixed_header; test_encode_connect_packets;
                  test_encode_publish_packets; test_encode_subscribe_packets;
                  test_encode_ping_packets] = true.
Proof. vm_compute. reflexivity. Qed.
