(* ===== verification/Sink.v ===== *)
(** * The state behind a sink (src/v3/shared.rs, src/v5/shared.rs)

    A sink is the sending half of a connection: it numbers the packets that
    have to be acknowledged, remembers them in the order they were sent, and
    makes callers wait while the peer accepts no more of them.  The two
    versions share this state; what differs is in [V3Sink] and [V5Sink].

    The sink calls ntex: the io [State] of the connection and pools of
    one-shot channels.  Both are the class [Runtime], whose laws
    [RuntimeLaws] state what is documented of them.  Futures are states
    between two awaits, and a [poll] function goes from one to the next. *)

From stdpp Require Import base gmap list strings.
From S2P Require Import Prelude Types.
Open Scope Z_scope.

(** ** ntex *)

(** [Runtime A]: the io state of one connection with the pools of the
    channels that carry acknowledgements [A] and wake-ups.  Sender and
    receiver of a channel share a name. *)
Class Runtime (A : Type) := {
  world : Type;
  (* State::is_open, State::close, State::force_close *)
  is_open : world -> bool;
  io_close : world -> world;
  io_force_close : world -> world;
  (* the bytes written and not sent yet; state.write().encode(item, codec) *)
  wbuf : world -> bytes;
  io_encode : ewriter -> world -> eres unit * world;
  (* pool.queue *)
  tx : Type;
  queue_channel : world -> tx * world;
  queue_send : tx -> A -> world -> bool * world;
  queue_drop : tx -> world -> world;
  queue_drop_rx : tx -> world -> world;
  queue_recv : tx -> world -> option (option A);
  (* pool.waiters *)
  wtx : Type;
  waiter_channel : world -> wtx * world;
  waiter_send : wtx -> world -> bool * world;
  waiter_drop : wtx -> world -> world;
  waiter_recv : wtx -> world -> option (option unit);
}.

(** A receiver is pending ([None]), has a value ([Some (Some v)]) or is
    cancelled because the sender was dropped ([Some None]). *)
Class RuntimeLaws (A : Type) `{Runtime A} := {
  (* a connection that is closed stays closed; an open one takes what the codec writes *)
  close_closes w : is_open (io_close w) = false;
  force_close_closes w : is_open (io_force_close w) = false;
  encode_open f w : is_open (io_encode f w).2 = true -> is_open w = true;
  encode_result f w : is_open w = true -> (io_encode f w).1 = (f (wbuf w)).1;
  encode_wbuf f w : is_open w = true -> wbuf (io_encode f w).2 = (f (wbuf w)).2;
  (* the pools and the io state do not touch each other *)
  queue_channel_wbuf w : wbuf (queue_channel w).2 = wbuf w;
  queue_send_wbuf c a w : wbuf (queue_send c a w).2 = wbuf w;
  waiter_channel_wbuf w : wbuf (waiter_channel w).2 = wbuf w;
  waiter_send_wbuf c w : wbuf (waiter_send c w).2 = wbuf w;
  queue_channel_io w : is_open (queue_channel w).2 = is_open w;
  queue_send_io c a w : is_open (queue_send c a w).2 = is_open w;
  queue_drop_io c w : is_open (queue_drop c w) = is_open w;
  queue_drop_rx_io c w : is_open (queue_drop_rx c w) = is_open w;
  waiter_channel_io w : is_open (waiter_channel w).2 = is_open w;
  waiter_send_io c w : is_open (waiter_send c w).2 = is_open w;
  waiter_drop_io c w : is_open (waiter_drop c w) = is_open w;
  (* dropping a sender cancels its receiver unless it was served, and delivers nothing *)
  queue_drop_recv c w : queue_recv c w = None -> queue_recv c (queue_drop c w) = Some None;
  queue_drop_done c c' w r :
    queue_recv c w = Some r -> queue_recv c (queue_drop c' w) = Some r;
  queue_drop_silent c c' w :
    queue_recv c w = None -> queue_recv c (queue_drop c' w) = None \/
                             queue_recv c (queue_drop c' w) = Some None;
  waiter_drop_recv c w : waiter_recv c w = None -> waiter_recv c (waiter_drop c w) = Some None;
  waiter_drop_done c c' w r :
    waiter_recv c w = Some r -> waiter_recv c (waiter_drop c' w) = Some r;
  waiter_drop_silent c c' w :
    waiter_recv c w = None -> waiter_recv c (waiter_drop c' w) = None \/
                              waiter_recv c (waiter_drop c' w) = Some None;
  queue_drop_waiter c c' w : waiter_recv c (queue_drop c' w) = waiter_recv c w;
  waiter_drop_queue c c' w : queue_recv c (waiter_drop c' w) = queue_recv c w;
  close_queue c w : queue_recv c (io_close w) = queue_recv c w;
  close_waiter c w : waiter_recv c (io_close w) = waiter_recv c w;
  encode_queue c f w : queue_recv c (io_encode f w).2 = queue_recv c w;
  encode_waiter c f w : waiter_recv c (io_encode f w).2 = waiter_recv c w;
  (* what is sent is received *)
  queue_send_recv c a w :
    (queue_send c a w).1 = true -> queue_recv c (queue_send c a w).2 = Some (Some a);
  waiter_send_recv c w :
    (waiter_send c w).1 = true -> waiter_recv c (waiter_send c w).2 = Some (Some tt);
  waiter_send_queue c c' w : queue_recv c (waiter_send c' w).2 = queue_recv c w;
}.

(** [Result<A, E>] as a value *)
Inductive result (A E : Type) : Type := ok (a : A) | err (e : E).
Arguments ok {A E} a.
Arguments err {A E} e.

(** ** The kinds of packets that are acknowledged *)

Inductive AckType : Type := AT_Publish | AT_Subscribe | AT_Unsubscribe.

#[export] Instance AckType_eq_dec : EqDecision AckType.
Proof. solve_decision. Defined.

(** [AckType::name] *)
Definition AckType_name (t : AckType) : string :=
  match t with
  | AT_Publish => "PublishAck"
  | AT_Subscribe => "SubscribeAck"
  | AT_Unsubscribe => "UnsubscribeAck"
  end.

(** ** [MqttShared] and the operations both versions have *)

Section Shared.
Context {Ack : Type} `{R : Runtime Ack} {Codec : Type}.

Record MqttSharedQueues : Type := mkQueues {
  inflight : gmap Z (tx * AckType);
  inflight_order : list Z;
  waiters : list wtx;
}.

(** [borrowed] is the flag of the [RefCell] around [queues]; [io] holds the
    connection state and the pools. *)
Record MqttShared : Type := mkShared {
  cap : Z;
  borrowed : bool;
  queues : MqttSharedQueues;
  inflight_idx : Z;
  codec : Codec;
  io : world;
}.

Definition MqttShared_new (w : world) (codec : Codec) (cap : Z) : MqttShared :=
  {| cap := cap; borrowed := false; queues := mkQueues ∅ [] []; inflight_idx := 0;
     codec := codec; io := w |}.

(** A piece of code that runs without awaiting: it changes the shared state,
    or panics ([None]). *)
Definition M (A : Type) : Type := MqttShared -> option (A * MqttShared).

#[global] Instance M_ret : MRet M := fun A a s => Some (a, s).
#[global] Instance M_bind : MBind M := fun A B k m s =>
  match m s with Some (a, s') => k a s' | None => None end.

Definition panic {A} : M A := fun _ => None.
Definition gets {A} (f : MqttShared -> A) : M A := fun s => Some (f s, s).

Definition set_io (w : world) (s : MqttShared) : MqttShared :=
  mkShared (cap s) (borrowed s) (queues s) (inflight_idx s) (codec s) w.
Definition set_idx (i : Z) (s : MqttShared) : MqttShared :=
  mkShared (cap s) (borrowed s) (queues s) i (codec s) (io s).
Definition set_queues (b : bool) (q : MqttSharedQueues) (s : MqttShared) : MqttShared :=
  mkShared (cap s) b q (inflight_idx s) (codec s) (io s).
Definition set_cap (c : Z) (s : MqttShared) : MqttShared :=
  mkShared c (borrowed s) (queues s) (inflight_idx s) (codec s) (io s).

(** A call of ntex *)
Definition run_io {A} (f : world -> A * world) : M A := fun s =>
  let (a, w) := f (io s) in Some (a, set_io w s).
Definition upd_io (f : world -> world) : M unit := fun s => Some (tt, set_io (f (io s)) s).

(** [with_queues] takes the [RefCell] for the time of the closure: a nested
    call panics. *)
Definition with_queues {A} (f : MqttSharedQueues -> M (A * MqttSharedQueues)) : M A := fun s =>
  if borrowed s then None
  else match f (queues s) (set_queues true (queues s) s) with
       | Some (a, q, s') => Some (a, set_queues false q s')
       | None => None
       end.

(** [has_credit]: the difference is a [usize] *)
Definition has_credit : M bool := fun s =>
  if borrowed s then None
  else let n := Z.of_nat (size (inflight (queues s))) in
       if n <=? cap s then Some (0 <? cap s - n, s) else None.

(** [next_id]: the addition is on [u16] *)
Definition next_id : M Z := fun s =>
  let idx := inflight_idx s + 1 in
  if 2 ^ 16 <=? idx then None
  else if idx =? 2 ^ 16 - 1 then Some (2 ^ 16 - 1, set_idx 0 s)
  else Some (idx, set_idx idx s).

(** [MqttSink::credit] *)
Definition credit : M Z :=
  n ← with_queues (fun q => mret (Z.of_nat (size (inflight q)), q));
  c ← gets cap;
  if n <=? c then mret (c - n) else panic.

Inductive ReadyFuture : Type := RF_Ready (b : bool) | RF_Wait (rx : wtx).

(** [MqttSink::ready] *)
Definition ready : M ReadyFuture :=
  op ← gets (fun s => is_open (io s));
  if (op : bool) then
    rx ← with_queues (fun q =>
      c ← gets cap;
      if c <=? Z.of_nat (size (inflight q)) then
        rx ← run_io waiter_channel;
        _ ← with_queues (fun q' => mret (tt, mkQueues (inflight q') (inflight_order q') (waiters q' ++ [rx])));
        mret (Some rx, q)
      else mret (None, q));
    mret (match rx with Some rx => RF_Wait rx | None => RF_Ready true end)
  else mret (RF_Ready false).

(** [shared.pool.waiters.channel()] and [waiters.push_back(tx)] *)
Definition enqueue_waiter : M wtx :=
  rx ← run_io waiter_channel;
  _ ← with_queues (fun q =>
    mret (tt, mkQueues (inflight q) (inflight_order q) (waiters q ++ [rx])));
  mret rx.

(** [while let Some(tx) = waiters.pop_front() { if tx.send(()).is_ok() { break } }] *)
Fixpoint wake (ws : list wtx) : M (list wtx) :=
  match ws with
  | [] => mret []
  | c :: ws => sent ← run_io (waiter_send c); if (sent : bool) then mret ws else wake ws
  end.

(** The loop as a function of the world *)
Fixpoint woken (ws : list wtx) (w : world) : list wtx * world :=
  match ws with
  | [] => ([], w)
  | c :: ws => let (sent, w) := waiter_send c w in if sent then (ws, w) else woken ws w
  end.

(** [inflight.clear()] and [waiters.clear()] drop the senders (the order of a
    [HashMap] is not specified). *)
Definition drop_inflight (q : MqttSharedQueues) (w : world) : world :=
  foldr (fun e w => queue_drop e.2.1 w) w (map_to_list (inflight q)).
Definition drop_waiters (q : MqttSharedQueues) (w : world) : world :=
  foldr waiter_drop w (waiters q).

Definition clear_queues : M unit :=
  with_queues (fun q =>
    _ ← upd_io (drop_inflight q);
    _ ← upd_io (drop_waiters q);
    mret (tt, mkQueues ∅ (inflight_order q) [])).

(** The registration of a packet: an id in use is refused (and both ends of
    the channel dropped), another one is recorded with the channel for its
    acknowledgement. *)
Definition register (c : tx) (idx : Z) (tp : AckType) (q : MqttSharedQueues)
  : M (result tx Z * MqttSharedQueues) :=
  match inflight q !! idx with
  | Some _ =>
      _ ← upd_io (fun w => queue_drop c (queue_drop_rx c w));
      mret (err idx, q)
  | None =>
      mret (ok c, mkQueues (<[idx := (c, tp)]> (inflight q)) (inflight_order q ++ [idx])
                    (waiters q))
  end.

(** [state.write().encode(packet, codec)]; the codec may panic. *)
Definition write_packet (f : ewriter) : M (result unit EncodeError) := fun s =>
  match io_encode f (io s) with
  | (Ok _, w) => Some (ok tt, set_io w s)
  | (Err e, w) => Some (err e, set_io w s)
  | (Panic, _) => None
  end.

(** ** The futures of the send operations

    A send runs in up to three parts: it starts, waiting for credit when there
    is none; it registers and writes its packet ([start]); when the
    acknowledgement arrives it makes its result of it ([finish]). *)
Section Futures.
Context {B A E : Type} (disconnected : E).
Context (start : B -> M (result tx E)) (finish : Ack -> M (result A E)).

Inductive SendFuture : Type :=
| SF_Init (b : B)
| SF_Wait (rx : wtx) (b : B)
| SF_Ack (rx : tx)
| SF_Done (r : result A E).

Definition start_send (b : B) : M SendFuture :=
  r ← start b;
  mret (match r with ok rx => SF_Ack rx | err e => SF_Done (err e) end).

Definition begin_send (b : B) : M SendFuture :=
  op ← gets (fun s => is_open (io s));
  if (op : bool) then
    credit ← has_credit;
    if negb credit then rx ← enqueue_waiter; mret (SF_Wait rx b)
    else start_send b
  else mret (SF_Done (err disconnected)).

(** [Some r] is [Poll::Ready(r)]; the future is the one to poll next. *)
Definition poll_ack (f : SendFuture) : M (option (result A E) * SendFuture) :=
  match f with
  | SF_Ack rx =>
      v ← gets (fun s => queue_recv rx (io s));
      match v with
      | None => mret (None, f)
      | Some None => mret (Some (err disconnected), SF_Done (err disconnected))
      | Some (Some a) => r ← finish a; mret (Some r, SF_Done r)
      end
  | SF_Done r => mret (Some r, f)
  | f => mret (None, f)
  end.

Definition poll_send (f : SendFuture) : M (option (result A E) * SendFuture) :=
  match f with
  | SF_Init b => f ← begin_send b; poll_ack f
  | SF_Wait rx b =>
      v ← gets (fun s => waiter_recv rx (io s));
      match v with
      | None => mret (None, f)
      | Some None => mret (Some (err disconnected), SF_Done (err disconnected))
      | Some (Some _) => f ← start_send b; poll_ack f
      end
  | f => poll_ack f
  end.
End Futures.

(** ** Lemmas on the operations *)

Definition preserves {A} (P : MqttShared -> Prop) (m : M A) : Prop :=
  forall s a s', P s -> m s = Some (a, s') -> P s'.

Lemma bind_Some {A B} (m : M A) (k : A -> M B) s b s'' :
  mbind k m s = Some (b, s'') <-> exists a s', m s = Some (a, s') /\ k a s' = Some (b, s'').
Proof.
  unfold mbind, M_bind. split.
  - destruct (m s) as [[a s']|]; naive_solver.
  - by intros (a & s' & -> & Hk).
Qed.

Lemma ret_Some {A} (a b : A) s s' : (mret a : M A) s = Some (b, s') <-> a = b /\ s = s'.
Proof. unfold mret, M_ret. naive_solver. Qed.

Lemma run_io_Some {A} (f : world -> A * world) s a s' :
  run_io f s = Some (a, s') <-> a = (f (io s)).1 /\ s' = set_io (f (io s)).2 s.
Proof. unfold run_io. destruct (f (io s)). naive_solver. Qed.

Lemma upd_io_Some f s a s' : upd_io f s = Some (a, s') <-> a = tt /\ s' = set_io (f (io s)) s.
Proof. unfold upd_io. naive_solver. Qed.

Lemma with_queues_Some {A} (f : MqttSharedQueues -> M (A * MqttSharedQueues)) s a s' :
  with_queues f s = Some (a, s') <->
  borrowed s = false /\
  exists q s1, f (queues s) (set_queues true (queues s) s) = Some (a, q, s1) /\
               s' = set_queues false q s1.
Proof.
  unfold with_queues. destruct (borrowed s); [naive_solver | ].
  destruct (f _ _) as [[[b q] s1]|]; naive_solver.
Qed.

Lemma preserves_bind {A B} P (m : M A) (k : A -> M B) :
  preserves P m -> (forall a, preserves P (k a)) -> preserves P (mbind k m).
Proof.
  intros Hm Hk s b s'' HP (a & s' & H1 & H2)%bind_Some.
  exact (Hk a s' b s'' (Hm _ _ _ HP H1) H2).
Qed.

Lemma preserves_ret {A} P (a : A) : preserves P (mret a : M A).
Proof. by intros s b s' HP [_ <-]%ret_Some. Qed.

Lemma preserves_gets {A} P (f : MqttShared -> A) : preserves P (gets f).
Proof. intros s a s' HP [= <- <-]. done. Qed.

Lemma preserves_panic {A} P : preserves P (panic : M A).
Proof. intros s a s' HP. done. Qed.

Lemma next_id_eq s :
  0 <= inflight_idx s < 2 ^ 16 - 1 ->
  next_id s = Some (inflight_idx s + 1, set_idx ((inflight_idx s + 1) mod (2 ^ 16 - 1)) s).
Proof.
  intros Hi. unfold next_id. rewrite (proj2 (Z.leb_gt _ _)) by lia.
  destruct (Z.eqb_spec (inflight_idx s + 1) (2 ^ 16 - 1)) as [He|He].
  - by rewrite He, Z.mod_same.
  - by rewrite Z.mod_small by lia.
Qed.

Lemma clear_queues_eq s :
  borrowed s = false ->
  clear_queues s =
    Some (tt, set_queues false (mkQueues ∅ (inflight_order (queues s)) [])
                (set_io (drop_waiters (queues s) (drop_inflight (queues s) (io s))) s)).
Proof.
  intros Hb. unfold clear_queues, with_queues. rewrite Hb. destruct s; reflexivity.
Qed.

Lemma ready_eq s :
  borrowed s = false ->
  ready s =
    if is_open (io s) then
      if cap s <=? Z.of_nat (size (inflight (queues s))) then None else Some (RF_Ready true, s)
    else Some (RF_Ready false, s).
Proof.
  intros Hb. unfold ready, mbind, M_bind, gets. destruct (is_open (io s)); [ | done].
  unfold with_queues. rewrite Hb. cbn [cap set_queues]. destruct (_ <=? _).
  - unfold run_io. cbn [io set_queues]. by destruct (waiter_channel (io s)).
  - cbn. by destruct s as [c b q i co w]; cbn in Hb; subst.
Qed.

Lemma register_Some c idx tp q s r q' s' :
  register c idx tp q s = Some (r, q', s') ->
  (exists e, inflight q !! idx = Some e /\ r = err idx /\ q' = q /\
             s' = set_io (queue_drop c (queue_drop_rx c (io s))) s) \/
  (inflight q !! idx = None /\ r = ok c /\ s' = s /\
   q' = mkQueues (<[idx := (c, tp)]> (inflight q)) (inflight_order q ++ [idx]) (waiters q)).
Proof.
  unfold register. destruct (inflight q !! idx) as [e|].
  - intros (u & s1 & [-> ->]%upd_io_Some & [[= <- <-] <-]%ret_Some)%bind_Some. left; eauto.
  - intros [[= <- <-] <-]%ret_Some. right; eauto.
Qed.

Lemma wake_eq ws s :
  wake ws s = Some ((woken ws (io s)).1, set_io (woken ws (io s)).2 s).
Proof.
  revert s. induction ws as [|c ws IH]; intros s; cbn [wake woken]; [by destruct s | ].
  unfold mbind, M_bind, run_io. destruct (waiter_send c (io s)) as [[] w]; [done | ].
  by rewrite IH.
Qed.

Lemma write_packet_Some f s r s' :
  write_packet f s = Some (r, s') ->
  s' = set_io (io_encode f (io s)).2 s /\
  (io_encode f (io s)).1 = match r with ok _ => Ok tt | err e => Err e end.
Proof. unfold write_packet. destruct (io_encode f (io s)) as [[[]|e|] w]; naive_solver. Qed.

(** [n] packet ids in a row *)
Fixpoint take_ids (n : nat) : M (list Z) :=
  match n with
  | O => mret []
  | S n => id ← next_id; ids ← take_ids n; mret (id :: ids)
  end.

Lemma take_ids_eq n s :
  0 <= inflight_idx s < 2 ^ 16 - 1 ->
  take_ids n s =
    Some ((fun i => (inflight_idx s + i) mod (2 ^ 16 - 1) + 1) <$> seqZ 0 (Z.of_nat n),
          set_idx ((inflight_idx s + Z.of_nat n) mod (2 ^ 16 - 1)) s).
Proof.
  revert s. induction n as [|n IH]; intros s Hi; cbn [take_ids].
  - rewrite Z.add_0_r, Z.mod_small by lia. by destruct s.
  - unfold mbind, M_bind. rewrite next_id_eq by done.
    rewrite IH by (apply Z.mod_pos_bound; lia).
    assert (H0 : inflight_idx s = inflight_idx s mod (2 ^ 16 - 1)) by (by rewrite Z.mod_small).
    cbn [inflight_idx set_idx]. unfold mret, M_ret. f_equal. f_equal.
    + rewrite Nat2Z.inj_succ, (seqZ_cons 0 (Z.succ _)) by lia. cbn [fmap list_fmap].
      f_equal; [by rewrite Z.add_0_r, <- H0 | ].
      rewrite Z.pred_succ, <- (fmap_add_seqZ 1 0), <- list_fmap_compose.
      apply list_fmap_ext. intros _ j _. cbn. f_equal.
      rewrite Zplus_mod_idemp_l. f_equal. lia.
    + unfold set_idx. cbn. f_equal. rewrite Zplus_mod_idemp_l. f_equal. lia.
Qed.

(** C28: the packet ids a sink hands out are never 0 and fit 16 bits, the
    counter never overflows, and any 65535 ids in a row are different. *)
Theorem next_id_cycle n s :
  0 <= inflight_idx s < 2 ^ 16 - 1 ->
  exists ids s', take_ids n s = Some (ids, s') /\ length ids = n /\
    0 <= inflight_idx s' < 2 ^ 16 - 1 /\
    Forall (fun id => 1 <= id < 2 ^ 16) ids /\
    (Z.of_nat n < 2 ^ 16 -> NoDup ids).
Proof.
  intros Hi. rewrite take_ids_eq by done. eexists _, _. split; [reflexivity | ].
  split; [rewrite length_fmap, length_seqZ; lia | ].
  split; [apply Z.mod_pos_bound; lia | ]. split.
  - apply Forall_forall. intros id (i & -> & _)%list_elem_of_fmap.
    pose proof (Z.mod_pos_bound (inflight_idx s + i) (2 ^ 16 - 1)). lia.
  - intros Hn. apply NoDup_fmap_2_strong; [ | apply NoDup_seqZ].
    intros x y Hx%elem_of_seqZ Hy%elem_of_seqZ Heq.
    apply Z.add_cancel_r in Heq. rewrite !Z.mod_eq in Heq by lia.
    set (a := (inflight_idx s + x) / _) in *. set (b := (inflight_idx s + y) / _) in *.
    clearbody a b. assert (x - y = (2 ^ 16 - 1) * (a - b)) by lia.
    assert (a - b = 0) by nia. lia.
Qed.

(** ** What the sink promises: a queue of outstanding packets

    Seen from outside an open sink is the queue of the packets that wait for
    their acknowledgement, in the order they were sent; a packet enters with
    an id no other one has and leaves from the front.  A sink whose
    connection is closed is [None]. *)

Record entry : Type := mkEntry { en_id : Z; en_tx : tx; en_type : AckType }.

Inductive spec_step : option (list entry) -> option (list entry) -> Prop :=
| sp_send l e : en_id e ∉ map en_id l -> spec_step (Some l) (Some (l ++ [e]))
| sp_pop e l : spec_step (Some (e :: l)) (Some l)
| sp_close l : spec_step l None
| sp_same l : spec_step l l.

Definition entry_of (m : gmap Z (tx * AckType)) (id : Z) : option entry :=
  match m !! id with Some (c, t) => Some (mkEntry id c t) | None => None end.

Definition entries (m : gmap Z (tx * AckType)) (order : list Z) : list entry :=
  base.omap (entry_of m) order.

Definition outstanding (q : MqttSharedQueues) : list entry :=
  entries (inflight q) (inflight_order q).

Definition abs (s : MqttShared) : option (list entry) :=
  if is_open (io s) then Some (outstanding (queues s)) else None.

(** Every id in the queue is in flight, and there once. *)
Definition ordered (m : gmap Z (tx * AckType)) (order : list Z) : Prop :=
  NoDup order /\ forall id, id ∈ order -> is_Some (m !! id).

Lemma entries_cons m id order :
  entries m (id :: order) =
    match entry_of m id with Some e => e :: entries m order | None => entries m order end.
Proof. reflexivity. Qed.

(** The entries depend only on what the map has at the ids of the order. *)
Lemma entries_ext m m' order :
  (forall id, id ∈ order -> m !! id = m' !! id) -> entries m order = entries m' order.
Proof.
  induction order as [|j order IH]; intros H; [done | ].
  rewrite !entries_cons. unfold entry_of. rewrite <- (H j) by left.
  rewrite IH; [done | ]. intros id Hid. apply H. by right.
Qed.

Lemma entries_fresh m order id x :
  id ∉ order -> entries (<[id := x]> m) order = entries m order.
Proof. intros Hn. apply entries_ext. intros j Hj. rewrite lookup_insert_ne; congruence. Qed.

Lemma entries_delete m order id :
  id ∉ order -> entries (delete id m) order = entries m order.
Proof. intros Hn. apply entries_ext. intros j Hj. rewrite lookup_delete_ne; congruence. Qed.

Lemma entries_app m o1 o2 : entries m (o1 ++ o2) = entries m o1 ++ entries m o2.
Proof. apply omap_app. Qed.

Lemma entries_ids m order :
  (forall id, id ∈ order -> is_Some (m !! id)) -> map en_id (entries m order) = order.
Proof.
  induction order as [|j order IH]; [done | ]. intros H. rewrite entries_cons. unfold entry_of.
  destruct (H j) as [[c t] ->]; [left | ]. cbn. f_equal. apply IH. intros id Hid.
  apply H. by right.
Qed.

Lemma ordered_insert m order id x :
  ordered m order -> m !! id = None ->
  id ∉ order /\ ordered (<[id := x]> m) (order ++ [id]) /\
  entries (<[id := x]> m) (order ++ [id]) =
    entries m order ++ [mkEntry id x.1 x.2].
Proof.
  intros [Hd Hin] Hid.
  assert (Hn : id ∉ order). { intros Ho. destruct (Hin _ Ho). congruence. }
  split; [done | ]. split.
  - split.
    + apply NoDup_app. split; [done | ]. split; [ | apply NoDup_singleton].
      intros j Hj ->%list_elem_of_singleton. done.
    + intros j [Hj| ->%list_elem_of_singleton]%elem_of_app.
      * destruct (decide (id = j)) as [->|]; [done | ].
        rewrite lookup_insert_ne by done. by apply Hin.
      * rewrite lookup_insert_eq. eauto.
  - rewrite entries_app, entries_fresh by done.
    rewrite entries_cons. unfold entry_of. rewrite lookup_insert_eq. by destruct x.
Qed.

Lemma ordered_tail m id order :
  ordered m (id :: order) -> id ∉ order /\ ordered m order /\ ordered (delete id m) order.
Proof.
  intros [[Hn Hd]%NoDup_cons Hin]. split; [done | ]. split; (split; [done | ]).
  - intros j Hj. apply Hin. by right.
  - intros j Hj. rewrite lookup_delete_ne by congruence. apply Hin. by right.
Qed.

Lemma served_front m o e rest :
  ordered m o -> entries m o = e :: rest ->
  o = en_id e :: tail o /\ m !! en_id e = Some (en_tx e, en_type e) /\
  entries (delete (en_id e) m) (tail o) = rest /\ entries m (tail o) = rest.
Proof.
  intros Hc. destruct o as [|id o]; [done | ]. rewrite entries_cons. unfold entry_of.
  destruct (proj2 Hc id) as [[c t] Hm]; [by left | ]. rewrite Hm.
  intros [= <- <-]. split; [done | ]. cbn [en_id tail].
  destruct (ordered_tail _ _ _ Hc) as (Hn & _ & _). split; [done | ].
  split; [by apply entries_delete | done].
Qed.

(** ** Invariant and simulation

    [Q] is what a version of the sink keeps about its two queues while the
    connection is open. *)
Section Invariant.
Context {L : RuntimeLaws Ack}.
Context (Q : gmap Z (tx * AckType) -> list Z -> Prop).
Context (Q_ordered : forall m o, Q m o -> ordered m o).
Context (Q_insert : forall m o id x,
  id <> 0 -> Q m o -> m !! id = None -> Q (<[id := x]> m) (o ++ [id])).

Lemma queue_channel_open w : is_open (queue_channel w).2 = true -> is_open w = true.
Proof. by rewrite queue_channel_io. Qed.
Lemma queue_send_open c a w : is_open (queue_send c a w).2 = true -> is_open w = true.
Proof. by rewrite queue_send_io. Qed.
Lemma queue_drop_open c w : is_open (queue_drop c w) = true -> is_open w = true.
Proof. by rewrite queue_drop_io. Qed.
Lemma queue_drop_rx_open c w : is_open (queue_drop_rx c w) = true -> is_open w = true.
Proof. by rewrite queue_drop_rx_io. Qed.
Lemma waiter_channel_open w : is_open (waiter_channel w).2 = true -> is_open w = true.
Proof. by rewrite waiter_channel_io. Qed.
Lemma waiter_send_open c w : is_open (waiter_send c w).2 = true -> is_open w = true.
Proof. by rewrite waiter_send_io. Qed.
Lemma waiter_drop_open c w : is_open (waiter_drop c w) = true -> is_open w = true.
Proof. by rewrite waiter_drop_io. Qed.

Definition inv (s : MqttShared) : Prop :=
  borrowed s = false /\ 0 <= inflight_idx s < 2 ^ 16 - 1 /\
  (is_open (io s) = true -> Q (inflight (queues s)) (inflight_order (queues s))).

(** A piece of code that leaves the queue as it is or closes the sink, and
    one that makes a step of the specification. *)
Definition quiet (s s' : MqttShared) : Prop := inv s' /\ (abs s' = abs s \/ abs s' = None).
Definition moved (s s' : MqttShared) : Prop := inv s' /\ spec_step (abs s) (abs s').
Definition quietly {A} (m : M A) : Prop :=
  forall s a s', inv s -> m s = Some (a, s') -> quiet s s'.
Definition moves {A} (m : M A) : Prop :=
  forall s a s', inv s -> m s = Some (a, s') -> moved s s'.

Lemma spec_step_closed x : spec_step None x -> x = None.
Proof. inversion 1; done. Qed.

(** A closed sink stays closed. *)
Lemma moved_open s s' : moved s s' -> is_open (io s') = true -> is_open (io s) = true.
Proof.
  intros [_ Hsp]. unfold abs in Hsp. destruct (is_open (io s)); [done | ].
  by destruct (is_open (io s')); [inversion Hsp | ].
Qed.

Lemma quiet_moved s s' : quiet s s' -> moved s s'.
Proof. intros [Hi [Ha|Ha]]; split; rewrite ?Ha; [done | apply sp_same | done | apply sp_close]. Qed.

Lemma quiet_refl s : inv s -> quiet s s.
Proof. split; [done | by left]. Qed.

Lemma quiet_trans s1 s2 s3 : quiet s1 s2 -> quiet s2 s3 -> quiet s1 s3.
Proof. intros [_ [H|H]] [Hi [H'|H']]; split; rewrite ?H', ?H; auto. Qed.

Lemma quiet_then s1 s2 s3 : quiet s1 s2 -> moved s2 s3 -> moved s1 s3.
Proof.
  intros [_ [H|H]] [Hi Hs]; split; [done | by rewrite <- H | done | ].
  rewrite H in Hs. apply spec_step_closed in Hs as ->. apply sp_close.
Qed.

Lemma moved_then s1 s2 s3 : moved s1 s2 -> quiet s2 s3 -> moved s1 s3.
Proof. intros [_ Hs] [Hi [H|H]]; split; rewrite ?H; try done. apply sp_close. Qed.

Lemma quietly_moves {A} (m : M A) : quietly m -> moves m.
Proof. intros H s a s' Hi Hm. apply quiet_moved. by eapply H. Qed.

Lemma quietly_bind {A B} (m : M A) (k : A -> M B) :
  quietly m -> (forall a, quietly (k a)) -> quietly (mbind k m).
Proof.
  intros Hm Hk s b s'' Hi (a & s' & H1 & H2)%bind_Some. pose proof (Hm _ _ _ Hi H1) as Hq.
  eapply quiet_trans; [exact Hq | ]. exact (Hk a s' b s'' (proj1 Hq) H2).
Qed.

Lemma moves_bind {A B} (m : M A) (k : A -> M B) :
  quietly m -> (forall a, moves (k a)) -> moves (mbind k m).
Proof.
  intros Hm Hk s b s'' Hi (a & s' & H1 & H2)%bind_Some. pose proof (Hm _ _ _ Hi H1) as Hq.
  eapply quiet_then; [exact Hq | ]. exact (Hk a s' b s'' (proj1 Hq) H2).
Qed.

Lemma quietly_next_id : quietly next_id.
Proof.
  intros s a s' Hi. destruct Hi as (Hb & Hx & Hq). rewrite next_id_eq by done.
  intros [= <- <-]. split; [ | by left]. split; [done | ]. split; [ | done].
  cbn. apply Z.mod_pos_bound. lia.
Qed.

(** The packet id of a request: given, or the next one. *)
Lemma moves_bind_id {B} id (k : Z -> M B) :
  (forall idx, idx <> 0 -> moves (k idx)) ->
  moves (mbind k (if id =? 0 then next_id else mret id)).
Proof.
  intros Hk s b s'' Hi (idx & s' & H1 & H2)%bind_Some. destruct (Z.eqb_spec id 0) as [Hz|Hz].
  - pose proof (proj1 (proj2 Hi)) as Hx.
    pose proof (quietly_next_id _ _ _ Hi H1) as Hq. rewrite next_id_eq in H1 by done.
    injection H1 as <- _. eapply quiet_then; [exact Hq | ].
    apply (Hk (inflight_idx s + 1)) with b; [lia | apply Hq | done].
  - apply ret_Some in H1 as [<- <-]. by apply (Hk id) with b.
Qed.

Lemma moves_bind_l {A B} (m : M A) (k : A -> M B) :
  moves m -> (forall a, quietly (k a)) -> moves (mbind k m).
Proof.
  intros Hm Hk s b s'' Hi (a & s' & H1 & H2)%bind_Some. pose proof (Hm _ _ _ Hi H1) as Hq.
  eapply moved_then; [exact Hq | ]. exact (Hk a s' b s'' (proj1 Hq) H2).
Qed.

Lemma quietly_ret {A} (a : A) : quietly (mret a : M A).
Proof. intros s b s' Hi [_ <-]%ret_Some. by apply quiet_refl. Qed.

Lemma quietly_gets {A} (f : MqttShared -> A) : quietly (gets f).
Proof. intros s a s' Hi [= <- <-]. by apply quiet_refl. Qed.

Lemma quietly_panic {A} : quietly (panic : M A).
Proof. intros s a s' Hi. done. Qed.

(** Calls of ntex leave the queues alone; they may close the connection. *)
Lemma quiet_io s w :
  inv s -> (is_open w = true -> is_open (io s) = true) -> quiet s (set_io w s).
Proof.
  intros (Hb & Hx & Hq) Hw. split.
  - split; [done | ]. split; [done | ]. intros Ho. apply Hq, Hw, Ho.
  - unfold abs. cbn. destruct (is_open w) eqn:E; [left; by rewrite Hw | by right].
Qed.

Lemma quietly_io {A} (f : world -> A * world) :
  (forall w, is_open (f w).2 = true -> is_open w = true) -> quietly (run_io f).
Proof. intros Hf s a s' Hi [_ ->]%run_io_Some. apply quiet_io; auto. Qed.

Lemma quietly_upd (f : world -> world) :
  (forall w, is_open (f w) = true -> is_open w = true) -> quietly (upd_io f).
Proof. intros Hf s a s' Hi [_ ->]%upd_io_Some. apply quiet_io; auto. Qed.

Lemma quietly_write f : quietly (write_packet f).
Proof. intros s r s' Hi [-> _]%write_packet_Some. apply quiet_io; [done | apply encode_open]. Qed.

Lemma quietly_written {E} (mk : EncodeError -> E) (f : ewriter) (rx : tx) :
  quietly (e ← write_packet f;
           match e with
           | ok _ => mret (ok rx)
           | err e => _ ← upd_io (queue_drop_rx rx); mret (err (mk e) : result tx E)
           end).
Proof.
  apply quietly_bind; [apply quietly_write | intros [u|e]]; [apply quietly_ret | ].
  apply quietly_bind; [apply quietly_upd, queue_drop_rx_open | intros; apply quietly_ret].
Qed.

Lemma quietly_credit : quietly has_credit.
Proof.
  intros s a s' Hi. unfold has_credit. destruct (borrowed s); [done | ].
  destruct (_ <=? _); [ | done]. intros [= _ <-]. by apply quiet_refl.
Qed.

(** Replacing the waiters is not visible. *)
Lemma quiet_waiters s ws w :
  inv s -> (is_open w = true -> is_open (io s) = true) ->
  quiet s (set_queues false (mkQueues (inflight (queues s)) (inflight_order (queues s)) ws)
             (set_io w s)).
Proof.
  intros Hi Hw. pose proof (quiet_io s w Hi Hw) as [(Hb & Hx & Hq) Ha].
  split; [split; [done | split; [exact Hx | exact Hq]] | exact Ha].
Qed.

Lemma quietly_enqueue : quietly enqueue_waiter.
Proof.
  unfold enqueue_waiter. apply quietly_bind; [apply quietly_io, waiter_channel_open | intros c].
  apply quietly_bind; [ | intros _; apply quietly_ret].
  intros s a s' Hi (_ & q & s1 & [[= _ <-] <-]%ret_Some & ->)%with_queues_Some.
  apply (quiet_waiters s _ (io s) Hi). done.
Qed.

Lemma quietly_ready : quietly ready.
Proof.
  intros s f s' Hi. rewrite ready_eq by apply Hi.
  destruct (is_open (io s)); [destruct (_ <=? _); [done | ] | ]; intros [= _ <-]; by apply quiet_refl.
Qed.

Lemma quietly_credit_value : quietly credit.
Proof.
  intros s n s' Hi (k & s1 & (_ & q & s2 & [[= _ <-] <-]%ret_Some & ->)%with_queues_Some & H)%bind_Some.
  assert (Hs : set_queues false (queues s) (set_queues true (queues s) s) = s).
  { destruct Hi as [Hb _]. by destruct s as [c b q i co w]; cbn in Hb; subst. }
  rewrite Hs in H. apply bind_Some in H as (c & s3 & [= <- <-] & H).
  destruct (_ <=? _); [apply ret_Some in H as [_ <-] | done]. by apply quiet_refl.
Qed.

(** Closing *)
Lemma closed_quiet s s' :
  borrowed s' = false -> inflight_idx s' = inflight_idx s -> is_open (io s') = false ->
  inv s -> quiet s s'.
Proof.
  intros Hb' Hx' Ho' (Hb & Hx & Hq). split.
  - split; [done | ]. rewrite Hx'. split; [done | congruence].
  - right. unfold abs. by rewrite Ho'.
Qed.

Lemma drop_inflight_open q w : is_open (drop_inflight q w) = true -> is_open w = true.
Proof.
  unfold drop_inflight. induction (map_to_list _) as [|e l IH]; [done | ].
  cbn. intros H%queue_drop_open. auto.
Qed.

Lemma drop_waiters_open q w : is_open (drop_waiters q w) = true -> is_open w = true.
Proof.
  unfold drop_waiters. induction (waiters q) as [|c l IH]; [done | ].
  cbn. intros H%waiter_drop_open. auto.
Qed.

(** Clearing cancels the receivers that were still pending. *)
Lemma drops_cancel {C V} (recv : C -> world -> option (option V)) (drop : C -> world -> world) :
  (forall c w, recv c w = None -> recv c (drop c w) = Some None) ->
  (forall c c' w r, recv c w = Some r -> recv c (drop c' w) = Some r) ->
  (forall c c' w, recv c w = None ->
     recv c (drop c' w) = None \/ recv c (drop c' w) = Some None) ->
  forall l c w, recv c w = None ->
    (recv c (foldr drop w l) = None \/ recv c (foldr drop w l) = Some None) /\
    (c ∈ l -> recv c (foldr drop w l) = Some None).
Proof.
  intros Hself Hdone Hsilent l c w Hr.
  induction l as [|c' l [IH IHin]]; cbn [foldr].
  { split; [by left | by intros ?%not_elem_of_nil]. }
  split.
  - destruct IH as [IH|IH]; [by apply Hsilent | right; by apply Hdone].
  - intros [->|Hin]%elem_of_cons.
    + destruct IH as [IH|IH]; [by apply Hself | by apply Hdone].
    + by apply Hdone, IHin.
Qed.

Lemma drop_inflight_eq q w :
  drop_inflight q w = foldr queue_drop w (map (fun e => e.2.1) (map_to_list (inflight q))).
Proof. unfold drop_inflight. induction (map_to_list _) as [|e l IH]; cbn; [done | by rewrite IH]. Qed.

Lemma drop_inflight_cancels q w id c t :
  inflight q !! id = Some (c, t) -> queue_recv c w = None ->
  queue_recv c (drop_inflight q w) = Some None.
Proof.
  intros Hid%elem_of_map_to_list Hr. rewrite drop_inflight_eq.
  apply (drops_cancel queue_recv queue_drop queue_drop_recv queue_drop_done queue_drop_silent); [done | ].
  apply list_elem_of_fmap. by exists (id, (c, t)).
Qed.

Lemma drop_waiters_cancels q w c :
  c ∈ waiters q -> waiter_recv c w = None -> waiter_recv c (drop_waiters q w) = Some None.
Proof.
  intros Hc Hr.
  by apply (drops_cancel waiter_recv waiter_drop waiter_drop_recv waiter_drop_done waiter_drop_silent).
Qed.

(** What was sent before stays. *)
Lemma drop_waiters_done q w c r : waiter_recv c w = Some r -> waiter_recv c (drop_waiters q w) = Some r.
Proof. intros H. unfold drop_waiters. induction (waiters q); [done | ]. cbn. by apply waiter_drop_done. Qed.

Lemma drop_waiters_queue q w c : queue_recv c (drop_waiters q w) = queue_recv c w.
Proof. unfold drop_waiters. induction (waiters q); cbn; [done | by rewrite waiter_drop_queue]. Qed.

Lemma drop_inflight_waiter q w c : waiter_recv c (drop_inflight q w) = waiter_recv c w.
Proof.
  unfold drop_inflight. induction (map_to_list _); cbn; [done | by rewrite queue_drop_waiter].
Qed.

Lemma woken_queue ws w c : queue_recv c (woken ws w).2 = queue_recv c w.
Proof.
  revert w. induction ws as [|c' ws IH]; intros w; cbn [woken]; [done | ].
  pose proof (waiter_send_queue c c' w) as Hs. destruct (waiter_send c' w) as [[] w']; [done | ].
  by rewrite IH.
Qed.

Lemma clear_closed_quiet s a s' :
  inv s -> is_open (io s) = false -> clear_queues s = Some (a, s') -> quiet s s'.
Proof.
  intros Hi Ho. rewrite clear_queues_eq by apply Hi. intros [= _ <-].
  apply closed_quiet; [done | done | | done]. cbn. apply not_true_is_false.
  intros H%drop_waiters_open%drop_inflight_open. congruence.
Qed.

Lemma woken_wbuf ws w : wbuf (woken ws w).2 = wbuf w.
Proof.
  revert w. induction ws as [|c' ws IH]; intros w; cbn [woken]; [done | ].
  pose proof (waiter_send_wbuf c' w) as Hw. destruct (waiter_send c' w) as [[] w1]; cbn in *; [done | by rewrite IH].
Qed.

Lemma woken_open ws w : is_open (woken ws w).2 = true -> is_open w = true.
Proof.
  revert w. induction ws as [|c ws IH]; intros w; cbn [woken]; [done | ].
  pose proof (waiter_send_open c w) as Hs. destruct (waiter_send c w) as [[] w']; [exact Hs | ].
  intros Ho%IH. auto.
Qed.

(** Registering a packet is a send of the specification. *)
Lemma register_moved c idx tp s r q s1 :
  inv s -> idx <> 0 ->
  register c idx tp (queues s) (set_queues true (queues s) s) = Some (r, q, s1) ->
  moved s (set_queues false q s1).
Proof.
  intros Hi Hnz [(e & _ & _ & -> & ->)|(Hn & _ & -> & ->)]%register_Some.
  - apply quiet_moved. destruct (quiet_io s (queue_drop c (queue_drop_rx c (io s))) Hi) as [Hi' Ha].
    { intros H%queue_drop_open%queue_drop_rx_open. done. }
    destruct Hi' as (_ & Hx & Hq). by split; [split | ].
  - destruct Hi as (Hb & Hx & Hq). split.
    + split; [done | ]. split; [done | ]. intros Ho. cbn. apply Q_insert; [done | by apply Hq | done].
    + unfold abs, outstanding. cbn [io queues inflight inflight_order set_queues].
      destruct (is_open (io s)) eqn:Ho; [ | apply sp_same]. specialize (Hq eq_refl).
      destruct (ordered_insert _ _ idx (c, tp) (Q_ordered _ _ Hq) Hn) as (Hf & _ & ->).
      apply sp_send. rewrite entries_ids; [done | apply Q_ordered, Hq].
Qed.

Lemma moves_register idx tp :
  idx <> 0 -> moves (with_queues (fun q => c ← run_io queue_channel; register c idx tp q)).
Proof.
  intros Hnz s a s' Hi (_ & q & s1 & (c & s2 & [-> ->]%run_io_Some & H)%bind_Some & ->)%with_queues_Some.
  pose proof (quiet_io s (queue_channel (io s)).2 Hi (queue_channel_open _)) as Hq.
  eapply quiet_then; [exact Hq | ]. exact (register_moved _ _ _ _ _ _ _ (proj1 Hq) Hnz H).
Qed.

Section FutureLemmas.
Context {B A E : Type} (disconnected : E).
Context (start : B -> M (result tx E)) (finish : Ack -> M (result A E)).
Context (start_moves : forall b, moves (start b)) (finish_quiet : forall a, quietly (finish a)).

Lemma moves_begin b : moves (begin_send (A := A) disconnected start b).
Proof.
  unfold begin_send. apply moves_bind; [apply quietly_gets | intros op].
  destruct op; [ | apply quietly_moves, quietly_ret].
  apply moves_bind; [apply quietly_credit | intros cr]. destruct cr; cbn [negb].
  - apply moves_bind_l; [apply start_moves | intros; apply quietly_ret].
  - apply quietly_moves, quietly_bind; [apply quietly_enqueue | intros; apply quietly_ret].
Qed.

Lemma quietly_poll_ack f : quietly (poll_ack (B := B) disconnected finish f).
Proof.
  destruct f; cbn [poll_ack]; try apply quietly_ret.
  apply quietly_bind; [apply quietly_gets | intros [[v|]|]]; try apply quietly_ret.
  apply quietly_bind; [apply finish_quiet | intros; apply quietly_ret].
Qed.

Lemma moves_poll f : moves (poll_send disconnected start finish f).
Proof.
  destruct f; cbn [poll_send]; try (apply quietly_moves, quietly_poll_ack).
  - apply moves_bind_l; [apply moves_begin | apply quietly_poll_ack].
  - apply moves_bind; [apply quietly_gets | intros [[v|]|]];
      try (apply quietly_moves, quietly_ret).
    apply moves_bind_l; [ | apply quietly_poll_ack].
    apply moves_bind_l; [apply start_moves | intros; apply quietly_ret].
Qed.
End FutureLemmas.

Section Credit.
Context {B A E : Type} (disconnected : E) (start : B -> M (result tx E)).
Abbreviation begin := (begin_send (A := A) disconnected start).

(** an open sink sends at once only while fewer packets are in flight
    than the peer accepts; at the limit the send joins the end of the queue
    of waiters and nothing else changes; above the limit the computation of
    the credit underflows. *)
Theorem send_credit (b : B) s :
  borrowed s = false -> is_open (io s) = true ->
  let n := Z.of_nat (size (inflight (queues s))) in
  let c := waiter_channel (io s) in
  begin b s =
    if n <? cap s then start_send start b s
    else if n =? cap s
    then Some (SF_Wait c.1 b,
               set_queues false (mkQueues (inflight (queues s)) (inflight_order (queues s))
                                   (waiters (queues s) ++ [c.1]))
                 (set_io c.2 s))
    else None.
Proof.
  intros Hb Ho n c. unfold begin_send, mbind, M_bind, gets. rewrite Ho. unfold has_credit.
  rewrite Hb. fold n. destruct (Z.ltb_spec n (cap s)).
  - rewrite (proj2 (Z.leb_le _ _)) by lia. rewrite (proj2 (Z.ltb_lt 0 _)) by lia. done.
  - destruct (Z.eqb_spec n (cap s)) as [He|Hn].
    + rewrite (proj2 (Z.leb_le _ _)) by lia. rewrite (proj2 (Z.ltb_ge 0 _)) by lia. cbn [negb].
      unfold enqueue_waiter, mbind, M_bind, run_io, with_queues, c.
      destruct (waiter_channel (io s)) as [h w]. cbn [set_io borrowed]. by rewrite Hb.
    + by rewrite (proj2 (Z.leb_gt _ _)) by lia.
Qed.

(** Without credit nothing is sent: the send waits at the end of the queue,
    and that is all that changes. *)
Definition joined_waiters (b : B) s (f : @SendFuture B A E) s' : Prop :=
  let c := waiter_channel (io s) in
  f = SF_Wait c.1 b /\
  s' = set_queues false (mkQueues (inflight (queues s)) (inflight_order (queues s)) (waiters (queues s) ++ [c.1]))
         (set_io c.2 s).

Lemma begin_full (b : B) s f s' :
  is_open (io s) = true -> cap s <= Z.of_nat (size (inflight (queues s))) -> begin b s = Some (f, s') ->
  joined_waiters b s f s'.
Proof.
  intros Ho Hn H. destruct (borrowed s) eqn:Hb.
  { unfold begin_send, mbind, M_bind, gets, has_credit in H. by rewrite Ho, Hb in H. }
  rewrite send_credit in H by done. rewrite (proj2 (Z.ltb_ge _ _)) in H by lia.
  destruct (_ =? _); [ | done]. by injection H as <- <-.
Qed.

Lemma poll_full finish (b : B) s r f s' :
  is_open (io s) = true -> cap s <= Z.of_nat (size (inflight (queues s))) ->
  poll_send disconnected start finish (SF_Init b) s = Some (r, f, s') ->
  r = None /\ joined_waiters b s f s'.
Proof.
  intros Ho Hn (f0 & s0 & (-> & ->)%begin_full & H)%bind_Some; [ | done ..].
  by apply ret_Some in H as [[= <- <-] <-].
Qed.
End Credit.


End Invariant.

(** ** Settings

    No operation of a sink changes its credit or its codec: they are set by
    the handshake. *)
Definition settings (s : MqttShared) : Z * Codec := (cap s, codec s).
Definition keeps {A} (m : M A) : Prop := forall s a s', m s = Some (a, s') -> settings s' = settings s.

Lemma keeps_bind {A B} (m : M A) (k : A -> M B) : keeps m -> (forall a, keeps (k a)) -> keeps (mbind k m).
Proof. intros Hm Hk s b s'' (a & s' & H1%Hm & H2%Hk)%bind_Some. congruence. Qed.

Lemma keeps_ret {A} (a : A) : keeps (mret a).
Proof. by intros s b s' [_ <-]%ret_Some. Qed.

Lemma keeps_panic {A} : keeps (panic : M A).
Proof. by intros s b s'. Qed.

Lemma keeps_gets {A} (f : MqttShared -> A) : keeps (gets f).
Proof. by intros s b s' [= _ <-]. Qed.

Lemma keeps_run_io {A} (f : world -> A * world) : keeps (run_io f).
Proof. by intros s b s' [_ ->]%run_io_Some. Qed.

Lemma keeps_upd_io f : keeps (upd_io f).
Proof. by intros s b s' [_ ->]%upd_io_Some. Qed.

Lemma keeps_write f : keeps (write_packet f).
Proof. by intros s b s' [-> _]%write_packet_Some. Qed.

Lemma keeps_queues {A} (f : MqttSharedQueues -> M (A * MqttSharedQueues)) :
  (forall q, keeps (f q)) -> keeps (with_queues f).
Proof. intros Hf s a s' (_ & q & s1 & H1%Hf & ->)%with_queues_Some. exact H1. Qed.

Lemma keeps_next_id : keeps next_id.
Proof. intros s a s'. unfold next_id. destruct (_ <=? _); [done | ]. by destruct (_ =? _); intros [= _ <-]. Qed.

Lemma keeps_has_credit : keeps has_credit.
Proof. intros s a s'. unfold has_credit. destruct (borrowed s); [done | ]. by destruct (_ <=? _); intros [= _ <-]. Qed.

Lemma keeps_wake ws : keeps (wake ws).
Proof. intros s a s'. rewrite wake_eq. by intros [= _ <-]. Qed.

Lemma keeps_register c idx tp q : keeps (register c idx tp q).
Proof. intros s [a q'] s' [(e & _ & _ & _ & ->)|(_ & _ & -> & _)]%register_Some; done. Qed.

End Shared.

Create HintDb settings.
#[export] Hint Resolve keeps_ret keeps_panic keeps_gets keeps_run_io keeps_upd_io keeps_write
  keeps_next_id keeps_has_credit keeps_wake keeps_register : settings.

Ltac keeps :=
  repeat first
    [ solve [auto with settings]
    | apply keeps_bind; [ | intros ]
    | apply keeps_queues; intros
    | match goal with
      | |- keeps (match ?x with _ => _ end) => destruct x
      | |- keeps (let _ := _ in _) => cbv zeta
      end ].

Section SettingsLemmas.
Context {Ack : Type} `{R : Runtime Ack} {Codec : Type}.
Abbreviation M := (@M Ack R Codec).

Lemma keeps_ready : keeps (ready (Codec := Codec)).
Proof. unfold ready. keeps. Qed.

Lemma keeps_credit : keeps (credit (Codec := Codec)).
Proof. unfold credit. keeps. Qed.

Lemma keeps_clear : keeps (clear_queues (Codec := Codec)).
Proof. unfold clear_queues. keeps. Qed.

Lemma keeps_enqueue : keeps (enqueue_waiter (Codec := Codec)).
Proof. unfold enqueue_waiter. keeps. Qed.

Context {B A E : Type} (disconnected : E).
Context (start : B -> M (result tx E)) (finish : Ack -> M (result A E)).
Hypothesis (Hstart : forall b, keeps (start b)) (Hfinish : forall a, keeps (finish a)).

Lemma keeps_start_send b : keeps (start_send (A := A) start b).
Proof. unfold start_send. keeps. Qed.

Lemma keeps_begin_send b : keeps (begin_send (A := A) disconnected start b).
Proof. unfold begin_send. keeps; auto using keeps_enqueue, keeps_start_send. Qed.

(** Without credit a send waits. *)
Lemma begin_send_waits b s :
  is_open (io s) = true -> borrowed s = false -> queues s = mkQueues ∅ [] [] -> cap s = 0 ->
  exists rx s', begin_send (A := A) disconnected start b s = Some (SF_Wait rx b, s') /\ inflight (queues s') = ∅.
Proof.
  intros Ho Hb Hq Hc.
  unfold begin_send, has_credit, enqueue_waiter, with_queues, mbind, M_bind, gets, run_io, mret, M_ret.
  rewrite Ho, Hb, Hq, Hc. cbn [inflight]. rewrite map_size_empty. change (Z.of_nat 0) with 0. cbn.
  change (negb (0 <? 0 - 0)) with true. cbn. destruct (waiter_channel (io s)) as [rx w']. cbn. rewrite Hb.
  eexists _, _. split; [reflexivity | ]. cbn. by rewrite Hq.
Qed.

Lemma keeps_poll_ack f : keeps (poll_ack (B := B) disconnected finish f).
Proof. unfold poll_ack. keeps. Qed.

Lemma keeps_poll_send f : keeps (poll_send disconnected start finish f).
Proof.
  unfold poll_send. keeps; auto using keeps_poll_ack, keeps_begin_send, keeps_start_send.
Qed.
End SettingsLemmas.
#[export] Hint Resolve keeps_ready keeps_credit keeps_clear keeps_enqueue keeps_begin_send keeps_poll_send : settings.

Arguments SendFuture {Ack R} B A E.

(** ** A runtime to run the sinks on

    Channels are numbered; a slot is pending ([None]), served or cancelled.
    It shows that the laws can hold, and evaluates. *)
Record SimWorld (A : Type) : Type := mkSim {
  sim_open : bool;
  sim_buf : bytes;
  sim_acks : list (option (option A));
  sim_wakes : list (option (option unit));
}.
Arguments mkSim {A}.
Arguments sim_open {A}.
Arguments sim_buf {A}.
Arguments sim_acks {A}.
Arguments sim_wakes {A}.

(** Settle slot [c] with [r] if it is pending. *)
Definition settle {V} (c : nat) (r : option V) (l : list (option (option V)))
  : bool * list (option (option V)) :=
  match l !! c with
  | Some None => (true, <[c := Some r]> l)
  | _ => (false, l)
  end.

Definition slot {V} (c : nat) (l : list (option (option V))) : option (option V) :=
  match l !! c with Some v => v | None => Some None end.

Definition sim_queue {A} (c : nat) (r : option A) (w : SimWorld A) : bool * SimWorld A :=
  ((settle c r (sim_acks w)).1,
   mkSim (sim_open w) (sim_buf w) (settle c r (sim_acks w)).2 (sim_wakes w)).
Definition sim_wake {A} (c : nat) (r : option unit) (w : SimWorld A) : bool * SimWorld A :=
  ((settle c r (sim_wakes w)).1,
   mkSim (sim_open w) (sim_buf w) (sim_acks w) (settle c r (sim_wakes w)).2).

#[export] Instance SimRuntime (A : Type) : Runtime A := {|
  world := SimWorld A;
  is_open := sim_open;
  wbuf := sim_buf;
  io_close w := mkSim false (sim_buf w) (sim_acks w) (sim_wakes w);
  io_force_close w := mkSim false (sim_buf w) (sim_acks w) (sim_wakes w);
  io_encode f w := ((f (sim_buf w)).1, mkSim (sim_open w) (f (sim_buf w)).2 (sim_acks w) (sim_wakes w));
  tx := nat;
  queue_channel w := (length (sim_acks w),
    mkSim (sim_open w) (sim_buf w) (sim_acks w ++ [None]) (sim_wakes w));
  queue_send c a w := sim_queue c (Some a) w;
  queue_drop c w := (sim_queue c None w).2;
  queue_drop_rx c w := (sim_queue c None w).2;
  queue_recv c w := slot c (sim_acks w);
  wtx := nat;
  waiter_channel w := (length (sim_wakes w),
    mkSim (sim_open w) (sim_buf w) (sim_acks w) (sim_wakes w ++ [None]));
  waiter_send c w := sim_wake c (Some tt) w;
  waiter_drop c w := (sim_wake c None w).2;
  waiter_recv c w := slot c (sim_wakes w);
|}.

Lemma slot_settle_done {V} c c' (r : option V) l v :
  slot c l = Some v -> slot c (settle c' r l).2 = Some v.
Proof.
  unfold slot, settle. destruct (l !! c') as [[x|]|] eqn:E; try done. cbn.
  destruct (decide (c = c')) as [->|]; [by rewrite E | by rewrite list_lookup_insert_ne].
Qed.

Lemma slot_settle_sent {V} c (r : option V) l :
  (settle c r l).1 = true -> slot c (settle c r l).2 = Some r.
Proof.
  unfold slot, settle. destruct (l !! c) as [[x|]|] eqn:E; try done. intros _. cbn.
  rewrite list_lookup_insert_eq; [done | by apply lookup_lt_Some in E].
Qed.

Lemma slot_settle_pending {V} c (r : option V) l :
  slot c l = None -> slot c (settle c r l).2 = Some r.
Proof.
  intros Hs. apply slot_settle_sent. unfold slot, settle in *.
  by destruct (l !! c) as [[x|]|].
Qed.

Lemma slot_settle_silent {V} c c' (l : list (option (option V))) :
  slot c l = None -> slot c (settle c' None l).2 = None \/ slot c (settle c' None l).2 = Some None.
Proof.
  destruct (decide (c = c')) as [->|Hc].
  - intros H. right. by apply slot_settle_pending.
  - intros H. left. rewrite <- H. unfold slot, settle.
    destruct (l !! c') as [[x|]|]; try done. cbn. by rewrite list_lookup_insert_ne.
Qed.

#[export] Instance SimLaws (A : Type) : RuntimeLaws A.
Proof.
  split; cbn; auto using slot_settle_done, slot_settle_silent, slot_settle_pending,
    slot_settle_sent.
Qed.

(** A sink at work: one packet may be in flight, and is. *)
Definition sim_shared : MqttShared (Ack := unit) (Codec := unit) :=
  mkShared 1 false (mkQueues {[ 1 := (0%nat : tx, AT_Publish) ]} [1] []) 1 tt
    (mkSim true [] [None] []).

Lemma next_id_cycle_witness :
  exists ids s', take_ids 3 sim_shared = Some (ids, s') /\ NoDup ids.
Proof.
  destruct (next_id_cycle 3 sim_shared) as (ids & s' & H & _ & _ & _ & Hd); [vm_compute; split; congruence | ].
  exists ids, s'. split; [exact H | apply Hd; reflexivity].
Defined.

Lemma send_credit_witness :
  begin_send (A := unit) tt (fun _ : unit => panic) tt sim_shared =
    Some (SF_Wait (0%nat : wtx) tt,
          set_queues false (mkQueues {[ 1 := (0%nat : tx, AT_Publish) ]} [1] [0%nat : wtx])
            (set_io (mkSim true [] [None] [None]) sim_shared)).
Proof. exact (send_credit tt (fun _ => panic) tt sim_shared eq_refl eq_refl). Defined.
