(* ===== verification/Inflight.v ===== *)
(** * Packet ids in work

    The four dispatchers (server and client, both versions) keep a set of the
    packet ids the application is working on, and a list of responses that are
    not finished, some of which hold an id.  A call may take a fresh id for a
    new response; a poll of a response may release the id it holds.  Here is
    what follows for the ids, once for all of them. *)

From stdpp Require Import base gmap list.
From S2P Require Import Prelude.
Open Scope Z_scope.

Section Inflight.
(** [held]: the ids a response holds; [counted]: those that count against the
    receive maximum *)
Context {Resp : Type} (held counted : Resp -> list Z).

Abbreviation held_all l := (l ≫= held).
Abbreviation counted_all l := (l ≫= counted).

(** The pending responses hold different ids, all of them recorded; no more
    of them count than the maximum (0: there is none). *)
Record ids_ok (max : Z) (ids : gset Z) (l : list Resp) : Prop := {
  io_nodup : NoDup (held_all l);
  io_recorded : forall id, id ∈ held_all l -> id ∈ ids;
  io_quota : max <> 0 -> Z.of_nat (length (counted_all l)) <= max;
}.

(** A call adds the responses [new], with fresh ids. *)
Record takes (max : Z) (new : list Resp) (ids ids' : gset Z) : Prop := {
  tk_kept : ids ⊆ ids';
  tk_nodup : NoDup (held_all new);
  tk_fresh : forall id, id ∈ held_all new -> id ∉ ids /\ id ∈ ids';
  tk_quota : counted_all new = [] \/
             length (counted_all new) = 1%nat /\ (max = 0 \/ Z.of_nat (size ids) < max);
}.

(** A poll turns a response into [rest], and releases at most its ids. *)
Record releases (resp : Resp) (rest : list Resp) (ids ids' : gset Z) : Prop := {
  rl_others : forall id, id ∈ ids -> id ∉ held resp -> id ∈ ids';
  rl_rest : (held_all rest = [] /\ counted_all rest = []) \/
            (held_all rest = held resp /\ counted_all rest = counted resp /\ ids' = ids);
}.

Lemma ids_ok_nil max ids : 0 <= max -> ids_ok max ids [].
Proof.
  intros Hm. split; [apply NoDup_nil_2 | by intros id ?%not_elem_of_nil | ]. intros _. cbn. lia.
Qed.

Lemma counted_all_held l : (forall r, counted r ⊆+ held r) -> counted_all l ⊆+ held_all l.
Proof.
  intros Hr. induction l as [|r l IH]; [done | ].
  change ((r :: l) ≫= counted) with (counted r ++ counted_all l).
  change ((r :: l) ≫= held) with (held r ++ held_all l). by apply submseteq_app.
Qed.

(** Fewer ids count than are recorded. *)
Lemma counted_size max ids l :
  (forall r, counted r ⊆+ held r) -> ids_ok max ids l -> (length (counted_all l) <= size ids)%nat.
Proof.
  intros Hr [Hd Hin _]. etrans; [by apply submseteq_length, counted_all_held | ].
  rewrite <- (size_list_to_set (C := gset Z)) by done. apply subseteq_size.
  intros id Hid%elem_of_list_to_set. by apply Hin.
Qed.

Lemma ids_ok_call max new ids ids' l :
  (forall r, counted r ⊆+ held r) -> ids_ok max ids l -> takes max new ids ids' ->
  ids_ok max ids' (l ++ new).
Proof.
  intros Hr Hl [Hk Hn Hf Hq]. pose proof (counted_size _ _ _ Hr Hl) as Hs. destruct Hl as [H1 H2 H3].
  split; rewrite bind_app.
  - apply NoDup_app. split; [done | ]. split; [ | done].
    intros id Hid Hnew. apply Hf in Hnew as [Hnew _]. by apply Hnew, H2.
  - intros id [Hid|Hid]%elem_of_app; [by apply Hk, H2 | by apply Hf].
  - intros Hnz. rewrite length_app. specialize (H3 Hnz).
    destruct Hq as [->|[-> [Hz|Hq]]]; [cbn; lia | done | lia].
Qed.

Lemma ids_ok_poll max resp rest ids ids' l1 l2 :
  ids_ok max ids (l1 ++ resp :: l2) -> releases resp rest ids ids' ->
  ids_ok max ids' (l1 ++ rest ++ l2).
Proof.
  assert (Hc : forall f : Resp -> list Z, (resp :: l2) ≫= f = f resp ++ (l2 ≫= f)) by done.
  intros [H1 H2 H3] [Hr Hrest]. rewrite bind_app, Hc in H1, H2, H3.
  apply NoDup_app in H1 as (Hd1 & Hx & (Hd2 & Hy & Hd3)%NoDup_app).
  destruct Hrest as [[Eh Ec]|(Eh & Ec & ->)]; split; rewrite !bind_app, ?Eh, ?Ec; cbn [app].
  - apply NoDup_app. split; [done | ]. split; [ | done]. intros id Hid Hid2.
    apply (Hx id Hid), elem_of_app. by right.
  - intros id Hid. apply Hr.
    + apply H2. rewrite !elem_of_app in *. tauto.
    + intros Hir. apply elem_of_app in Hid as [Hid|Hid]; [ | by apply (Hy id)].
      apply (Hx id Hid), elem_of_app. by left.
  - intros Hnz. specialize (H3 Hnz). rewrite !length_app in *. lia.
  - apply NoDup_app. split; [done | ]. split; [done | ]. by apply NoDup_app.
  - exact H2.
  - exact H3.
Qed.

(** ** What calls and polls do to the set *)

Lemma takes_none max new ids ids' :
  held_all new = [] -> counted_all new = [] -> ids ⊆ ids' -> takes max new ids ids'.
Proof.
  intros Hh Hc Hk. split; [done | rewrite Hh; apply NoDup_nil_2 | | by left].
  rewrite Hh. by intros id ?%not_elem_of_nil.
Qed.

Lemma takes_one max new (id : Z) ids :
  (forall j, j ∈ held_all new -> j = id) -> NoDup (held_all new) -> id ∉ ids ->
  (counted_all new = [] \/ length (counted_all new) = 1%nat /\ (max = 0 \/ Z.of_nat (size ids) < max)) ->
  takes max new ids ({[id]} ∪ ids).
Proof.
  intros Hh Hn Hid Hq. split; [set_solver | done | | done].
  intros j ->%Hh. split; [done | set_solver].
Qed.

Lemma releases_done resp ids ids' :
  (forall id, id ∈ ids -> id ∉ held resp -> id ∈ ids') -> releases resp [] ids ids'.
Proof. intros Hr. split; [done | by left]. Qed.

Lemma releases_removed resp (id : Z) ids :
  id ∈ held resp -> releases resp [] ids (ids ∖ {[id]}).
Proof. intros Hid. apply releases_done. set_solver. Qed.

End Inflight.
