(* ===== verification/V3Sink.v ===== *)
(** * The sink of MQTT 3.1.1 (src/v3/sink.rs, src/v3/shared.rs) *)

From stdpp Require Import base gmap list strings.
From S2P Require Import Prelude Types Wire V3Codec Sink.
Open Scope Z_scope.

Inductive Ack : Type :=
| Ack_Publish (id : NonZeroU16)
| Ack_Subscribe (id : NonZeroU16) (status : list SubscribeReturnCode)
| Ack_Unsubscribe (id : NonZeroU16).

Definition Ack_packet_type (a : Ack) : Z :=
  match a with
  | Ack_Publish _ => pt_PUBACK
  | Ack_Subscribe _ _ => pt_SUBACK
  | Ack_Unsubscribe _ => pt_UNSUBACK
  end.

Definition Ack_packet_id (a : Ack) : Z :=
  match a with Ack_Publish id | Ack_Subscribe id _ | Ack_Unsubscribe id => id end.

Definition Ack_is_match (a : Ack) (t : AckType) : bool :=
  match a, t with
  | Ack_Publish _, AT_Publish => true
  | Ack_Subscribe _ _, AT_Subscribe => true
  | Ack_Unsubscribe _, AT_Unsubscribe => true
  | _, _ => false
  end.

Section V3Sink.
Context `{R : Runtime Ack}.

Abbreviation Shared := (@MqttShared Ack R Codec).
Abbreviation Queues := (@MqttSharedQueues Ack R).
Abbreviation M := (@M Ack R Codec).

(** [Ack::subscribe] *)
Definition Ack_subscribe (a : Ack) : M (list SubscribeReturnCode) :=
  match a with Ack_Subscribe _ status => mret status | _ => panic end.

(** [self.0.state.is_open()] *)
Definition sink_open : M bool := gets (fun s => is_open (io s)).

(** [MqttSink::close], [MqttSink::force_close] *)
Definition close : M unit :=
  op ← sink_open;
  _ ← (if (op : bool) then upd_io io_close else mret tt);
  clear_queues.

Definition force_close : M unit :=
  op ← sink_open;
  _ ← (if (op : bool) then upd_io io_force_close else mret tt);
  clear_queues.

(** [MqttSink::ping] *)
Definition ping : M bool :=
  r ← write_packet (codec_encode PPingRequest);
  mret (match r with ok _ => true | err _ => false end).

(** [MqttSink::pkt_ack]: the closure and the error handler *)
Definition pkt_ack_queues (pkt : Ack) (q : Queues) : M (result unit ProtocolError * Queues) :=
  match inflight_order q with
  | idx :: order =>
      if negb (idx =? Ack_packet_id pkt)
      then mret (err PPacketIdMismatch, mkQueues (inflight q) order (waiters q))
      else match inflight q !! Ack_packet_id pkt with
           | Some (c, tp) =>
               let inflight := delete (Ack_packet_id pkt) (inflight q) in
               if Ack_is_match pkt tp then
                 _ ← run_io (queue_send c pkt);
                 ws ← wake (waiters q);
                 mret (ok tt, mkQueues inflight order ws)
               else
                 _ ← upd_io (queue_drop c);
                 mret (err (PUnexpected (Ack_packet_type pkt) (AckType_name tp)),
                       mkQueues inflight order (waiters q))
           | None => mret (err PPacketIdMismatch, mkQueues (inflight q) order (waiters q))
           end
  | [] => mret (err PPacketIdMismatch, q)
  end.

Definition pkt_ack (pkt : Ack) : M (result unit ProtocolError) :=
  r ← with_queues (pkt_ack_queues pkt);
  match r with
  | ok _ => mret r
  | err _ => _ ← close; mret r
  end.

(** No acknowledgement makes it panic. *)
Lemma pkt_ack_queues_total a q s : exists x q' s', pkt_ack_queues a q s = Some (x, q', s').
Proof.
  unfold pkt_ack_queues. destruct (inflight_order q) as [|id o]; [by eexists _, _, _ | ].
  destruct (negb _); [by eexists _, _, _ | ].
  destruct (inflight q !! _) as [[c t]|]; [ | by eexists _, _, _].
  destruct (Ack_is_match a t); unfold mbind, M_bind, run_io, upd_io; [ | by eexists _, _, _].
  destruct (queue_send c a (io s)) as [b w]. rewrite wake_eq. by eexists _, _, _.
Qed.

(** ** Publishing *)

(** [MqttSink::publish] *)
Definition publish (topic : ByteString) (payload : Bytes) : Publish :=
  {| topic := topic; payload := payload; dup := false; retain := false;
     qos := AtMostOnce; packet_id := None |}.

(** The methods of [PublishBuilder] that change the packet; [packet_id]
    panics on 0. *)
Definition pb_dup (p : Publish) (val : bool) : Publish :=
  {| topic := topic p; payload := payload p; dup := val; retain := retain p;
     qos := qos p; packet_id := packet_id p |}.

Definition pb_retain (p : Publish) : Publish :=
  {| topic := topic p; payload := payload p; dup := dup p; retain := true;
     qos := qos p; packet_id := packet_id p |}.

Definition pb_packet_id (p : Publish) (id : Z) : option Publish :=
  match non_zero id with
  | Some id => Some {| topic := topic p; payload := payload p; dup := dup p; retain := retain p;
                       qos := qos p; packet_id := Some id |}
  | None => None
  end.

Definition set_qos (p : Publish) (q : QoS) : Publish :=
  {| topic := topic p; payload := payload p; dup := dup p; retain := retain p;
     qos := q; packet_id := packet_id p |}.

Definition set_packet_id (p : Publish) (id : option NonZeroU16) : Publish :=
  {| topic := topic p; payload := payload p; dup := dup p; retain := retain p;
     qos := qos p; packet_id := id |}.

Definition send_at_most_once (packet : Publish) : M (result unit SendPacketError) :=
  op ← sink_open;
  if (op : bool) then
    r ← write_packet (codec_encode (PPublish packet));
    mret (match r with ok _ => ok tt | err e => err (SEncode e) end)
  else mret (err SDisconnected).

(** [send_at_least_once_inner], up to the future it returns *)
Definition send_at_least_once_inner (packet : Publish) : M (result tx SendPacketError) :=
  r ← with_queues (fun q =>
    c ← run_io queue_channel;
    let idx := match packet_id packet with Some id => id | None => 0 end in
    p ← (if idx =? 0
         then idx ← next_id; mret (idx, set_packet_id packet (non_zero idx))
         else mret (idx, packet));
    r ← register c p.1 AT_Publish q;
    mret ((r.1, p.2), r.2));
  match r with
  | (err idx, _) => mret (err (SPacketIdInUse idx))
  | (ok rx, packet) =>
      e ← write_packet (codec_encode (PPublish packet));
      match e with
      | ok _ => mret (ok rx)
      | err e => _ ← upd_io (queue_drop_rx rx); mret (err (SEncode e))
      end
  end.

Definition send_at_least_once (packet : Publish) : M (SendFuture Publish unit SendPacketError) :=
  begin_send SDisconnected send_at_least_once_inner (set_qos packet AtLeastOnce).

Definition poll_publish :=
  poll_send SDisconnected send_at_least_once_inner (fun _ => mret (ok tt)).

(** ** Subscribing *)

Record SubscribeBuilder : Type := mkSubscribeBuilder {
  sb_id : Z;
  sb_topic_filters : list (ByteString * QoS);
}.

Record UnsubscribeBuilder : Type := mkUnsubscribeBuilder {
  ub_id : Z;
  ub_topic_filters : list ByteString;
}.

(** [SubscribeBuilder::packet_id], [UnsubscribeBuilder::packet_id] panic on 0 *)
Definition sb_packet_id (b : SubscribeBuilder) (id : Z) : option SubscribeBuilder :=
  if id =? 0 then None else Some (mkSubscribeBuilder id (sb_topic_filters b)).
Definition sb_topic_filter (b : SubscribeBuilder) (filter : ByteString) (qos : QoS) : SubscribeBuilder :=
  mkSubscribeBuilder (sb_id b) (sb_topic_filters b ++ [(filter, qos)]).
Definition ub_packet_id (b : UnsubscribeBuilder) (id : Z) : option UnsubscribeBuilder :=
  if id =? 0 then None else Some (mkUnsubscribeBuilder id (ub_topic_filters b)).
Definition ub_topic_filter (b : UnsubscribeBuilder) (filter : ByteString) : UnsubscribeBuilder :=
  mkUnsubscribeBuilder (ub_id b) (ub_topic_filters b ++ [filter]).

(** The part of [send] between the wait for credit and the wait for the
    acknowledgement. *)
Definition send_request (id : Z) (tp : AckType) (packet : NonZeroU16 -> Packet)
  : M (result tx SendPacketError) :=
  idx ← (if id =? 0 then next_id else mret id);
  r ← with_queues (fun q => c ← run_io queue_channel; register c idx tp q);
  match r with
  | err idx => mret (err (SPacketIdInUse idx))
  | ok rx =>
      match non_zero idx with
      | None => panic
      | Some packet_id =>
          e ← write_packet (codec_encode (packet packet_id));
          match e with
          | ok _ => mret (ok rx)
          | err e => _ ← upd_io (queue_drop_rx rx); mret (err (SEncode e))
          end
      end
  end.

(** [SubscribeBuilder::send], [UnsubscribeBuilder::send] *)
Definition subscribe_start (b : SubscribeBuilder) : M (result tx SendPacketError) :=
  send_request (sb_id b) AT_Subscribe (fun id => PSubscribe id (sb_topic_filters b)).
Definition poll_subscribe :=
  poll_send SDisconnected subscribe_start (fun a => l ← Ack_subscribe a; mret (ok l)).

Definition unsubscribe_start (b : UnsubscribeBuilder) : M (result tx SendPacketError) :=
  send_request (ub_id b) AT_Unsubscribe (fun id => PUnsubscribe id (ub_topic_filters b)).
Definition poll_unsubscribe :=
  poll_send SDisconnected unsubscribe_start (fun _ => mret (ok tt)).

(** ** Steps of a sink

    Everything that happens to a connection goes through one of these:
    publishing, polling any of the futures handed out, an acknowledgement
    from the peer, closing, and whatever else ntex does to the connection and
    the channels (the peer closes, a future is dropped). *)
Inductive step (s : Shared) : Shared -> Prop :=
| step_publish p f s' : send_at_least_once p s = Some (f, s') -> step s s'
| step_publish_qos0 p r s' : send_at_most_once p s = Some (r, s') -> step s s'
| step_poll_publish f r s' : poll_publish f s = Some (r, s') -> step s s'
| step_poll_subscribe f r s' : poll_subscribe f s = Some (r, s') -> step s s'
| step_poll_unsubscribe f r s' : poll_unsubscribe f s = Some (r, s') -> step s s'
| step_ack a r s' : pkt_ack a s = Some (r, s') -> step s s'
| step_ping r s' : ping s = Some (r, s') -> step s s'
| step_close r s' : close s = Some (r, s') -> step s s'
| step_force_close r s' : force_close s = Some (r, s') -> step s s'
| step_ready f s' : ready s = Some (f, s') -> step s s'
| step_credit n s' : credit s = Some (n, s') -> step s s'
| step_io w : (is_open w = true -> is_open (io s) = true) -> step s (set_io w s).

Inductive reachable (w : world) (c : Codec) (cap : Z) : Shared -> Prop :=
| reach_new : reachable w c cap (MqttShared_new w c cap)
| reach_step s s' : reachable w c cap s -> step s s' -> reachable w c cap s'.

(** While the connection is open the two queues hold the same ids. *)
Definition consistent (m : gmap Z (tx * AckType)) (order : list Z) : Prop :=
  NoDup order /\ forall id, id ∈ order <-> is_Some (m !! id).

Section Laws.
Context {L : RuntimeLaws Ack}.

Lemma consistent_ordered m o : consistent m o -> ordered m o.
Proof. intros [Hd Hi]. split; [done | ]. intros id. apply Hi. Qed.

Lemma consistent_insert m o id x :
  id <> 0 -> consistent m o -> m !! id = None -> consistent (<[id := x]> m) (o ++ [id]).
Proof.
  intros _ Hc Hn. destruct (ordered_insert m o id x) as (_ & [Hd Hi] & _); [ | done | ].
  { by apply consistent_ordered. }
  split; [done | ]. intros j. split; [apply Hi | ]. intros Hj. apply elem_of_app.
  destruct (decide (id = j)) as [->|Hij]; [right; by left | left].
  rewrite lookup_insert_ne in Hj by done. by apply Hc.
Qed.

Lemma consistent_tail m o id :
  consistent m (id :: o) -> consistent (delete id m) o.
Proof.
  intros Hc. destruct (ordered_tail m id o) as (Hn & _ & [Hd Hi]).
  { by apply consistent_ordered. }
  split; [done | ]. intros j. split; [apply Hi | ].
  intros [x [Hij Hj]%lookup_delete_Some]. assert (Hin : j ∈ id :: o) by (apply Hc; eauto).
  apply elem_of_cons in Hin as [->|]; done.
Qed.

Abbreviation inv := (inv (Codec := Codec) consistent).
Abbreviation quietly := (quietly (Codec := Codec) consistent).
Abbreviation moves := (moves (Codec := Codec) consistent).

Lemma quietly_open : quietly sink_open.
Proof. apply quietly_gets. Qed.

Lemma quietly_close_io (f : world -> world) :
  (forall w, is_open (f w) = false) ->
  quietly (op ← sink_open; _ ← (if (op : bool) then upd_io f else mret tt); clear_queues).
Proof.
  intros Hf s a s' Hi (op & s1 & H1 & H2)%bind_Some. injection H1 as <- <-.
  apply bind_Some in H2 as (u & s2 & H2 & H3). destruct (is_open (io s)) eqn:Ho.
  - apply upd_io_Some in H2 as [_ ->].
    assert (Hq : quiet consistent s (set_io (f (io s)) s)).
    { apply quiet_io; [done | ]. by rewrite Hf. }
    eapply quiet_trans; [exact Hq | ]. eapply clear_closed_quiet; [apply Hq | apply Hf | done].
  - apply ret_Some in H2 as [_ <-]. by eapply clear_closed_quiet.
Qed.

Lemma moves_registered (p : Publish) (k : result tx Z * Publish -> M (result tx SendPacketError)) :
  (forall r, quietly (k r)) ->
  moves (r ← with_queues (fun q =>
           c ← run_io queue_channel;
           let idx := match packet_id p with Some id => id | None => 0 end in
           p ← (if idx =? 0
                then idx ← next_id; mret (idx, set_packet_id p (non_zero idx))
                else mret (idx, p));
           r ← register c p.1 AT_Publish q;
           mret ((r.1, p.2), r.2));
         k r).
Proof.
  intros Hk. apply moves_bind_l; [ | exact Hk].
  intros s a s' Hi (_ & q & s1 & H & ->)%with_queues_Some.
  apply bind_Some in H as (c & s2 & [-> ->]%run_io_Some & H).
  pose proof (quiet_io _ s _ Hi (queue_channel_open _)) as Hq.
  apply bind_Some in H as (p' & s3 & Hp & H).
  apply bind_Some in H as ([r q'] & s4 & Hr & [[= <- <-] <-]%ret_Some).
  set (s2 := set_io (queue_channel (io s)).2 s) in *.
  assert (p'.1 <> 0 /\ exists i, s3 = set_queues true (queues s) (set_idx i s2) /\
                    quiet consistent s2 (set_idx i s2)) as (Hnz & i & -> & Hq').
  { destruct (_ =? 0) eqn:Ez.
    - apply bind_Some in Hp as (idx & s5 & Hn & [<- <-]%ret_Some).
      pose proof (proj1 (proj2 Hi)) as Hx.
      rewrite next_id_eq in Hn by apply Hi. injection Hn as <- <-. split; [cbn; lia | ].
      eexists. split; [done | ]. eapply quietly_next_id; [apply Hq | ].
      rewrite next_id_eq by apply Hi. done.
    - apply ret_Some in Hp as [<- <-]. split; [by apply Z.eqb_neq | ]. exists (inflight_idx s).
      assert (Hs : set_idx (inflight_idx s) s2 = s2) by done.
      split; [done | ]. rewrite Hs. apply quiet_refl, Hq. }
  eapply quiet_then; [exact (quiet_trans _ _ _ _ Hq Hq') | ].
  eapply (register_moved _ consistent_ordered consistent_insert);
    [apply Hq' | exact Hnz | exact Hr].
Qed.

Lemma moves_publish p : moves (send_at_least_once_inner p).
Proof.
  apply moves_registered. intros [[rx|idx] p']; [apply quietly_written | apply quietly_ret].
Qed.

Lemma moves_request id tp pkt : moves (send_request id tp pkt).
Proof.
  unfold send_request. apply moves_bind_id. intros idx Hnz. apply moves_bind_l;
    [by apply (moves_register _ consistent_ordered consistent_insert) | intros [rx|i]].
  - destruct (non_zero idx); [apply quietly_written | apply quietly_panic].
  - apply quietly_ret.
Qed.

Lemma quietly_sub_finish a :
  quietly (l ← Ack_subscribe a; mret (ok l : result _ SendPacketError)).
Proof.
  apply quietly_bind; [ | intros; apply quietly_ret].
  destruct a; [apply quietly_panic | apply quietly_ret | apply quietly_panic].
Qed.

(** The front of the queue is taken off. *)
Lemma popped_moved s id o ws w b m :
  inv s -> inflight_order (queues s) = id :: o -> b = false ->
  (m = delete id (inflight (queues s)) \/ is_open w = false) ->
  (is_open w = true -> is_open (io s) = true) ->
  moved consistent s (set_queues b (mkQueues m o ws) (set_io w s)).
Proof.
  intros (Hb & Hx & Hq) Ho -> Hm Hw.
  destruct (is_open w) eqn:E.
  - destruct Hm as [->|]; [ | done]. specialize (Hw eq_refl). specialize (Hq Hw).
    rewrite Ho in Hq. split.
    + split; [done | ]. split; [done | ]. intros _. cbn. by apply consistent_tail.
    + unfold abs, outstanding. cbn [io queues inflight inflight_order set_queues set_io].
      rewrite E, Hw, Ho. rewrite entries_cons. unfold entry_of.
      destruct (ordered_tail _ _ _ (consistent_ordered _ _ Hq)) as (Hn & _ & _).
      rewrite entries_delete by done.
      destruct (proj1 (proj2 Hq id)) as [[c t] ->]; [by left | ]. apply sp_pop.
  - split.
    + split; [done | ]. split; [done | ]. cbn. congruence.
    + unfold abs. cbn [io set_queues set_io]. rewrite E. apply sp_close.
Qed.

Definition close_world (q : Queues) (w : world) : world :=
  drop_waiters q (drop_inflight q (if is_open w then io_close w else w)).

Lemma close_eq s :
  borrowed s = false ->
  close s = Some (tt, set_queues false (mkQueues ∅ (inflight_order (queues s)) [])
                        (set_io (close_world (queues s) (io s)) s)).
Proof.
  intros Hb. unfold close, mbind, M_bind, sink_open, gets, upd_io, close_world.
  destruct (is_open (io s)); cbn -[clear_queues]; by rewrite clear_queues_eq.
Qed.

Lemma pkt_ack_total a s :
  borrowed s = false -> exists x s', pkt_ack a s = Some (x, s').
Proof.
  intros Hb. unfold pkt_ack, mbind, M_bind, with_queues. rewrite Hb.
  destruct (pkt_ack_queues_total a (queues s) (set_queues true (queues s) s)) as ([u|e] & q & s' & ->).
  - by eexists _, _.
  - rewrite close_eq by done. by eexists _, _.
Qed.

Lemma close_world_closed q w : is_open (close_world q w) = false.
Proof.
  apply not_true_is_false. unfold close_world. intros H%drop_waiters_open%drop_inflight_open.
  destruct (is_open w) eqn:E; [by rewrite close_closes in H | congruence].
Qed.

(** An acknowledgement in full: what [pkt_ack] answers, and the state it
    leaves. *)
Definition ack_error (a : Ack) (front : option entry) : option ProtocolError :=
  match front with
  | None => Some PPacketIdMismatch
  | Some e =>
      if negb (en_id e =? Ack_packet_id a) then Some PPacketIdMismatch
      else if Ack_is_match a (en_type e) then None
      else Some (PUnexpected (Ack_packet_type a) (AckType_name (en_type e)))
  end.

Lemma pkt_ack_queues_eq a s :
  consistent (inflight (queues s)) (inflight_order (queues s)) ->
  pkt_ack_queues a (queues s) s =
    let q := queues s in
    let popped w r m ws := Some (r, mkQueues m (tail (inflight_order q)) ws, set_io w s) in
    match outstanding q with
    | [] => Some (err PPacketIdMismatch, q, s)
    | e :: rest =>
        match ack_error a (Some e) with
        | None =>
            let w := (queue_send (en_tx e) a (io s)).2 in
            popped (woken (waiters q) w).2 (ok tt) (delete (en_id e) (inflight q))
              (woken (waiters q) w).1
        | Some er =>
            if negb (en_id e =? Ack_packet_id a)
            then popped (io s) (err er) (inflight q) (waiters q)
            else popped (queue_drop (en_tx e) (io s)) (err er) (delete (en_id e) (inflight q))
                   (waiters q)
        end
    end.
Proof.
  intros Hc. cbv zeta. unfold pkt_ack_queues, outstanding. destruct (queues s) as [m o ws] eqn:Eq.
  cbn [inflight inflight_order waiters] in *. destruct o as [|id o]; [done | ].
  rewrite entries_cons. unfold entry_of.
  destruct (proj1 (proj2 Hc id)) as [[c t] Hm]; [by left | ]. rewrite Hm.
  cbn [ack_error en_id en_tx en_type tail]. destruct (Z.eqb_spec id (Ack_packet_id a)) as [<-|]; cbn [negb].
  - rewrite Hm. destruct (Ack_is_match a t).
    + unfold mbind, M_bind, run_io. destruct (queue_send c a (io s)) as [b w]. cbn [io set_io snd].
      by rewrite wake_eq.
    + done.
  - by destruct s.
Qed.

Lemma pkt_ack_queues_io a q s r q' s' :
  pkt_ack_queues a q s = Some (r, q', s') ->
  exists w, s' = set_io w s /\ (is_open w = true -> is_open (io s) = true).
Proof.
  assert (Hs : s = set_io (io s) s) by (by destruct s).
  unfold pkt_ack_queues. destruct (inflight_order q) as [|id o].
  { intros [_ <-]%ret_Some. by exists (io s). }
  destruct (negb _). { intros [_ <-]%ret_Some. by exists (io s). }
  destruct (inflight q !! _) as [[c t]|].
  2: { intros [_ <-]%ret_Some. by exists (io s). }
  destruct (Ack_is_match a t).
  - intros (b & s1 & [_ ->]%run_io_Some & (ws & s2 & Hw & [_ <-]%ret_Some)%bind_Some)%bind_Some.
    rewrite wake_eq in Hw. injection Hw as _ <-. eexists. split; [done | ].
    intros Ho%woken_open%queue_send_open. done.
  - intros (b & s1 & [_ ->]%upd_io_Some & [_ <-]%ret_Some)%bind_Some. eexists. split; [done | ].
    apply queue_drop_open.
Qed.

(** The answer of [pkt_ack] decides: after an error the connection is closed
    and nothing is in flight, after a match the front of the queue has been
    served. *)
Lemma pkt_ack_cases a s :
  inv s -> is_open (io s) = true ->
  let q := queues s in
  match ack_error a (head (outstanding q)) with
  | Some er =>
      exists s', pkt_ack a s = Some (err er, s') /\ borrowed s' = false /\
                 inflight_idx s' = inflight_idx s /\ is_open (io s') = false /\
                 inflight (queues s') = ∅ /\ waiters (queues s') = []
  | None =>
      exists e rest, outstanding q = e :: rest /\
        let w := (queue_send (en_tx e) a (io s)).2 in
        pkt_ack a s =
          Some (ok tt, set_queues false
                         (mkQueues (delete (en_id e) (inflight q)) (tail (inflight_order q))
                            (woken (waiters q) w).1)
                         (set_io (woken (waiters q) w).2 s))
  end.
Proof.
  intros (Hb & Hx & Hq) Ho. specialize (Hq Ho). cbv zeta.
  assert (E : with_queues (pkt_ack_queues a) s =
              match pkt_ack_queues a (queues s) (set_queues true (queues s) s) with
              | Some (r, q, s') => Some (r, set_queues false q s')
              | None => None
              end).
  { unfold with_queues. by rewrite Hb. }
  pose proof (pkt_ack_queues_eq a (set_queues true (queues s) s) Hq) as E'. cbv zeta in E'.
  cbn [queues set_queues io] in E'. rewrite E' in E. unfold pkt_ack, mbind, M_bind. rewrite E.
  destruct (outstanding (queues s)) as [|e rest]; cbn [head].
  2: destruct (ack_error a (Some e)) as [er|]; [ | by exists e, rest].
  2: destruct (negb _).
  all: rewrite close_eq by done; (eexists; split; [reflexivity | ]); repeat split;
    apply close_world_closed.
Qed.

Lemma moves_pkt_ack a : moves (pkt_ack a).
Proof.
  intros s r s' Hi H. destruct (is_open (io s)) eqn:Ho.
  - pose proof (pkt_ack_cases a s Hi Ho) as Hc. cbv zeta in Hc.
    destruct (ack_error a _) as [er|].
    + destruct Hc as (s1 & Hs & Hb & Hx & Hcl & _). rewrite Hs in H. injection H as <- <-.
      apply quiet_moved. by apply closed_quiet.
    + destruct Hc as (e & rest & He & Hs). rewrite Hs in H. injection H as <- <-.
      destruct (served_front _ _ _ _ (consistent_ordered _ _ (proj2 (proj2 Hi) Ho)) He) as [Eo _].
      apply (popped_moved s (en_id e)); [done | done | done | by left | ].
      intros Hw%woken_open%queue_send_open. done.
  - apply bind_Some in H as (r1 & s1 & (_ & q & s2 & H1 & ->)%with_queues_Some & H2).
    apply pkt_ack_queues_io in H1 as (w & -> & Hw). cbn in Hw.
    assert (Hq : quiet consistent s (set_queues false q (set_io w (set_queues true (queues s) s)))).
    { apply closed_quiet; try done. cbn. apply not_true_is_false. intros ?%Hw. congruence. }
    apply quiet_moved. destruct r1.
    + by apply ret_Some in H2 as [_ <-].
    + apply bind_Some in H2 as (u & s3 & H3 & [_ <-]%ret_Some).
      eapply quiet_trans; [exact Hq | ]. apply (quietly_close_io io_close close_closes _ u); [apply Hq | done].
Qed.

Lemma step_moved s s' : inv s -> step s s' -> moved consistent s s'.
Proof.
  assert (Hp : forall f, moves (poll_publish f)).
  { intros f. apply moves_poll; [apply moves_publish | intros; apply quietly_ret]. }
  assert (Hsub : forall f, moves (poll_subscribe f)).
  { intros f. apply moves_poll; [intros; apply moves_request | apply quietly_sub_finish]. }
  assert (Hun : forall f, moves (poll_unsubscribe f)).
  { intros f. apply moves_poll; [intros; apply moves_request | intros; apply quietly_ret]. }
  assert (Hq0 : forall p, quietly (send_at_most_once p)).
  { intros p. apply quietly_bind; [apply quietly_open | intros []]; [ | apply quietly_ret].
    apply quietly_bind; [apply quietly_write | intros; apply quietly_ret]. }
  assert (Hping : quietly ping).
  { apply quietly_bind; [apply quietly_write | intros; apply quietly_ret]. }
  intros Hi Hs. inversion Hs; subst;
    [eapply (moves_begin _ _ _ moves_publish) | | eapply Hp | eapply Hsub | eapply Hun
    | eapply moves_pkt_ack | | | | | | ]; eauto; apply quiet_moved.
  - by eapply Hq0.
  - by eapply Hping.
  - by eapply (quietly_close_io io_close close_closes).
  - by eapply (quietly_close_io io_force_close force_close_closes).
  - by eapply quietly_ready.
  - by eapply quietly_credit_value.
  - by apply quiet_io.
Qed.

Lemma reachable_inv w c cap s : reachable w c cap s -> inv s.
Proof.
  induction 1 as [|s s' _ IH Hs]; [ | by eapply step_moved].
  split; [done | ]. split; [cbn; lia | ]. intros _. split; [apply NoDup_nil_2 | ].
  intros id. split; [by intros ?%not_elem_of_nil | intros [x Hx]; done].
Qed.

(** ** Properties *)

(** C4: whatever is done with a sink, by whoever holds it and in whatever
    order, every step refines the queue of outstanding packets: a packet
    enters at the back with an id that no outstanding packet has, leaves
    from the front, or the connection is closed.  While the connection is
    open the map and the order hold the same ids, each once, so the branch
    for an inconsistent in-flight state is never taken, and the queues are
    never left borrowed. *)
Theorem v3_sink_refines w c cap s s' :
  reachable w c cap s -> step s s' ->
  spec_step (abs s) (abs s') /\ borrowed s' = false /\
  (is_open (io s') = true ->
   NoDup (inflight_order (queues s')) /\
   forall id, id ∈ inflight_order (queues s') <-> is_Some (inflight (queues s') !! id)).
Proof.
  intros Hr Hs. destruct (step_moved s s' (reachable_inv _ _ _ _ Hr) Hs) as [(Hb & _ & Hq) Hsp].
  split; [done | ]. by split.
Qed.

(** C17: an acknowledgement is accepted exactly when it has the id and the
    kind of the packet at the front of the queue.  Then that packet leaves,
    its sender receives the acknowledgement and one waiting sender is woken;
    otherwise the connection is closed, nothing is in flight and nobody waits
    any more, and the error tells which of the two did not match. *)
Theorem v3_pkt_ack_fifo w c cap s a :
  reachable w c cap s -> is_open (io s) = true ->
  match ack_error a (head (outstanding (queues s))) with
  | None =>
      exists e rest s', outstanding (queues s) = e :: rest /\ pkt_ack a s = Some (ok tt, s') /\
        outstanding (queues s') = rest /\
        ((queue_send (en_tx e) a (io s)).1 = true -> queue_recv (en_tx e) (io s') = Some (Some a)) /\
        waiters (queues s') = (woken (waiters (queues s)) (queue_send (en_tx e) a (io s)).2).1
  | Some er =>
      exists s', pkt_ack a s = Some (err er, s') /\ is_open (io s') = false /\
        inflight (queues s') = ∅ /\ waiters (queues s') = []
  end.
Proof.
  intros Hr Ho. pose proof (reachable_inv _ _ _ _ Hr) as Hi.
  pose proof (pkt_ack_cases a s Hi Ho) as Hc. cbv zeta in Hc. destruct (ack_error _ _) as [er|].
  - destruct Hc as (s' & Hs & _ & _ & Hrest). eauto.
  - destruct Hc as (e & rest & He & Hs). exists e, rest. eexists.
    split; [done | ]. split; [exact Hs | ]. split; [ | split; [ | done]].
    + by apply (served_front _ _ _ _ (consistent_ordered _ _ (proj2 (proj2 Hi) Ho)) He).
    + intros Hsend. cbn [io set_queues set_io]. rewrite woken_queue. by apply queue_send_recv.
Qed.

Lemma registered_eq (p : Publish) s :
  packet_id p = None -> borrowed s = false -> 0 <= inflight_idx s < 2 ^ 16 - 1 ->
  let id := inflight_idx s + 1 in
  let c := (queue_channel (io s)).1 in
  let q := queues s in
  inflight q !! id = None ->
  send_at_least_once_inner p s =
    (e ← write_packet (codec_encode (PPublish (set_packet_id p (Some id))));
     match e with
     | ok _ => mret (ok c)
     | err e => _ ← upd_io (queue_drop_rx c); mret (err (SEncode e))
     end)
    (set_queues false (mkQueues (<[id := (c, AT_Publish)]> (inflight q)) (inflight_order q ++ [id])
                         (waiters q))
       (set_idx (id mod (2 ^ 16 - 1)) (set_io (queue_channel (io s)).2 s))).
Proof.
  intros Hp Hb Hx id c q Hn. unfold send_at_least_once_inner, with_queues.
  unfold mbind at 1, M_bind at 1. rewrite Hb, Hp. unfold mbind at 1, M_bind at 1, run_io.
  cbn [io set_queues]. unfold c. destruct (queue_channel (io s)) as [ch w1]. cbn [fst snd].
  change (0 =? 0) with true. cbv iota. unfold mbind at 1, M_bind at 1.
  unfold mbind at 1, M_bind at 1. rewrite next_id_eq by (cbn; lia). fold q id.
  cbn [inflight_idx set_io set_queues]. fold id. unfold mret at 1, M_ret at 1. cbn [fst snd].
  unfold mbind at 1, M_bind at 1, register. fold q. rewrite Hn.
  assert (Hz : non_zero id = Some id).
  { unfold non_zero. destruct (Z.eqb_spec id 0); [lia | done]. }
  rewrite Hz. done.
Qed.

(** What an accepted publish does to the queue and to what is written *)
Lemma inner_sent p s c s' :
  inv s -> is_open (io s) = true -> packet_id p = None ->
  send_at_least_once_inner p s = Some (ok c, s') ->
  let id := inflight_idx s + 1 in
  let pkt := PPublish (set_packet_id p (Some id)) in
  packet_valid pkt = true -> len (content pkt) <= MAX_VARINT ->
  outstanding (queues s') = outstanding (queues s) ++ [mkEntry id c AT_Publish] /\
  wbuf (io s') = wbuf (io s) ++ frame pkt.
Proof.
  intros (Hb & Hx & Hq) Ho Hp H id pkt Hv Hn. destruct (inflight (queues s) !! id) as [x|] eqn:Hi.
  { exfalso. apply bind_Some in H as ([r p'] & s1 & H1 & H2).
    apply with_queues_Some in H1 as (_ & q & s2 & H1 & _). rewrite Hp in H1. cbn [Z.eqb] in H1.
    apply bind_Some in H1 as (ch & s3 & [_ ->]%run_io_Some & H1).
    apply bind_Some in H1 as ([i p2] & s4 & H3 & H1).
    apply bind_Some in H3 as (i' & s5 & H3 & [[= <- <-] <-]%ret_Some).
    rewrite next_id_eq in H3 by (cbn; lia). injection H3 as <- <-. cbn [fst snd] in H1.
    apply bind_Some in H1 as (y & s6 & H3 & [[= <- <- <-] _]%ret_Some).
    unfold register in H3. cbn [inflight_idx set_io set_queues] in H3. fold id in H3. rewrite Hi in H3.
    apply bind_Some in H3 as (u & s7 & _ & [<- _]%ret_Some). cbn in H2. by apply ret_Some in H2 as [? _]. }
  rewrite registered_eq in H by done. cbv zeta in H. fold id in H. fold pkt in H.
  pose proof (codec_encode_writes pkt Hv Hn) as Hw.
  unfold mbind, M_bind, write_packet in H. cbn [io set_queues set_idx set_io] in H.
  set (w1 := (queue_channel (io s)).2) in *.
  assert (Ho1 : is_open w1 = true) by (unfold w1; by rewrite queue_channel_io).
  pose proof (encode_result (codec_encode pkt) w1 Ho1) as He.
  pose proof (encode_wbuf (codec_encode pkt) w1 Ho1) as Hbuf.
  rewrite Hw in He, Hbuf. destruct (io_encode (codec_encode pkt) w1) as [r w2]. cbn [fst snd] in He, Hbuf. subst r.
  injection H as <- <-. cbn [queues io set_queues set_io set_idx]. split.
  - unfold outstanding. cbn [inflight inflight_order].
    by apply (ordered_insert _ _ id (_, AT_Publish) (consistent_ordered _ _ (Hq Ho))).
  - rewrite Hbuf. unfold w1. by rewrite queue_channel_wbuf.
Qed.

(** It is accepted when its id is free and it can be encoded. *)
Lemma inner_accepts (p : Publish) s :
  inv s -> is_open (io s) = true -> packet_id p = None ->
  let id := inflight_idx s + 1 in
  let pkt := PPublish (set_packet_id p (Some id)) in
  inflight (queues s) !! id = None -> packet_valid pkt = true -> len (content pkt) <= MAX_VARINT ->
  exists s', send_at_least_once_inner p s = Some (ok (queue_channel (io s)).1, s') /\
    inflight (queues s') = <[id := ((queue_channel (io s)).1, AT_Publish)]> (inflight (queues s)) /\
    cap s' = cap s /\ borrowed s' = false /\ inflight_idx s' = id mod (2 ^ 16 - 1).
Proof.
  intros (Hb & Hx & Hq) Ho Hp id pkt Hn Hv Hsize. pose proof (codec_encode_writes pkt Hv Hsize) as Hw.
  rewrite registered_eq by done. cbv zeta. unfold mbind, M_bind, write_packet. cbn [io set_queues set_idx set_io].
  set (w1 := (queue_channel (io s)).2).
  assert (Ho1 : is_open w1 = true) by (unfold w1; by rewrite queue_channel_io).
  pose proof (encode_result (codec_encode pkt) w1 Ho1) as He. fold id. fold pkt.
  rewrite Hw in He. destruct (io_encode (codec_encode pkt) w1) as [r w2]. cbn in He. subst r. by eexists.
Qed.

(** a QoS 1 publish on an open connection with credit takes the next
    packet id, joins the queue at the back, and its bytes (the frame of the
    packet with that id) are written; the future waits for the
    acknowledgement on the new channel. *)
Theorem v3_publish_sent w c cap0 s p :
  reachable w c cap0 s -> is_open (io s) = true ->
  Z.of_nat (size (inflight (queues s))) < cap s ->
  packet_id p = None ->
  let id := inflight_idx s + 1 in
  let pkt := PPublish (set_packet_id (set_qos p AtLeastOnce) (Some id)) in
  inflight (queues s) !! id = None ->
  packet_valid pkt = true -> get_encoded_size pkt <= MAX_VARINT ->
  exists s', send_at_least_once p s = Some (SF_Ack (queue_channel (io s)).1, s') /\
    outstanding (queues s') =
      outstanding (queues s) ++ [mkEntry id (queue_channel (io s)).1 AT_Publish] /\
    wbuf (io s') = wbuf (io s) ++ frame pkt /\
    inflight_idx s' = id mod (2 ^ 16 - 1).
Proof.
  intros Hr Ho Hcap Hp id pkt Hn Hv Hsize. pose proof (reachable_inv _ _ _ _ Hr) as Hi.
  rewrite get_encoded_size_content in Hsize by done.
  destruct (inner_accepts (set_qos p AtLeastOnce) s Hi Ho Hp Hn Hv Hsize) as (s' & Hs & _ & _ & _ & Hx).
  destruct (inner_sent (set_qos p AtLeastOnce) s _ s' Hi Ho Hp Hs Hv Hsize) as [Hq Hbuf].
  exists s'. split; [ | done]. destruct Hi as [Hb _].
  unfold send_at_least_once, begin_send, mbind, M_bind, gets. rewrite Ho.
  unfold has_credit. rewrite Hb, (proj2 (Z.leb_le _ _)) by lia.
  rewrite (proj2 (Z.ltb_lt 0 _)) by lia. cbn [negb]. unfold start_send, mbind, M_bind. by rewrite Hs.
Qed.

(** C27: closing a sink of MQTT 3.1.1 ends the sends that are under way: a
    publish, subscribe or unsubscribe that waits for its acknowledgement or for
    credit fails with [Disconnected] when it is polled, and so does every later
    publish.  A send that had been woken before is the exception, shown for a
    publish: its future does not look at the connection again and goes on with
    registering and writing its packet, on the closed connection. *)
Theorem v3_close_cancels w c cap s :
  reachable w c cap s ->
  exists s', close s = Some (tt, s') /\ is_open (io s') = false /\
    inflight (queues s') = ∅ /\ waiters (queues s') = [] /\
    (forall id ch t, inflight (queues s) !! id = Some (ch, t) -> queue_recv ch (io s) = None ->
       poll_publish (SF_Ack ch) s' = Some (Some (err SDisconnected), SF_Done (err SDisconnected), s') /\
       poll_subscribe (SF_Ack ch) s' = Some (Some (err SDisconnected), SF_Done (err SDisconnected), s') /\
       poll_unsubscribe (SF_Ack ch) s' = Some (Some (err SDisconnected), SF_Done (err SDisconnected), s')) /\
    (forall ch, ch ∈ waiters (queues s) -> waiter_recv ch (io s) = None ->
       (forall p, poll_publish (SF_Wait ch p) s' = Some (Some (err SDisconnected), SF_Done (err SDisconnected), s')) /\
       (forall b, poll_subscribe (SF_Wait ch b) s' = Some (Some (err SDisconnected), SF_Done (err SDisconnected), s')) /\
       (forall b, poll_unsubscribe (SF_Wait ch b) s' = Some (Some (err SDisconnected), SF_Done (err SDisconnected), s'))) /\
    (forall p, send_at_least_once p s' = Some (SF_Done (err SDisconnected), s')) /\
    (forall ch p, waiter_recv ch (io s) = Some (Some tt) ->
       poll_publish (SF_Wait ch p) s' =
         (r ← send_at_least_once_inner p;
          poll_publish (match r with ok rx => SF_Ack rx | err e => SF_Done (err e) end)) s').
Proof.
  intros Hr. pose proof (reachable_inv _ _ _ _ Hr) as (Hb & _).
  eexists. split; [by apply close_eq | ]. split; [apply close_world_closed | ].
  split; [done | ]. split; [done | ]. split; [ | split; [ | split]].
  - intros id ch t Hid Hn.
    assert (Hc : queue_recv ch (close_world (queues s) (io s)) = Some None).
    { unfold close_world. rewrite drop_waiters_queue. eapply drop_inflight_cancels; [done | ].
      destruct (is_open (io s)); [by rewrite close_queue | done]. }
    unfold poll_publish, poll_subscribe, poll_unsubscribe. cbn [poll_send poll_ack].
    unfold mbind, M_bind, gets. cbn [io set_queues set_io]. by rewrite Hc.
  - intros ch Hin Hn.
    assert (Hc : waiter_recv ch (close_world (queues s) (io s)) = Some None).
    { unfold close_world. apply drop_waiters_cancels; [done | ]. rewrite drop_inflight_waiter.
      destruct (is_open (io s)); [by rewrite close_waiter | done]. }
    unfold poll_publish, poll_subscribe, poll_unsubscribe. cbn [poll_send]. unfold mbind, M_bind, gets.
    cbn [io set_queues set_io]. by rewrite Hc.
  - intros p. unfold send_at_least_once, begin_send, mbind, M_bind, gets. cbn [io set_queues set_io].
    by rewrite close_world_closed.
  - intros ch p Hw.
    assert (Hc : waiter_recv ch (close_world (queues s) (io s)) = Some (Some tt)).
    { unfold close_world. apply drop_waiters_done. rewrite drop_inflight_waiter.
      destruct (is_open (io s)); [by rewrite close_waiter | done]. }
    unfold poll_publish at 1. cbn [poll_send]. unfold mbind, M_bind, gets. cbn [io set_queues set_io]. rewrite Hc.
    unfold start_send, mbind, M_bind. destruct (send_at_least_once_inner p _) as [[[rx|e] s1]|]; done.
Qed.

(** C40: a publish that waited for credit and was woken does not look at the
    credit again.  When other publishes have used it up in the meantime, the
    woken one is sent all the same: then more packets are in flight than the
    peer accepts, and as long as this is so and the connection is open every
    publish panics, since the credit is computed by a subtraction that
    underflows. *)
Theorem v3_credit_exceeded w c cap0 s ch p :
  reachable w c cap0 s -> is_open (io s) = true ->
  waiter_recv ch (io s) = Some (Some tt) -> cap s <= Z.of_nat (size (inflight (queues s))) ->
  packet_id p = None ->
  let id := inflight_idx s + 1 in
  let pkt := PPublish (set_packet_id p (Some id)) in
  inflight (queues s) !! id = None -> packet_valid pkt = true -> get_encoded_size pkt <= MAX_VARINT ->
  exists r f s', poll_publish (SF_Wait ch p) s = Some (r, f, s') /\
    wbuf (io s') = wbuf (io s) ++ frame pkt /\
    Z.of_nat (size (inflight (queues s'))) = Z.of_nat (size (inflight (queues s))) + 1 /\
    cap s' < Z.of_nat (size (inflight (queues s'))) /\
    forall s'', is_open (io s'') = true ->
      cap s'' < Z.of_nat (size (inflight (queues s''))) -> forall q, send_at_least_once q s'' = None.
Proof.
  intros Hr Ho Hw Hfull Hp id pkt Hn Hv Hsize. pose proof (reachable_inv _ _ _ _ Hr) as Hi.
  rewrite get_encoded_size_content in Hsize by done.
  destruct (inner_accepts p s Hi Ho Hp Hn Hv Hsize) as (s' & Hs & Hin & Hc & _).
  destruct (inner_sent p s _ s' Hi Ho Hp Hs Hv Hsize) as [_ Hbuf].
  assert (Hpoll : exists r f, poll_publish (SF_Wait ch p) s = Some (r, f, s')).
  { assert (Ha : exists r f, poll_publish (SF_Ack (queue_channel (io s)).1) s' = Some (r, f, s')).
    { unfold poll_publish. cbn [poll_send poll_ack]. unfold mbind, M_bind, gets, mret, M_ret.
      destruct (queue_recv _ (io s')) as [[a|]|]; by eexists _, _. }
    destruct Ha as (r & f & Ha). exists r, f. unfold poll_publish, poll_send, start_send, mbind, M_bind, gets.
    by rewrite Hw, Hs. }
  destruct Hpoll as (r & f & Hpoll). exists r, f, s'. split; [exact Hpoll | ]. split; [exact Hbuf | ].
  assert (Hsz : Z.of_nat (size (inflight (queues s'))) = Z.of_nat (size (inflight (queues s))) + 1).
  { rewrite Hin, map_size_insert_None by done. lia. }
  split; [exact Hsz | ]. split; [lia | ]. intros s'' Ho'' Hgt q.
  unfold send_at_least_once, begin_send, mbind, M_bind, gets. rewrite Ho''. unfold has_credit.
  by destruct (borrowed s''); [ | rewrite (proj2 (Z.leb_gt _ _))].
Qed.

(** [ready] panics on an open sink that has no credit left (the inner
    [with_queues] borrows the queues a second time); it answers at once in
    every other case, so nothing ever waits on it. *)
Theorem v3_ready_double_borrow w c cap0 s :
  reachable w c cap0 s ->
  ready s =
    if is_open (io s) then
      if cap s <=? Z.of_nat (size (inflight (queues s))) then None else Some (RF_Ready true, s)
    else Some (RF_Ready false, s).
Proof. intros Hr. apply ready_eq, (reachable_inv _ _ _ _ Hr). Qed.

End Laws.

(** ** The settings of a connection *)

Lemma keeps_close3 : keeps close.
Proof. unfold close, sink_open. keeps. Qed.

Lemma keeps_force_close3 : keeps force_close.
Proof. unfold force_close, sink_open. keeps. Qed.

Lemma keeps_ping3 : keeps ping.
Proof. unfold ping. keeps. Qed.

Hint Resolve keeps_close3 : settings.

Lemma keeps_pkt_ack3 a : keeps (pkt_ack a).
Proof. unfold pkt_ack, pkt_ack_queues. keeps. Qed.

Lemma keeps_qos03 p : keeps (send_at_most_once p).
Proof. unfold send_at_most_once, sink_open. keeps. Qed.

Lemma keeps_publish3 p : keeps (send_at_least_once_inner p).
Proof. unfold send_at_least_once_inner. keeps. Qed.

Lemma keeps_request3 id tp packet : keeps (send_request id tp packet).
Proof. unfold send_request. keeps. Qed.

Hint Resolve keeps_force_close3 keeps_ping3 keeps_pkt_ack3 keeps_qos03 keeps_publish3 keeps_request3 : settings.

Lemma step_settings3 s s' : step s s' -> settings s' = settings s.
Proof.
  assert (H0 : forall A (m : M A) s a s', keeps m -> m s = Some (a, s') -> settings s' = settings s)
    by (intros A m s1 a s2 Hm; apply Hm).
  destruct 1 as [p f s' H|p r s' H|f r s' H|f r s' H|f r s' H|a r s' H|r s' H|r s' H|r s' H|f s' H|n s' H|w H];
    [eapply H0; [ | exact H] .. | done]; auto with settings.
  all: first [apply keeps_poll_send | apply keeps_begin_send]; auto with settings;
    intros; unfold Ack_subscribe, subscribe_start, unsubscribe_start; keeps.
Qed.

End V3Sink.

(** ** Runs *)

#[export] Existing Instance SimRuntime.

Definition sim0 : world (Runtime := SimRuntime Ack) := mkSim true [] [] [].
Definition sink0 (cap : Z) : MqttShared := MqttShared_new sim0 Codec_new cap.
Definition hello : Publish := publish [97] [104; 105].

Abbreviation sim_reachable := (reachable (R := SimRuntime Ack) sim0 Codec_new).

(** The state after a piece of code, and the future it gave. *)
Definition after {A} (m : M (R := SimRuntime Ack) (Codec := Codec) A) (s : MqttShared) : MqttShared :=
  match m s with Some (_, s') => s' | None => s end.
Definition result_of {A} (d : A) (m : M (R := SimRuntime Ack) (Codec := Codec) A) (s : MqttShared) : A :=
  match m s with Some (a, _) => a | None => d end.

Lemma after_Some {A} (d : A) (m : M (R := SimRuntime Ack) (Codec := Codec) A) s :
  is_Some (m s) -> m s = Some (result_of d m s, after m s).
Proof. unfold after, result_of. by intros [[a s'] ->]. Qed.

(** Two publishes, of which the second has to wait; the acknowledgement of
    the first; a third one; then the second is polled. *)
Definition run1 := after (send_at_least_once hello) (sink0 1).
Definition run2 := after (send_at_least_once hello) run1.
Definition waiting := result_of (SF_Done (ok tt)) (send_at_least_once hello) run1.
Definition run3 := after (pkt_ack (Ack_Publish 1)) run2.
Definition run4 := after (send_at_least_once hello) run3.
Definition run5 := after (poll_publish waiting) run4.

Lemma run1_reachable : sim_reachable 1 run1.
Proof.
  eapply reach_step; [apply reach_new | ]. eapply (step_publish _ hello).
  apply (after_Some (SF_Done (ok tt))). vm_compute. eauto.
Qed.

Lemma run2_reachable : sim_reachable 1 run2.
Proof.
  eapply reach_step; [apply run1_reachable | ]. eapply (step_publish _ hello).
  apply (after_Some (SF_Done (ok tt))). vm_compute. eauto.
Qed.

Lemma run4_reachable : sim_reachable 1 run4.
Proof.
  assert (H3 : sim_reachable 1 run3).
  { eapply reach_step; [apply run2_reachable | ]. eapply (step_ack _ (Ack_Publish 1)).
    apply (after_Some (ok tt)). vm_compute. eauto. }
  eapply reach_step; [exact H3 | ]. eapply (step_publish _ hello).
  apply (after_Some (SF_Done (ok tt))). vm_compute. eauto.
Qed.

(** The run with room for one packet: an acknowledgement and a new publish
    come before the woken one is polled. *)
Lemma v3_credit_exceeded_witness :
  exists s', poll_publish waiting run4 = Some (None, SF_Ack (2%nat : tx), s') /\ cap s' = 1 /\
    Z.of_nat (size (inflight (queues s'))) = 2 /\ forall p, send_at_least_once p s' = None.
Proof.
  destruct (v3_credit_exceeded (R := SimRuntime Ack) _ _ _ run4 (0%nat : wtx (Runtime := SimRuntime Ack)) (set_qos hello AtLeastOnce) run4_reachable)
    as (r & f & s' & Hp & _ & Hs & Hc & Hall); [by vm_compute .. | ].
  assert (E : poll_publish waiting run4 = Some (None, SF_Ack (2%nat : tx), run5)) by (by vm_compute).
  assert (Ew : waiting = SF_Wait (0%nat : wtx) (set_qos hello AtLeastOnce)) by (by vm_compute).
  rewrite <- Ew, E in Hp. injection Hp as _ _ <-. exists run5. split; [exact E | ]. split; [by vm_compute | ].
  split; [by vm_compute | ]. by apply Hall.
Defined.

Lemma v3_sink_refines_witness :
  spec_step (abs (sink0 1)) (abs run1) /\ abs run1 = Some [mkEntry 1 (0%nat : tx) AT_Publish].
Proof.
  split; [ | by vm_compute].
  eapply (v3_sink_refines (R := SimRuntime Ack) sim0 Codec_new 1); [apply reach_new | ].
  eapply (step_publish _ hello). apply (after_Some (SF_Done (ok tt))). vm_compute. eauto.
Defined.

Lemma v3_pkt_ack_fifo_witness :
  exists s', pkt_ack (Ack_Publish 1) run2 = Some (ok tt, s') /\ outstanding (queues s') = [] /\
    queue_recv (0%nat : tx) (io s') = Some (Some (Ack_Publish 1)).
Proof.
  pose proof (v3_pkt_ack_fifo (R := SimRuntime Ack) _ _ _ run2 (Ack_Publish 1) run2_reachable eq_refl) as H.
  change (ack_error (Ack_Publish 1) (head (outstanding (queues run2)))) with (@None ProtocolError) in H.
  destruct H as (e & rest & s' & He & Hs & Hrest & Hrecv & _). exists s'.
  assert (E : outstanding (queues run2) = [mkEntry 1 (0%nat : tx) AT_Publish]) by (by vm_compute).
  rewrite E in He. injection He as <- <-. split; [exact Hs | ]. split; [exact Hrest | ].
  apply Hrecv. by vm_compute.
Defined.

Lemma v3_publish_sent_witness :
  exists s', send_at_least_once hello (sink0 2) = Some (SF_Ack (0%nat : tx), s') /\
    wbuf (io s') = [50; 7; 0; 1; 97; 0; 1; 104; 105].
Proof.
  destruct (v3_publish_sent (R := SimRuntime Ack) sim0 Codec_new 2 (sink0 2) hello) as (s' & Hs & _ & Hb & _);
    try (by vm_compute); [apply reach_new | ].
  exists s'. split; [exact Hs | exact Hb].
Defined.

Lemma v3_close_cancels_witness :
  exists s', close run2 = Some (tt, s') /\
    poll_publish waiting s' = Some (Some (err SDisconnected), SF_Done (err SDisconnected), s').
Proof.
  destruct (v3_close_cancels (R := SimRuntime Ack) _ _ _ run2 run2_reachable)
    as (s' & Hs & _ & _ & _ & _ & Hw & _).
  exists s'. split; [exact Hs | ].
  assert (E : waiting = SF_Wait (0%nat : wtx) (set_qos hello AtLeastOnce)) by (by vm_compute).
  rewrite E. apply Hw; [ | by vm_compute].
  assert (Ew : waiters (queues run2) = [0%nat : wtx]) by (by vm_compute). rewrite Ew. by left.
Defined.

Lemma v3_ready_double_borrow_witness : ready run1 = None.
Proof. exact (v3_ready_double_borrow (R := SimRuntime Ack) _ _ _ run1 run1_reachable). Defined.
