(* ===== verification/V5Sink.v ===== *)
(** * The sink of MQTT 5 (src/v5/sink.rs, src/v5/shared.rs) *)

From stdpp Require Import base gmap list strings.
From S2P Require Import Prelude Types Wire V5PubAcks V5Subscribe V5Disconnect V5Publish V5Codec Sink.
Open Scope Z_scope.

Inductive Ack : Type :=
| Ack_Publish (pkt : PublishAck)
| Ack_Subscribe (pkt : SubscribeAck)
| Ack_Unsubscribe (pkt : UnsubscribeAck).

Definition Ack_packet_type (a : Ack) : Z :=
  match a with
  | Ack_Publish _ => pt_PUBACK
  | Ack_Subscribe _ => pt_SUBACK
  | Ack_Unsubscribe _ => pt_UNSUBACK
  end.

Definition Ack_packet_id (a : Ack) : Z :=
  match a with
  | Ack_Publish pkt => pa_packet_id pkt
  | Ack_Subscribe pkt => sa_packet_id pkt
  | Ack_Unsubscribe pkt => sa_packet_id pkt
  end.

Definition Ack_is_match (a : Ack) (t : AckType) : bool :=
  match a, t with
  | Ack_Publish _, AT_Publish => true
  | Ack_Subscribe _, AT_Subscribe => true
  | Ack_Unsubscribe _, AT_Unsubscribe => true
  | _, _ => false
  end.

(** [PublishQos1Error] (src/v5/error.rs) *)
Inductive PublishQos1Error : Type :=
| Q_Fail (pkt : PublishAck)
| Q_Encode (e : EncodeError)
| Q_PacketIdInUse (id : Z)
| Q_Disconnected.

Section V5Sink.
Context `{R : Runtime Ack}.

Abbreviation Shared := (@MqttShared Ack R Codec).
Abbreviation Queues := (@MqttSharedQueues Ack R).
Abbreviation M := (@M Ack R Codec).

(** [Ack::publish], [Ack::subscribe], [Ack::unsubscribe] *)
Definition Ack_publish (a : Ack) : M PublishAck :=
  match a with Ack_Publish pkt => mret pkt | _ => panic end.
Definition Ack_subscribe (a : Ack) : M SubscribeAck :=
  match a with Ack_Subscribe pkt => mret pkt | _ => panic end.
Definition Ack_unsubscribe (a : Ack) : M UnsubscribeAck :=
  match a with Ack_Unsubscribe pkt => mret pkt | _ => panic end.

(** [MqttSink::is_open] *)
Definition sink_open : M bool := gets (fun s => is_open (io s)).

(** [state.write().encode(pkt, &codec)] *)
Definition encode_item (pkt : Packet) : M (result unit EncodeError) :=
  c ← gets codec; write_packet (codec_encode c pkt).

(** [MqttSink::close_with_reason], [MqttSink::close] *)
Definition close_with_reason (pkt : Disconnect) : M unit :=
  op ← sink_open;
  _ ← (if (op : bool) then _ ← encode_item (Pkt_Disconnect pkt); upd_io io_close else mret tt);
  clear_queues.

Definition close : M unit := close_with_reason Disconnect_default.

(** [MqttSink::send], [MqttSink::ping] *)
Definition send (pkt : Packet) : M unit := _ ← encode_item pkt; mret tt.

Definition ping : M bool :=
  r ← encode_item Pkt_PingRequest;
  mret (match r with ok _ => true | err _ => false end).

(** [MqttSink::drop_sink] *)
Definition drop_sink : M unit :=
  _ ← with_queues (fun q =>
    _ ← upd_io (drop_waiters q);
    _ ← upd_io (drop_inflight q);
    mret (tt, mkQueues ∅ (inflight_order q) []));
  upd_io io_close.

(** [MqttSink::pkt_ack]: the loop over the order skips id 0. *)
Fixpoint pkt_ack_loop (pkt : Ack) (order : list Z) (q : Queues)
  : M (result unit ProtocolError * Queues) :=
  match order with
  | [] => mret (err PPacketIdMismatch, mkQueues (inflight q) [] (waiters q))
  | idx :: order =>
      if idx =? 0 then pkt_ack_loop pkt order q
      else if negb (idx =? Ack_packet_id pkt)
      then mret (err PPacketIdMismatch, mkQueues (inflight q) order (waiters q))
      else match inflight q !! Ack_packet_id pkt with
           | Some (c, tp) =>
               let inflight := delete (Ack_packet_id pkt) (inflight q) in
               if negb (Ack_is_match pkt tp) then
                 _ ← upd_io (queue_drop c);
                 mret (err (PUnexpected (Ack_packet_type pkt) (AckType_name tp)),
                       mkQueues inflight order (waiters q))
               else
                 _ ← run_io (queue_send c pkt);
                 ws ← wake (waiters q);
                 mret (ok tt, mkQueues inflight order ws)
           | None => mret (err PPacketIdMismatch, mkQueues (inflight q) order (waiters q))
           end
  end.

Definition pkt_ack (pkt : Ack) : M (result unit ProtocolError) :=
  with_queues (fun q => pkt_ack_loop pkt (inflight_order q) q).

(** ** Publishing *)

(** [MqttSink::publish] and the methods of [PublishBuilder] that change the
    packet; [packet_id] panics on 0. *)
Definition publish (topic : ByteString) (payload : Bytes) : Publish :=
  {| pu_dup := false; pu_retain := false; pu_qos := AtMostOnce; pu_packet_id := None;
     pu_topic := topic; pu_payload := payload; pu_properties := PublishProperties_default |}.

Definition pb_packet_id (p : Publish) (id : Z) : option Publish :=
  match non_zero id with
  | Some id => Some {| pu_dup := pu_dup p; pu_retain := pu_retain p; pu_qos := pu_qos p;
                       pu_packet_id := Some id; pu_topic := pu_topic p;
                       pu_payload := pu_payload p; pu_properties := pu_properties p |}
  | None => None
  end.

Definition pb_dup (p : Publish) (val : bool) : Publish :=
  {| pu_dup := val; pu_retain := pu_retain p; pu_qos := pu_qos p;
     pu_packet_id := pu_packet_id p; pu_topic := pu_topic p;
     pu_payload := pu_payload p; pu_properties := pu_properties p |}.

Definition pb_retain (p : Publish) : Publish :=
  {| pu_dup := pu_dup p; pu_retain := true; pu_qos := pu_qos p;
     pu_packet_id := pu_packet_id p; pu_topic := pu_topic p;
     pu_payload := pu_payload p; pu_properties := pu_properties p |}.

Definition pb_properties (p : Publish) (f : PublishProperties -> PublishProperties) : Publish :=
  {| pu_dup := pu_dup p; pu_retain := pu_retain p; pu_qos := pu_qos p;
     pu_packet_id := pu_packet_id p; pu_topic := pu_topic p;
     pu_payload := pu_payload p; pu_properties := f (pu_properties p) |}.

Definition set_qos (p : Publish) (q : QoS) : Publish :=
  {| pu_dup := pu_dup p; pu_retain := pu_retain p; pu_qos := q;
     pu_packet_id := pu_packet_id p; pu_topic := pu_topic p;
     pu_payload := pu_payload p; pu_properties := pu_properties p |}.

Definition set_packet_id (p : Publish) (id : option NonZeroU16) : Publish :=
  {| pu_dup := pu_dup p; pu_retain := pu_retain p; pu_qos := pu_qos p;
     pu_packet_id := id; pu_topic := pu_topic p;
     pu_payload := pu_payload p; pu_properties := pu_properties p |}.

Definition send_at_most_once (packet : Publish) : M (result unit SendPacketError) :=
  op ← sink_open;
  if (op : bool) then
    r ← encode_item (Pkt_Publish packet);
    mret (match r with ok _ => ok tt | err e => err (SEncode e) end)
  else mret (err SDisconnected).

(** Registering a packet and writing it *)
Definition send_registered {E} (idx : Z) (tp : AckType) (in_use : Z -> E) (encode_err : EncodeError -> E)
  (packet : M Packet) : M (result tx E) :=
  r ← with_queues (fun q => c ← run_io queue_channel; register c idx tp q);
  match r with
  | err idx => mret (err (in_use idx))
  | ok rx =>
      packet ← packet;
      c ← gets codec;
      e ← write_packet (codec_encode c packet);
      match e with
      | ok _ => mret (ok rx)
      | err e => _ ← upd_io (queue_drop_rx rx); mret (err (encode_err e))
      end
  end.

(** [send_at_least_once_inner], up to the future it returns *)
Definition send_at_least_once_inner (packet : Publish) : M (result tx PublishQos1Error) :=
  let idx := match pu_packet_id packet with Some id => id | None => 0 end in
  p ← (if idx =? 0
       then idx ← next_id; mret (idx, set_packet_id packet (non_zero idx))
       else mret (idx, packet));
  send_registered p.1 AT_Publish Q_PacketIdInUse Q_Encode (mret (Pkt_Publish p.2)).

(** What the future makes of the acknowledgement *)
Definition publish_result (a : Ack) : M (result PublishAck PublishQos1Error) :=
  pkt ← Ack_publish a;
  mret (match pa_reason_code pkt with PA_Success => ok pkt | _ => err (Q_Fail pkt) end).

Definition send_at_least_once (packet : Publish)
  : M (SendFuture Publish PublishAck PublishQos1Error) :=
  begin_send Q_Disconnected send_at_least_once_inner (set_qos packet AtLeastOnce).

Definition poll_publish := poll_send Q_Disconnected send_at_least_once_inner publish_result.

(** ** Subscribing *)

Record SubscribeBuilder : Type := mkSubscribeBuilder { sb_id : Z; sb_packet : Subscribe }.
Record UnsubscribeBuilder : Type := mkUnsubscribeBuilder { ub_id : Z; ub_packet : Unsubscribe }.

(** [MqttSink::subscribe], [MqttSink::unsubscribe] and the methods of the
    builders; [packet_id] panics on 0. *)
Definition subscribe (id : option NonZeroU32) : SubscribeBuilder :=
  mkSubscribeBuilder 0 (mkSubscribe 1 id [] []).
Definition unsubscribe : UnsubscribeBuilder := mkUnsubscribeBuilder 0 (mkUnsubscribe 1 [] []).

Definition sb_packet_id (b : SubscribeBuilder) (id : Z) : option SubscribeBuilder :=
  if id =? 0 then None else Some (mkSubscribeBuilder id (sb_packet b)).
Definition sb_topic_filter (b : SubscribeBuilder) (filter : ByteString) (opts : SubscriptionOptions)
  : SubscribeBuilder :=
  let p := sb_packet b in
  mkSubscribeBuilder (sb_id b) (mkSubscribe (su_packet_id p) (su_id p) (su_user_properties p)
                                  (su_topic_filters p ++ [(filter, opts)])).
Definition sb_property (b : SubscribeBuilder) (key value : ByteString) : SubscribeBuilder :=
  let p := sb_packet b in
  mkSubscribeBuilder (sb_id b) (mkSubscribe (su_packet_id p) (su_id p)
                                  (su_user_properties p ++ [(key, value)]) (su_topic_filters p)).

Definition ub_packet_id (b : UnsubscribeBuilder) (id : Z) : option UnsubscribeBuilder :=
  if id =? 0 then None else Some (mkUnsubscribeBuilder id (ub_packet b)).
Definition ub_topic_filter (b : UnsubscribeBuilder) (filter : ByteString) : UnsubscribeBuilder :=
  let p := ub_packet b in
  mkUnsubscribeBuilder (ub_id b) (mkUnsubscribe (un_packet_id p) (un_user_properties p)
                                    (un_topic_filters p ++ [filter])).
Definition ub_property (b : UnsubscribeBuilder) (key value : ByteString) : UnsubscribeBuilder :=
  let p := ub_packet b in
  mkUnsubscribeBuilder (ub_id b) (mkUnsubscribe (un_packet_id p)
                                    (un_user_properties p ++ [(key, value)]) (un_topic_filters p)).

Definition set_su_packet_id (p : Subscribe) (id : NonZeroU16) : Subscribe :=
  mkSubscribe id (su_id p) (su_user_properties p) (su_topic_filters p).
Definition set_un_packet_id (p : Unsubscribe) (id : NonZeroU16) : Unsubscribe :=
  mkUnsubscribe id (un_user_properties p) (un_topic_filters p).

(** [NonZeroU16::new(idx).unwrap()] *)
Definition unwrap_id (idx : Z) : M NonZeroU16 :=
  match non_zero idx with Some id => mret id | None => panic end.

(** [SubscribeBuilder::send], [UnsubscribeBuilder::send]: the id is set
    before the packet is registered, and after it. *)
Definition subscribe_start (b : SubscribeBuilder) : M (result tx SendPacketError) :=
  idx ← (if sb_id b =? 0 then next_id else mret (sb_id b));
  packet_id ← unwrap_id idx;
  send_registered idx AT_Subscribe SPacketIdInUse SEncode
    (mret (Pkt_Subscribe (set_su_packet_id (sb_packet b) packet_id))).

Definition poll_subscribe :=
  poll_send SDisconnected subscribe_start (fun a => pkt ← Ack_subscribe a; mret (ok pkt)).

Definition unsubscribe_start (b : UnsubscribeBuilder) : M (result tx SendPacketError) :=
  idx ← (if ub_id b =? 0 then next_id else mret (ub_id b));
  send_registered idx AT_Unsubscribe SPacketIdInUse SEncode
    (packet_id ← unwrap_id idx;
     mret (Pkt_Unsubscribe (set_un_packet_id (ub_packet b) packet_id))).

Definition poll_unsubscribe :=
  poll_send SDisconnected unsubscribe_start (fun a => pkt ← Ack_unsubscribe a; mret (ok pkt)).

(** ** Steps of a sink *)
Inductive step (s : Shared) : Shared -> Prop :=
| step_publish p f s' : send_at_least_once p s = Some (f, s') -> step s s'
| step_publish_qos0 p r s' : send_at_most_once p s = Some (r, s') -> step s s'
| step_poll_publish f r s' : poll_publish f s = Some (r, s') -> step s s'
| step_poll_subscribe f r s' : poll_subscribe f s = Some (r, s') -> step s s'
| step_poll_unsubscribe f r s' : poll_unsubscribe f s = Some (r, s') -> step s s'
| step_ack a r s' : pkt_ack a s = Some (r, s') -> step s s'
| step_send pkt r s' : send pkt s = Some (r, s') -> step s s'
| step_ping r s' : ping s = Some (r, s') -> step s s'
| step_close pkt r s' : close_with_reason pkt s = Some (r, s') -> step s s'
| step_drop_sink r s' : drop_sink s = Some (r, s') -> step s s'
| step_ready f s' : ready s = Some (f, s') -> step s s'
| step_credit n s' : credit s = Some (n, s') -> step s s'
| step_io w : (is_open w = true -> is_open (io s) = true) -> step s (set_io w s).

Inductive reachable (w : world) (c : Codec) (cap : Z) : Shared -> Prop :=
| reach_new : reachable w c cap (MqttShared_new w c cap)
| reach_step s s' : reachable w c cap s -> step s s' -> reachable w c cap s'.

(** What the peer still has to acknowledge is in flight; an id that is in
    flight may have lost its place in the order. *)
Definition queued (m : gmap Z (tx * AckType)) (order : list Z) : Prop :=
  ordered m order /\ 0 ∉ order.

Section Laws.
Context {L : RuntimeLaws Ack}.

Lemma queued_ordered m o : queued m o -> ordered m o.
Proof. by intros []. Qed.

Lemma queued_insert m o id x :
  id <> 0 -> queued m o -> m !! id = None -> queued (<[id := x]> m) (o ++ [id]).
Proof.
  intros Hnz [Ho Hz] Hn. split; [by apply ordered_insert | ].
  intros [H|H%list_elem_of_singleton]%elem_of_app; congruence.
Qed.

Abbreviation inv := (inv (Codec := Codec) queued).
Abbreviation quietly := (quietly (Codec := Codec) queued).
Abbreviation moves := (moves (Codec := Codec) queued).

Lemma quietly_open5 : quietly sink_open.
Proof. apply quietly_gets. Qed.

Lemma quietly_item pkt : quietly (encode_item pkt).
Proof. apply quietly_bind; [apply quietly_gets | intros; apply quietly_write]. Qed.

Lemma moves_registered5 {E} idx tp (in_use : Z -> E) enc (packet : M Packet) :
  idx <> 0 -> quietly packet -> moves (send_registered idx tp in_use enc packet).
Proof.
  intros Hnz Hp. apply moves_bind_l;
    [by apply (moves_register _ queued_ordered queued_insert) | intros [rx|i]].
  - apply quietly_bind; [exact Hp | intros pkt].
    apply quietly_bind; [apply quietly_gets | intros c]. apply quietly_written.
  - apply quietly_ret.
Qed.

Lemma moves_publish5 p : moves (send_at_least_once_inner p).
Proof.
  unfold send_at_least_once_inner. destruct (_ =? 0) eqn:E.
  - intros s r s'' Hi (q & s' & H & H2)%bind_Some.
    apply bind_Some in H as (idx & s1 & H & [<- <-]%ret_Some).
    assert (Hm : moves (mbind (fun idx => send_registered idx AT_Publish Q_PacketIdInUse Q_Encode
                   (mret (Pkt_Publish (set_packet_id p (non_zero idx))))) (if 0 =? 0 then next_id else mret 0))).
    { apply moves_bind_id. intros. apply moves_registered5; [done | apply quietly_ret]. }
    apply (Hm s r s'' Hi). apply bind_Some. eauto.
  - intros s r s'' Hi (q & s' & [<- <-]%ret_Some & H2)%bind_Some.
    eapply moves_registered5; [ | apply quietly_ret | exact Hi | exact H2]. by apply Z.eqb_neq.
Qed.

Lemma quietly_unwrap idx : quietly (unwrap_id idx).
Proof. unfold unwrap_id. destruct (non_zero idx); [apply quietly_ret | apply quietly_panic]. Qed.

Lemma moves_subscribe b : moves (subscribe_start b).
Proof.
  apply moves_bind_id. intros idx Hnz. apply moves_bind; [apply quietly_unwrap | intros id].
  apply moves_registered5; [done | apply quietly_ret].
Qed.

Lemma moves_unsubscribe b : moves (unsubscribe_start b).
Proof.
  apply moves_bind_id. intros idx Hnz. apply moves_registered5; [done | ].
  apply quietly_bind; [apply quietly_unwrap | intros; apply quietly_ret].
Qed.

Lemma quietly_close_with pkt : quietly (close_with_reason pkt).
Proof.
  intros s a s' Hi (op & s1 & H1 & H2)%bind_Some. injection H1 as <- <-.
  apply bind_Some in H2 as (u & s2 & H2 & H3). destruct (is_open (io s)) eqn:Ho.
  - apply bind_Some in H2 as (r & s3 & H4 & [_ ->]%upd_io_Some).
    pose proof (quietly_item _ _ _ _ Hi H4) as Hq.
    assert (Hq' : quiet queued s3 (set_io (io_close (io s3)) s3)).
    { apply quiet_io; [apply Hq | ]. by rewrite close_closes. }
    eapply quiet_trans; [exact (quiet_trans _ _ _ _ Hq Hq') | ].
    eapply clear_closed_quiet; [apply Hq' | apply close_closes | done].
  - apply ret_Some in H2 as [_ <-]. by eapply clear_closed_quiet.
Qed.

Lemma drop_sink_eq s :
  borrowed s = false ->
  drop_sink s =
    Some (tt, set_io (io_close (drop_inflight (queues s) (drop_waiters (queues s) (io s))))
                (set_queues false (mkQueues ∅ (inflight_order (queues s)) []) s)).
Proof. intros Hb. unfold drop_sink, mbind, M_bind, with_queues. rewrite Hb. reflexivity. Qed.

Lemma quietly_drop_sink : quietly drop_sink.
Proof.
  intros s a s' Hi. rewrite drop_sink_eq by apply Hi. intros [= _ <-].
  apply closed_quiet; [done | done | apply close_closes | done].
Qed.

Lemma queued_tail m o id :
  queued m (id :: o) -> queued m o /\ queued (delete id m) o.
Proof.
  intros [Ho [_ Hz]%not_elem_of_cons]. destruct (ordered_tail _ _ _ Ho) as (_ & H1 & H2).
  by repeat split; try apply H1; try apply H2.
Qed.

(** The front of the queue is taken off, with its channel or without. *)
Lemma popped_moved5 s id o ws w m :
  inv s -> inflight_order (queues s) = id :: o ->
  (m = inflight (queues s) \/ m = delete id (inflight (queues s))) ->
  (is_open w = true -> is_open (io s) = true) ->
  moved queued s (set_queues false (mkQueues m o ws) (set_io w s)).
Proof.
  intros (Hb & Hx & Hq) Ho Hm Hw. destruct (is_open w) eqn:E.
  - specialize (Hw eq_refl). specialize (Hq Hw). rewrite Ho in Hq.
    destruct (queued_tail _ _ _ Hq) as [Hq1 Hq2]. split.
    + split; [done | ]. split; [done | ]. intros _. cbn. by destruct Hm as [->| ->].
    + unfold abs. cbn [io queues set_queues set_io]. rewrite E, Hw. unfold outstanding at 1.
      rewrite Ho. destruct (entries (inflight (queues s)) (id :: o)) as [|e rest] eqn:He.
      { rewrite entries_cons in He. unfold entry_of in He.
        destruct (proj2 (proj1 Hq) id) as [[c t] H]; [by left | ]. by rewrite H in He. }
      destruct (served_front _ _ _ _ (proj1 Hq) He) as ([= ->] & _ & H1 & H2).
      cbn [tail] in *. unfold outstanding. cbn [inflight inflight_order].
      assert (entries m o = rest) as -> by (by destruct Hm as [->| ->]). apply sp_pop.
  - split.
    + split; [done | ]. split; [done | ]. cbn. congruence.
    + unfold abs. cbn [io set_queues set_io]. rewrite E. apply sp_close.
Qed.

Definition ack_error (a : Ack) (front : option entry) : option ProtocolError :=
  match front with
  | None => Some PPacketIdMismatch
  | Some e =>
      if negb (en_id e =? Ack_packet_id a) then Some PPacketIdMismatch
      else if Ack_is_match a (en_type e) then None
      else Some (PUnexpected (Ack_packet_type a) (AckType_name (en_type e)))
  end.

(** An acknowledgement in full *)
Lemma pkt_ack5_eq a s :
  borrowed s = false -> queued (inflight (queues s)) (inflight_order (queues s)) ->
  let q := queues s in
  let left w r m ws :=
    Some (r, set_queues false (mkQueues m (tail (inflight_order q)) ws) (set_io w s)) in
  pkt_ack a s =
    match outstanding q with
    | [] => left (io s) (err PPacketIdMismatch) (inflight q) (waiters q)
    | e :: rest =>
        match ack_error a (Some e) with
        | None =>
            let w := (queue_send (en_tx e) a (io s)).2 in
            left (woken (waiters q) w).2 (ok tt) (delete (en_id e) (inflight q))
              (woken (waiters q) w).1
        | Some er =>
            if negb (en_id e =? Ack_packet_id a)
            then left (io s) (err er) (inflight q) (waiters q)
            else left (queue_drop (en_tx e) (io s)) (err er) (delete (en_id e) (inflight q))
                   (waiters q)
        end
    end.
Proof.
  intros Hb [Ho Hz]. cbv zeta. unfold pkt_ack, with_queues, outstanding. rewrite Hb.
  destruct (queues s) as [m o ws] eqn:Eq. cbn [inflight inflight_order waiters] in *.
  destruct o as [|id o]; [by destruct s | ].
  rewrite entries_cons. unfold entry_of. destruct (proj2 Ho id) as [[c t] Hm]; [by left | ].
  rewrite Hm. cbn [ack_error en_id en_tx en_type tail pkt_ack_loop inflight waiters].
  apply not_elem_of_cons in Hz as [Hz _]. destruct (Z.eqb_spec id 0) as [->|_]; [done | ].
  destruct (Z.eqb_spec id (Ack_packet_id a)) as [<-|]; cbn [negb].
  - rewrite Hm. destruct (Ack_is_match a t); cbn [negb]; [ | done].
    unfold mbind, M_bind, run_io. cbn [io set_queues]. destruct (queue_send c a (io s)) as [b w].
    by rewrite wake_eq.
  - by destruct s.
Qed.

Lemma pkt_ack_loop_io a o q s r q' s' :
  pkt_ack_loop a o q s = Some (r, q', s') ->
  exists w, s' = set_io w s /\ (is_open w = true -> is_open (io s) = true).
Proof.
  assert (Hs : s = set_io (io s) s) by (by destruct s).
  induction o as [|id o IH]; cbn [pkt_ack_loop].
  { intros [_ <-]%ret_Some. by exists (io s). }
  destruct (id =? 0); [exact IH | ].
  destruct (negb _). { intros [_ <-]%ret_Some. by exists (io s). }
  destruct (inflight q !! _) as [[c t]|].
  2: { intros [_ <-]%ret_Some. by exists (io s). }
  destruct (negb (Ack_is_match a t)).
  - intros (b & s1 & [_ ->]%upd_io_Some & [_ <-]%ret_Some)%bind_Some. eexists. split; [done | ].
    apply queue_drop_open.
  - intros (b & s1 & [_ ->]%run_io_Some & (ws & s2 & Hw & [_ <-]%ret_Some)%bind_Some)%bind_Some.
    rewrite wake_eq in Hw. injection Hw as _ <-. eexists. split; [done | ].
    intros Ho%woken_open%queue_send_open. done.
Qed.

Lemma moves_pkt_ack5 a : moves (pkt_ack a).
Proof.
  intros s r s' Hi H. destruct (is_open (io s)) eqn:Ho.
  - pose proof (proj2 (proj2 Hi) Ho) as Hq. rewrite (pkt_ack5_eq a s (proj1 Hi) Hq) in H.
    destruct (outstanding (queues s)) as [|e rest] eqn:He.
    + injection H as <- <-. apply quiet_moved.
      assert (Hn : inflight_order (queues s) = []).
      { rewrite <- (entries_ids (inflight (queues s)) (inflight_order (queues s))) by apply Hq.
        unfold outstanding in He. by rewrite He. }
      pose proof (quiet_waiters queued s (waiters (queues s)) (io s) Hi (fun H => H)) as Hw.
      rewrite Hn in *. exact Hw.
    + destruct (served_front _ _ _ _ (proj1 Hq) He) as (Eo & _).
      destruct (ack_error a (Some e)) as [er|]; [destruct (negb _) | ]; injection H as <- <-;
        (apply (popped_moved5 s (en_id e)); [done | done | auto | ]); [done | apply queue_drop_open | ].
      intros Hw%woken_open%queue_send_open. done.
  - apply with_queues_Some in H as (_ & q & s2 & H1 & ->).
    apply pkt_ack_loop_io in H1 as (w & -> & Hw). cbn in Hw. apply quiet_moved.
    apply closed_quiet; try done. cbn. apply not_true_is_false. intros ?%Hw. congruence.
Qed.

Lemma step_moved5 s s' : inv s -> step s s' -> moved queued s s'.
Proof.
  assert (Hfin : forall {A} (f : Ack -> M A) {E}, (forall a, quietly (f a)) ->
            forall a, quietly (pkt ← f a; mret (ok pkt : result A E))).
  { intros A f E Hf a. apply quietly_bind; [apply Hf | intros; apply quietly_ret]. }
  assert (Hp : forall f, moves (poll_publish f)).
  { intros f. apply moves_poll; [apply moves_publish5 | ].
    intros a. apply quietly_bind; [ | intros; apply quietly_ret].
    destruct a; [apply quietly_ret | apply quietly_panic | apply quietly_panic]. }
  assert (Hsub : forall f, moves (poll_subscribe f)).
  { intros f. apply moves_poll; [apply moves_subscribe | ]. apply Hfin.
    intros []; [apply quietly_panic | apply quietly_ret | apply quietly_panic]. }
  assert (Hun : forall f, moves (poll_unsubscribe f)).
  { intros f. apply moves_poll; [apply moves_unsubscribe | ]. apply Hfin.
    intros []; [apply quietly_panic | apply quietly_panic | apply quietly_ret]. }
  assert (Hitem : forall {A} pkt (f : result unit EncodeError -> A),
            quietly (r ← encode_item pkt; mret (f r))).
  { intros A pkt f. apply quietly_bind; [apply quietly_item | intros; apply quietly_ret]. }
  assert (Hq0 : forall p, quietly (send_at_most_once p)).
  { intros p. apply quietly_bind; [apply quietly_open5 | intros []]; [apply Hitem | apply quietly_ret]. }
  intros Hi Hs. inversion Hs; subst;
    [eapply (moves_begin _ _ _ moves_publish5) | | eapply Hp | eapply Hsub | eapply Hun
    | eapply moves_pkt_ack5 | | | | | | | ]; eauto; apply quiet_moved.
  - by eapply Hq0.
  - by eapply (Hitem _ pkt (fun _ => tt)).
  - exact (Hitem _ Pkt_PingRequest _ _ _ _ Hi H).
  - by eapply quietly_close_with.
  - by eapply quietly_drop_sink.
  - by eapply quietly_ready.
  - by eapply quietly_credit_value.
  - by apply quiet_io.
Qed.

Lemma reachable_inv5 w c cap s : reachable w c cap s -> inv s.
Proof.
  induction 1 as [|s s' _ IH Hs]; [ | by eapply step_moved5].
  split; [done | ]. split; [cbn; lia | ]. intros _. split; [split; [apply NoDup_nil_2 | ] | ].
  - by intros id ?%not_elem_of_nil.
  - by intros ?%not_elem_of_nil.
Qed.

(** ** Properties *)

(** C5: whatever is done with an MQTT 5 sink, every step refines the queue
    of outstanding packets; while the connection is open every id in the
    order is in flight and there once, and no id is 0. *)
Theorem v5_sink_refines w c cap s s' :
  reachable w c cap s -> step s s' ->
  spec_step (abs s) (abs s') /\ borrowed s' = false /\
  (is_open (io s') = true ->
   NoDup (inflight_order (queues s')) /\ 0 ∉ inflight_order (queues s') /\
   forall id, id ∈ inflight_order (queues s') -> is_Some (inflight (queues s') !! id)).
Proof.
  intros Hr Hs. destruct (step_moved5 s s' (reachable_inv5 _ _ _ _ Hr) Hs) as [(Hb & _ & Hq) Hsp].
  split; [done | ]. split; [done | ]. intros Ho. destruct (Hq Ho) as [[Hd Hin] Hz]. done.
Qed.

(** C18: an acknowledgement is accepted exactly when it has the id and the
    kind of the packet at the front of the queue, which then leaves and
    receives it while one waiting sender is woken.  Otherwise the error tells
    what did not match and, unlike in MQTT 3.1.1, the connection stays open:
    the front of the queue is lost, and after a wrong id it stays in flight
    for ever, holding its credit. *)
Theorem v5_pkt_ack_fifo w c cap s a :
  reachable w c cap s -> is_open (io s) = true ->
  exists s', let q := queues s in let q' := queues s' in
  outstanding q' = tail (outstanding q) /\
  match ack_error a (head (outstanding q)), outstanding q with
  | None, e :: _ =>
      pkt_ack a s = Some (ok tt, s') /\ inflight q' = delete (en_id e) (inflight q) /\
      ((queue_send (en_tx e) a (io s)).1 = true -> queue_recv (en_tx e) (io s') = Some (Some a)) /\
      waiters q' = (woken (waiters q) (queue_send (en_tx e) a (io s)).2).1
  | None, [] => False
  | Some er, l =>
      pkt_ack a s = Some (err er, s') /\ is_open (io s') = true /\ waiters q' = waiters q /\
      match l with
      | [] => inflight q' = inflight q
      | e :: _ =>
          if en_id e =? Ack_packet_id a
          then inflight q' = delete (en_id e) (inflight q) /\ io s' = queue_drop (en_tx e) (io s)
          else inflight q' = inflight q /\ io s' = io s /\ inflight q' !! en_id e = Some (en_tx e, en_type e)
      end
  end.
Proof.
  intros Hr Ho. destruct (reachable_inv5 _ _ _ _ Hr) as (Hb & _ & Hq). specialize (Hq Ho).
  rewrite (pkt_ack5_eq a s Hb Hq). cbv zeta. destruct (outstanding (queues s)) as [|e rest] eqn:He.
  - eexists. split; [ | by repeat split].
    unfold outstanding in *. cbn [queues set_queues inflight inflight_order head tail].
    assert (inflight_order (queues s) = []) as ->; [ | done].
    rewrite <- (entries_ids (inflight (queues s)) (inflight_order (queues s))) by apply Hq.
    by rewrite He.
  - destruct (served_front _ _ _ _ (proj1 Hq) He) as (Eo & Hin & H1 & H2). cbn [head tail].
    destruct (ack_error a (Some e)) as [er|] eqn:Ea.
    + destruct (Z.eqb_spec (en_id e) (Ack_packet_id a)) as [Hid|Hid]; cbn [negb]; eexists;
        (split; [ | split; [reflexivity | ]]); try done.
      split; [cbn; by rewrite queue_drop_io | done].
    + eexists. split; [ | split; [reflexivity | ]]; [done | ]. split; [done | ]. split; [ | done].
      intros Hsend. cbn [io set_queues set_io]. rewrite woken_queue. by apply queue_send_recv.
Qed.

(** A publish without an id up to the point where it is written *)
Lemma registered_eq5 (p : Publish) s :
  pu_packet_id p = None -> borrowed s = false -> 0 <= inflight_idx s < 2 ^ 16 - 1 ->
  let id := inflight_idx s + 1 in
  let c := (queue_channel (io s)).1 in
  let q := queues s in
  inflight q !! id = None ->
  send_at_least_once_inner p s =
    (e ← write_packet (codec_encode (codec s) (Pkt_Publish (set_packet_id p (Some id))));
     match e with
     | ok _ => mret (ok c)
     | err e => _ ← upd_io (queue_drop_rx c); mret (err (Q_Encode e))
     end)
    (set_queues false (mkQueues (<[id := (c, AT_Publish)]> (inflight q)) (inflight_order q ++ [id]) (waiters q))
       (set_idx (id mod (2 ^ 16 - 1)) (set_io (queue_channel (io s)).2 s))).
Proof.
  intros Hp Hb Hx id c q Hn. unfold send_at_least_once_inner, mbind, M_bind. rewrite Hp. cbn [Z.eqb].
  rewrite next_id_eq by done. fold id. unfold mret, M_ret. cbn [fst snd].
  assert (Hz : non_zero id = Some id) by (unfold non_zero; destruct (Z.eqb_spec id 0); [lia | done]). rewrite Hz.
  unfold send_registered, mbind, M_bind, with_queues. cbn [borrowed queues set_idx]. rewrite Hb.
  unfold run_io, c. cbn [io set_queues set_idx]. destruct (queue_channel (io s)) as [ch w1]. cbn [fst snd].
  unfold register. fold q. by rewrite Hn.
Qed.

(** What an accepted publish does to the queue and to what is written *)
Lemma inner_sent5 p s c s' bs :
  inv s -> is_open (io s) = true -> pu_packet_id p = None ->
  send_at_least_once_inner p s = Some (ok c, s') ->
  let id := inflight_idx s + 1 in
  writes (codec_encode (codec s) (Pkt_Publish (set_packet_id p (Some id)))) bs ->
  outstanding (queues s') = outstanding (queues s) ++ [mkEntry id c AT_Publish] /\
  wbuf (io s') = wbuf (io s) ++ bs.
Proof.
  intros (Hb & Hx & Hq) Ho Hp H id Hw. destruct (inflight (queues s) !! id) as [x|] eqn:Hi.
  { exfalso. apply bind_Some in H as (q & s1 & H1 & H2). rewrite Hp in H1. cbn [Z.eqb] in H1.
    apply bind_Some in H1 as (i & s2 & H1 & [<- <-]%ret_Some). rewrite next_id_eq in H1 by done. fold id in H1.
    injection H1 as <- <-. apply bind_Some in H2 as (r & s3 & H1 & H2).
    apply with_queues_Some in H1 as (_ & q & s4 & H1 & _). apply bind_Some in H1 as (ch & s5 & [_ ->]%run_io_Some & H1).
    unfold register in H1. cbn [inflight queues set_idx fst] in H1. rewrite Hi in H1.
    apply bind_Some in H1 as (u & s6 & _ & [[= <- _] _]%ret_Some). by apply ret_Some in H2 as [? _]. }
  rewrite registered_eq5 in H by done. cbv zeta in H. fold id in H.
  unfold mbind, M_bind, write_packet in H. cbn [io set_queues set_idx set_io] in H.
  set (f := codec_encode _ _) in *. set (w1 := (queue_channel (io s)).2) in *.
  assert (Ho1 : is_open w1 = true) by (unfold w1; by rewrite queue_channel_io).
  pose proof (encode_result f w1 Ho1) as He. pose proof (encode_wbuf f w1 Ho1) as Hbuf.
  rewrite Hw in He, Hbuf. destruct (io_encode f w1) as [r w2]. cbn [fst snd] in He, Hbuf. subst r.
  injection H as <- <-. cbn [queues io set_queues set_io set_idx]. split.
  - unfold outstanding. cbn [inflight inflight_order]. by apply (ordered_insert _ _ id (_, AT_Publish) (proj1 (Hq Ho))).
  - rewrite Hbuf. unfold w1. by rewrite queue_channel_wbuf.
Qed.

(** C39: a publish that cannot be encoded, like one above the maximum packet
    size of the peer, fails but stays in the queue: its packet id was
    registered before, and nothing takes it out again.  It holds its credit,
    and when nothing else was outstanding the acknowledgement of any later
    packet is refused, since it does not match the front of the queue. *)
Theorem v5_failed_publish_stays w c cap0 s p e :
  reachable w c cap0 s -> is_open (io s) = true -> Z.of_nat (size (inflight (queues s))) < cap s ->
  pu_packet_id p = None ->
  let id := inflight_idx s + 1 in
  let pkt := Pkt_Publish (set_packet_id (set_qos p AtLeastOnce) (Some id)) in
  inflight (queues s) !! id = None -> (codec_encode (codec s) pkt (wbuf (io s))).1 = Err e ->
  exists s', send_at_least_once p s = Some (SF_Done (err (Q_Encode e)), s') /\
    outstanding (queues s') = outstanding (queues s) ++ [mkEntry id (queue_channel (io s)).1 AT_Publish] /\
    size (inflight (queues s')) = S (size (inflight (queues s))) /\
    (outstanding (queues s) = [] -> is_open (io s') = true -> forall a, Ack_packet_id a <> id ->
     exists s'', pkt_ack a s' = Some (err PPacketIdMismatch, s'')).
Proof.
  intros Hr Ho Hcap Hp id pkt Hn He. pose proof (reachable_inv5 _ _ _ _ Hr) as (Hb & Hx & Hq).
  assert (Hs : exists s', send_at_least_once p s = Some (SF_Done (err (Q_Encode e)), s') /\
    queues s' = mkQueues (<[id := ((queue_channel (io s)).1, AT_Publish)]> (inflight (queues s)))
                  (inflight_order (queues s) ++ [id]) (waiters (queues s))).
  { unfold send_at_least_once, begin_send, mbind, M_bind, gets. rewrite Ho.
    unfold has_credit. rewrite Hb, (proj2 (Z.leb_le _ _)) by lia. rewrite (proj2 (Z.ltb_lt 0 _)) by lia. cbn [negb].
    unfold start_send, mbind, M_bind. rewrite registered_eq5 by done. cbv zeta. fold id.
    change (Pkt_Publish _) with pkt. unfold mbind, M_bind, write_packet. cbn [io set_queues set_io set_idx].
    set (w1 := (queue_channel (io s)).2).
    assert (Ho1 : is_open w1 = true) by (unfold w1; by rewrite queue_channel_io).
    pose proof (encode_result (codec_encode (codec s) pkt) w1 Ho1) as Hres.
    unfold w1 in Hres at 2. rewrite queue_channel_wbuf, He in Hres.
    destruct (io_encode (codec_encode (codec s) pkt) w1) as [r w2]. cbn in Hres. subst r. by eexists. }
  destruct Hs as (s' & Hs & Hqs). exists s'. split; [exact Hs | ].
  assert (Hout : outstanding (queues s') = outstanding (queues s) ++ [mkEntry id (queue_channel (io s)).1 AT_Publish]).
  { rewrite Hqs. unfold outstanding. cbn [inflight inflight_order].
    by apply (ordered_insert _ _ id (_, AT_Publish) (proj1 (Hq Ho))). }
  split; [exact Hout | ]. split; [rewrite Hqs; cbn [inflight]; by rewrite map_size_insert_None | ].
  intros Hnil Ho' a Ha. rewrite Hnil in Hout.
  destruct (reachable_inv5 w c cap0 s') as (Hb' & _ & Hq'); [by eapply reach_step; [ | eapply step_publish] | ].
  rewrite (pkt_ack5_eq a s' Hb' (Hq' Ho')). cbv zeta. rewrite Hout. cbn [app ack_error].
  rewrite (proj2 (Z.eqb_neq _ _)) by (cbn; congruence). by eexists.
Qed.

End Laws.

(** ** The settings of a connection *)

Lemma keeps_item pkt : keeps (encode_item pkt).
Proof. unfold encode_item. keeps. Qed.

Lemma keeps_registered {E} idx tp (in_use : Z -> E) enc (packet : M Packet) :
  keeps packet -> keeps (send_registered idx tp in_use enc packet).
Proof. intros Hp. unfold send_registered. keeps. Qed.

Lemma keeps_unwrap idx : keeps (unwrap_id idx).
Proof. unfold unwrap_id. keeps. Qed.

Hint Resolve keeps_item keeps_registered keeps_unwrap : settings.

Lemma keeps_publish5 p : keeps (send_at_least_once_inner p).
Proof. unfold send_at_least_once_inner. keeps. Qed.

Lemma keeps_subscribe b : keeps (subscribe_start b).
Proof. unfold subscribe_start. keeps. Qed.

Lemma keeps_unsubscribe b : keeps (unsubscribe_start b).
Proof. unfold unsubscribe_start. keeps. Qed.

Lemma keeps_pkt_ack a : keeps (pkt_ack a).
Proof.
  unfold pkt_ack. keeps. generalize (inflight_order q) as o. intros o. induction o; cbn [pkt_ack_loop]; keeps.
Qed.

Lemma keeps_qos0 p : keeps (send_at_most_once p).
Proof. unfold send_at_most_once, sink_open. keeps. Qed.
Lemma keeps_send pkt : keeps (send pkt).
Proof. unfold send. keeps. Qed.
Lemma keeps_ping : keeps ping.
Proof. unfold ping. keeps. Qed.
Lemma keeps_close pkt : keeps (close_with_reason pkt).
Proof. unfold close_with_reason, sink_open. keeps. Qed.
Lemma keeps_drop_sink : keeps drop_sink.
Proof. unfold drop_sink. keeps. Qed.
Lemma keeps_result a : keeps (publish_result a).
Proof. unfold publish_result, Ack_publish. keeps. Qed.

Hint Resolve keeps_publish5 keeps_subscribe keeps_unsubscribe keeps_pkt_ack keeps_qos0 keeps_send
  keeps_ping keeps_close keeps_drop_sink keeps_result : settings.

Lemma step_settings s s' : step s s' -> settings s' = settings s.
Proof.
  assert (H0 : forall A (m : M A) s a s', keeps m -> m s = Some (a, s') -> settings s' = settings s)
    by (intros A m s1 a s2 Hm; apply Hm).
  destruct 1 as [p f s' H|p r s' H|f r s' H|f r s' H|f r s' H|a r s' H|pkt r s' H|r s' H|pkt r s' H|r s' H|f s' H|n s' H|w H];
    [eapply H0; [ | exact H] .. | done]; auto with settings.
  all: first [apply keeps_poll_send | apply keeps_begin_send]; auto with settings;
    intros; unfold Ack_subscribe, Ack_unsubscribe; keeps.
Qed.

End V5Sink.

(** ** Runs *)

Definition sim0 : world (Runtime := SimRuntime Ack) := mkSim true [] [] [].
Definition sink0 : MqttShared := MqttShared_new sim0 Codec_new 1.
Definition hello : Publish := publish [97] [104; 105].
Definition after1 : MqttShared (R := SimRuntime Ack) :=
  match send_at_least_once hello sink0 with Some (_, s) => s | None => sink0 end.

Lemma sent1 : send_at_least_once hello sink0 = Some (SF_Ack (0%nat : tx), after1).
Proof. by vm_compute. Qed.

Lemma v5_sink_refines_witness :
  spec_step (abs sink0) (abs after1) /\ abs after1 = Some [mkEntry 1 (0%nat : tx) AT_Publish].
Proof.
  split; [ | by vm_compute].
  eapply (v5_sink_refines (R := SimRuntime Ack) sim0 Codec_new 1); [apply reach_new | ].
  eapply (step_publish _ hello), sent1.
Defined.

Lemma v5_pkt_ack_fifo_witness :
  exists s', pkt_ack (Ack_Publish (mkAck 2 PA_Success [] None)) after1 = Some (err PPacketIdMismatch, s') /\
    outstanding (queues s') = [] /\ inflight (queues s') !! 1 = Some (0%nat : tx, AT_Publish).
Proof.
  destruct (v5_pkt_ack_fifo (R := SimRuntime Ack) sim0 Codec_new 1 after1
              (Ack_Publish (mkAck 2 PA_Success [] None))) as (s' & Ho & H).
  - eapply reach_step; [apply reach_new | ]. eapply (step_publish _ hello), sent1.
  - by vm_compute.
  - assert (E : outstanding (queues after1) = [mkEntry 1 (0%nat : tx) AT_Publish]) by (by vm_compute).
    rewrite E in *. cbn in H. destruct H as (Hs & _ & _ & _ & _ & Hi). exists s'. by split.
Defined.

(** The peer takes 20 bytes at most. *)
Definition small_sink : MqttShared (R := SimRuntime Ack) := MqttShared_new sim0 (set_max_outbound_size Codec_new 20) 2.
Definition big : Publish := publish [97] (repeat 0 30).

Lemma v5_failed_publish_stays_witness :
  exists s' s'', send_at_least_once big small_sink = Some (SF_Done (err (Q_Encode EInvalidLength)), s') /\
    outstanding (queues s') = [mkEntry 1 (0%nat : tx) AT_Publish] /\
    pkt_ack (Ack_Publish (mkAck 2 PA_Success [] None)) s' = Some (err PPacketIdMismatch, s'').
Proof.
  destruct (v5_failed_publish_stays (R := SimRuntime Ack) sim0 (set_max_outbound_size Codec_new 20) 2 small_sink big EInvalidLength)
    as (s' & Hs & Ho & _ & Ha); [apply reach_new | by vm_compute .. | ].
  assert (Hop : is_open (io s') = true).
  { assert (H : match send_at_least_once big small_sink with Some (_, s) => is_open (io s) | None => false end = true)
      by (by vm_compute). by rewrite Hs in H. }
  destruct (Ha eq_refl Hop (Ack_Publish (mkAck 2 PA_Success [] None))) as [s'' Hp]; [done | ].
  exists s', s''. split; [exact Hs | ]. split; [exact Ho | exact Hp].
Defined.
