(* ===== verification/V3Dispatcher.v ===== *)
(** * The server dispatcher of MQTT 3.1.1 (src/v3/dispatcher.rs, src/v3/control.rs)

    The dispatcher receives the packets of the peer, hands them to the publish
    and control services of the application, and makes the response packets.
    The services are application code: what polling their futures gives is an
    argument of the [poll] functions. *)

From stdpp Require Import base gmap list strings.
From S2P Require Import Prelude Types Wire V3Codec Sink V3Sink Inflight.
Open Scope Z_scope.

(** ** Control messages (src/v3/control.rs) *)

Record SubscribeMsg : Type := mkSubscribeMsg {
  sm_packet_id : NonZeroU16;
  sm_topics : list (ByteString * QoS);
  sm_codes : list SubscribeReturnCode;
}.

Record UnsubscribeMsg : Type := mkUnsubscribeMsg {
  um_packet_id : NonZeroU16;
  um_topics : list ByteString;
}.

Inductive ControlMessage : Type :=
| CM_Ping
| CM_Disconnect
| CM_Subscribe (s : SubscribeMsg)
| CM_Unsubscribe (u : UnsubscribeMsg)
| CM_Closed (is_error : bool).

(** [ControlResult] with its [ControlResultKind] *)
Inductive ControlResult : Type :=
| CR_Nothing
| CR_PublishAck (id : NonZeroU16)
| CR_Ping
| CR_Disconnect
| CR_Subscribe (codes : list SubscribeReturnCode) (packet_id : NonZeroU16)
| CR_Unsubscribe (packet_id : NonZeroU16)
| CR_Closed.

(** [ControlMessage::disconnect], [Ping::ack], [Disconnect::ack], [Closed::ack] *)
Definition disconnect (_ : ControlMessage) : ControlResult := CR_Disconnect.
Definition Ping_ack : ControlResult := CR_Ping.
Definition Disconnect_ack : ControlResult := CR_Disconnect.
Definition Closed_ack : ControlResult := CR_Closed.

(** [Subscribe::new]: every topic fails until it is confirmed. *)
Definition Subscribe_new (packet_id : NonZeroU16) (topics : list (ByteString * QoS)) : SubscribeMsg :=
  mkSubscribeMsg packet_id topics (repeat Failure (length topics)).

Definition Subscribe_ack (s : SubscribeMsg) : ControlResult :=
  CR_Subscribe (sm_codes s) (sm_packet_id s).

(** [SubscribeIter::next]: the entry with the topic, its qos and the place of
    its code; [topics[entry]] and [codes[entry]] panic out of range. *)
Definition SubscribeIter_next (s : SubscribeMsg) (entry : nat)
  : option (option (ByteString * QoS * nat) * nat) :=
  if decide (entry < length (sm_topics s))%nat then
    match sm_topics s !! entry, sm_codes s !! entry with
    | Some (topic, qos), Some _ => Some (Some (topic, qos, entry), S entry)
    | _, _ => None
    end
  else Some (None, entry).

(** [Subscription::confirm] and [Subscription::fail] on the entry *)
Definition Subscription_set (s : SubscribeMsg) (entry : nat) (code : SubscribeReturnCode) : SubscribeMsg :=
  mkSubscribeMsg (sm_packet_id s) (sm_topics s) (<[entry := code]> (sm_codes s)).

(** A handler that goes over the subscriptions and answers each of them. *)
Fixpoint answer_all (fuel : nat) (answer : ByteString -> QoS -> SubscribeReturnCode)
  (entry : nat) (s : SubscribeMsg) : option SubscribeMsg :=
  match fuel with
  | O => None
  | S fuel =>
      match SubscribeIter_next s entry with
      | None => None
      | Some (None, _) => Some s
      | Some (Some (topic, qos, i), entry) =>
          answer_all fuel answer entry (Subscription_set s i (answer topic qos))
      end
  end.

Definition Unsubscribe_ack (u : UnsubscribeMsg) : ControlResult := CR_Unsubscribe (um_packet_id u).

(** The results an application can make of a message: [ack] of the message,
    or [ControlMessage::disconnect]. *)
Definition answers (m : ControlMessage) (r : ControlResult) : Prop :=
  r = disconnect m \/
  match m with
  | CM_Ping => r = Ping_ack
  | CM_Disconnect => r = Disconnect_ack
  | CM_Subscribe s => exists codes, r = CR_Subscribe codes (sm_packet_id s)
  | CM_Unsubscribe u => r = Unsubscribe_ack u
  | CM_Closed _ => r = Closed_ack
  end.

(** [DefaultControlService::call] (src/v3/default.rs) *)
Definition default_control (m : ControlMessage) : ControlResult :=
  match m with
  | CM_Ping => Ping_ack
  | CM_Disconnect => Disconnect_ack
  | CM_Subscribe s => Subscribe_ack s
  | CM_Unsubscribe u => Unsubscribe_ack u
  | CM_Closed _ => Closed_ack
  end.

Section Dispatcher.
Context `{R : Runtime Ack} {E : Type}.
Abbreviation Shared := (@MqttShared Ack R Codec).
Abbreviation MError := (MqttError E).

(** [Dispatcher] with its [Inner] and the sink of its session *)
Record Dispatcher : Type := mkDispatcher {
  d_shutdown : bool;
  d_inflight : gset Z;
  d_sink : Shared;
}.

Definition Dispatcher_new (sink : Shared) : Dispatcher := mkDispatcher false ∅ sink.

Definition DM (A : Type) : Type := Dispatcher -> option (A * Dispatcher).
#[global] Instance DM_ret : MRet DM := fun A a d => Some (a, d).
#[global] Instance DM_bind : MBind DM := fun A B k m d =>
  match m d with Some (a, d') => k a d' | None => None end.

Definition on_sink {A} (m : @M Ack R Codec A) : DM A := fun d =>
  match m (d_sink d) with
  | Some (a, s) => Some (a, mkDispatcher (d_shutdown d) (d_inflight d) s)
  | None => None
  end.

(** [inflight.borrow_mut().insert(id)]: [false] when it was there *)
Definition insert_id (id : Z) : DM bool := fun d =>
  Some (bool_decide (id ∉ d_inflight d), mkDispatcher (d_shutdown d) ({[id]} ∪ d_inflight d) (d_sink d)).
Definition remove_id (id : Z) : DM unit := fun d =>
  Some (tt, mkDispatcher (d_shutdown d) (d_inflight d ∖ {[id]}) (d_sink d)).

(** [Self::Future]: the response is there, or the publish service works on a
    packet, or the control service on a message. *)
Inductive Response : Type :=
| R_Ready (r : result (option Packet) MError)
| R_Publish (packet_id : option NonZeroU16) (p : Publish)
| R_Control (m : ControlMessage).

(** [Dispatcher::call] *)
Definition call (packet : Packet) : DM Response :=
  match packet with
  | PPublish publish =>
      match packet_id publish with
      | Some pid =>
          fresh ← insert_id pid;
          if negb fresh
          then mret (R_Ready (err (MServerError "Duplicated packet id for publish packet")))
          else mret (R_Publish (Some pid) publish)
      | None => mret (R_Publish None publish)
      end
  | PPublishAck packet_id =>
      r ← on_sink (pkt_ack (Ack_Publish packet_id));
      mret (R_Ready (match r with err e => err (MProtocol e) | ok _ => ok None end))
  | PPingRequest => mret (R_Control CM_Ping)
  | PDisconnect => mret (R_Control CM_Disconnect)
  | PSubscribe packet_id topic_filters =>
      fresh ← insert_id packet_id;
      if negb fresh
      then mret (R_Ready (err (MServerError "Duplicated packet id for unsubscribe packet")))
      else mret (R_Control (CM_Subscribe (Subscribe_new packet_id topic_filters)))
  | PUnsubscribe packet_id topic_filters =>
      fresh ← insert_id packet_id;
      if negb fresh
      then mret (R_Ready (err (MServerError "Duplicated packet id for unsubscribe packet")))
      else mret (R_Control (CM_Unsubscribe (mkUnsubscribeMsg packet_id topic_filters)))
  | _ => mret (R_Ready (ok None))
  end.

(** [PublishResponse::poll] and [ControlResponse::poll], from what polling
    the service's future gave; [None] is [Poll::Pending]. *)
Definition PublishResponse_poll (packet_id : option NonZeroU16) (fut : option (result unit MError))
  : DM (option (result (option Packet) MError)) :=
  match fut with
  | None => mret None
  | Some (err e) => mret (Some (err e))
  | Some (ok _) =>
      match packet_id with
      | Some id => _ ← remove_id id; mret (Some (ok (Some (PPublishAck id))))
      | None => mret (Some (ok None))
      end
  end.

Definition ControlResponse_poll (fut : option (result ControlResult MError))
  : DM (option (result (option Packet) MError)) :=
  match fut with
  | None => mret None
  | Some (err e) => mret (Some (err e))
  | Some (ok item) =>
      match item with
      | CR_Ping => mret (Some (ok (Some PPingResponse)))
      | CR_Subscribe codes id =>
          _ ← remove_id id; mret (Some (ok (Some (PSubscribeAck id codes))))
      | CR_Unsubscribe id =>
          _ ← remove_id id; mret (Some (ok (Some (PUnsubscribeAck id))))
      | CR_Disconnect | CR_Closed | CR_Nothing => _ ← on_sink close; mret (Some (ok None))
      | CR_PublishAck _ => fun _ => None
      end
  end.

(** [Dispatcher::poll_shutdown]: the sink is closed and the control service
    gets a last message, once. *)
Definition poll_shutdown (is_error : bool) : DM (option ControlMessage) := fun d =>
  if d_shutdown d then Some (None, d)
  else match close (d_sink d) with
       | Some (_, s) => Some (Some (CM_Closed is_error), mkDispatcher true (d_inflight d) s)
       | None => None
       end.

(** ** The dispatcher at work

    The responses that are not ready are kept by the connection and polled;
    a response that gives its result is gone. *)
Record Sys : Type := mkSys { sys_d : Dispatcher; sys_pending : list Response }.

Definition keep (r : Response) : list Response :=
  match r with R_Ready _ => [] | r => [r] end.

(** What polling a response may give: any result of the publish service, an
    answer to its message from the control service. *)
Inductive poll_response : Response -> Dispatcher -> result (option Packet) MError -> Dispatcher -> Prop :=
| poll_pub id p fut d r d' :
    PublishResponse_poll id (Some fut) d = Some (Some r, d') -> poll_response (R_Publish id p) d r d'
| poll_ctl m a d r d' :
    answers m a -> ControlResponse_poll (Some (ok a)) d = Some (Some r, d') ->
    poll_response (R_Control m) d r d'
| poll_ctl_err m e d r d' :
    ControlResponse_poll (Some (err e)) d = Some (Some r, d') -> poll_response (R_Control m) d r d'.

Inductive sys_step : Sys -> Sys -> Prop :=
| sys_call pkt r d d' l :
    call pkt d = Some (r, d') -> sys_step (mkSys d l) (mkSys d' (l ++ keep r))
| sys_poll resp r d d' l1 l2 :
    poll_response resp d r d' -> sys_step (mkSys d (l1 ++ resp :: l2)) (mkSys d' (l1 ++ l2))
| sys_shutdown b m d d' l :
    poll_shutdown b d = Some (m, d') -> sys_step (mkSys d l) (mkSys d' l)
| sys_sink s d l :
    step (d_sink d) s -> sys_step (mkSys d l) (mkSys (mkDispatcher (d_shutdown d) (d_inflight d) s) l).

Inductive sys_reachable (sink : Shared) : Sys -> Prop :=
| sys_new : sys_reachable sink (mkSys (Dispatcher_new sink) [])
| sys_next s s' : sys_reachable sink s -> sys_step s s' -> sys_reachable sink s'.

(** The packet id a response holds *)
Definition held (r : Response) : list Z :=
  match r with
  | R_Publish (Some id) _ => [id]
  | R_Control (CM_Subscribe s) => [sm_packet_id s]
  | R_Control (CM_Unsubscribe u) => [um_packet_id u]
  | _ => []
  end.

Definition held_all (l : list Response) : list Z := l ≫= held.

(** No response counts against a receive maximum. *)
Definition uncounted (r : Response) : list Z := [].

Lemma uncounted_held r : uncounted r ⊆+ held r.
Proof. apply submseteq_nil_l. Qed.

Definition sys_inv (s : Sys) : Prop :=
  ids_ok held uncounted 0 (d_inflight (sys_d s)) (sys_pending s).

Lemma on_sink_inflight {A} (m : @M Ack R Codec A) d a d' :
  on_sink m d = Some (a, d') -> d_inflight d' = d_inflight d.
Proof. unfold on_sink. destruct (m (d_sink d)) as [[b s]|]; [by intros [= _ <-] | done]. Qed.

(** A call holds at most a fresh id, and takes no id away. *)
Lemma call_takes pkt d r d' :
  call pkt d = Some (r, d') -> takes held uncounted 0 (keep r) (d_inflight d) (d_inflight d').
Proof.
  assert (Hins : forall (id : Z) (r0 : Response) (e : MError),
    keep r0 = [r0] -> held r0 = [id] ->
    (mbind (M := DM) (fun fresh : bool => if negb fresh then mret (R_Ready (err e)) else mret r0) (insert_id id)) d = Some (r, d') ->
    takes held uncounted 0 (keep r) (d_inflight d) (d_inflight d')).
  { intros id r0 e Hk Hr0. unfold mbind, DM_bind, insert_id. case_bool_decide as Hin; cbn [negb].
    - intros [= <- <-]. rewrite Hk. apply takes_one; cbn; rewrite ?Hr0; cbn; auto using NoDup_singleton.
      by intros j ->%list_elem_of_singleton.
    - intros [= <- <-]. apply takes_none; [done | done | cbn; set_solver]. }
  destruct pkt as [c|sp rc|p|id|id|id|id|id fs|id st|id fs|id| | | ]; cbn [call];
    try (by intros [= <- <-]; apply takes_none).
  - destruct (packet_id p) as [pid|]; [by eapply Hins | by intros [= <- <-]; apply takes_none].
  - unfold mbind, DM_bind. destruct (on_sink _ d) as [[a d1]|] eqn:Eo; [ | done].
    intros [= <- <-]. apply takes_none; [done | done | by rewrite (on_sink_inflight _ _ _ _ Eo)].
  - by eapply Hins.
  - by eapply Hins.
Qed.

(** A finished response takes at most its own id away. *)
Lemma poll_releases resp d r d' :
  poll_response resp d r d' -> releases held uncounted resp [] (d_inflight d) (d_inflight d').
Proof.
  assert (Hr : forall j (d1 : Dispatcher) (x y : option (result (option Packet) MError)),
    j ∈ held resp -> (mbind (M := DM) (fun _ : unit => mret x) (remove_id j)) d = Some (y, d1) ->
    releases held uncounted resp [] (d_inflight d) (d_inflight d1)).
  { intros j d1 x y Hj [= _ <-]. by apply releases_removed. }
  assert (Hsame : d_inflight d' = d_inflight d ->
    releases held uncounted resp [] (d_inflight d) (d_inflight d')).
  { intros ->. by apply releases_done. }
  intros Hp. destruct Hp as [[pid|] p [u|e] d r d' H|m a d r d' Ha H|m e d r d' H];
    cbn in H; try (by injection H as _ <-; apply Hsame).
  - eapply Hr; [ | exact H]. cbn. by left.
  - destruct a as [ |i| | |codes i|i| ]; cbn in H; try done; try (by injection H as _ <-; apply Hsame).
    all: try (unfold mbind, DM_bind in H; destruct (on_sink close d) as [[a d1]|] eqn:Eo;
      [injection H as _ <-; by apply Hsame, (on_sink_inflight _ _ _ _ Eo) | done]).
    + destruct Ha as [|Ha]; [done | ]. destruct m; try done; try (by destruct Ha).
      destruct Ha as [codes' [= -> ->]]. eapply Hr; [ | exact H]. cbn. by left.
    + destruct Ha as [|Ha]; [done | ]. destruct m; try done; try (by destruct Ha).
      injection Ha as ->. eapply Hr; [ | exact H]. cbn. by left.
Qed.

Lemma sys_step_inv s s' : sys_inv s -> sys_step s s' -> sys_inv s'.
Proof.
  intros Hi Hs. destruct Hs as [pkt r d d' l H|resp r d d' l1 l2 H|b m d d' l H|sk d l H];
    unfold sys_inv in *; cbn [sys_pending sys_d] in *.
  - by eapply ids_ok_call; [apply uncounted_held | | apply (call_takes pkt)].
  - eapply (ids_ok_poll held uncounted _ resp []); [exact Hi | by eapply poll_releases].
  - unfold poll_shutdown in H. destruct (d_shutdown d); [by injection H as _ <- | ].
    destruct (close (d_sink d)) as [[u sk]|]; [by injection H as _ <- | done].
  - done.
Qed.

Lemma back_out (id : Z) (X : gset Z) : id ∉ X -> ({[id]} ∪ X) ∖ {[id]} = X.
Proof. set_solver. Qed.

Lemma sys_reachable_inv sink s : sys_reachable sink s -> sys_inv s.
Proof.
  induction 1 as [|s s' _ IH Hs]; [ | by eapply sys_step_inv].
  by apply ids_ok_nil.
Qed.

(** ** Properties *)

(** C24: at every moment the packets that the services of the application
    work on (publishes with an id, subscribes and unsubscribes) have
    different packet ids, and every such id is recorded as in flight, so a
    packet that repeats one of them is refused. *)
Theorem v3_ids_unique sink s :
  sys_reachable sink s ->
  NoDup (held_all (sys_pending s)) /\
  (forall id, id ∈ held_all (sys_pending s) -> id ∈ d_inflight (sys_d s)) /\
  forall p (id : Z), packet_id p = Some id -> id ∈ held_all (sys_pending s) ->
    exists d, call (PPublish p) (sys_d s) =
      Some (R_Ready (err (MServerError "Duplicated packet id for publish packet")), d) /\
      d_inflight d = d_inflight (sys_d s).
Proof.
  intros Hr. destruct (sys_reachable_inv _ _ Hr) as [Hd Hin _]. split; [done | ]. split; [done | ].
  intros p id Hp Hid%Hin. eexists. unfold call. rewrite Hp. unfold mbind, DM_bind, insert_id.
  rewrite bool_decide_eq_false_2 by (by intros H). split; [reflexivity | ]. cbn. set_solver.
Qed.

(** a publish with a packet id that is not in flight goes to the
    publish service; when the service succeeds the response is the PUBACK
    with that id, and the id can be used again.  A publish without an id has
    no response packet. *)
Theorem v3_publish_acknowledged (d : Dispatcher) p :
  match packet_id p with
  | Some id =>
      (id : Z) ∉ d_inflight d ->
      exists d', call (PPublish p) d = Some (R_Publish (Some id) p, d') /\
        d_inflight d' = {[(id : Z)]} ∪ d_inflight d /\ d_sink d' = d_sink d /\
        PublishResponse_poll (Some id) (Some (ok tt)) d' = Some (Some (ok (Some (PPublishAck id))), d)
  | None =>
      call (PPublish p) d = Some (R_Publish None p, d) /\
      PublishResponse_poll None (Some (ok tt)) d = Some (Some (ok None), d)
  end.
Proof.
  destruct (packet_id p) as [id|] eqn:Hp; unfold call; rewrite Hp; [ | done].
  intros Hid. eexists. unfold mbind, DM_bind, insert_id. rewrite bool_decide_eq_true_2 by done.
  split; [reflexivity | ]. split; [done | ]. split; [done | ].
  destruct d as [sh infl sk]. cbn. cbn in Hid. unfold mret, DM_ret.
  apply (f_equal (fun x => Some (Some (ok (Some (PPublishAck id))), mkDispatcher sh x sk))).
  apply back_out, Hid.
Qed.

End Dispatcher.

(** [Dispatcher::poll_ready], from the readiness of the two services *)
Definition poll_ready {E} (res1 res2 : option (result unit (MqttError E)))
  : option (result unit (MqttError E)) :=
  match res1 with
  | Some (err e) => Some (err e)
  | _ => match res2 with
         | Some (err e) => Some (err e)
         | _ => match res1, res2 with Some _, Some _ => Some (ok tt) | _, _ => None end
         end
  end.

(** ** The subscription iterator *)

Lemma answer_all_spec answer (s : SubscribeMsg) entry fuel :
  length (sm_codes s) = length (sm_topics s) ->
  (entry <= length (sm_topics s))%nat -> (length (sm_topics s) - entry < fuel)%nat ->
  answer_all fuel answer entry s =
    Some (mkSubscribeMsg (sm_packet_id s) (sm_topics s)
            (take entry (sm_codes s) ++
             map (fun t => answer t.1 t.2) (drop entry (sm_topics s)))).
Proof.
  revert entry s. induction fuel as [|fuel IH]; intros entry s Hl He Hf; [lia | ].
  cbn [answer_all]. unfold SubscribeIter_next. case_decide as Hlt.
  - destruct (lookup_lt_is_Some_2 (sm_topics s) entry Hlt) as [[topic qos] Ht].
    destruct (lookup_lt_is_Some_2 (sm_codes s) entry) as [code Hc]; [lia | ]. rewrite Ht, Hc.
    rewrite IH; cbn [Subscription_set sm_codes sm_topics sm_packet_id];
      [ | by rewrite length_insert | lia | lia].
    do 2 f_equal. rewrite (drop_S _ _ _ Ht). cbn [map].
    rewrite (take_S_r _ _ (answer topic qos)); [ | by apply list_lookup_insert_eq; lia].
    rewrite take_insert_ge by lia. by rewrite <- app_assoc.
  - assert (entry = length (sm_topics s)) as -> by lia.
    rewrite drop_ge, app_nil_r, take_ge by lia. by destruct s.
Qed.

(** C29: going over the subscriptions of a SUBSCRIBE and answering each of
    them never runs out of range and ends; the SUBACK then has the packet id
    of the request and one code for each topic filter, in order.  Without an
    answer every code is a failure. *)
Theorem v3_suback_codes id topics answer :
  answer_all (S (length topics)) answer 0 (Subscribe_new id topics) =
    Some (mkSubscribeMsg id topics (map (fun t => answer t.1 t.2) topics)) /\
  default_control (CM_Subscribe (Subscribe_new id topics)) =
    CR_Subscribe (map (fun _ => Failure) topics) id.
Proof.
  split.
  - rewrite answer_all_spec; cbn [Subscribe_new sm_codes sm_topics sm_packet_id];
      [ | apply repeat_length | lia | lia].
    by rewrite take_0, drop_0.
  - cbn. unfold Subscribe_ack. cbn. f_equal. induction topics; cbn; [done | by f_equal].
Qed.

Definition publish7 : Packet := PPublish (set_packet_id hello (Some 7)).
Definition disp1 : Dispatcher (R := SimRuntime Ack) := mkDispatcher false ({[7]} ∪ ∅) (sink0 1).

Lemma v3_ids_unique_witness :
  exists d', call (E := unit) publish7 disp1 =
      Some (R_Ready (err (MServerError "Duplicated packet id for publish packet")), d').
Proof.
  destruct (v3_ids_unique (E := unit) (sink0 1)
              (mkSys disp1 [R_Publish (Some 7) (set_packet_id hello (Some 7))])) as (_ & _ & Hdup).
  - eapply sys_next; [apply sys_new | ].
    apply (sys_call publish7 (R_Publish (Some 7) (set_packet_id hello (Some 7)))
             (Dispatcher_new (sink0 1)) disp1 []). reflexivity.
  - destruct (Hdup (set_packet_id hello (Some 7)) 7 eq_refl) as (d' & Hd & _); [by left | ].
    exists d'. exact Hd.
Defined.

Lemma v3_publish_acknowledged_witness :
  exists d', call (E := unit) (PPublish (set_packet_id hello (Some 9))) (Dispatcher_new (sink0 1)) =
               Some (R_Publish (Some 9) (set_packet_id hello (Some 9)), d') /\
    PublishResponse_poll (E := unit) (Some 9) (Some (ok tt)) d' =
      Some (Some (ok (Some (PPublishAck 9))), Dispatcher_new (sink0 1)).
Proof.
  destruct (v3_publish_acknowledged (E := unit) (Dispatcher_new (sink0 1))
              (set_packet_id hello (Some 9))) as (d & Hcall & _ & _ & Hp); [by vm_compute | ].
  exists d. split; [exact Hcall | exact Hp].
Defined.
