(* ===== verification/V3Client.v ===== *)
(** * The client dispatcher of MQTT 3.1.1 (src/v3/client/dispatcher.rs, src/v3/client/control.rs)

    The dispatcher of a client serves publishes and acknowledgements; a
    publish that no handler takes goes to the control service of the
    application.  What polling the services gives is an argument of the
    [poll] functions. *)

From stdpp Require Import base gmap list strings.
From S2P Require Import Prelude Types Wire V3Codec Sink V3Sink Inflight.
From S2P Require Import V3Dispatcher.
Open Scope Z_scope.

(** ** Control messages (src/v3/client/control.rs) *)

Inductive ControlMessage : Type :=
| CC_Publish (p : Publish)
| CC_Disconnect
| CC_Closed (is_error : bool).

(** [ControlMessage::disconnect], [Publish::ack] *)
Definition disconnect (m : ControlMessage) : ControlResult := CR_Disconnect.
Definition Publish_ack (p : Publish) : ControlResult :=
  match packet_id p with Some id => CR_PublishAck id | None => CR_Nothing end.

(** What an application can make of a message: its [ack], or [disconnect] *)
Definition client_answers (m : ControlMessage) (r : ControlResult) : Prop :=
  r = disconnect m \/
  r = match m with
      | CC_Publish p => Publish_ack p
      | CC_Disconnect => CR_Disconnect
      | CC_Closed _ => CR_Closed
      end.

Section Client.
Context `{R : Runtime Ack} {E : Type}.
Abbreviation Shared := (@MqttShared Ack R Codec).
Abbreviation MError := (MqttError E).

(** [Dispatcher] with its [Inner] is the record of the server's. *)

(** [Self::Future]: a publish that the publish service works on, the control
    service on a message, also for a publish *)
Inductive Response : Type :=
| R_Ready (r : result (option Packet) MError)
| R_Publish (packet_id : option NonZeroU16) (p : Publish)
| R_PublishControl (packet_id : option NonZeroU16) (m : ControlMessage)
| R_Control (m : ControlMessage).

(** An acknowledgement of the server *)
Definition call_ack (a : Ack) : DM Response :=
  r ← on_sink (pkt_ack a);
  mret (R_Ready (match r with err e => err (MProtocol e) | ok _ => ok None end)).

(** [Dispatcher::call] *)
Definition call (packet : Packet) : DM Response :=
  match packet with
  | PPublish publish =>
      match packet_id publish with
      | Some pid =>
          fresh ← insert_id pid;
          if negb fresh
          then mret (R_Ready (err (MServerError "Duplicated packet id for publish packet")))
          else mret (R_Publish (Some pid) publish)
      | None => mret (R_Publish None publish)
      end
  | PPublishAck packet_id => call_ack (Ack_Publish packet_id)
  | PPingRequest => mret (R_Ready (ok (Some PPingResponse)))
  | PDisconnect => mret (R_Control CC_Disconnect)
  | PSubscribeAck packet_id status => call_ack (Ack_Subscribe packet_id status)
  | PUnsubscribeAck packet_id => call_ack (Ack_Unsubscribe packet_id)
  | PSubscribe _ _ =>
      mret (R_Ready (err (MProtocol (PUnexpected pt_SUBSCRIBE "Subscribe packet is not supported"))))
  | PUnsubscribe _ _ =>
      mret (R_Ready (err (MProtocol (PUnexpected pt_UNSUBSCRIBE "Unsubscribe packet is not supported"))))
  | _ => mret (R_Ready (ok None))
  end.

Abbreviation polled := (option (result (option Packet) MError)).

(** [ControlResponse::poll]: subscriptions are [unreachable!] *)
Definition ControlResponse_poll (fut : option (result ControlResult MError)) : DM polled :=
  match fut with
  | None => mret None
  | Some (err e) => mret (Some (err e))
  | Some (ok item) =>
      match item with
      | CR_Ping => mret (Some (ok (Some PPingResponse)))
      | CR_PublishAck id => _ ← remove_id id; mret (Some (ok (Some (PPublishAck id))))
      | CR_Subscribe _ _ | CR_Unsubscribe _ => fun _ => None
      | CR_Disconnect => _ ← on_sink close; mret (Some (ok (Some PDisconnect)))
      | CR_Closed | CR_Nothing => mret (Some (ok None))
      end
  end.

(** [PublishResponse::poll]: the publish service is done with the packet, or
    gives it back for the control service ([inr]). *)
Definition PublishResponse_poll (pc : ControlMessage -> option (result ControlResult MError))
  (id : option NonZeroU16) (p : Publish) (fut : option (result (unit + Publish) MError))
  : DM (polled * Response) :=
  match fut with
  | None => mret (None, R_Publish id p)
  | Some (err e) => mret (Some (err e), R_Publish id p)
  | Some (ok (inl _)) =>
      match id with
      | Some pid => _ ← remove_id pid; mret (Some (ok (Some (PPublishAck pid))), R_Publish id p)
      | None => mret (Some (ok None), R_Publish id p)
      end
  | Some (ok (inr pkt)) =>
      x ← ControlResponse_poll (pc (CC_Publish pkt));
      mret (x, R_PublishControl id (CC_Publish pkt))
  end.

(** Polling any response, with what the services give at this moment *)
Definition poll (pc : ControlMessage -> option (result ControlResult MError))
  (fut : option (result (unit + Publish) MError)) (r : Response) : DM (polled * Response) :=
  match r with
  | R_Ready x => mret (Some x, r)
  | R_Publish id p => PublishResponse_poll pc id p fut
  | R_PublishControl _ m | R_Control m => x ← ControlResponse_poll (pc m); mret (x, r)
  end.

(** [Dispatcher::poll_shutdown] *)
Definition poll_shutdown (is_error : bool) : DM (option ControlMessage) := fun d =>
  if d_shutdown d then Some (None, d)
  else match close (d_sink d) with
       | Some (_, s) => Some (Some (CC_Closed is_error), mkDispatcher true (d_inflight d) s)
       | None => None
       end.

(** [Dispatcher::poll_ready], from the readiness of the two services *)
Definition poll_ready (res1 res2 : option (result unit MError)) : option (result unit MError) :=
  match res1 with
  | Some (err e) => Some (err e)
  | _ => match res2 with
         | Some (err e) => Some (err e)
         | _ => match res1, res2 with Some _, Some _ => Some (ok tt) | _, _ => None end
         end
  end.

(** ** The dispatcher at work

    The services answer what the application can make; a publish that comes
    back from the publish service is the one it was given. *)
Record Sys : Type := mkSys { sys_d : Dispatcher; sys_pending : list Response }.

Definition keep (r : Response) : list Response := match r with R_Ready _ => [] | r => [r] end.

Definition services (pc : ControlMessage -> option (result ControlResult MError))
  (fut : option (result (unit + Publish) MError)) (r : Response) : Prop :=
  (forall m a, pc m = Some (ok a) -> client_answers m a) /\
  (forall id p pkt, r = R_Publish id p -> fut = Some (ok (inr pkt)) -> packet_id pkt = packet_id p).

Inductive sys_step : Sys -> Sys -> Prop :=
| sys_call pkt r d d' l :
    call pkt d = Some (r, d') -> sys_step (mkSys d l) (mkSys d' (l ++ keep r))
| sys_poll pc fut resp resp' x d d' l1 l2 :
    services pc fut resp -> poll pc fut resp d = Some (x, resp', d') ->
    sys_step (mkSys d (l1 ++ resp :: l2))
             (mkSys d' (l1 ++ match x with Some _ => [] | None => [resp'] end ++ l2))
| sys_shutdown b m d d' l :
    poll_shutdown b d = Some (m, d') -> sys_step (mkSys d l) (mkSys d' l)
| sys_sink s d l :
    step (d_sink d) s -> sys_step (mkSys d l) (mkSys (mkDispatcher (d_shutdown d) (d_inflight d) s) l).

Inductive sys_reachable (sink : Shared) : Sys -> Prop :=
| sys_new : sys_reachable sink (mkSys (Dispatcher_new sink) [])
| sys_next s s' : sys_reachable sink s -> sys_step s s' -> sys_reachable sink s'.

(** ** Invariant *)

Definition held (r : Response) : list Z :=
  match r with R_Publish (Some id) _ | R_PublishControl (Some id) _ => [id] | _ => [] end.
Definition held_all (l : list Response) : list Z := l ≫= held.

(** The message of a response is about its packet. *)
Definition about (r : Response) : Prop :=
  match r with
  | R_Ready _ => True
  | R_Publish id p => packet_id p = id
  | R_PublishControl id m => exists p, m = CC_Publish p /\ packet_id p = id
  | R_Control m => m = CC_Disconnect
  end.

Lemma keep_about r : about r -> Forall about (keep r).
Proof. destruct r; cbn; auto. Qed.

(** A call always returns, and takes at most a fresh id. *)
Lemma call_client pkt d :
  borrowed (d_sink d) = false ->
  exists r d', call pkt d = Some (r, d') /\ about r /\
    takes held held 0 (keep r) (d_inflight d) (d_inflight d') /\
    (d_sink d' = d_sink d \/ step (d_sink d) (d_sink d')).
Proof.
  intros Hb.
  assert (Hret : forall r, about r -> keep r ≫= held = [] ->
    exists r' d', (mret r : DM Response) d = Some (r', d') /\ about r' /\
      takes held held 0 (keep r') (d_inflight d) (d_inflight d') /\
      (d_sink d' = d_sink d \/ step (d_sink d) (d_sink d'))).
  { intros r Hr Hk. eexists _, _. split; [done | ]. split; [done | ]. split; [by apply takes_none | by left]. }
  assert (Hack : forall a, exists r' d', call_ack a d = Some (r', d') /\ about r' /\
      takes held held 0 (keep r') (d_inflight d) (d_inflight d') /\
      (d_sink d' = d_sink d \/ step (d_sink d) (d_sink d'))).
  { intros a. destruct (pkt_ack_total a (d_sink d) Hb) as (x & s' & Ha).
    unfold call_ack, mbind, DM_bind, on_sink. rewrite Ha. eexists _, _. split; [reflexivity | ].
    split; [done | ]. split; [by apply takes_none | ]. right. by eapply step_ack. }
  destruct pkt as [c|sp rc|p|id|id|id|id|id fs|id st|id fs|id| | | ]; cbn [call];
    try (by apply Hack); try (by apply Hret).
  destruct (packet_id p) as [pid|] eqn:Hp; [ | by apply Hret].
  unfold mbind, DM_bind, insert_id. case_bool_decide as Hin; cbn [negb]; eexists _, _;
    (split; [reflexivity | ]); (split; [done | ]); (split; [ | by left]).
  - apply takes_one; cbn; auto using NoDup_singleton. by intros j ->%list_elem_of_singleton.
  - apply takes_none; [done | done | cbn; set_solver].
Qed.

(** So does a poll; the [unreachable!] is not reached. *)
Lemma control_client pc m d :
  borrowed (d_sink d) = false -> (forall m a, pc m = Some (ok a) -> client_answers m a) ->
  exists x d', ControlResponse_poll (pc m) d = Some (x, d') /\
    (x = None -> d' = d) /\
    (d_sink d' = d_sink d \/ step (d_sink d) (d_sink d')) /\
    (d_inflight d' = d_inflight d \/
     exists p (id : Z), m = CC_Publish p /\ packet_id p = Some id /\
       d_inflight d' = d_inflight d ∖ {[id]}).
Proof.
  intros Hb Hpc. specialize (Hpc m). destruct (pc m) as [[a|e]|]; cbn [ControlResponse_poll];
    [ | by eexists _, _; split; [done | auto] ..].
  specialize (Hpc a eq_refl) as Ha.
  assert (Hdis : exists x d', ControlResponse_poll (Some (ok CR_Disconnect)) d = Some (x, d') /\
    x <> None /\ step (d_sink d) (d_sink d') /\ d_inflight d' = d_inflight d).
  { cbn. unfold mbind, DM_bind, on_sink. rewrite (close_eq _ Hb). eexists _, _. split; [reflexivity | ].
    split; [done | ]. split; [ | done]. eapply step_close. by rewrite (close_eq _ Hb). }
  destruct Hdis as (xd & dd & Hd & Hx & Hst & Hf).
  assert (Hcut : a = CR_Disconnect -> exists x d', ControlResponse_poll (Some (ok a)) d = Some (x, d') /\
    (x = None -> d' = d) /\ (d_sink d' = d_sink d \/ step (d_sink d) (d_sink d')) /\
    (d_inflight d' = d_inflight d \/ exists p (id : Z), m = CC_Publish p /\ packet_id p = Some id /\
       d_inflight d' = d_inflight d ∖ {[id]})).
  { intros ->. exists xd, dd. split_and!; [exact Hd | done | by right | by left]. }
  destruct Ha as [->|Ha]; [by apply Hcut | ].
  destruct m as [p| |b]; subst a; [ | by apply Hcut | by eexists _, _; split; [done | auto]].
  unfold Publish_ack. destruct (packet_id p) as [id|] eqn:Hp; cbn;
    [ | by eexists _, _; split; [done | auto]].
  eexists _, _. split; [reflexivity | ]. split; [done | ]. split; [by left | ].
  right. by exists p, id.
Qed.

Lemma poll_client pc fut r d :
  borrowed (d_sink d) = false -> services pc fut r -> about r ->
  exists x r' d', poll pc fut r d = Some (x, r', d') /\ about r' /\
    (d_sink d' = d_sink d \/ step (d_sink d) (d_sink d')) /\
    releases held held r (match x with Some _ => [] | None => [r'] end) (d_inflight d) (d_inflight d').
Proof.
  intros Hb [Hpc Hfut] Hr.
  assert (Hctl : forall m r', held r' = held r -> about r' ->
    (forall p id, m = CC_Publish p -> packet_id p = Some id -> (id : Z) ∈ held r) ->
    exists x r1 d', (x ← ControlResponse_poll (pc m); mret (x, r') : DM _) d = Some (x, r1, d') /\
      about r1 /\ (d_sink d' = d_sink d \/ step (d_sink d) (d_sink d')) /\
      releases held held r (match x with Some _ => [] | None => [r1] end) (d_inflight d) (d_inflight d')).
  { intros m r' Hh Ha Hid. destruct (control_client pc m d Hb Hpc) as (x & d' & Ex & Hn & Hst & Hf).
    exists x, r', d'. unfold mbind, DM_bind. rewrite Ex. split; [done | ]. split; [done | ]. split; [done | ].
    split.
    - destruct Hf as [->|(p & id & -> & Hp & ->)]; [done | ]. specialize (Hid p id eq_refl Hp). set_solver.
    - destruct x; [by left | right]. cbn. rewrite app_nil_r, Hh, (Hn eq_refl). done. }
  assert (Hdone : forall x, exists x1 r1 d', (mret (Some x, r) : DM (polled * Response)) d = Some (x1, r1, d') /\
      about r1 /\ (d_sink d' = d_sink d \/ step (d_sink d) (d_sink d')) /\
      releases held held r (match x1 with Some _ => [] | None => [r1] end) (d_inflight d) (d_inflight d')).
  { intros x. eexists _, _, _. split; [done | ]. split; [done | ]. split; [by left | by apply releases_done]. }
  destruct r as [y|id p|id m|m]; cbn [poll].
  - apply Hdone.
  - cbn in Hr. unfold PublishResponse_poll. destruct fut as [[[u|pkt]|e]|].
    + destruct id as [pid|]; [ | apply Hdone]. eexists _, _, _. split; [reflexivity | ].
      split; [done | ]. split; [by left | ]. apply releases_removed. by left.
    + assert (Hpid : packet_id pkt = id) by (by rewrite (Hfut id p pkt eq_refl eq_refl)).
      apply (Hctl (CC_Publish pkt)); [by destruct id | by exists pkt | ].
      intros p' id' [= <-] Hp'. rewrite Hpid in Hp'. rewrite Hp'. by left.
    + apply Hdone.
    + eexists _, _, _. split; [done | ]. split; [done | ]. split; [by left | ]. split; [done | right].
      cbn. by rewrite app_nil_r.
  - destruct Hr as (p & -> & Hp). apply (Hctl (CC_Publish p)); [done | by exists p | ].
    intros p' id' [= <-] Hp'. rewrite Hp in Hp'. rewrite Hp'. by left.
  - cbn in Hr. subst m. by apply Hctl.
Qed.

Definition sys_inv (w : world) (c : Codec) (cap : Z) (s : Sys) : Prop :=
  reachable w c cap (d_sink (sys_d s)) /\ Forall about (sys_pending s) /\
  ids_ok held held 0 (d_inflight (sys_d s)) (sys_pending s).

Section Laws.
Context {L : RuntimeLaws Ack}.

Lemma reachable_borrowed w c cap s : reachable w c cap s -> borrowed s = false.
Proof. by intros [Hb _]%reachable_inv. Qed.

Lemma reachable_moved w c cap s s' :
  reachable w c cap s -> s' = s \/ step s s' -> reachable w c cap s'.
Proof. intros Hr [->|Hs]; [done | by eapply reach_step]. Qed.

Lemma client_step_inv w c cap s s' : sys_inv w c cap s -> sys_step s s' -> sys_inv w c cap s'.
Proof.
  intros (H1 & H2 & H3) Hs. pose proof (reachable_borrowed _ _ _ _ H1) as Hb.
  destruct Hs as [pkt r d d' l H|pc fut resp resp' x d d' l1 l2 Hsv H|b m d d' l H|sk d l H];
    unfold sys_inv in *; cbn [sys_pending sys_d] in *.
  - destruct (call_client pkt d Hb) as (r1 & d1 & Ec & Ha & Ht & Hm). rewrite H in Ec.
    injection Ec as <- <-. split; [by eapply reachable_moved | ].
    split; [apply Forall_app; split; [done | by apply keep_about] | by eapply ids_ok_call].
  - apply Forall_app in H2 as [Hf1 [Ha Hf2]%Forall_cons].
    destruct (poll_client pc fut resp d Hb Hsv Ha) as (x1 & r1 & d1 & Ep & Ha' & Hm & Hr).
    rewrite H in Ep. injection Ep as <- <- <-. split; [by eapply reachable_moved | ].
    split; [ | by eapply ids_ok_poll]. rewrite !Forall_app. split; [done | ]. split; [ | done].
    destruct x; auto.
  - unfold poll_shutdown in H. destruct (d_shutdown d); [by injection H as _ <- | ].
    destruct (close (d_sink d)) as [[u sk]|] eqn:Ec; [injection H as _ <- | done].
    split; [ | done]. eapply reach_step; [exact H1 | by eapply step_close].
  - split; [by eapply reach_step | done].
Qed.

Lemma client_reachable_inv w c cap sink s :
  reachable w c cap sink -> sys_reachable sink s -> sys_inv w c cap s.
Proof.
  intros Hsink. induction 1 as [|s s' _ IH Hs]; [ | by eapply client_step_inv].
  split; [done | ]. split; [apply Forall_nil_2 | by apply ids_ok_nil].
Qed.

(** ** Properties *)

(** A client never panics on what a server sends or on what the
    application answers: every call and every poll of a pending response
    returns (the [unreachable!] of the control response is not reached).  The
    publishes in work have different packet ids, each recorded as in flight. *)
Theorem v3_client_safe w c cap sink s :
  reachable w c cap sink -> sys_reachable sink s ->
  (forall pkt, is_Some (call pkt (sys_d s))) /\
  (forall pc fut r, r ∈ sys_pending s -> services pc fut r -> is_Some (poll pc fut r (sys_d s))) /\
  NoDup (held_all (sys_pending s)) /\
  (forall id, id ∈ held_all (sys_pending s) -> id ∈ d_inflight (sys_d s)).
Proof.
  intros Hsink Hs. destruct (client_reachable_inv _ _ _ _ _ Hsink Hs) as (Hr & Ha & [Hd Hin _]).
  pose proof (reachable_borrowed _ _ _ _ Hr) as Hb. split; [ | split; [ | done]].
  - intros pkt. destruct (call_client pkt (sys_d s) Hb) as (r & d & -> & _). done.
  - intros pc fut r Hin' Hsv. rewrite Forall_forall in Ha.
    destruct (poll_client pc fut r (sys_d s) Hb Hsv (Ha r Hin')) as (x & r' & d & -> & _). done.
Qed.

End Laws.

End Client.


(** ** A run *)

Definition client1 : Sys (R := SimRuntime Ack) (E := unit) :=
  mkSys disp1 [R_Publish (Some 7) (set_packet_id hello (Some 7))].

Lemma v3_client_safe_witness :
  is_Some (call (E := unit) (PPublishAck 3) (sys_d client1)) /\
  (forall id, id ∈ held_all (sys_pending client1) -> id ∈ d_inflight (sys_d client1)).
Proof.
  destruct (v3_client_safe (E := unit) sim0 Codec_new 1 (sink0 1) client1) as (Hc & _ & _ & Hin).
  - apply reach_new.
  - eapply sys_next; [apply sys_new | ].
    apply (sys_call publish7 (R_Publish (Some 7) (set_packet_id hello (Some 7)))
             (Dispatcher_new (sink0 1)) disp1 []). reflexivity.
  - split; [apply Hc | exact Hin].
Defined.
