(* ===== verification/V5Control.v ===== *)
(** * Control messages of MQTT 5 (src/v5/control.rs, src/v5/publish.rs, src/v5/default.rs)

    What the dispatcher tells the control service of the application, and the
    results the application can make of it. *)

From stdpp Require Import base list.
From S2P Require Import Prelude Types Wire V5Props V5PubAcks V5Subscribe V5Disconnect V5Publish V5Codec Sink.
Open Scope Z_scope.

(** [ControlResult] *)
Record ControlResult : Type := mkControlResult {
  cr_packet : option Packet;
  cr_disconnect : bool;
}.

(** [Subscribe] and [Unsubscribe]: the request with the answer in the making *)
Record SubscribeMsg : Type := mkSubscribeMsg { sm_packet : Subscribe; sm_result : SubscribeAck }.
Record UnsubscribeMsg : Type := mkUnsubscribeMsg { um_packet : Unsubscribe; um_result : UnsubscribeAck }.

Inductive ControlMessage (E : Type) : Type :=
| CM_Auth (pkt : Auth)
| CM_Ping
| CM_Disconnect (pkt : Disconnect)
| CM_Subscribe (s : SubscribeMsg)
| CM_Unsubscribe (u : UnsubscribeMsg)
| CM_Closed (is_error : bool)
| CM_Error (err : E) (pkt : Disconnect)
| CM_ProtocolError (err : ProtocolError) (pkt : Disconnect).
Arguments CM_Auth {E} pkt.
Arguments CM_Ping {E}.
Arguments CM_Disconnect {E} pkt.
Arguments CM_Subscribe {E} s.
Arguments CM_Unsubscribe {E} u.
Arguments CM_Closed {E} is_error.
Arguments CM_Error {E} err pkt.
Arguments CM_ProtocolError {E} err pkt.

(** [ControlMessage::disconnect_with], [ControlMessage::disconnect] *)
Definition disconnect_with (pkt : Disconnect) : ControlResult :=
  mkControlResult (Some (Pkt_Disconnect pkt)) true.
Definition disconnect : ControlResult :=
  disconnect_with {| di_reason_code := DR_NormalDisconnection; di_session_expiry_interval_secs := None;
                     di_server_reference := None; di_reason_string := None; di_user_properties := [] |}.

(** [Auth::ack], [Ping::ack], [Disconnect::ack], [Closed::ack] *)
Definition Auth_ack (response : Auth) : ControlResult := mkControlResult (Some (Pkt_Auth response)) false.
Definition Ping_ack : ControlResult := mkControlResult (Some Pkt_PingResponse) false.
Definition Disconnect_ack : ControlResult := mkControlResult None true.
Definition Closed_ack : ControlResult := mkControlResult None false.

(** [Subscribe::create]: every filter is an error until it is confirmed. *)
Definition Subscribe_create {E} (packet : Subscribe) : ControlMessage E :=
  CM_Subscribe (mkSubscribeMsg packet
    {| sa_packet_id := su_packet_id packet; sa_properties := []; sa_reason_string := None;
       sa_status := repeat SA_UnspecifiedError (length (su_topic_filters packet)) |}).

(** [SubscribeIter::next]; indexing out of range panics *)
Definition SubscribeIter_next (s : SubscribeMsg) (entry : nat)
  : option (option (ByteString * SubscriptionOptions * nat) * nat) :=
  if decide (entry < length (su_topic_filters (sm_packet s)))%nat then
    match su_topic_filters (sm_packet s) !! entry, sa_status (sm_result s) !! entry with
    | Some (topic, opts), Some _ => Some (Some (topic, opts, entry), S entry)
    | _, _ => None
    end
  else Some (None, entry).

Definition set_status {S} (a : StatusAck S) (status : list S) : StatusAck S :=
  {| sa_packet_id := sa_packet_id a; sa_properties := sa_properties a;
     sa_reason_string := sa_reason_string a; sa_status := status |}.

(** [Subscription::fail], [Subscription::confirm] *)
Definition Subscription_fail (s : SubscribeMsg) (entry : nat) (status : SubscribeAckReason) : SubscribeMsg :=
  mkSubscribeMsg (sm_packet s) (set_status (sm_result s) (<[entry := status]> (sa_status (sm_result s)))).
Definition granted (qos : QoS) : SubscribeAckReason :=
  match qos with
  | AtMostOnce => SA_GrantedQos0
  | AtLeastOnce => SA_GrantedQos1
  | ExactlyOnce => SA_GrantedQos2
  end.
Definition Subscription_confirm (s : SubscribeMsg) (entry : nat) (qos : QoS) : SubscribeMsg :=
  Subscription_fail s entry (granted qos).

(** [Subscribe::ack_reason], [Subscribe::ack_properties], [Subscribe::ack] *)
Definition Subscribe_ack_reason (s : SubscribeMsg) (reason : ByteString) : SubscribeMsg :=
  let a := sm_result s in
  mkSubscribeMsg (sm_packet s)
    {| sa_packet_id := sa_packet_id a; sa_properties := sa_properties a;
       sa_reason_string := Some reason; sa_status := sa_status a |}.
Definition Subscribe_ack_properties (s : SubscribeMsg) (f : UserProperties -> UserProperties) : SubscribeMsg :=
  let a := sm_result s in
  mkSubscribeMsg (sm_packet s)
    {| sa_packet_id := sa_packet_id a; sa_properties := f (sa_properties a);
       sa_reason_string := sa_reason_string a; sa_status := sa_status a |}.
Definition Subscribe_ack (s : SubscribeMsg) : ControlResult :=
  mkControlResult (Some (Pkt_SubscribeAck (sm_result s))) false.

(** [Unsubscribe::create]: every filter succeeds unless it is failed. *)
Definition Unsubscribe_create {E} (packet : Unsubscribe) : ControlMessage E :=
  CM_Unsubscribe (mkUnsubscribeMsg packet
    {| sa_packet_id := un_packet_id packet; sa_properties := []; sa_reason_string := None;
       sa_status := repeat UA_Success (length (un_topic_filters packet)) |}).

Definition UnsubscribeIter_next (u : UnsubscribeMsg) (entry : nat)
  : option (option (ByteString * nat) * nat) :=
  if decide (entry < length (un_topic_filters (um_packet u)))%nat then
    match un_topic_filters (um_packet u) !! entry, sa_status (um_result u) !! entry with
    | Some topic, Some _ => Some (Some (topic, entry), S entry)
    | _, _ => None
    end
  else Some (None, entry).

(** [UnsubscribeItem::fail], [UnsubscribeItem::success] *)
Definition UnsubscribeItem_fail (u : UnsubscribeMsg) (entry : nat) (status : UnsubscribeAckReason)
  : UnsubscribeMsg :=
  mkUnsubscribeMsg (um_packet u) (set_status (um_result u) (<[entry := status]> (sa_status (um_result u)))).
Definition UnsubscribeItem_success (u : UnsubscribeMsg) (entry : nat) : UnsubscribeMsg :=
  UnsubscribeItem_fail u entry UA_Success.
(** [Unsubscribe::ack_reason], [Unsubscribe::ack_properties], [Unsubscribe::ack] *)
Definition Unsubscribe_ack_reason (u : UnsubscribeMsg) (reason : ByteString) : UnsubscribeMsg :=
  let a := um_result u in
  mkUnsubscribeMsg (um_packet u)
    {| sa_packet_id := sa_packet_id a; sa_properties := sa_properties a;
       sa_reason_string := Some reason; sa_status := sa_status a |}.
Definition Unsubscribe_ack_properties (u : UnsubscribeMsg) (f : UserProperties -> UserProperties) : UnsubscribeMsg :=
  let a := um_result u in
  mkUnsubscribeMsg (um_packet u)
    {| sa_packet_id := sa_packet_id a; sa_properties := f (sa_properties a);
       sa_reason_string := sa_reason_string a; sa_status := sa_status a |}.
Definition Unsubscribe_ack (u : UnsubscribeMsg) : ControlResult :=
  mkControlResult (Some (Pkt_UnsubscribeAck (um_result u))) false.

(** [Error::new], [Error::ack] *)
Definition error_disconnect (reason_code : DisconnectReasonCode) : Disconnect :=
  {| di_reason_code := reason_code; di_session_expiry_interval_secs := None;
     di_server_reference := None; di_reason_string := None; di_user_properties := [] |}.
Definition Error_new {E} (err : E) : ControlMessage E :=
  CM_Error err (error_disconnect DR_ImplementationSpecificError).
Definition set_reason (pkt : Disconnect) (reason : DisconnectReasonCode) : Disconnect :=
  {| di_reason_code := reason; di_session_expiry_interval_secs := di_session_expiry_interval_secs pkt;
     di_server_reference := di_server_reference pkt; di_reason_string := di_reason_string pkt;
     di_user_properties := di_user_properties pkt |}.
Definition Error_ack (pkt : Disconnect) (reason : DisconnectReasonCode) : ControlResult :=
  mkControlResult (Some (Pkt_Disconnect (set_reason pkt reason))) true.

Definition Error_ack_with {E} (err : E) (pkt : Disconnect) (f : E -> Disconnect -> Disconnect) : ControlResult :=
  mkControlResult (Some (Pkt_Disconnect (f err pkt))) true.

(** [reason_string], [server_reference] and [properties] of [Error] and of
    [ProtocolError], and [ProtocolError::reason_code], change the packet. *)
Definition pkt_reason_string (pkt : Disconnect) (reason : ByteString) : Disconnect :=
  {| di_reason_code := di_reason_code pkt; di_session_expiry_interval_secs := di_session_expiry_interval_secs pkt;
     di_server_reference := di_server_reference pkt; di_reason_string := Some reason;
     di_user_properties := di_user_properties pkt |}.
Definition pkt_server_reference (pkt : Disconnect) (reference : ByteString) : Disconnect :=
  {| di_reason_code := di_reason_code pkt; di_session_expiry_interval_secs := di_session_expiry_interval_secs pkt;
     di_server_reference := Some reference; di_reason_string := di_reason_string pkt;
     di_user_properties := di_user_properties pkt |}.
Definition pkt_properties (pkt : Disconnect) (f : UserProperties -> UserProperties) : Disconnect :=
  {| di_reason_code := di_reason_code pkt; di_session_expiry_interval_secs := di_session_expiry_interval_secs pkt;
     di_server_reference := di_server_reference pkt; di_reason_string := di_reason_string pkt;
     di_user_properties := f (di_user_properties pkt) |}.

(** [ProtocolError::new]: the reason code told to the peer *)
Definition protocol_reason (err : ProtocolError) : DisconnectReasonCode :=
  match err with
  | PDecode DInvalidLength => DR_MalformedPacket
  | PDecode DMaxSizeExceeded => DR_PacketTooLarge
  | PUnexpected _ _ => DR_ProtocolError
  | PReceiveMaximumExceeded => DR_ReceiveMaximumExceeded
  | PKeepAliveTimeout => DR_KeepAliveTimeout
  | PUnknownTopicAlias => DR_TopicAliasInvalid
  | PEncode _ => DR_ImplementationSpecificError
  | _ => DR_ImplementationSpecificError
  end.
Definition ProtocolError_new {E} (err : ProtocolError) : ControlMessage E :=
  CM_ProtocolError err (error_disconnect (protocol_reason err)).
Definition ProtocolError_ack (pkt : Disconnect) : ControlResult :=
  mkControlResult (Some (Pkt_Disconnect pkt)) true.

(** [DefaultControlService::call] (src/v5/default.rs) *)
Definition default_control {E} (m : ControlMessage E) : ControlResult :=
  match m with
  | CM_Ping => Ping_ack
  | CM_Disconnect _ => Disconnect_ack
  | _ => disconnect_with (Disconnect_new DR_UnspecifiedError)
  end.

(** ** The answer of a publish service (src/v5/publish.rs) *)
Record PubAck : Type := mkPubAck {
  ack_reason_code : PublishAckReason;
  ack_properties : UserProperties;
  ack_reason_string : option ByteString;
}.
(** [Publish::ack], [PublishAck::new] *)
Definition Publish_ack : PubAck := mkPubAck PA_Success [] None.
Definition PubAck_new (code : PublishAckReason) : PubAck := mkPubAck code [] None.
(** [PublishAck::reason_code], [PublishAck::properties], [PublishAck::reason] *)
Definition with_reason_code (a : PubAck) (code : PublishAckReason) : PubAck :=
  mkPubAck code (ack_properties a) (ack_reason_string a).
Definition with_properties (a : PubAck) (f : UserProperties -> UserProperties) : PubAck :=
  mkPubAck (ack_reason_code a) (f (ack_properties a)) (ack_reason_string a).
Definition with_reason (a : PubAck) (reason : ByteString) : PubAck :=
  mkPubAck (ack_reason_code a) (ack_properties a) (Some reason).

(** ** What an application can make of a SUBSCRIBE and an UNSUBSCRIBE

    The fields of the messages are private: these operations are all there
    are.  Entries are only reached through the iterators. *)
Inductive sub_made (packet : Subscribe) : SubscribeMsg -> Prop :=
| sub_create s : Subscribe_create (E := unit) packet = CM_Subscribe s -> sub_made packet s
| sub_fail s entry n t o status :
    sub_made packet s -> SubscribeIter_next s entry = Some (Some (t, o, entry), n) ->
    sub_made packet (Subscription_fail s entry status)
| sub_confirm s entry n t o qos :
    sub_made packet s -> SubscribeIter_next s entry = Some (Some (t, o, entry), n) ->
    sub_made packet (Subscription_confirm s entry qos)
| sub_reason s reason : sub_made packet s -> sub_made packet (Subscribe_ack_reason s reason)
| sub_properties s f : sub_made packet s -> sub_made packet (Subscribe_ack_properties s f).

Inductive unsub_made (packet : Unsubscribe) : UnsubscribeMsg -> Prop :=
| unsub_create u : Unsubscribe_create (E := unit) packet = CM_Unsubscribe u -> unsub_made packet u
| unsub_fail u entry n t status :
    unsub_made packet u -> UnsubscribeIter_next u entry = Some (Some (t, entry), n) ->
    unsub_made packet (UnsubscribeItem_fail u entry status)
| unsub_success u entry n t :
    unsub_made packet u -> UnsubscribeIter_next u entry = Some (Some (t, entry), n) ->
    unsub_made packet (UnsubscribeItem_success u entry)
| unsub_reason u reason : unsub_made packet u -> unsub_made packet (Unsubscribe_ack_reason u reason)
| unsub_properties u f : unsub_made packet u -> unsub_made packet (Unsubscribe_ack_properties u f).

Lemma sub_made_shape packet s :
  sub_made packet s ->
  sm_packet s = packet /\ sa_packet_id (sm_result s) = su_packet_id packet /\
  length (sa_status (sm_result s)) = length (su_topic_filters packet).
Proof.
  induction 1 as [s H|s entry n t o st _ (H1 & H2 & H3) _|s entry n t o q _ (H1 & H2 & H3) _|s r _ IH|s f _ IH]; cbn; auto.
  - injection H as <-. cbn. by rewrite repeat_length.
  - by rewrite length_insert.
  - by rewrite length_insert.
Qed.

Lemma unsub_made_shape packet u :
  unsub_made packet u ->
  um_packet u = packet /\ sa_packet_id (um_result u) = un_packet_id packet /\
  length (sa_status (um_result u)) = length (un_topic_filters packet).
Proof.
  induction 1 as [u H|u entry n t st _ (H1 & H2 & H3) _|u entry n t _ (H1 & H2 & H3) _|u r _ IH|u f _ IH]; cbn; auto.
  - injection H as <-. cbn. by rewrite repeat_length.
  - by rewrite length_insert.
  - by rewrite length_insert.
Qed.

(** C30: whatever an application does with a SUBSCRIBE or an UNSUBSCRIBE, its
    acknowledgement is well formed: it has the packet id of the request and
    one status for each topic filter, and the iterators never run out of
    range. *)
Theorem v5_acks_well_formed spkt s upkt u :
  sub_made spkt s -> unsub_made upkt u ->
  (exists a, Subscribe_ack s = mkControlResult (Some (Pkt_SubscribeAck a)) false /\
     sa_packet_id a = su_packet_id spkt /\ length (sa_status a) = length (su_topic_filters spkt)) /\
  (exists a, Unsubscribe_ack u = mkControlResult (Some (Pkt_UnsubscribeAck a)) false /\
     sa_packet_id a = un_packet_id upkt /\ length (sa_status a) = length (un_topic_filters upkt)) /\
  (forall entry, is_Some (SubscribeIter_next s entry) /\ is_Some (UnsubscribeIter_next u entry)).
Proof.
  intros (S1 & S2 & S3)%sub_made_shape (U1 & U2 & U3)%unsub_made_shape.
  split; [by eexists | ]. split; [by eexists | ]. intros entry. split.
  - unfold SubscribeIter_next. rewrite S1. destruct (decide _) as [Hlt|]; [ | done].
    destruct (lookup_lt_is_Some_2 _ _ Hlt) as [[t o] ->]. rewrite <- S3 in Hlt.
    by destruct (lookup_lt_is_Some_2 _ _ Hlt) as [st ->].
  - unfold UnsubscribeIter_next. rewrite U1. destruct (decide _) as [Hlt|]; [ | done].
    destruct (lookup_lt_is_Some_2 _ _ Hlt) as [t ->]. rewrite <- U3 in Hlt.
    by destruct (lookup_lt_is_Some_2 _ _ Hlt) as [st ->].
Qed.

Definition demo_options : SubscriptionOptions :=
  {| so_qos := AtLeastOnce; so_no_local := false; so_retain_as_published := false; so_retain_handling := RH_AtSubscribe |}.
Definition demo_subscribe : Subscribe := mkSubscribe 9 None [] [([97], demo_options); ([98], demo_options)].
Definition demo_unsubscribe : Unsubscribe := mkUnsubscribe 4 [] [[97]].
Definition demo_sub : SubscribeMsg :=
  match Subscribe_create (E := unit) demo_subscribe with CM_Subscribe s => s | _ => mkSubscribeMsg demo_subscribe (mkStatusAck 9 [] None []) end.
Definition demo_unsub : UnsubscribeMsg :=
  match Unsubscribe_create (E := unit) demo_unsubscribe with CM_Unsubscribe s => s | _ => mkUnsubscribeMsg demo_unsubscribe (mkStatusAck 4 [] None []) end.

Lemma v5_acks_well_formed_witness :
  exists a, Subscribe_ack (Subscription_confirm demo_sub 1 AtLeastOnce) = mkControlResult (Some (Pkt_SubscribeAck a)) false /\
    sa_status a = [SA_UnspecifiedError; SA_GrantedQos1] /\ length (sa_status a) = 2%nat.
Proof.
  destruct (v5_acks_well_formed demo_subscribe (Subscription_confirm demo_sub 1 AtLeastOnce) demo_unsubscribe demo_unsub)
    as ((a & Ha & Hid & Hl) & _ & _).
  - by eapply sub_confirm; [apply sub_create; reflexivity | reflexivity].
  - by apply unsub_create.
  - exists a. split; [exact Ha | ]. injection Ha as <-. split; reflexivity.
Defined.
