(* ===== verification/V5Info.v ===== *)
(** * What the two dispatchers of MQTT 5 share (src/v5/dispatcher.rs, src/v5/client/dispatcher.rs)

    The dispatcher of the server and the one of the client have the same
    [PublishInfo] (packet ids in flight and topic aliases), the same checks of
    an incoming publish and the same [ControlResponse]; they differ in the
    packets they serve and in the messages of the control service. *)

From stdpp Require Import base gmap list strings.
From S2P Require Import Prelude Types Wire V5Props V5PubAcks V5Subscribe V5Disconnect V5Publish V5Codec.
From S2P Require Import Sink V5Sink V5Control.
Open Scope Z_scope.

Section Info.
Context `{R : Runtime Ack}.
Abbreviation Shared := (@MqttShared Ack R Codec).

(** [Dispatcher] with its [Inner] and [PublishInfo] *)
Record Dispatcher : Type := mkDispatcher {
  d_max_receive : Z;
  d_max_topic_alias : Z;
  d_shutdown : bool;
  d_inflight : gset Z;
  d_aliases : gset Z;
  d_sink : Shared;
}.

Definition Dispatcher_new (sink : Shared) (max_receive max_topic_alias : Z) : Dispatcher :=
  mkDispatcher max_receive max_topic_alias false ∅ ∅ sink.

Definition set_sink (d : Dispatcher) (s : Shared) : Dispatcher :=
  mkDispatcher (d_max_receive d) (d_max_topic_alias d) (d_shutdown d) (d_inflight d) (d_aliases d) s.
Definition set_info (d : Dispatcher) (inflight aliases : gset Z) : Dispatcher :=
  mkDispatcher (d_max_receive d) (d_max_topic_alias d) (d_shutdown d) inflight aliases (d_sink d).

Definition DM (A : Type) : Type := Dispatcher -> option (A * Dispatcher).
#[global] Instance DM_ret : MRet DM := fun A a d => Some (a, d).
#[global] Instance DM_bind : MBind DM := fun A B k m d =>
  match m d with Some (a, d') => k a d' | None => None end.

Definition asks {A} (f : Dispatcher -> A) : DM A := fun d => Some (f d, d).
Definition on_sink {A} (m : @M Ack R Codec A) : DM A := fun d =>
  match m (d_sink d) with Some (a, s) => Some (a, set_sink d s) | None => None end.
Definition insert_id (id : Z) : DM bool := fun d =>
  Some (bool_decide (id ∉ d_inflight d), set_info d ({[id]} ∪ d_inflight d) (d_aliases d)).
Definition remove_id (id : Z) : DM unit := fun d =>
  Some (tt, set_info d (d_inflight d ∖ {[id]}) (d_aliases d)).
Definition has_alias (alias : Z) : DM bool := asks (fun d => bool_decide (alias ∈ d_aliases d)).
Definition insert_alias (alias : Z) : DM unit := fun d =>
  Some (tt, set_info d (d_inflight d) ({[alias]} ∪ d_aliases d)).

(** The checks of a publish before it reaches the publish service: a
    response that ends the call, a protocol error or a ready one, or none.
    The dispatcher of the client (src/v5/client/dispatcher.rs) has the same. *)
Section Checks.
Context {Resp : Type} (proto_error : ProtocolError -> Resp) (nothing : Resp).

Definition check_receive (packet_id : option NonZeroU16) : DM (option Resp) :=
  match packet_id with
  | None => mret None
  | Some pid =>
      max_receive ← asks d_max_receive;
      n ← asks (fun d => Z.of_nat (size (d_inflight d)));
      if negb (max_receive =? 0) && (max_receive <=? n)
      then mret (Some (proto_error PReceiveMaximumExceeded))
      else
        fresh ← insert_id pid;
        if negb fresh then
          _ ← on_sink (send (Pkt_PublishAck (mkAck pid PA_PacketIdentifierInUse [] None)));
          mret (Some nothing)
        else mret None
  end.

Definition check_alias (publish : Publish) : DM (option Resp) :=
  match pp_topic_alias (pu_properties publish) with
  | None => mret None
  | Some alias =>
      if negb (has_remaining (pu_topic publish)) then
        known ← has_alias alias;
        if negb known then mret (Some (proto_error PUnknownTopicAlias)) else mret None
      else
        max ← asks d_max_topic_alias;
        if max <? alias then mret (Some (proto_error PMaxTopicAlias))
        else _ ← insert_alias alias; mret None
  end.

(** A publish that passes them goes to the publish service ([pass]). *)
Definition checked (publish : Publish) (pass : Resp) : DM Resp :=
  stop ← check_receive (pu_packet_id publish);
  match stop with
  | Some r => mret r
  | None =>
      stop ← check_alias publish;
      match stop with Some r => mret r | None => mret pass end
  end.

End Checks.

(** ** Responses of the control service

    [Msg] are the messages of the control service, [E] its errors. *)
Section Control.
Context {Msg E : Type} (is_error : Msg -> bool) (error_msg : E -> Msg).
Abbreviation MError := (MqttError E).

(** [ControlResponse] is the future of the control service for a message *)
Record ControlResponse : Type := mkControlResponse {
  c_msg : Msg;
  c_error : bool;
  c_packet_id : Z;
}.
Definition ControlResponse_new (pkt : Msg) : ControlResponse :=
  mkControlResponse pkt (is_error pkt) 0.
Definition with_packet_id (c : ControlResponse) (id : Z) : ControlResponse :=
  mkControlResponse (c_msg c) (c_error c) id.

Abbreviation polled := (option (result (option Packet) MError)).

Definition ControlResponse_finish (c : ControlResponse) (r : ControlResult) : DM polled :=
  _ ← (match non_zero (c_packet_id c) with Some id => remove_id id | None => mret tt end);
  if c_error c then
    _ ← (match cr_packet r with Some pkt => on_sink (send pkt) | None => mret tt end);
    _ ← (if cr_disconnect r then on_sink drop_sink else mret tt);
    mret (Some (ok None))
  else
    _ ← (if cr_disconnect r then on_sink drop_sink else mret tt);
    mret (Some (ok (cr_packet r))).

(** [ControlResponse::poll]: an error of the service is handed to it once. *)
Definition ControlResponse_poll (pc : Msg -> option (result ControlResult E))
  (c : ControlResponse) : DM (polled * ControlResponse) :=
  match pc (c_msg c) with
  | None => mret (None, c)
  | Some (ok r) => x ← ControlResponse_finish c r; mret (x, c)
  | Some (err e) =>
      if c_error c then mret (Some (err (MService e)), c)
      else
        let c := mkControlResponse (error_msg e) true (c_packet_id c) in
        match pc (c_msg c) with
        | None => mret (None, c)
        | Some (ok r) => x ← ControlResponse_finish c r; mret (x, c)
        | Some (err e) => mret (Some (err (MService e)), c)
        end
  end.

(** The end of a [PublishResponse]: the PUBACK of a publish with an id *)
Definition publish_done (packet_id : Z) (ack : PubAck) : DM polled :=
  match non_zero packet_id with
  | Some id =>
      _ ← remove_id id;
      mret (Some (ok (Some (Pkt_PublishAck
             (mkAck id (ack_reason_code ack) (ack_properties ack) (ack_reason_string ack))))))
  | None => mret (Some (ok None))
  end.

End Control.

(** ** Lemmas *)

Definition hold (id : Z) : list Z := if id =? 0 then [] else [id].

(** Two dispatchers with the same limits and aliases *)
Definition same_info (d d' : Dispatcher) : Prop :=
  d_max_receive d' = d_max_receive d /\ d_max_topic_alias d' = d_max_topic_alias d /\
  d_aliases d' = d_aliases d.

Lemma on_sink_Some {A} (m : @M Ack R Codec A) d a d' :
  on_sink m d = Some (a, d') -> same_info d d' /\ d_inflight d' = d_inflight d.
Proof. unfold on_sink. destruct (m (d_sink d)) as [[b s]|]; [by intros [= _ <-] | done]. Qed.

Lemma same_info_trans d1 d2 d3 : same_info d1 d2 -> same_info d2 d3 -> same_info d1 d3.
Proof. intros (H1 & H2 & H3) (H4 & H5 & H6). repeat split; congruence. Qed.

Lemma dbind_Some {A B} (m : DM A) (k : A -> DM B) d b d'' :
  mbind k m d = Some (b, d'') -> exists a d', m d = Some (a, d') /\ k a d' = Some (b, d'').
Proof. unfold mbind, DM_bind. destruct (m d) as [[a d']|]; naive_solver. Qed.

Lemma dret_Some {A} (a b : A) d d' : (mret a : DM A) d = Some (b, d') -> a = b /\ d = d'.
Proof. unfold mret, DM_ret. naive_solver. Qed.

Section ControlLemmas.
Context {Msg E : Type} (error_msg : E -> Msg).

(** Finishing a control response gives a result and releases its id. *)
Lemma finish_Some (c : ControlResponse (Msg := Msg)) r d (x : option (result (option Packet) (MqttError E))) d' :
  ControlResponse_finish c r d = Some (x, d') ->
  x <> None /\ same_info d d' /\
  d_inflight d' = match non_zero (c_packet_id c) with
                  | Some id => d_inflight d ∖ {[(id : Z)]}
                  | None => d_inflight d
                  end.
Proof.
  assert (Hopt : forall (o : option Packet) d u d',
    (match o with Some pkt => on_sink (send pkt) | None => mret tt end : DM unit) d = Some (u, d') ->
    same_info d d' /\ d_inflight d' = d_inflight d).
  { intros [pkt|] d0 u d1 H; [by eapply on_sink_Some | by apply dret_Some in H as [_ <-]]. }
  assert (Hdis : forall (b : bool) d u d',
    (if b then on_sink drop_sink else mret tt : DM unit) d = Some (u, d') ->
    same_info d d' /\ d_inflight d' = d_inflight d).
  { intros [] d0 u d1 H; [by eapply on_sink_Some | by apply dret_Some in H as [_ <-]]. }
  intros (u & d1 & H1 & H2)%dbind_Some.
  assert (Hd1 : same_info d d1 /\
            d_inflight d1 = match non_zero (c_packet_id c) with
                            | Some id => d_inflight d ∖ {[(id : Z)]} | None => d_inflight d end).
  { destruct (non_zero (c_packet_id c)); [by injection H1 as _ <- | by apply dret_Some in H1 as [_ <-]]. }
  destruct Hd1 as [Hs1 Hf1]. destruct (c_error c).
  - apply dbind_Some in H2 as (u2 & d2 & [Hs2 Hf2]%Hopt & H2).
    apply dbind_Some in H2 as (u3 & d3 & [Hs3 Hf3]%Hdis & [<- <-]%dret_Some).
    split; [done | ]. split; [by eapply same_info_trans; [ | eapply same_info_trans] | congruence].
  - apply dbind_Some in H2 as (u3 & d3 & [Hs3 Hf3]%Hdis & [<- <-]%dret_Some).
    split; [done | ]. split; [by eapply same_info_trans | congruence].
Qed.

(** From [d] to [d'] at most the ids [ids] are released. *)
Definition released (ids : list Z) (d d' : Dispatcher) : Prop :=
  same_info d d' /\ forall id, id ∈ d_inflight d -> id ∉ ids -> id ∈ d_inflight d'.

Lemma released_refl ids d : released ids d d.
Proof. by split. Qed.

Lemma finish_released (c : ControlResponse (Msg := Msg)) r d (x : option (result (option Packet) (MqttError E))) d' :
  ControlResponse_finish c r d = Some (x, d') -> x <> None /\ released (hold (c_packet_id c)) d d'.
Proof.
  intros (Hx & Hs & Hf)%finish_Some. split; [done | ]. split; [done | ]. intros id Hid Hn.
  unfold non_zero, hold in *. destruct (c_packet_id c =? 0); rewrite Hf; [done | ].
  apply elem_of_difference. split; [done | ]. intros ->%elem_of_singleton. apply Hn. by left.
Qed.

Lemma control_poll_released pc c d x c' d' :
  ControlResponse_poll error_msg pc c d = Some (x, c', d') ->
  c_packet_id c' = c_packet_id c /\ released (hold (c_packet_id c)) d d' /\ (x = None -> d' = d).
Proof.
  assert (Hfin : forall c1 r, c_packet_id c1 = c_packet_id c ->
    (x ← ControlResponse_finish c1 r; mret (x, c1) : DM _) d = Some (x, c', d') ->
    c_packet_id c' = c_packet_id c /\ released (hold (c_packet_id c)) d d' /\ (x = None -> d' = d)).
  { intros c1 r Hc (y & d1 & [Hy Hr]%finish_released & [[= -> ->] ->]%dret_Some)%dbind_Some.
    rewrite Hc in Hr. done. }
  unfold ControlResponse_poll. destruct (pc (c_msg c)) as [[r|e]|].
  - by apply Hfin.
  - destruct (c_error c).
    + intros [[= <- <-] <-]%dret_Some. auto using released_refl.
    + destruct (pc _) as [[r|e']|].
      * by apply Hfin.
      * intros [[= <- <-] <-]%dret_Some. auto using released_refl.
      * intros [[= <- <-] <-]%dret_Some. auto using released_refl.
  - intros [[= <- <-] <-]%dret_Some. auto using released_refl.
Qed.

Lemma publish_done_released id ack d (x : option (result (option Packet) (MqttError E))) d' :
  publish_done id ack d = Some (x, d') -> x <> None /\ released (hold id) d d'.
Proof.
  unfold publish_done, non_zero, hold. destruct (id =? 0).
  - intros [<- <-]%dret_Some. split; [done | apply released_refl].
  - intros (u & d1 & [= _ <-] & [<- <-]%dret_Some)%dbind_Some. split; [done | ]. split; [done | ].
    intros j Hj Hn. cbn. apply elem_of_difference. split; [done | ].
    intros ->%elem_of_singleton. apply Hn. by left.
Qed.

Lemma released_weaken ids ids' d d' :
  (forall id, id ∈ ids -> id ∈ ids') -> released ids d d' -> released ids' d d'.
Proof. intros Hsub [Hs Hr]. split; [done | ]. intros id Hid Hn. apply Hr; auto. Qed.

(** A publish that its service is done with is acknowledged with its id. *)
Lemma publish_done_value id ack d (x : option (result (option Packet) (MqttError E))) d' :
  publish_done id ack d = Some (x, d') ->
  exists t, x = Some t /\
    (t = ok None /\ id = 0 \/ exists a, t = ok (Some (Pkt_PublishAck a)) /\ pa_packet_id a = id).
Proof.
  unfold publish_done, non_zero. destruct (Z.eqb_spec id 0); [intros [<- _]%dret_Some; eauto | ].
  intros (u & d1 & _ & [<- _]%dret_Some)%dbind_Some. eexists. split; [done | ]. right. by eexists.
Qed.

End ControlLemmas.

Definition same_limits (d d' : Dispatcher) : Prop :=
  d_max_receive d' = d_max_receive d /\ d_max_topic_alias d' = d_max_topic_alias d.
Definition aliases_ok (d : Dispatcher) : Prop := forall a, a ∈ d_aliases d -> a <= d_max_topic_alias d.

Lemma hold_nodup id : NoDup (hold id).
Proof. unfold hold. destruct (id =? 0); [apply NoDup_nil_2 | apply NoDup_singleton]. Qed.

Lemma elem_of_hold j id : j ∈ hold id -> j = id.
Proof.
  unfold hold. destruct (id =? 0); [by intros ?%not_elem_of_nil | by intros ?%list_elem_of_singleton].
Qed.

(** What lets a publish through to the service *)
Definition alias_accepted (d : Dispatcher) (p : Publish) : Prop :=
  match pp_topic_alias (pu_properties p) with
  | None => True
  | Some alias =>
      if has_remaining (pu_topic p) then (alias : Z) <= d_max_topic_alias d
      else (alias : Z) ∈ d_aliases d
  end.

(** ** What the checks do *)

Lemma insert_again (id : Z) (X : gset Z) : ~ (id ∉ X) -> {[id]} ∪ X = X.
Proof. destruct (decide (id ∈ X)); [set_solver | done]. Qed.

Section ChecksLemmas.
Context {Resp : Type} (proto_error : ProtocolError -> Resp) (nothing : Resp).

Definition ends_call (r : Resp) : Prop := r = nothing \/ exists e, r = proto_error e.

Lemma check_receive_effect pid d o d' :
  check_receive proto_error nothing pid d = Some (o, d') ->
  same_info d d' /\
  match o, pid with
  | None, None => d_inflight d' = d_inflight d
  | None, Some id =>
      (id : Z) ∉ d_inflight d /\ d_inflight d' = {[(id : Z)]} ∪ d_inflight d /\
      (d_max_receive d = 0 \/ Z.of_nat (size (d_inflight d)) < d_max_receive d)
  | Some r, _ => ends_call r /\ d_inflight d' = d_inflight d
  end.
Proof.
  unfold check_receive. destruct pid as [id|]; [ | by intros [<- <-]%dret_Some].
  intros (m & d1 & [= <- <-] & (n & d2 & [= <- <-] & H)%dbind_Some)%dbind_Some.
  destruct (negb (d_max_receive d =? 0) && (d_max_receive d <=? _)) eqn:Eq.
  - apply dret_Some in H as [<- <-]. split; [done | ]. split; [right; by eexists | done].
  - assert (Hquota : d_max_receive d = 0 \/ Z.of_nat (size (d_inflight d)) < d_max_receive d).
    { apply andb_false_iff in Eq as [Eq|Eq]; [left | right; lia].
      apply negb_false_iff in Eq. lia. }
    apply dbind_Some in H as (fresh & d3 & [= <- <-] & H). case_bool_decide as Hin; cbn [negb] in H.
    + by apply dret_Some in H as [<- <-].
    + apply dbind_Some in H as (u & d4 & [Hs Hf]%on_sink_Some & [<- <-]%dret_Some).
      split; [done | ]. split; [by left | ]. rewrite Hf. exact (insert_again _ _ Hin).
Qed.

Lemma check_alias_effect p d o d' :
  check_alias proto_error p d = Some (o, d') ->
  same_limits d d' /\ d_inflight d' = d_inflight d /\ (aliases_ok d -> aliases_ok d') /\
  match o with Some r => ends_call r | None => True end.
Proof.
  unfold check_alias. destruct (pp_topic_alias (pu_properties p)) as [alias|];
    [ | by intros [<- <-]%dret_Some].
  destruct (negb (has_remaining (pu_topic p))).
  - intros (k & d1 & [= <- <-] & H)%dbind_Some.
    destruct (negb (bool_decide _)); apply dret_Some in H as [<- <-]; [ | done].
    split; [done | ]. split; [done | ]. split; [done | ]. right. by eexists.
  - intros (m & d1 & [= <- <-] & H)%dbind_Some. destruct (Z.ltb_spec (d_max_topic_alias d) alias).
    + apply dret_Some in H as [<- <-]. split; [done | ]. split; [done | ]. split; [done | ].
      right. by eexists.
    + apply dbind_Some in H as (u & d2 & [= _ <-] & [<- <-]%dret_Some).
      split; [done | ]. split; [done | ]. split; [ | done].
      intros Ha a [->%elem_of_singleton|Hin]%elem_of_union; [done | by apply Ha].
Qed.

(** A publish gets through below the receive maximum with a fresh id, or its
    call ends; the limits stay, the aliases are within them. *)
Lemma checked_effect p pass d r d' :
  checked proto_error nothing p pass d = Some (r, d') ->
  same_limits d d' /\ (aliases_ok d -> aliases_ok d') /\ d_inflight d ⊆ d_inflight d' /\
  (ends_call r \/ r = pass /\
   match pu_packet_id p with
   | None => d_inflight d' = d_inflight d
   | Some id => (id : Z) ∉ d_inflight d /\ d_inflight d' = {[(id : Z)]} ∪ d_inflight d /\
       (d_max_receive d = 0 \/ Z.of_nat (size (d_inflight d)) < d_max_receive d)
   end).
Proof.
  intros (o & d1 & H1 & H2)%dbind_Some. apply check_receive_effect in H1 as ((Hm & Hx & Hal) & Ho1).
  assert (Hal1 : aliases_ok d -> aliases_ok d1) by (intros Ha a; rewrite Hal, Hx; apply Ha).
  destruct o as [r1|].
  - apply dret_Some in H2 as [<- <-]. destruct Ho1 as [He Hf].
    split; [by split | ]. split; [done | ]. split; [by rewrite Hf | by left].
  - apply dbind_Some in H2 as (o & d2 & (Hl2 & Hf2 & Ha2 & Ho2)%check_alias_effect & H3).
    assert (Hlim : same_limits d d2) by (destruct Hl2; split; congruence).
    assert (Hsub : d_inflight d ⊆ d_inflight d2).
    { rewrite Hf2. destruct (pu_packet_id p); [destruct Ho1 as (_ & -> & _); set_solver | by rewrite Ho1]. }
    assert (d2 = d') as -> by (destruct o; by apply dret_Some in H3 as [_ ->]).
    split; [done | ]. split; [auto | ]. split; [done | ].
    destruct o as [r2|]; apply dret_Some in H3 as [<- _]; [by left | right]. split; [done | ].
    by rewrite Hf2.
Qed.

End ChecksLemmas.

Lemma check_alias_accepted {Resp} (proto_error : ProtocolError -> Resp) d p :
  alias_accepted d p ->
  exists d', check_alias proto_error p d = Some (None, d') /\ d_inflight d' = d_inflight d /\
    d_sink d' = d_sink d.
Proof.
  unfold alias_accepted, check_alias. destruct (pp_topic_alias (pu_properties p)) as [alias|];
    [ | by exists d].
  unfold mbind, DM_bind, has_alias, asks. destruct (has_remaining (pu_topic p)); cbn [negb].
  - intros Ha. rewrite (proj2 (Z.ltb_ge _ _)) by done. by eexists.
  - intros Ha. rewrite bool_decide_eq_true_2 by done. by exists d.
Qed.

End Info.
