(* ===== verification/V5Dispatcher.v ===== *)
(** * The server dispatcher of MQTT 5 (src/v5/dispatcher.rs)

    The services of the application are named by what they work on; what
    polling their futures gives is an argument of the [poll] functions: [pc]
    for the control service, the result of the publish service. *)

From stdpp Require Import base gmap list strings.
From S2P Require Import Prelude Types Wire V5Props V5PubAcks V5Subscribe V5Disconnect V5Publish V5Codec.
From S2P Require Import Sink V5Sink V5Control V5Info Inflight.
Open Scope Z_scope.

(** [DispatchItem] *)
Inductive DispatchItem : Type :=
| DI_Item (pkt : Packet)
| DI_EncoderError (e : EncodeError)
| DI_DecoderError (e : DecodeError)
| DI_IoError
| DI_KeepAliveTimeout
| DI_WBackPressureEnabled
| DI_WBackPressureDisabled.

(** [ControlResponse::new]: is the message an error? *)
Definition is_error {E} (pkt : ControlMessage E) : bool :=
  match pkt with CM_Error _ _ | CM_ProtocolError _ _ => true | _ => false end.

Section Dispatcher.
Context `{R : Runtime Ack} {E E2 : Type}.
Abbreviation Shared := (@MqttShared Ack R Codec).
Abbreviation MError := (MqttError E).
Abbreviation ControlResponse := (ControlResponse (Msg := ControlMessage E)).
Abbreviation control pkt := (ControlResponse_new is_error pkt).

Inductive Response : Type :=
| R_Ready (r : result (option Packet) MError)
| R_Publish (packet_id : Z) (p : Publish)
| R_PublishControl (packet_id : Z) (c : ControlResponse)
| R_Control (c : ControlResponse).

Definition proto_error (e : ProtocolError) : Response := R_Control (control (ProtocolError_new e)).

Definition publish_id (p : Publish) : Z :=
  match pu_packet_id p with Some id => id | None => 0 end.

Definition call_ack (a : Ack) : DM Response :=
  r ← on_sink (pkt_ack a);
  mret (match r with err e => proto_error e | ok _ => R_Ready (ok None) end).

(** [Dispatcher::call] *)
Definition call (request : DispatchItem) : DM Response :=
  match request with
  | DI_Item (Pkt_Publish publish) =>
      checked proto_error (R_Ready (ok None)) publish (R_Publish (publish_id publish) publish)
  | DI_Item (Pkt_PublishAck packet) => call_ack (Ack_Publish packet)
  | DI_Item (Pkt_Auth pkt) => mret (R_Control (control (CM_Auth pkt)))
  | DI_Item Pkt_PingRequest => mret (R_Control (control CM_Ping))
  | DI_Item (Pkt_Disconnect pkt) => mret (R_Control (control (CM_Disconnect pkt)))
  | DI_Item (Pkt_Subscribe pkt) =>
      fresh ← insert_id (su_packet_id pkt);
      if negb fresh then
        _ ← on_sink (send (Pkt_SubscribeAck
              (mkStatusAck (su_packet_id pkt) [] None
                 (map (fun _ => SA_PacketIdentifierInUse) (su_topic_filters pkt)))));
        mret (R_Ready (ok None))
      else mret (R_Control (with_packet_id (control (Subscribe_create pkt)) (su_packet_id pkt)))
  | DI_Item (Pkt_Unsubscribe pkt) =>
      fresh ← insert_id (un_packet_id pkt);
      if negb fresh then
        _ ← on_sink (send (Pkt_UnsubscribeAck
              (mkStatusAck (un_packet_id pkt) [] None
                 (map (fun _ => UA_PacketIdentifierInUse) (un_topic_filters pkt)))));
        mret (R_Ready (ok None))
      else mret (R_Control (with_packet_id (control (Unsubscribe_create pkt)) (un_packet_id pkt)))
  | DI_Item _ => mret (R_Ready (ok None))
  | DI_EncoderError e => mret (proto_error (PEncode e))
  | DI_KeepAliveTimeout => mret (proto_error PKeepAliveTimeout)
  | DI_DecoderError e => mret (proto_error (PDecode e))
  | DI_IoError => mret (proto_error PIo)
  | DI_WBackPressureEnabled | DI_WBackPressureDisabled => mret (R_Ready (ok None))
  end.

(** ** Polling *)

Abbreviation polled := (option (result (option Packet) MError)).
Context (try_from : E2 -> result PubAck E) (into : E2 -> E).

(** [PublishResponse::poll] *)
Definition PublishResponse_poll (pc : ControlMessage E -> option (result ControlResult E))
  (packet_id : Z) (p : Publish) (fut : option (result PubAck E2)) : DM (polled * Response) :=
  let failed e :=
    x ← ControlResponse_poll Error_new pc (control (Error_new e));
    mret (x.1, R_PublishControl packet_id x.2) in
  match fut with
  | None => mret (None, R_Publish packet_id p)
  | Some (ok ack) => x ← publish_done packet_id ack; mret (x, R_Publish packet_id p)
  | Some (err e) =>
      if negb (packet_id =? 0) then
        match try_from e with
        | ok ack => x ← publish_done packet_id ack; mret (x, R_Publish packet_id p)
        | err e => failed e
        end
      else failed (into e)
  end.

(** Polling any response, with what the services give at this moment *)
Definition poll (pc : ControlMessage E -> option (result ControlResult E))
  (fut : option (result PubAck E2)) (r : Response) : DM (polled * Response) :=
  match r with
  | R_Ready x => mret (Some x, r)
  | R_Publish id p => PublishResponse_poll pc id p fut
  | R_PublishControl id c => x ← ControlResponse_poll Error_new pc c; mret (x.1, R_PublishControl id x.2)
  | R_Control c => x ← ControlResponse_poll Error_new pc c; mret (x.1, R_Control x.2)
  end.

(** [Dispatcher::poll_shutdown] *)
Definition poll_shutdown (is_error : bool) : DM (option (ControlMessage E)) := fun d =>
  if d_shutdown d then Some (None, d)
  else match drop_sink (d_sink d) with
       | Some (_, s) =>
           Some (Some (CM_Closed is_error),
                 mkDispatcher (d_max_receive d) (d_max_topic_alias d) true (d_inflight d) (d_aliases d) s)
       | None => None
       end.

(** [Dispatcher::poll_ready], from the readiness of the two services *)
Definition poll_ready (res1 : option (result unit E2)) (res2 : option (result unit E))
  : option (result unit MError) :=
  match res1 with
  | Some (err e) => Some (err (MService (into e)))
  | _ => match res2 with
         | Some (err e) => Some (err (MService e))
         | _ => match res1, res2 with Some _, Some _ => Some (ok tt) | _, _ => None end
         end
  end.

(** ** The dispatcher at work *)
Record Sys : Type := mkSys { sys_d : Dispatcher; sys_pending : list Response }.

Definition keep (r : Response) : list Response :=
  match r with R_Ready _ => [] | r => [r] end.

Inductive sys_step : Sys -> Sys -> Prop :=
| sys_call item r d d' l :
    call item d = Some (r, d') -> sys_step (mkSys d l) (mkSys d' (l ++ keep r))
| sys_poll pc fut resp resp' x d d' l1 l2 :
    poll pc fut resp d = Some (x, resp', d') ->
    sys_step (mkSys d (l1 ++ resp :: l2))
             (mkSys d' (l1 ++ match x with Some _ => [] | None => [resp'] end ++ l2))
| sys_shutdown b m d d' l :
    poll_shutdown b d = Some (m, d') -> sys_step (mkSys d l) (mkSys d' l)
| sys_sink s d l :
    step (d_sink d) s -> sys_step (mkSys d l) (mkSys (set_sink d s) l).

Inductive sys_reachable (sink : Shared) (max_receive max_topic_alias : Z) : Sys -> Prop :=
| sys_new : sys_reachable sink max_receive max_topic_alias
              (mkSys (Dispatcher_new sink max_receive max_topic_alias) [])
| sys_next s s' : sys_reachable sink max_receive max_topic_alias s -> sys_step s s' ->
              sys_reachable sink max_receive max_topic_alias s'.

(** The packet id a response holds: a publish that the publish service works
    on, a subscribe or unsubscribe. *)
Definition publishing (r : Response) : list Z := match r with R_Publish id _ => hold id | _ => [] end.
Definition held (r : Response) : list Z :=
  match r with R_Control c | R_PublishControl _ c => hold (c_packet_id c) | r => publishing r end.
Definition held_all (l : list Response) : list Z := l ≫= held.
Definition publishing_all (l : list Response) : list Z := l ≫= publishing.

Lemma publishing_held r : publishing r ⊆+ held r.
Proof. destruct r; cbn; [done | done | apply submseteq_nil_l .. ]. Qed.

Lemma poll_released pc fut r d x r' d' :
  poll pc fut r d = Some (x, r', d') ->
  released (held r) d d' /\
  (x = None -> d' = d /\ (held r' = held r /\ publishing r' = publishing r \/
                          held r' = [] /\ publishing r' = [])).
Proof.
  destruct r as [y|id p|id c|c]; cbn [poll].
  - intros [[= <- <-] <-]%dret_Some. split; [apply released_refl | done].
  - assert (Hctl : forall e,
      (x ← ControlResponse_poll Error_new pc (control (Error_new e));
       mret (x.1, R_PublishControl id x.2) : DM _) d = Some (x, r', d') ->
      released (held (R_Publish id p)) d d' /\
      (x = None -> d' = d /\ (held r' = held (R_Publish id p) /\ publishing r' = publishing (R_Publish id p) \/
                              held r' = [] /\ publishing r' = []))).
    { intros e ([y c'] & d1 & H & [[= <- <-] <-]%dret_Some)%dbind_Some.
      apply control_poll_released in H as (Hc & Hr & Hn). split.
      - eapply released_weaken; [ | exact Hr]. cbn. by intros j ?%not_elem_of_nil.
      - intros Hy. split; [by apply Hn | ]. right. cbn. by rewrite Hc. }
    assert (Hdone : forall ack,
      (x ← publish_done id ack; mret (x, R_Publish id p) : DM _) d = Some (x, r', d') ->
      released (held (R_Publish id p)) d d' /\
      (x = None -> d' = d /\ (held r' = held (R_Publish id p) /\ publishing r' = publishing (R_Publish id p) \/
                              held r' = [] /\ publishing r' = []))).
    { intros ack (y & d1 & [Hy Hr]%publish_done_released & [[= <- <-] <-]%dret_Some)%dbind_Some. done. }
    unfold PublishResponse_poll. destruct fut as [[ack|e]|].
    + apply Hdone.
    + destruct (negb (id =? 0)); [destruct (try_from e); [apply Hdone | apply Hctl] | apply Hctl].
    + intros [[= <- <-] <-]%dret_Some. split; [apply released_refl | auto].
  - intros ([y c'] & d1 & H & [[= <- <-] <-]%dret_Some)%dbind_Some.
    apply control_poll_released in H as (Hc & Hr & Hn). split; [exact Hr | ].
    intros Hy. split; [by apply Hn | ]. left. cbn. by rewrite Hc.
  - intros ([y c'] & d1 & H & [[= <- <-] <-]%dret_Some)%dbind_Some.
    apply control_poll_released in H as (Hc & Hr & Hn). split; [exact Hr | ].
    intros Hy. split; [by apply Hn | ]. left. cbn. by rewrite Hc.
Qed.

(** What a call does to the ids, the limits and the aliases *)
Definition call_effect (r : Response) (d d' : Dispatcher) : Prop :=
  same_limits d d' /\ (aliases_ok d -> aliases_ok d') /\
  takes held publishing (d_max_receive d) (keep r) (d_inflight d) (d_inflight d').

Lemma call_effect_none r d d' :
  keep r ≫= held = [] -> keep r ≫= publishing = [] -> same_info d d' ->
  d_inflight d ⊆ d_inflight d' -> call_effect r d d'.
Proof.
  intros Hh Hp (H1 & H2 & H3) Hsub. split; [by split | ]. split; [ | by apply takes_none].
  intros Ha a. rewrite H3, H2. apply Ha.
Qed.

(** Taking an id for a response that holds it, or refusing it *)
Lemma insert_effect (id : Z) d (pkt : Packet) (r0 : Response) r d' :
  keep r0 ≫= held = hold id -> keep r0 ≫= publishing = [] ->
  (fresh ← insert_id id;
   if negb fresh then _ ← on_sink (send pkt); mret (R_Ready (ok None)) else mret r0 : DM _) d = Some (r, d') ->
  call_effect r d d'.
Proof.
  intros Hh Hp (fresh & d1 & [= <- <-] & H)%dbind_Some. case_bool_decide as Hin; cbn [negb] in H.
  - apply dret_Some in H as [<- <-]. split; [by split | ]. split; [done | ]. cbn.
    apply takes_one; rewrite ?Hh, ?Hp; auto using hold_nodup. intros j. apply elem_of_hold.
  - apply dbind_Some in H as (x & d3 & [Hs Hf]%on_sink_Some & [<- <-]%dret_Some).
    apply call_effect_none; [done | done | done | ]. rewrite Hf. cbn. set_solver.
Qed.

Lemma call_effects item d r d' : call item d = Some (r, d') -> call_effect r d d'.
Proof.
  assert (Hret : forall r1, keep r1 ≫= held = [] -> keep r1 ≫= publishing = [] ->
    (mret r1 : DM Response) d = Some (r, d') -> call_effect r d d').
  { intros r1 H1 H2 [<- <-]%dret_Some. by apply call_effect_none. }
  assert (Hack : forall a, call_ack a d = Some (r, d') -> call_effect r d d').
  { intros a (x & d1 & [Hs Hf]%on_sink_Some & [<- <-]%dret_Some)%dbind_Some.
    destruct x; apply call_effect_none; try done; by rewrite Hf. }
  destruct item as [pkt|e|e| | | |]; cbn [call]; try (by apply Hret).
  destruct pkt; cbn [call]; try (by apply Hret); try (by apply Hack).
  - intros (Hl & Ha & Hk & Ho)%checked_effect. split; [done | ]. split; [done | ].
    destruct Ho as [[->|[e ->]]|[-> Hp]]; [by apply takes_none | by apply takes_none | ].
    unfold publish_id. destruct (pu_packet_id p) as [id|]; [ | by apply takes_none].
    destruct Hp as (Hid & -> & Hq). apply takes_one; cbn; rewrite ?app_nil_r; auto using hold_nodup.
    + intros j. apply elem_of_hold.
    + unfold hold. destruct (_ =? 0); [by left | by right].
  - apply insert_effect; [apply app_nil_r | done].
  - apply insert_effect; [apply app_nil_r | done].
Qed.

Lemma poll_releases5 pc fut resp d x resp' d' :
  poll pc fut resp d = Some (x, resp', d') ->
  same_info d d' /\
  releases held publishing resp (match x with Some _ => [] | None => [resp'] end)
    (d_inflight d) (d_inflight d').
Proof.
  intros [[Hs Hr] Hnone]%poll_released. split; [done | ]. split; [done | ].
  destruct x as [y|]; [by left | ].
  destruct (Hnone eq_refl) as (-> & [[Hh Hp]|[Hh Hp]]); cbn; rewrite !app_nil_r; auto.
Qed.

Definition sys_inv (max_receive max_topic_alias : Z) (s : Sys) : Prop :=
  d_max_receive (sys_d s) = max_receive /\ d_max_topic_alias (sys_d s) = max_topic_alias /\
  aliases_ok (sys_d s) /\
  ids_ok held publishing max_receive (d_inflight (sys_d s)) (sys_pending s).

Lemma sys_step_inv5 mr ma s s' : sys_inv mr ma s -> sys_step s s' -> sys_inv mr ma s'.
Proof.
  intros (H1 & H2 & H3 & H4) Hs.
  destruct Hs as [item r d d' l H|pc fut resp resp' x d d' l1 l2 H|b m d d' l H|sk d l H];
    unfold sys_inv in *; cbn [sys_pending sys_d] in *.
  - apply call_effects in H as ([Hl1 Hl2] & Ha & Ht). rewrite H1 in Ht.
    split; [congruence | ]. split; [congruence | ]. split; [auto | ].
    by eapply ids_ok_call; [apply publishing_held | | ].
  - apply poll_releases5 in H as [(Hs1 & Hs2 & Hs3) Hr].
    split; [congruence | ]. split; [congruence | ].
    split; [intros a; rewrite Hs3, Hs2; apply H3 | by eapply ids_ok_poll].
  - unfold poll_shutdown in H. destruct (d_shutdown d); [by injection H as _ <- | ].
    destruct (drop_sink (d_sink d)) as [[u sk]|]; [by injection H as _ <- | done].
  - done.
Qed.

Lemma sys_reachable_inv5 sink mr ma s : 0 <= mr -> sys_reachable sink mr ma s -> sys_inv mr ma s.
Proof.
  intros Hmr. induction 1 as [|s s' _ IH Hs]; [ | by eapply sys_step_inv5].
  split; [done | ]. split; [done | ]. split; [by intros a ?%not_elem_of_empty | by apply ids_ok_nil].
Qed.

(** ** Properties *)

(** C23: with a receive maximum the publish service never works on more
    publishes with a packet id than that; the packets in work have different
    packet ids, which are all recorded as in flight; and no alias above the
    maximum is ever recorded. *)
Theorem v5_receive_maximum sink mr ma s :
  0 <= mr -> sys_reachable sink mr ma s ->
  (mr <> 0 -> Z.of_nat (length (publishing_all (sys_pending s))) <= mr) /\
  NoDup (held_all (sys_pending s)) /\
  (forall id, id ∈ held_all (sys_pending s) -> id ∈ d_inflight (sys_d s)) /\
  (forall a, a ∈ d_aliases (sys_d s) -> a <= ma).
Proof.
  intros Hmr Hr. destruct (sys_reachable_inv5 _ _ _ _ Hmr Hr) as (_ & Hma & Ha & [Hd Hin Hq]).
  split; [done | ]. split; [done | ]. split; [done | ]. intros a. rewrite <- Hma. apply Ha.
Qed.

(** a publish with a packet id that is below the receive maximum, whose
    id is not in flight and whose topic alias is known or allowed goes to
    the publish service; the PUBACK that follows has that id with the reason,
    the properties and the text the service gave, and the id is free again.
    A publish at the receive maximum ends in a protocol error instead. *)
Theorem v5_publish_acknowledged d p (id : Z) pc ack :
  pu_packet_id p = Some id -> id <> 0 -> alias_accepted d p -> id ∉ d_inflight d ->
  if negb (d_max_receive d =? 0) && (d_max_receive d <=? Z.of_nat (size (d_inflight d)))
  then call (DI_Item (Pkt_Publish p)) d = Some (proto_error PReceiveMaximumExceeded, d)
  else exists d' d'',
    call (DI_Item (Pkt_Publish p)) d = Some (R_Publish id p, d') /\ d_sink d' = d_sink d /\
    poll pc (Some (ok ack)) (R_Publish id p) d' =
      Some (Some (ok (Some (Pkt_PublishAck (mkAck id (ack_reason_code ack) (ack_properties ack)
                                              (ack_reason_string ack))))),
            R_Publish id p, d'') /\
    d_inflight d'' = d_inflight d.
Proof.
  intros Hp Hnz Ha Hid. unfold call, checked, mbind, DM_bind, check_receive. rewrite Hp.
  unfold mbind, DM_bind, asks. destruct (negb _ && _); [done | ].
  unfold insert_id. rewrite bool_decide_eq_true_2 by done. cbn [negb]. unfold mret, DM_ret.
  destruct (check_alias_accepted proto_error (set_info d ({[id]} ∪ d_inflight d) (d_aliases d)) p Ha)
    as (d' & -> & Hf & Hs).
  unfold publish_id. rewrite Hp. exists d'. eexists. split; [reflexivity | ]. split; [exact Hs | ].
  cbn [poll]. unfold PublishResponse_poll, publish_done, non_zero, mbind, DM_bind.
  rewrite (proj2 (Z.eqb_neq id 0)) by done. split; [reflexivity | ]. cbn. rewrite Hf. cbn. set_solver.
Qed.

(** Subscribes and unsubscribes take a place of the receive maximum,
    which is meant for publishes: while a SUBSCRIBE is in work on a
    connection with receive maximum 1, the first QoS 1 publish is a protocol
    error. *)
Theorem v5_subscribe_uses_quota sink ma pkt p (id : Z) :
  pu_packet_id p = Some id ->
  exists d, call (DI_Item (Pkt_Subscribe pkt)) (Dispatcher_new sink 1 ma) =
      Some (R_Control (with_packet_id (control (Subscribe_create pkt)) (su_packet_id pkt)), d) /\
    call (DI_Item (Pkt_Publish p)) d = Some (proto_error PReceiveMaximumExceeded, d).
Proof.
  intros Hp. unfold call, mbind, DM_bind, insert_id.
  rewrite bool_decide_eq_true_2 by (apply not_elem_of_empty). cbn [negb].
  eexists. split; [reflexivity | ]. unfold checked, check_receive. rewrite Hp.
  unfold mbind, DM_bind, asks. cbn -[size]. unfold set_info, Dispatcher_new. cbn -[size].
  rewrite union_empty_r_L, size_singleton. done.
Qed.

End Dispatcher.

(** ** Runs *)

Definition qos1 (id : Z) : Publish := V5Sink.set_packet_id hello (Some id).
Definition disp0 : Dispatcher (R := SimRuntime Ack) := Dispatcher_new sink0 2 10.
Definition disp1 : Dispatcher (R := SimRuntime Ack) := set_info disp0 ({[7]} ∪ ∅) ∅.
Definition no_control : ControlMessage unit -> option (result ControlResult unit) := fun _ => None.
Definition no_ack : unit -> result PubAck unit := fun _ => err tt.

Lemma v5_receive_maximum_witness :
  Z.of_nat (length (publishing_all (E := unit) [R_Publish 7 (qos1 7)])) <= 2.
Proof.
  apply (v5_receive_maximum (E := unit) no_ack (fun e => e) sink0 2 10
           (mkSys disp1 [R_Publish 7 (qos1 7)])); [lia | | lia].
  eapply sys_next; [apply sys_new | ].
  apply (sys_call no_ack (fun e => e) (DI_Item (Pkt_Publish (qos1 7))) (R_Publish 7 (qos1 7)) disp0 disp1 []).
  reflexivity.
Defined.

Lemma v5_publish_acknowledged_witness :
  exists d' d'',
    call (E := unit) (DI_Item (Pkt_Publish (qos1 7))) disp0 = Some (R_Publish 7 (qos1 7), d') /\
    poll no_ack (fun e => e) no_control (Some (ok (PubAck_new PA_QuotaExceeded))) (R_Publish 7 (qos1 7)) d' =
      Some (Some (ok (Some (Pkt_PublishAck (mkAck 7 PA_QuotaExceeded [] None)))), R_Publish 7 (qos1 7), d'').
Proof.
  destruct (v5_publish_acknowledged no_ack (fun e => e) disp0 (qos1 7) 7 no_control
              (PubAck_new PA_QuotaExceeded)) as (d' & d'' & Hc & _ & Hp & _);
    [done | done | exact I | by apply not_elem_of_empty | ].
  exists d', d''. split; [exact Hc | exact Hp].
Defined.

Lemma v5_subscribe_uses_quota_witness :
  exists d, call (E := unit) (DI_Item (Pkt_Publish (qos1 7))) d =
    Some (proto_error PReceiveMaximumExceeded, d : Dispatcher (R := SimRuntime Ack)).
Proof.
  destruct (v5_subscribe_uses_quota (E := unit) sink0 10 (mkSubscribe 3 None [] []) (qos1 7) 7 eq_refl)
    as (d & _ & H).
  exists d. exact H.
Defined.
