(* ===== verification/V5Client.v ===== *)
(** * The client dispatcher of MQTT 5 (src/v5/client/dispatcher.rs, src/v5/client/control.rs)

    Publishes of the server pass the same checks as in a server; one that no
    handler takes goes to the control service of the application, with its
    packet id. *)

From stdpp Require Import base gmap list strings.
From S2P Require Import Prelude Types Wire V5Props V5PubAcks V5Subscribe V5Disconnect V5Publish V5Codec.
From S2P Require Import Sink V5Sink V5Control V5Info Inflight V5Dispatcher.
Open Scope Z_scope.

(** ** Control messages (src/v5/client/control.rs) *)

Inductive ControlMessage (E : Type) : Type :=
| CC_Publish (p : Publish)
| CC_Disconnect (pkt : Disconnect)
| CC_Error (err : E) (pkt : Disconnect)
| CC_ProtocolError (err : ProtocolError) (pkt : Disconnect)
| CC_Closed (is_error : bool).
Arguments CC_Publish {E} p.
Arguments CC_Disconnect {E} pkt.
Arguments CC_Error {E} err pkt.
Arguments CC_ProtocolError {E} err pkt.
Arguments CC_Closed {E} is_error.

(** [ControlMessage::error], [ControlMessage::proto_error] *)
Definition error_msg {E} (err : E) : ControlMessage E :=
  CC_Error err (error_disconnect DR_ImplementationSpecificError).
Definition proto_error_msg {E} (err : ProtocolError) : ControlMessage E :=
  CC_ProtocolError err (error_disconnect (protocol_reason err)).

(** [ControlMessage::disconnect], [Publish::ack] *)
Definition disconnect {E} (m : ControlMessage E) (pkt : Disconnect) : ControlResult :=
  mkControlResult (Some (Pkt_Disconnect pkt)) true.
Definition Publish_ack (p : Publish) (response : option PublishAck) : ControlResult :=
  mkControlResult (option_map Pkt_PublishAck response) false.

(** [ControlResponse::new]: is the message an error? *)
Definition is_error {E} (pkt : ControlMessage E) : bool :=
  match pkt with CC_Error _ _ | CC_ProtocolError _ _ => true | _ => false end.

Section Client.
Context `{R : Runtime Ack} {E : Type}.
Abbreviation Shared := (@MqttShared Ack R Codec).
Abbreviation MError := (MqttError E).
Abbreviation ControlResponse := (ControlResponse (Msg := ControlMessage E)).
Abbreviation control pkt := (ControlResponse_new is_error pkt).

Inductive Response : Type :=
| R_Ready (r : result (option Packet) MError)
| R_Publish (packet_id : Z) (p : Publish)
| R_PublishControl (packet_id : Z) (c : ControlResponse)
| R_Control (c : ControlResponse).

Definition proto_error (e : ProtocolError) : Response := R_Control (control (proto_error_msg e)).

Definition call_ack (a : Ack) : DM Response :=
  r ← on_sink (pkt_ack a);
  mret (match r with err e => proto_error e | ok _ => R_Ready (ok None) end).

(** [Dispatcher::call] *)
Definition call (request : DispatchItem) : DM Response :=
  match request with
  | DI_Item (Pkt_Publish publish) =>
      checked proto_error (R_Ready (ok None)) publish (R_Publish (publish_id publish) publish)
  | DI_Item (Pkt_PublishAck packet) => call_ack (Ack_Publish packet)
  | DI_Item (Pkt_SubscribeAck packet) => call_ack (Ack_Subscribe packet)
  | DI_Item (Pkt_UnsubscribeAck packet) => call_ack (Ack_Unsubscribe packet)
  | DI_Item Pkt_PingRequest => mret (R_Ready (ok (Some Pkt_PingResponse)))
  | DI_Item (Pkt_Disconnect pkt) => mret (R_Control (control (CC_Disconnect pkt)))
  | DI_Item (Pkt_Auth _) => mret (proto_error (PUnexpected pt_AUTH "Auth packet is not supported"))
  | DI_Item (Pkt_Subscribe _) =>
      mret (proto_error (PUnexpected pt_SUBSCRIBE "Subscribe packet is not supported"))
  | DI_Item (Pkt_Unsubscribe _) =>
      mret (proto_error (PUnexpected pt_UNSUBSCRIBE "Unsubscribe packet is not supported"))
  | DI_Item _ => mret (R_Ready (ok None))
  | DI_EncoderError e => mret (proto_error (PEncode e))
  | DI_DecoderError e => mret (proto_error (PDecode e))
  | DI_IoError => mret (proto_error PIo)
  | DI_KeepAliveTimeout => mret (proto_error PKeepAliveTimeout)
  | DI_WBackPressureEnabled | DI_WBackPressureDisabled => mret (R_Ready (ok None))
  end.

Abbreviation polled := (option (result (option Packet) MError)).

(** [PublishResponse::poll]: the publish service answers, or gives the packet
    back for the control service ([inl]). *)
Definition PublishResponse_poll (pc : ControlMessage E -> option (result ControlResult E))
  (id : Z) (p : Publish) (fut : option (result (Publish + PubAck) E)) : DM (polled * Response) :=
  match fut with
  | None => mret (None, R_Publish id p)
  | Some (ok (inr ack)) => x ← publish_done id ack; mret (x, R_Publish id p)
  | Some (ok (inl pkt)) =>
      x ← ControlResponse_poll error_msg pc (with_packet_id (control (CC_Publish pkt)) id);
      mret (x.1, R_PublishControl id x.2)
  | Some (err e) =>
      x ← ControlResponse_poll error_msg pc (control (error_msg e));
      mret (x.1, R_PublishControl id x.2)
  end.

Definition poll (pc : ControlMessage E -> option (result ControlResult E))
  (fut : option (result (Publish + PubAck) E)) (r : Response) : DM (polled * Response) :=
  match r with
  | R_Ready x => mret (Some x, r)
  | R_Publish id p => PublishResponse_poll pc id p fut
  | R_PublishControl id c =>
      x ← ControlResponse_poll error_msg pc c; mret (x.1, R_PublishControl id x.2)
  | R_Control c => x ← ControlResponse_poll error_msg pc c; mret (x.1, R_Control x.2)
  end.

(** [Dispatcher::poll_shutdown] *)
Definition poll_shutdown (is_error : bool) : DM (option (ControlMessage E)) := fun d =>
  if d_shutdown d then Some (None, d)
  else match drop_sink (d_sink d) with
       | Some (_, s) =>
           Some (Some (CC_Closed is_error),
                 mkDispatcher (d_max_receive d) (d_max_topic_alias d) true (d_inflight d) (d_aliases d) s)
       | None => None
       end.

(** [Dispatcher::poll_ready], from the readiness of the two services *)
Definition poll_ready (res1 res2 : option (result unit E)) : option (result unit MError) :=
  match res1 with
  | Some (err e) => Some (err (MService e))
  | _ => match res2 with
         | Some (err e) => Some (err (MService e))
         | _ => match res1, res2 with Some _, Some _ => Some (ok tt) | _, _ => None end
         end
  end.

(** ** The dispatcher at work *)
Record Sys : Type := mkSys { sys_d : Dispatcher; sys_pending : list Response }.

Definition keep (r : Response) : list Response := match r with R_Ready _ => [] | r => [r] end.

Inductive sys_step : Sys -> Sys -> Prop :=
| sys_call item r d d' l :
    call item d = Some (r, d') -> sys_step (mkSys d l) (mkSys d' (l ++ keep r))
| sys_poll pc fut resp resp' x d d' l1 l2 :
    poll pc fut resp d = Some (x, resp', d') ->
    sys_step (mkSys d (l1 ++ resp :: l2))
             (mkSys d' (l1 ++ match x with Some _ => [] | None => [resp'] end ++ l2))
| sys_shutdown b m d d' l :
    poll_shutdown b d = Some (m, d') -> sys_step (mkSys d l) (mkSys d' l)
| sys_sink s d l :
    step (d_sink d) s -> sys_step (mkSys d l) (mkSys (set_sink d s) l).

Inductive sys_reachable (sink : Shared) (max_receive max_topic_alias : Z) : Sys -> Prop :=
| sys_new : sys_reachable sink max_receive max_topic_alias
              (mkSys (Dispatcher_new sink max_receive max_topic_alias) [])
| sys_next s s' : sys_reachable sink max_receive max_topic_alias s -> sys_step s s' ->
              sys_reachable sink max_receive max_topic_alias s'.

(** The publishes in work, with the publish service or the control service *)
Definition held (r : Response) : list Z :=
  match r with
  | R_Publish id _ => hold id
  | R_PublishControl _ c | R_Control c => hold (c_packet_id c)
  | R_Ready _ => []
  end.
Definition held_all (l : list Response) : list Z := l ≫= held.

Definition call_effect (r : Response) (d d' : Dispatcher) : Prop :=
  same_limits d d' /\ (aliases_ok d -> aliases_ok d') /\
  takes held held (d_max_receive d) (keep r) (d_inflight d) (d_inflight d').

Lemma client_call_effects item d r d' : call item d = Some (r, d') -> call_effect r d d'.
Proof.
  assert (Hnone : keep r ≫= held = [] -> same_info d d' -> d_inflight d' = d_inflight d ->
    call_effect r d d').
  { intros Hh (H1 & H2 & H3) Hf. split; [by split | ].
    split; [intros Ha a; rewrite H3, H2; apply Ha | apply takes_none; [done | done | by rewrite Hf]]. }
  assert (Hret : forall r1, keep r1 ≫= held = [] -> (mret r1 : DM Response) d = Some (r, d') ->
    call_effect r d d').
  { intros r1 H1 [<- <-]%dret_Some. by apply Hnone. }
  assert (Hack : forall a, call_ack a d = Some (r, d') -> call_effect r d d').
  { intros a (x & d1 & [Hs Hf]%on_sink_Some & [<- <-]%dret_Some)%dbind_Some.
    destruct x; by apply Hnone. }
  destruct item as [pkt|e|e| | | |]; cbn [call]; try (by apply Hret).
  destruct pkt; cbn [call]; try (by apply Hret); try (by apply Hack).
  intros (Hl & Ha & Hk & Ho)%checked_effect. split; [done | ]. split; [done | ].
  destruct Ho as [[->|[e ->]]|[-> Hp]]; [by apply takes_none | by apply takes_none | ].
  unfold publish_id. destruct (pu_packet_id p) as [id|]; [ | by apply takes_none].
  destruct Hp as (Hid & -> & Hq). apply takes_one; cbn; rewrite ?app_nil_r; auto using hold_nodup.
  - intros j. apply elem_of_hold.
  - unfold hold. destruct (_ =? 0); [by left | by right].
Qed.

Lemma poll_client5 pc fut resp d x resp' d' :
  poll pc fut resp d = Some (x, resp', d') ->
  same_info d d' /\
  releases held held resp (match x with Some _ => [] | None => [resp'] end)
    (d_inflight d) (d_inflight d').
Proof.
  assert (Hfin : forall ids, released ids d d' -> (forall id, id ∈ ids -> id ∈ held resp) ->
    (x = None -> d' = d /\ (held resp' = held resp \/ held resp' = [])) ->
    same_info d d' /\
    releases held held resp (match x with Some _ => [] | None => [resp'] end)
      (d_inflight d) (d_inflight d')).
  { intros ids [Hs Hr] Hsub Hn. split; [done | ]. split; [auto | ]. destruct x as [y|]; [by left | ].
    destruct (Hn eq_refl) as [-> [Hh|Hh]]; cbn; rewrite app_nil_r; auto. }
  assert (Hctl : forall c (f : ControlResponse -> Response),
    (x ← ControlResponse_poll error_msg pc c; mret (x.1, f x.2) : DM _) d = Some (x, resp', d') ->
    (forall id, id ∈ hold (c_packet_id c) -> id ∈ held resp) ->
    (forall c', c_packet_id c' = c_packet_id c -> held (f c') = held resp \/ held (f c') = []) ->
    same_info d d' /\
    releases held held resp (match x with Some _ => [] | None => [resp'] end)
      (d_inflight d) (d_inflight d')).
  { intros c f ([y c'] & d1 & H & [[= <- <-] <-]%dret_Some)%dbind_Some Hsub Hh.
    apply control_poll_released in H as (Hc & Hr & Hn).
    apply (Hfin _ Hr Hsub). intros Hy. split; [by apply Hn | by apply Hh]. }
  destruct resp as [y|id p|id c|c]; cbn [poll].
  - intros [[= <- <-] <-]%dret_Some. apply (Hfin [] (released_refl _ _)); [ | done].
    by intros j ?%not_elem_of_nil.
  - unfold PublishResponse_poll. destruct fut as [[[pkt|ack]|e]|].
    + intros H. apply (Hctl _ _ H); [done | ]. intros c' Hc. left. cbn. by rewrite Hc.
    + intros (y & d1 & [Hy Hr]%publish_done_released & [[= <- <-] <-]%dret_Some)%dbind_Some.
      by apply (Hfin _ Hr).
    + intros H. apply (Hctl _ _ H); [by intros j ?%not_elem_of_nil | ].
      intros c' Hc. right. cbn. by rewrite Hc.
    + intros [[= <- <-] <-]%dret_Some. apply (Hfin [] (released_refl _ _)); [ | auto].
      by intros j ?%not_elem_of_nil.
  - intros H. apply (Hctl _ _ H); [done | ]. intros c' Hc. left. cbn. by rewrite Hc.
  - intros H. apply (Hctl _ _ H); [done | ]. intros c' Hc. left. cbn. by rewrite Hc.
Qed.

Definition sys_inv (max_receive max_topic_alias : Z) (s : Sys) : Prop :=
  d_max_receive (sys_d s) = max_receive /\ d_max_topic_alias (sys_d s) = max_topic_alias /\
  aliases_ok (sys_d s) /\
  ids_ok held held max_receive (d_inflight (sys_d s)) (sys_pending s).

Lemma client5_step_inv mr ma s s' : sys_inv mr ma s -> sys_step s s' -> sys_inv mr ma s'.
Proof.
  intros (H1 & H2 & H3 & H4) Hs.
  destruct Hs as [item r d d' l H|pc fut resp resp' x d d' l1 l2 H|b m d d' l H|sk d l H];
    unfold sys_inv in *; cbn [sys_pending sys_d] in *.
  - apply client_call_effects in H as ([Hl1 Hl2] & Ha & Ht). rewrite H1 in Ht.
    split; [congruence | ]. split; [congruence | ]. split; [auto | by eapply ids_ok_call].
  - apply poll_client5 in H as [(Hs1 & Hs2 & Hs3) Hr].
    split; [congruence | ]. split; [congruence | ].
    split; [intros a; rewrite Hs3, Hs2; apply H3 | by eapply ids_ok_poll].
  - unfold poll_shutdown in H. destruct (d_shutdown d); [by injection H as _ <- | ].
    destruct (drop_sink (d_sink d)) as [[u sk]|]; [by injection H as _ <- | done].
  - done.
Qed.

Lemma client5_reachable_inv sink mr ma s : 0 <= mr -> sys_reachable sink mr ma s -> sys_inv mr ma s.
Proof.
  intros Hmr. induction 1 as [|s s' _ IH Hs]; [ | by eapply client5_step_inv].
  split; [done | ]. split; [done | ]. split; [by intros a ?%not_elem_of_empty | by apply ids_ok_nil].
Qed.

(** ** Properties *)

(** C25: a client with a receive maximum never works on more publishes of
    the server than that, counting those it hands to the control service;
    they have different packet ids, and no alias above the maximum is
    recorded. *)
Theorem v5_client_receive_maximum sink mr ma s :
  0 <= mr -> sys_reachable sink mr ma s ->
  (mr <> 0 -> Z.of_nat (length (held_all (sys_pending s))) <= mr) /\
  NoDup (held_all (sys_pending s)) /\
  (forall id, id ∈ held_all (sys_pending s) -> id ∈ d_inflight (sys_d s)) /\
  (forall a, a ∈ d_aliases (sys_d s) -> a <= ma).
Proof.
  intros Hmr Hr. destruct (client5_reachable_inv _ _ _ _ Hmr Hr) as (_ & Hma & Ha & [Hd Hin Hq]).
  split; [done | ]. split; [done | ]. split; [done | ]. intros a. rewrite <- Hma. apply Ha.
Qed.

End Client.

(** ** A run *)

Definition client1 : Sys (R := SimRuntime Ack) (E := unit) := mkSys disp1 [R_Publish 7 (qos1 7)].

Lemma v5_client_receive_maximum_witness :
  Z.of_nat (length (held_all (sys_pending client1))) <= 2 /\ 7 ∈ d_inflight (sys_d client1).
Proof.
  destruct (v5_client_receive_maximum (E := unit) sink0 2 10 client1) as (Hq & _ & Hin & _).
  - lia.
  - eapply sys_next; [apply sys_new | ].
    apply (sys_call (DI_Item (Pkt_Publish (qos1 7))) (R_Publish 7 (qos1 7)) disp0 disp1 []). reflexivity.
  - split; [apply Hq; lia | apply Hin; by left].
Defined.
