(* ===== verification/IoDispatcher.v ===== *)
(** * Responses in order (src/io.rs)

    The dispatcher of a connection calls the service for each decoded item
    without waiting for earlier calls, and writes the responses in the order
    of the calls.  [DispatcherState] is the queue it does that with.  Writing
    a response ([Write::encode_result] of ntex) is the argument [encode]: it
    gives the error, if any, and the new state of the connection. *)

From stdpp Require Import base gmap list.
From S2P Require Import Prelude Types Sink.
Open Scope Z_scope.

(** [ServiceResult] and [ServiceResult::take] *)
Inductive ServiceResult (T : Type) : Type := Pending | Ready (t : T).
Arguments Pending {T}.
Arguments Ready {T} t.

Definition ServiceResult_take {T} (slf : ServiceResult T) : option T * ServiceResult T :=
  match slf with Pending => (None, Pending) | Ready r => (Some r, Pending) end.

(** [IoDispatcherError], its [From] and its [take] *)
Inductive IoDispatcherError (S U : Type) : Type :=
| IE_None
| IE_KeepAlive
| IE_Encoder (e : U)
| IE_Service (e : S).
Arguments IE_None {S U}.
Arguments IE_KeepAlive {S U}.
Arguments IE_Encoder {S U} e.
Arguments IE_Service {S U} e.

Definition IoDispatcherError_from {S U} (e : S + U) : IoDispatcherError S U :=
  match e with inl e => IE_Service e | inr e => IE_Encoder e end.

(** The item told to the service about an error: a keep-alive timeout
    ([inl tt]) or an encoder error. *)
Definition IoDispatcherError_take {S U} (e : IoDispatcherError S U)
  : option (unit + U) * IoDispatcherError S U :=
  match e with
  | IE_KeepAlive => (Some (inl tt), IE_None)
  | IE_Encoder e => (Some (inr e), IE_None)
  | IE_None => (None, IE_None)
  | IE_Service e => (None, IE_Service e)
  end.

Definition usize_max : Z := 2 ^ 64.
Definition wrapping_sub (a b : Z) : Z := (a - b) mod usize_max.
Definition wrapping_add (a b : Z) : Z := (a + b) mod usize_max.

Section Queue.
(** The results of the service, the errors, the connection *)
Context {T S U W : Type} (encode : T -> W -> option (S + U) * W).

Record DispatcherState : Type := mkState {
  error : option (IoDispatcherError S U);
  base : Z;
  queue : list (ServiceResult T);
}.

(** [write.encode_result(item, codec)] with the assignment of the error *)
Definition write_result (item : T) (st : DispatcherState) (w : W) : DispatcherState * W :=
  let (r, w) := encode item w in
  (mkState (match r with Some e => Some (IoDispatcherError_from e) | None => error st end)
     (base st) (queue st), w).

(** [queue.pop_front()] and [base = base.wrapping_add(1)] *)
Definition pop (st : DispatcherState) : DispatcherState :=
  mkState (error st) (wrapping_add (base st) 1) (tail (queue st)).

(** [while let Some(item) = queue.front_mut().and_then(|v| v.take())]: as many
    rounds as the queue is long *)
Fixpoint flush (fuel : nat) (st : DispatcherState) (w : W) : DispatcherState * W :=
  match fuel with
  | O => (st, w)
  | Datatypes.S fuel =>
      match queue st with
      | [] => (st, w)
      | front :: rest =>
          match ServiceResult_take front with
          | (None, front) => (mkState (error st) (base st) (front :: rest), w)
          | (Some item, front) =>
              let (st, w) := write_result item (pop (mkState (error st) (base st) (front :: rest))) w in
              flush fuel st w
          end
      end
  end.

(** [DispatcherState::handle_result]: [None] is a panic of the index; the
    boolean is the call of [write.wake_dispatcher()]. *)
Definition handle_result (item : T) (response_idx : Z) (wake : bool) (st : DispatcherState) (w : W)
  : option (bool * DispatcherState * W) :=
  let idx := wrapping_sub response_idx (base st) in
  if idx =? 0 then
    let (st, w) := write_result item (pop st) w in
    let (st, w) := flush (length (queue st)) st w in
    Some (wake && match queue st with [] => true | _ => false end, st, w)
  else
    if idx <? Z.of_nat (length (queue st))
    then Some (false, mkState (error st) (base st) (<[Z.to_nat idx := Ready item]> (queue st)), w)
    else None.

(** The index of the response of a call *)
Definition response_idx_of (st : DispatcherState) : Z :=
  wrapping_add (base st) (Z.of_nat (length (queue st))).

(** A call whose future is ready at once (the "first call" branch of
    [Dispatcher::poll]) *)
Definition call_ready (res : T) (st : DispatcherState) (w : W) : DispatcherState * W :=
  match queue st with
  | [] => write_result res st w
  | _ => (mkState (error st) (base st) (queue st ++ [Ready res]), w)
  end.

(** A call whose future is pending, kept by the dispatcher or spawned *)
Definition call_pending (st : DispatcherState) : Z * DispatcherState :=
  (response_idx_of st, mkState (error st) (base st) (queue st ++ [Pending])).

End Queue.

(** ** What writing does to the connection, as a preorder *)
Section Writing.
Context {T S U W : Type} (encode : T -> W -> option (S + U) * W) (Rw : relation W) `{!PreOrder Rw}.
Context (R_encode : forall t w, Rw w (encode t w).2).
Abbreviation State := (DispatcherState (T := T) (S := S) (U := U)).

Lemma write_result_rel item (st : State) w : Rw w (write_result encode item st w).2.
Proof. unfold write_result. specialize (R_encode item w). by destruct (encode item w). Qed.

Lemma flush_rel fuel (st : State) w : Rw w (flush encode fuel st w).2.
Proof.
  revert st w. induction fuel as [|fuel IH]; intros st w; cbn [flush]; [done | ].
  destruct (queue st) as [|x q]; [done | ]. destruct (ServiceResult_take x) as [[item|] x']; [ | done].
  pose proof (write_result_rel item (pop (mkState (error st) (base st) (x' :: q))) w) as Hw.
  destruct (write_result _ _ _ w) as [st' w']. specialize (IH st' w'). cbn in Hw. by etrans.
Qed.

Lemma handle_result_rel item idx wake (st : State) w b st' w' :
  handle_result encode item idx wake st w = Some (b, st', w') -> Rw w w'.
Proof.
  unfold handle_result. destruct (_ =? 0).
  - pose proof (write_result_rel item (pop st) w) as Hw. destruct (write_result _ _ _ w) as [st1 w1].
    pose proof (flush_rel (length (queue st1)) st1 w1) as Hf.
    destruct (flush _ _ st1 w1) as [st2 w2]. intros [= _ _ <-]. cbn in *. by etrans.
  - destruct (_ <? _); by intros [= _ _ <-].
Qed.

Lemma call_ready_rel res (st : State) w : Rw w (call_ready encode res st w).2.
Proof. unfold call_ready. repeat case_match; try done; apply write_result_rel. Qed.

End Writing.

(** ** Calls and responses

    Calls are numbered in the order they are made; [log] gives the results
    written to the connection so far, [tasks] the calls whose future is
    pending, each with its response index, and [dn] what each finished call
    gave. *)
Section Order.
Context {T S U W : Type} (encode : T -> W -> option (S + U) * W) (log : W -> list T).
Context (log_encode : forall t w, log (encode t w).2 = log w ++ [t]).
Abbreviation State := (DispatcherState (T := T) (S := S) (U := U)).

(** Call [n] is written, or it is at place [n - written] of the queue: ready
    with its result, or pending with a task that knows this place ([i]
    counts from the base [b]). *)
Definition slot_ok (tasks : gmap nat Z) (dn : gmap nat T) (b : Z) (n i : nat) (q : ServiceResult T) : Prop :=
  match q with
  | Ready r => tasks !! n = None /\ dn !! n = Some r
  | Pending => dn !! n = None /\ exists idx, tasks !! n = Some idx /\ wrapping_sub idx b = Z.of_nat i
  end.

(** The queue [q] stands at the places from [o] on. *)
Record queue_ok (w : list T) (n : nat) (tasks : gmap nat Z) (dn : gmap nat T) (b : Z) (o : nat)
  (q : list (ServiceResult T)) : Prop := {
  qo_base : 0 <= b < usize_max;
  qo_len : Z.of_nat (o + length q) < usize_max;
  qo_calls : n = (length w + (o + length q))%nat;
  qo_slots : forall i x, q !! i = Some x -> slot_ok tasks dn b (length w + (o + i)) (o + i) x;
  qo_written : forall i r, w !! i = Some r -> dn !! i = Some r /\ tasks !! i = None;
  qo_beyond : forall j, (n <= j)%nat -> tasks !! j = None /\ dn !! j = None;
}.

(** The state of the queue, with its front not ready *)
Definition inv (st : State) (w : list T) (n : nat) (tasks : gmap nat Z) (dn : gmap nat T) : Prop :=
  queue_ok w n tasks dn (base st) 0 (queue st) /\
  forall x q, queue st = x :: q -> x = Pending.

Lemma wrapping_sub_step idx b i :
  0 <= b < usize_max -> wrapping_sub idx b = Z.of_nat (Datatypes.S i) ->
  wrapping_sub idx (wrapping_add b 1) = Z.of_nat i.
Proof.
  unfold wrapping_sub, wrapping_add. intros Hb Hi.
  rewrite Zminus_mod_idemp_r. replace (idx - (b + 1)) with (idx - b - 1) by lia.
  rewrite <- Zminus_mod_idemp_l, Hi.
  replace (Z.of_nat (Datatypes.S i) - 1) with (Z.of_nat i) by lia. apply Z.mod_small.
  pose proof (Z.mod_pos_bound (idx - b) usize_max). unfold usize_max in *. lia.
Qed.

(** The front is taken off and written. *)
Lemma queue_pop w n tasks dn b q r :
  queue_ok w n tasks dn b 1 q -> dn !! length w = Some r -> tasks !! length w = None ->
  queue_ok (w ++ [r]) n tasks dn (wrapping_add b 1) 0 q.
Proof.
  intros [H1 H2 H3 H4 H5 H6] Hd Ht. split.
  - apply Z.mod_pos_bound. done.
  - lia.
  - rewrite length_app. cbn. lia.
  - intros i x Hx. specialize (H4 i x Hx). rewrite length_app. cbn in *.
    replace (length w + 1 + i)%nat with (length w + Datatypes.S i)%nat by lia.
    destruct x; [ | exact H4]. destruct H4 as (Hdn & idx & Hi & Hs).
    split; [done | ]. exists idx. split; [done | ]. by apply wrapping_sub_step.
  - intros i x Hx. apply lookup_app_Some in Hx as [Hx|[Hge Hx]]; [by apply H5 | ].
    apply list_lookup_singleton_Some in Hx as [Hi <-].
    assert (i = length w) as -> by lia. done.
  - done.
Qed.

Lemma queue_tail w n tasks dn b x q :
  queue_ok w n tasks dn b 0 (x :: q) -> queue_ok w n tasks dn b 1 q.
Proof.
  intros [H1 H2 H3 H4 H5 H6]. cbn in *. split; try done.
  - intros i y Hy. exact (H4 (Datatypes.S i) y Hy).
Qed.

(** Finishing call [k] changes nothing for the other ones. *)
Lemma slot_other tasks dn b n i k r x :
  n <> k -> slot_ok tasks dn b n i x -> slot_ok (delete k tasks) (<[k := r]> dn) b n i x.
Proof.
  intros Hn. unfold slot_ok. rewrite lookup_delete_ne, lookup_insert_ne by done. done.
Qed.

Lemma write_result_eq item (st : State) w :
  exists e, write_result encode item st w = (mkState e (base st) (queue st), (encode item w).2).
Proof. unfold write_result. destruct (encode item w). by eexists. Qed.

(** The loop of [handle_result] *)
Lemma flush_inv fuel (st : State) w n tasks dn :
  (length (queue st) <= fuel)%nat ->
  queue_ok (log w) n tasks dn (base st) 0 (queue st) ->
  inv (flush encode fuel st w).1 (log (flush encode fuel st w).2) n tasks dn.
Proof.
  revert st w. induction fuel as [|fuel IH]; intros [e b q] w Hf Hq; cbn [flush queue].
  - destruct q; [ | cbn in Hf; lia]. by split.
  - destruct q as [|[|r] q]; cbn [queue base error ServiceResult_take] in *.
    + by split.
    + split; [done | ]. by intros x q0 [= <- _].
    + destruct (write_result_eq r (pop (mkState e b (Pending :: q))) w) as [e' ->].
      apply IH; [cbn in *; lia | ]. cbn [base queue]. rewrite log_encode.
      destruct (qo_slots _ _ _ _ _ _ _ Hq 0%nat (Ready r) eq_refl) as [Ht Hd].
      rewrite Nat.add_0_r in Ht, Hd. apply queue_pop; [by eapply queue_tail | done | done].
Qed.

Lemma wrapping_idx b len :
  0 <= b < usize_max -> 0 <= len < usize_max -> wrapping_sub (wrapping_add b len) b = len.
Proof.
  intros Hb Hl. unfold wrapping_sub, wrapping_add. rewrite Zminus_mod_idemp_l.
  replace (b + len - b) with len by lia. by apply Z.mod_small.
Qed.

(** A call that is made gets the place behind all others. *)
Lemma queue_push w n tasks dn b q x tasks' dn' :
  queue_ok w n tasks dn b 0 q -> Z.of_nat (length q) < usize_max - 1 ->
  (forall j, j <> n -> tasks' !! j = tasks !! j /\ dn' !! j = dn !! j) ->
  slot_ok tasks' dn' b n (length q) x ->
  queue_ok w (Datatypes.S n) tasks' dn' b 0 (q ++ [x]).
Proof.
  intros [H1 H2 H3 H4 H5 H6] Hl Hsame Hx. cbn in *.
  assert (Hslot : forall m i y, m <> n -> slot_ok tasks dn b m i y -> slot_ok tasks' dn' b m i y).
  { intros m i y Hm. unfold slot_ok. destruct (Hsame m Hm) as [-> ->]. done. }
  split; rewrite ?length_app; cbn; try done; try lia.
  - intros i y Hy. apply lookup_app_Some in Hy as [Hy|[Hge Hy]].
    + apply Hslot; [ | by apply H4]. apply lookup_lt_Some in Hy. lia.
    + apply list_lookup_singleton_Some in Hy as [Hi <-].
      assert (i = length q) as -> by lia. by rewrite <- H3.
  - intros i r Hi. destruct (Hsame i) as [-> ->]; [ | by apply H5].
    apply lookup_lt_Some in Hi. lia.
  - intros j Hj. destruct (Hsame j) as [-> ->]; [lia | ]. apply H6. lia.
Qed.

Lemma task_slot w n tasks dn b q k idx :
  queue_ok w n tasks dn b 0 q -> tasks !! k = Some idx ->
  exists i, k = (length w + i)%nat /\ q !! i = Some Pending /\ wrapping_sub idx b = Z.of_nat i.
Proof.
  intros [H1 H2 H3 H4 H5 H6] Hk. cbn in *.
  destruct (decide (k < length w)%nat) as [Hlt|Hge].
  { destruct (lookup_lt_is_Some_2 w k Hlt) as [r Hr]. apply H5 in Hr as [_ Hr]. congruence. }
  destruct (decide (n <= k)%nat) as [Hn|Hn]; [apply H6 in Hn as [Hn _]; congruence | ].
  exists (k - length w)%nat. destruct (lookup_lt_is_Some_2 q (k - length w)) as [x Hx]; [lia | ].
  specialize (H4 _ _ Hx). replace (length w + (k - length w))%nat with k in H4 by lia.
  split; [lia | ]. destruct x as [|r]; [ | destruct H4; congruence].
  destruct H4 as (_ & idx' & Hk' & Hs). rewrite Hk in Hk'. injection Hk' as <-. done.
Qed.

(** The call whose future finished is at the front. *)
Lemma complete_front w n tasks dn b q r :
  queue_ok w n tasks dn b 0 (Pending :: q) ->
  queue_ok (w ++ [r]) n (delete (length w) tasks) (<[length w := r]> dn) (wrapping_add b 1) 0 q.
Proof.
  intros Hq. pose proof (queue_tail _ _ _ _ _ _ _ Hq) as [H1 H2 H3 H4 H5 H6].
  apply queue_pop; [ | by rewrite lookup_insert_eq | by rewrite lookup_delete_eq].
  split; try done.
  - intros i x Hx. apply slot_other; [lia | by apply H4].
  - intros i x Hx. apply lookup_lt_Some in Hx as Hlt.
    rewrite lookup_insert_ne, lookup_delete_ne by lia. by apply H5.
  - intros j Hj. rewrite lookup_insert_ne, lookup_delete_ne by lia. by apply H6.
Qed.

(** It is further back: its slot becomes ready. *)
Lemma complete_later w n tasks dn b q i r :
  queue_ok w n tasks dn b 0 q -> (i < length q)%nat ->
  queue_ok w n (delete (length w + i)%nat tasks) (<[(length w + i)%nat := r]> dn) b 0 (<[i := Ready r]> q).
Proof.
  intros [H1 H2 H3 H4 H5 H6] Hi. cbn in *. split; rewrite ?length_insert; try done.
  - intros j x Hx. destruct (decide (i = j)) as [->|Hij].
    + rewrite list_lookup_insert_eq in Hx by done. injection Hx as <-. cbn.
      by rewrite lookup_delete_eq, lookup_insert_eq.
    + rewrite list_lookup_insert_ne in Hx by done. apply slot_other; [cbn; lia | by apply H4].
  - intros j x Hx. apply lookup_lt_Some in Hx as Hlt.
    rewrite lookup_insert_ne, lookup_delete_ne by lia. by apply H5.
  - intros j Hj. rewrite lookup_insert_ne, lookup_delete_ne by lia. by apply H6.
Qed.

(** A finished task never panics, and keeps the order. *)
Lemma handle_result_inv (st : State) w n tasks dn k idx res wake :
  inv st (log w) n tasks dn -> tasks !! k = Some idx ->
  exists b st' w', handle_result encode res idx wake st w = Some (b, st', w') /\
    inv st' (log w') n (delete k tasks) (<[k := res]> dn).
Proof.
  intros [Hq Hhead] Hk. destruct (task_slot _ _ _ _ _ _ _ _ Hq Hk) as (i & -> & Hi & Hidx).
  unfold handle_result. rewrite Hidx. destruct i as [|i].
  - cbn [Z.of_nat Z.eqb]. destruct st as [e b [|x q]]; cbn [queue base] in *; [done | ].
    injection Hi as ->.
    destruct (write_result_eq res (pop (mkState e b (Pending :: q))) w) as [e' ->]. cbn [pop base queue tail].
    pose proof (flush_inv (length q) (mkState e' (wrapping_add b 1) q) (encode res w).2 n
                  (delete (length (log w)) tasks) (<[length (log w) := res]> dn)) as Hf.
    cbn [queue base] in Hf. rewrite log_encode in Hf.
    specialize (Hf (le_n _) (complete_front _ _ _ _ _ _ res Hq)).
    destruct (flush _ _ _ _) as [st' w'] eqn:Ef. eexists _, st', w'.
    split; [done | ]. rewrite Nat.add_0_r. exact Hf.
  - rewrite (proj2 (Z.eqb_neq _ _)) by lia. apply lookup_lt_Some in Hi as Hlt.
    rewrite (proj2 (Z.ltb_lt _ _)) by lia. eexists _, _, _. split; [reflexivity | ].
    rewrite Nat2Z.id. split; cbn [base queue].
    + by apply complete_later.
    + destruct (queue st) as [|x q] eqn:Eq; [done | ]. intros y q' [= <- _]. by eapply Hhead.
Qed.

(** Making a call keeps the order. *)
Lemma call_room (st : State) w n tasks dn :
  inv st w n tasks dn -> Z.of_nat (Datatypes.S n) < usize_max ->
  Z.of_nat (length (queue st)) < usize_max - 1 /\ tasks !! n = None /\ dn !! n = None.
Proof.
  intros [Hq _] Hmax. pose proof (qo_calls _ _ _ _ _ _ _ Hq).
  split; [lia | by apply (qo_beyond _ _ _ _ _ _ _ Hq)].
Qed.

Lemma call_pending_inv (st : State) w n tasks dn :
  inv st w n tasks dn -> Z.of_nat (Datatypes.S n) < usize_max ->
  inv (call_pending st).2 w (Datatypes.S n) (<[n := (call_pending st).1]> tasks) dn.
Proof.
  intros Hi Hmax. destruct (call_room _ _ _ _ _ Hi Hmax) as (Hl & Htn & Hdn).
  destruct Hi as [Hq Hhead]. split; cbn.
  - eapply queue_push; [exact Hq | exact Hl | | ].
    + intros j Hj. by rewrite lookup_insert_ne.
    + cbn. split; [done | ]. eexists. rewrite lookup_insert_eq. split; [done | ].
      apply wrapping_idx; [apply Hq | lia].
  - destruct (queue st) as [|x q] eqn:Eq; [by intros y q' [= <- _] | ].
    intros y q' [= <- _]. by eapply Hhead.
Qed.

Lemma call_ready_inv (st : State) w n tasks dn res :
  inv st (log w) n tasks dn -> Z.of_nat (Datatypes.S n) < usize_max ->
  inv (call_ready encode res st w).1 (log (call_ready encode res st w).2) (Datatypes.S n) tasks
    (<[n := res]> dn).
Proof.
  intros Hi Hmax. destruct (call_room _ _ _ _ _ Hi Hmax) as (Hl & Htn & Hdn).
  destruct Hi as [Hq Hhead]. pose proof Hq as [H1 H2 H3 H4 H5 H6].
  unfold call_ready. destruct (queue st) as [|x q] eqn:Eq.
  - destruct (write_result_eq res st w) as [e ->]. rewrite Eq in *. cbn in H3.
    split; cbn; [ | done]. rewrite log_encode. split; cbn; rewrite ?length_app; try done; try (cbn; lia).
    + intros i r Hr. apply lookup_app_Some in Hr as [Hr|[Hge Hr]].
      * apply lookup_lt_Some in Hr as Hlt. rewrite lookup_insert_ne by lia. by apply H5.
      * apply list_lookup_singleton_Some in Hr as [Hi <-].
        assert (i = n) as -> by lia. by rewrite lookup_insert_eq.
    + intros j Hj. rewrite lookup_insert_ne by lia. apply H6. lia.
  - cbn [fst snd]. rewrite <- Eq in *. split; cbn [base queue].
    + eapply queue_push; [exact Hq | exact Hl | | ].
      * intros j Hj. by rewrite lookup_insert_ne.
      * cbn. by rewrite lookup_insert_eq.
    + rewrite Eq. intros y q' [= <- _]. by eapply Hhead.
Qed.

(** What the invariant says of the responses: what has been written is what
    the first calls gave, in their order; a pending call is not written; with
    nothing pending, or the queue empty, every call is answered. *)
Lemma inv_order (st : State) w n tasks dn :
  inv st w n tasks dn ->
  (forall i r, w !! i = Some r -> dn !! i = Some r) /\ (length w <= n)%nat /\
  (forall k idx, tasks !! k = Some idx -> (length w <= k < n)%nat) /\
  (tasks = ∅ -> length w = n) /\ (queue st = [] -> length w = n).
Proof.
  intros [Hq Hhead]. split; [intros i r Hw; by apply (qo_written _ _ _ _ _ _ _ Hq) | ].
  pose proof (qo_calls _ _ _ _ _ _ _ Hq) as Hn. cbn in Hn. split; [lia | ]. split; [ | split].
  - intros k idx Hk.
    destruct (task_slot _ _ _ _ _ _ _ _ Hq Hk) as (i & -> & Hlt%lookup_lt_Some & _). lia.
  - intros ->. destruct (queue st) as [|x q] eqn:Eq; [cbn in Hn; lia | ].
    assert (x = Pending) as -> by (by eapply Hhead).
    destruct (qo_slots _ _ _ _ _ _ _ Hq 0%nat Pending eq_refl) as (_ & idx & Hk & _).
    by rewrite lookup_empty in Hk.
  - intros Eq. rewrite Eq in Hn. cbn in Hn. lia.
Qed.

End Order.
