(* ===== verification/IoPoll.v ===== *)
(** * The io dispatcher (src/io.rs)

    [Dispatcher::poll]: the state machine of a connection.  It polls the
    response it holds, decodes items, calls the service, hands further pending
    responses to spawned tasks, and shuts down when it is told to, after the
    responses are written.  What it uses of ntex and of the service is the
    class [IoEnv]: operations on an environment [X]. *)

From stdpp Require Import base gmap list relations.
From S2P Require Import Prelude Types Sink IoDispatcher.
Open Scope Z_scope.

(** [DispatchItem] of ntex; the io dispatcher does not make the last two *)
Inductive DispatchItem (I DE UE IE : Type) : Type :=
| DI_Item (el : I)
| DI_KeepAliveTimeout
| DI_EncoderError (e : UE)
| DI_DecoderError (e : DE)
| DI_IoError (e : IE)
| DI_WBackPressureEnabled
| DI_WBackPressureDisabled.
Arguments DI_Item {I DE UE IE} el.
Arguments DI_KeepAliveTimeout {I DE UE IE}.
Arguments DI_EncoderError {I DE UE IE} e.
Arguments DI_DecoderError {I DE UE IE} e.
Arguments DI_IoError {I DE UE IE} e.
Arguments DI_WBackPressureEnabled {I DE UE IE}.
Arguments DI_WBackPressureDisabled {I DE UE IE}.

(** The service, the read and write halves of the io state, the timer.  [T]
    is [Result<S::Response, S::Error>], [S] the error of the service, [U] of
    the encoder. *)
Class IoEnv (X Fut I T S U DE IE : Type) := {
  service_poll_ready : X -> option (result unit S) * X;
  service_call : DispatchItem I DE U IE -> X -> Fut * X;
  service_poll_shutdown : bool -> X -> bool * X;
  future_poll : Fut -> X -> option T * Fut * X;
  read_resume : X -> X;
  read_pause : X -> X;
  read_wake : X -> X;
  read_is_ready : X -> bool;
  read_decode : X -> result (option I) DE * X;
  encode_result : T -> X -> option (S + U) * X;
  wake_dispatcher : X -> X;
  is_keepalive : X -> bool;
  is_dispatcher_stopped : X -> bool;
  dispatcher_stopped : X -> X;
  take_io_error : X -> option IE * X;
  shutdown_io : X -> X;
  register_dispatcher : X -> X;
  timer_now : X -> Z;
  timer_register : Z -> Z -> X -> X;
  timer_unregister : Z -> X -> X;
}.

Inductive IoDispatcherState : Type := Processing | Stop | Shutdown.

Section Poll.
Context {X Fut I T S U DE IE : Type} `{Env : IoEnv X Fut I T S U DE IE}.

Abbreviation State := (DispatcherState (T := T) (S := S) (U := U)).

(** [Dispatcher].  Calls of the service are counted, which names the futures;
    [d_spawned] are the tasks given to [ntex::rt::spawn].  For the statements
    below, [d_log] has the results given to [encode_result] so far and
    [d_done] what the future of each finished call gave. *)
Record Dispatcher : Type := mkDispatcher {
  d_st : IoDispatcherState;
  d_inner : State;
  d_response : option (nat * Fut);
  d_response_idx : Z;
  d_keepalive_timeout : Z;
  d_updated : Z;
  d_spawned : gmap nat (Fut * Z);
  d_calls : nat;
  d_log : list T;
  d_done : gmap nat T;
}.

Definition set_st (st : IoDispatcherState) (d : Dispatcher) : Dispatcher :=
  mkDispatcher st (d_inner d) (d_response d) (d_response_idx d) (d_keepalive_timeout d)
    (d_updated d) (d_spawned d) (d_calls d) (d_log d) (d_done d).
Definition set_updated (u : Z) (d : Dispatcher) : Dispatcher :=
  mkDispatcher (d_st d) (d_inner d) (d_response d) (d_response_idx d) (d_keepalive_timeout d) u
    (d_spawned d) (d_calls d) (d_log d) (d_done d).
Definition set_inner (i : State) (log : list T) (d : Dispatcher) : Dispatcher :=
  mkDispatcher (d_st d) i (d_response d) (d_response_idx d) (d_keepalive_timeout d) (d_updated d)
    (d_spawned d) (d_calls d) log (d_done d).
Definition set_error (e : option (IoDispatcherError S U)) (d : Dispatcher) : Dispatcher :=
  set_inner (mkState e (base (d_inner d)) (queue (d_inner d))) (d_log d) d.
Definition set_response (r : option (nat * Fut)) (d : Dispatcher) : Dispatcher :=
  mkDispatcher (d_st d) (d_inner d) r (d_response_idx d) (d_keepalive_timeout d) (d_updated d)
    (d_spawned d) (d_calls d) (d_log d) (d_done d).
Definition set_response_idx (i : Z) (d : Dispatcher) : Dispatcher :=
  mkDispatcher (d_st d) (d_inner d) (d_response d) i (d_keepalive_timeout d) (d_updated d)
    (d_spawned d) (d_calls d) (d_log d) (d_done d).
Definition set_spawned (s : gmap nat (Fut * Z)) (d : Dispatcher) : Dispatcher :=
  mkDispatcher (d_st d) (d_inner d) (d_response d) (d_response_idx d) (d_keepalive_timeout d)
    (d_updated d) s (d_calls d) (d_log d) (d_done d).
Definition count_call (d : Dispatcher) : Dispatcher :=
  mkDispatcher (d_st d) (d_inner d) (d_response d) (d_response_idx d) (d_keepalive_timeout d)
    (d_updated d) (d_spawned d) (Datatypes.S (d_calls d)) (d_log d) (d_done d).
Definition record (n : nat) (t : T) (d : Dispatcher) : Dispatcher :=
  mkDispatcher (d_st d) (d_inner d) (d_response d) (d_response_idx d) (d_keepalive_timeout d)
    (d_updated d) (d_spawned d) (d_calls d) (d_log d) (<[n := t]> (d_done d)).

(** [Dispatcher::with], [Dispatcher::keepalive_timeout] (times in seconds) *)
Definition Dispatcher_with (x : X) : Dispatcher * X :=
  let updated := timer_now x in
  let expire := updated + 30 in
  (mkDispatcher Processing (mkState None 0 []) None 0 30 updated ∅ 0 [] ∅,
   timer_register expire expire x).

Definition set_keepalive_timeout (timeout : Z) (d : Dispatcher) (x : X) : Dispatcher * X :=
  let prev := d_updated d + d_keepalive_timeout d in
  let x := if timeout =? 0 then timer_unregister prev x
           else timer_register (d_updated d + timeout) prev x in
  (mkDispatcher (d_st d) (d_inner d) (d_response d) (d_response_idx d) timeout (d_updated d)
     (d_spawned d) (d_calls d) (d_log d) (d_done d), x).

(** [encode_result] with the record of what was given to it *)
Definition encode_log (t : T) (w : X * list T) : option (S + U) * (X * list T) :=
  let (e, x) := encode_result t w.1 in (e, (x, w.2 ++ [t])).

(** The end of a response, in the dispatcher or in a spawned task *)
Definition finish (n : nat) (item : T) (idx : Z) (wake : bool) (d : Dispatcher) (x : X)
  : option (Dispatcher * X) :=
  match handle_result encode_log item idx wake (d_inner d) (x, d_log d) with
  | Some (w, inner, (x, log)) =>
      Some (record n item (set_inner inner log d), if w then wake_dispatcher x else x)
  | None => None
  end.

(** "handle service response future" *)
Definition poll_response (d : Dispatcher) (x : X) : option (Dispatcher * X) :=
  match d_response d with
  | None => Some (d, x)
  | Some (n, fut) =>
      match future_poll fut x with
      | (None, fut, x) => Some (set_response (Some (n, fut)) d, x)
      | (Some item, _, x) =>
          match finish n item (d_response_idx d) false d x with
          | Some (d, x) => Some (set_response None d, x)
          | None => None
          end
      end
  end.

(** "call service" *)
Definition call_service (item : DispatchItem I DE U IE) (d : Dispatcher) (x : X) : Dispatcher * X :=
  let n := d_calls d in
  match d_response d with
  | None =>
      let (fut, x) := service_call item x in
      match future_poll fut x with
      | (Some res, _, x) =>
          let d := match queue (d_inner d) with
                   | [] => d
                   | _ => set_response_idx (response_idx_of (d_inner d)) d
                   end in
          let '(inner, (x, log)) := call_ready encode_log res (d_inner d) (x, d_log d) in
          (count_call (record n res (set_inner inner log d)), x)
      | (None, fut, x) =>
          let (idx, inner) := call_pending (d_inner d) in
          (count_call (set_response (Some (n, fut)) (set_response_idx idx (set_inner inner (d_log d) d))), x)
      end
  | Some _ =>
      let (idx, inner) := call_pending (d_inner d) in
      let (fut, x) := service_call item x in
      (count_call (set_spawned (<[n := (fut, idx)]> (d_spawned d)) (set_inner inner (d_log d) d)), x)
  end.

Definition unregister_keepalive (d : Dispatcher) (x : X) : X :=
  if d_keepalive_timeout d =? 0 then x
  else timer_unregister (d_updated d + d_keepalive_timeout d) x.

(** "update keep-alive timer" *)
Definition update_keepalive (d : Dispatcher) (x : X) : Dispatcher * X :=
  if d_keepalive_timeout d =? 0 then (d, x)
  else
    let updated := timer_now x in
    if updated =? d_updated d then (d, x)
    else (set_updated updated d,
          timer_register (updated + d_keepalive_timeout d) (d_updated d + d_keepalive_timeout d) x).

(** "check keepalive timeout" *)
Definition check_keepalive (d : Dispatcher) (x : X) : Dispatcher * X :=
  if is_keepalive x then
    (match error (d_inner d) with None => set_error (Some IE_KeepAlive) d | Some _ => d end,
     dispatcher_stopped x)
  else (d, x).

(** The error that is told to the service when the dispatcher stops *)
Definition take_error (d : Dispatcher) (x : X) : option (DispatchItem I DE U IE) * Dispatcher * X :=
  let (item, d) :=
    match error (d_inner d) with
    | Some e => let (item, e) := IoDispatcherError_take e in (item, set_error (Some e) d)
    | None => (None, d)
    end in
  match item with
  | Some (inl _) => (Some DI_KeepAliveTimeout, d, x)
  | Some (inr e) => (Some (DI_EncoderError e), d, x)
  | None => let (e, x) := take_io_error x in
            (match e with Some e => Some (DI_IoError e) | None => None end, d, x)
  end.

(** What one round of the loop has for the service: an item or nothing, and
    whether to poll again; or the round ends the poll. *)
Inductive Round : Type :=
| Round_item (item : option (DispatchItem I DE U IE)) (retry : bool) (d : Dispatcher) (x : X)
| Round_wait (x : X).

Definition next_item (d : Dispatcher) (x : X) : Round :=
  if is_dispatcher_stopped x then
    let x := unregister_keepalive d x in
    match read_decode x with
    | (ok (Some el), x) => Round_item (Some (DI_Item el)) true d x
    | (_, x) =>
        let '(item, d, x) := take_error d x in
        Round_item item true (set_st Stop d) x
    end
  else if read_is_ready x then
    match read_decode x with
    | (ok (Some el), x) => let (d, x) := update_keepalive d x in Round_item (Some (DI_Item el)) false d x
    | (ok None, x) => Round_wait (read_wake x)
    | (err e, x) => Round_item (Some (DI_DecoderError e)) true (set_st Stop d) (unregister_keepalive d x)
    end
  else Round_wait (register_dispatcher x).

(** "if let Some(item) = item" *)
Definition run_item (item : option (DispatchItem I DE U IE)) (d : Dispatcher) (x : X) : Dispatcher * X :=
  match item with Some item => call_service item d x | None => (d, x) end.

Inductive PollResult : Type :=
| P_Pending (d : Dispatcher) (x : X)
| P_Ready (r : result unit S) (d : Dispatcher) (x : X)
| P_Panic (d : Dispatcher) (x : X)
| P_OutOfFuel (d : Dispatcher) (x : X).

(** The arm of a service that fails to get ready *)
Definition ready_failed (e : S) (d : Dispatcher) (x : X) : Dispatcher * X :=
  let d := set_error (Some (IE_Service e)) (set_st Stop d) in
  (d, unregister_keepalive d (dispatcher_stopped x)).

(** The state [Stop] drains the responses; [next] is another poll. *)
Definition poll_stop (next : Dispatcher -> X -> PollResult) (d : Dispatcher) (x : X) : PollResult :=
  let (_, x) := service_poll_ready x in
  match queue (d_inner d) with
  | [] => next (set_st Shutdown d) (shutdown_io x)
  | _ => P_Pending d (register_dispatcher x)
  end.

(** The state [Shutdown] *)
Definition poll_shutdown (d : Dispatcher) (x : X) : PollResult :=
  let is_err := match error (d_inner d) with Some _ => true | None => false end in
  match service_poll_shutdown is_err x with
  | (true, x) =>
      P_Ready (match error (d_inner d) with Some (IE_Service e) => err e | _ => ok tt end)
        (set_error None d) x
  | (false, x) => P_Pending d x
  end.

(** [Dispatcher::poll]; [enter] is the start of a poll, which looks at the held
    response first, and not another round of the loop. *)
Fixpoint poll (fuel : nat) (enter : bool) (d : Dispatcher) (x : X) : PollResult :=
  match fuel with
  | O => P_OutOfFuel d x
  | Datatypes.S fuel =>
      match (if enter then poll_response d x else Some (d, x)) with
      | None => P_Panic d x
      | Some (d, x) =>
          match d_st d with
          | Processing =>
              match service_poll_ready x with
              | (Some (ok _), x) =>
                  let (d, x) := check_keepalive d (read_resume x) in
                  match next_item d x with
                  | Round_wait x => P_Pending d x
                  | Round_item item retry d x =>
                      let (d, x) := run_item item d x in
                      poll fuel retry d x
                  end
              | (None, x) => P_Pending d (read_pause x)
              | (Some (err e), x) =>
                  let (d, x) := ready_failed e d x in
                  poll fuel true d x
              end
          | Stop => poll_stop (poll fuel true) d x
          | Shutdown => poll_shutdown d x
          end
      end
  end.

(** A spawned task is polled: [None] is a panic. *)
Definition poll_task (n : nat) (d : Dispatcher) (x : X) : option (Dispatcher * X) :=
  match d_spawned d !! n with
  | None => Some (d, x)
  | Some (fut, idx) =>
      match future_poll fut x with
      | (None, fut, x) => Some (set_spawned (<[n := (fut, idx)]> (d_spawned d)) d, x)
      | (Some item, _, x) =>
          match finish n item idx true d x with
          | Some (d, x) => Some (set_spawned (delete n (d_spawned d)) d, x)
          | None => None
          end
      end
  end.

(** The dispatcher a poll leaves *)
Definition poll_state (r : PollResult) : Dispatcher :=
  match r with P_Pending d _ | P_Ready _ d _ | P_Panic d _ | P_OutOfFuel d _ => d end.

(** ** Invariant *)

(** The calls whose future is pending, with the response index it will use *)
Definition tasks (d : Dispatcher) : gmap nat Z :=
  match d_response d with
  | Some (n, _) => <[n := d_response_idx d]> (snd <$> d_spawned d)
  | None => snd <$> d_spawned d
  end.

Record dinv (d : Dispatcher) : Prop := {
  di_queue : inv (d_inner d) (d_log d) (d_calls d) (tasks d) (d_done d);
  di_fresh : forall n f, d_response d = Some (n, f) -> d_spawned d !! n = None;
  di_shutdown : d_st d = Shutdown -> queue (d_inner d) = [];
}.

Lemma encode_log_log t (w : X * list T) : (encode_log t w).2.2 = w.2 ++ [t].
Proof. unfold encode_log. by destruct (encode_result t w.1). Qed.

(** A pending call keeps the queue from being empty, so the dispatcher is not
    shut down. *)
Lemma task_queue d k idx : dinv d -> tasks d !! k = Some idx -> queue (d_inner d) <> [].
Proof.
  intros [[Hq _] _ _] Hk. destruct (task_slot _ _ _ _ _ _ _ _ Hq Hk) as (i & _ & Hi & _).
  by intros Eq; rewrite Eq in Hi.
Qed.

Lemma finish_inv k item idx wake d x :
  dinv d -> tasks d !! k = Some idx ->
  exists inner log x', finish k item idx wake d x = Some (record k item (set_inner inner log d), x') /\
    inv inner log (d_calls d) (delete k (tasks d)) (<[k := item]> (d_done d)).
Proof.
  intros [Hi _ _] Hk. unfold finish.
  destruct (handle_result_inv encode_log snd encode_log_log (d_inner d) (x, d_log d) _ _ _ _ _ item wake
              Hi Hk) as (w & inner & [x' log] & -> & Hi'). by eexists _, _, _.
Qed.

Lemma poll_response_inv d x :
  dinv d -> exists d' x', poll_response d x = Some (d', x') /\ dinv d' /\ d_calls d' = d_calls d /\
    d_st d' = d_st d.
Proof.
  intros Hd. unfold poll_response. destruct (d_response d) as [[n fut]|] eqn:Er; [ | by eexists _, _].
  assert (Hk : tasks d !! n = Some (d_response_idx d)).
  { unfold tasks. by rewrite Er, lookup_insert_eq. }
  destruct (future_poll fut x) as [[[item|] fut'] x'].
  - destruct (finish_inv n item (d_response_idx d) false d x' Hd Hk) as (inner & log & x1 & -> & Hi).
    eexists _, _. split; [reflexivity | ]. split; [ | done]. split; cbn; [ | done | ].
    + unfold tasks in Hi |- *. cbn. rewrite Er in Hi. rewrite delete_insert_id in Hi; [exact Hi | ].
      rewrite lookup_fmap. by rewrite (di_fresh _ Hd _ _ Er).
    + intros Hs. by destruct (task_queue _ _ _ Hd Hk); apply (di_shutdown _ Hd).
  - eexists _, _. split; [reflexivity | ]. split; [ | done]. destruct Hd as [H1 H2 H3].
    split; cbn; [ | intros m f [= <- _]; by eapply H2 | done].
    unfold tasks in *. by rewrite Er in H1.
Qed.

Lemma poll_task_inv n d x :
  dinv d -> exists d' x', poll_task n d x = Some (d', x') /\ dinv d' /\ d_calls d' = d_calls d.
Proof.
  intros Hd. unfold poll_task. destruct (d_spawned d !! n) as [[fut idx]|] eqn:Es; [ | by eexists _, _].
  assert (Hne : forall m f, d_response d = Some (m, f) -> m <> n).
  { intros m f Hr ->. by rewrite (di_fresh _ Hd _ _ Hr) in Es. }
  assert (Hk : tasks d !! n = Some idx).
  { unfold tasks. destruct (d_response d) as [[m f]|] eqn:Er;
      [rewrite lookup_insert_ne by (by eapply Hne) | ]; by rewrite lookup_fmap, Es. }
  destruct (future_poll fut x) as [[[item|] fut'] x'].
  - destruct (finish_inv n item idx true d x' Hd Hk) as (inner & log & x1 & -> & Hi).
    eexists _, _. split; [reflexivity | ]. split; [ | done]. split; cbn.
    + unfold tasks in Hi |- *. cbn. destruct (d_response d) as [[m f]|] eqn:Er.
      * rewrite fmap_delete, <- delete_insert_ne; [exact Hi | ]. by apply not_eq_sym, (Hne _ f).
      * by rewrite fmap_delete.
    + intros m f Hr. rewrite lookup_delete_ne by (by apply not_eq_sym, (Hne _ f)). by eapply di_fresh.
    + intros Hs. by destruct (task_queue _ _ _ Hd Hk); apply (di_shutdown _ Hd).
  - eexists _, _. split; [reflexivity | ]. split; [ | done]. destruct Hd as [H1 H2 H3].
    split; cbn; [ | | done].
    + replace (tasks _) with (tasks d); [done | ]. unfold tasks. cbn. rewrite fmap_insert. cbn.
      rewrite (insert_id (snd <$> d_spawned d)); [done | ]. by rewrite lookup_fmap, Es.
    + intros m f Hr. rewrite lookup_insert_ne; [by eapply H2 | ]. by apply not_eq_sym, (Hne _ f).
Qed.

(** The response index is used only with a held response. *)
Lemma tasks_idx d i : d_response d = None -> tasks (set_response_idx i d) = tasks d.
Proof. unfold tasks. cbn. by intros ->. Qed.

Lemma spawned_fresh d : dinv d -> d_spawned d !! d_calls d = None.
Proof.
  intros [[Hq _] _ _]. destruct (qo_beyond _ _ _ _ _ _ _ Hq (d_calls d) (le_n _)) as [Ht _].
  unfold tasks in Ht. destruct (d_response d) as [[m f]|]; [ | by rewrite lookup_fmap, fmap_None in Ht].
  by apply lookup_insert_None in Ht as [Ht _]; rewrite lookup_fmap, fmap_None in Ht.
Qed.

Lemma call_service_inv item d x :
  dinv d -> d_st d <> Shutdown -> Z.of_nat (d_calls d) < usize_max - 1 ->
  dinv (call_service item d x).1.
Proof.
  intros Hd Hst Hmax. assert (Hc : Z.of_nat (Datatypes.S (d_calls d)) < usize_max) by lia.
  pose proof (spawned_fresh _ Hd) as Hfr. pose proof Hd as [H1 H2 H3].
  unfold call_service. destruct (d_response d) as [[m f]|] eqn:Er.
  - pose proof (call_pending_inv _ _ _ _ _ H1 Hc) as Hp.
    destruct (call_pending (d_inner d)) as [idx inner]. destruct (service_call item x) as [fut x1].
    assert (m <> d_calls d).
    { intros ->. destruct H1 as [Hq _].
      destruct (qo_beyond _ _ _ _ _ _ _ Hq (d_calls d) (le_n _)) as [Ht _].
      unfold tasks in Ht. by rewrite Er, lookup_insert_eq in Ht. }
    split; cbn in *; [ | | done].
    + unfold tasks in Hp |- *. cbn. rewrite Er in *. rewrite fmap_insert. cbn.
      rewrite insert_insert_ne by done. exact Hp.
    + intros n g Hr. rewrite Er in Hr. injection Hr as <- <-. rewrite lookup_insert_ne by done. by eapply H2.
  - destruct (service_call item x) as [fut x1].
    destruct (future_poll fut x1) as [[[res|] fut'] x2].
    + set (d' := match queue (d_inner d) with [] => d | _ => _ end).
      assert (Hd' : d_inner d' = d_inner d /\ d_log d' = d_log d /\ d_done d' = d_done d /\ d_st d' = d_st d /\
                d_calls d' = d_calls d /\ tasks d' = tasks d /\ d_response d' = None).
      { unfold d'. destruct (queue (d_inner d)); cbn; by rewrite ?tasks_idx, ?Er. }
      clearbody d'. destruct Hd' as (E1 & E2 & E3 & E4 & E5 & E6 & E7). rewrite E1, E2.
      pose proof (call_ready_inv encode_log snd encode_log_log _ (x2, d_log d) _ _ _ res H1 Hc) as Hp.
      destruct (call_ready _ _ _ _) as [inner [x3 log]].
      split; cbn in *; [ | by rewrite E7 | by rewrite E4].
      rewrite E3, E5. exact (eq_ind_r (fun t => inv inner log _ t _) Hp E6).
    + pose proof (call_pending_inv _ _ _ _ _ H1 Hc) as Hp.
      destruct (call_pending (d_inner d)) as [idx inner].
      split; cbn in *; [ | by intros n g [= <- _] | done].
      unfold tasks in Hp |- *. cbn. by rewrite Er in Hp.
Qed.

(** What the steps of a poll other than the calls leave alone *)
Definition core (d : Dispatcher) :=
  (base (d_inner d), queue (d_inner d), d_log d, d_calls d, d_done d, d_response d, d_response_idx d,
   d_spawned d).

Lemma core_dinv d d' :
  core d' = core d -> dinv d -> (d_st d' = Shutdown -> queue (d_inner d) = []) -> dinv d'.
Proof.
  unfold core. intros [= E1 E2 E3 E4 E5 E6 E7 E8] [H1 H2 H3] Hs.
  split; unfold tasks, inv in *; rewrite ?E1, ?E2, ?E3, ?E4, ?E5, ?E6, ?E7, ?E8; done.
Qed.

Lemma core_calls d d' : core d' = core d -> d_calls d' = d_calls d.
Proof. by unfold core; intros [=]. Qed.

Lemma check_keepalive_core d x :
  core (check_keepalive d x).1 = core d /\ d_st (check_keepalive d x).1 = d_st d.
Proof. unfold check_keepalive. destruct (is_keepalive x); [ | done]. by destruct (error (d_inner d)). Qed.

Lemma update_keepalive_core d x :
  core (update_keepalive d x).1 = core d /\ d_st (update_keepalive d x).1 = d_st d.
Proof. unfold update_keepalive. by repeat case_match. Qed.

Lemma take_error_core d x : core (take_error d x).1.2 = core d /\ d_st (take_error d x).1.2 = d_st d.
Proof.
  unfold take_error. destruct (error (d_inner d)) as [e|].
  - destruct (IoDispatcherError_take e) as [[[?|?]|] e']; cbn; try done. by destruct (take_io_error x).
  - by destruct (take_io_error x).
Qed.

Lemma next_item_core d x item retry d' x' :
  next_item d x = Round_item item retry d' x' -> d_st d <> Shutdown ->
  core d' = core d /\ d_st d' <> Shutdown.
Proof.
  intros H Hst. revert H. unfold next_item.
  pose proof (take_error_core d) as Ht. pose proof (update_keepalive_core d) as Hu.
  assert (Hstop : forall y, match take_error d y with (item, d, y) => Round_item item true (set_st Stop d) y end
                        = Round_item item retry d' x' -> core d' = core d /\ d_st d' <> Shutdown).
  { intros y. specialize (Ht y). destruct (take_error d y) as [[o d0] y0]. intros [= _ _ <- _].
    split; [apply Ht | done]. }
  destruct (is_dispatcher_stopped x).
  - destruct (read_decode _) as [[[el|]|e] x1]; [by intros [= _ _ <- _] | apply Hstop | apply Hstop].
  - destruct (read_is_ready x); [ | done]. destruct (read_decode _) as [[[el|]|e] x1]; [ | done | ].
    + specialize (Hu x1). destruct (update_keepalive d x1) as [d0 x2]. destruct Hu as [Hc Hs].
      intros [= _ _ <- _]. cbn in *. split; congruence.
    + by intros [= _ _ <- _].
Qed.

Lemma finish_calls k item idx wake d x d' x' :
  finish k item idx wake d x = Some (d', x') -> d_calls d' = d_calls d.
Proof. unfold finish. destruct (handle_result _ _ _ _ _ _) as [[[w i] [x1 l]]|]; by intros [= <- _]. Qed.

Lemma poll_response_calls d x d' x' :
  poll_response d x = Some (d', x') -> d_calls d' = d_calls d.
Proof.
  unfold poll_response. repeat case_match; intros [= <- _]; try done.
  cbn. by eapply finish_calls.
Qed.

Lemma call_service_calls item d x : d_calls (call_service item d x).1 = Datatypes.S (d_calls d).
Proof. unfold call_service. repeat case_match; simplify_eq; done. Qed.

Lemma run_item_calls item d x : (d_calls d <= d_calls (run_item item d x).1)%nat.
Proof. destruct item; cbn [run_item]; [ | done]. rewrite call_service_calls. lia. Qed.

Lemma run_item_inv item d x :
  dinv d -> d_st d <> Shutdown -> Z.of_nat (d_calls (run_item item d x).1) < usize_max ->
  dinv (run_item item d x).1.
Proof.
  destruct item as [item|]; cbn [run_item]; [ | done]. rewrite call_service_calls. intros Hd Hs Hc.
  apply call_service_inv; [done | done | lia].
Qed.

(** Calls are only added. *)
Lemma poll_calls fuel enter d x : (d_calls d <= d_calls (poll_state (poll fuel enter d x)))%nat.
Proof.
  revert enter d x. induction fuel as [|fuel IH]; intros enter d x; cbn [poll]; unfold ready_failed, poll_stop, poll_shutdown; [done | ].
  destruct (if enter then _ else _) as [[d1 x1]|] eqn:Er; [ | done].
  assert (d_calls d1 = d_calls d) as <-.
  { destruct enter; [by eapply poll_response_calls | by injection Er as <- _]. }
  destruct (d_st d1) eqn:Est.
  - destruct (service_poll_ready x1) as [[[[]|e]|] x2]; [ | etrans; [ | apply IH]; done | done].
    pose proof (check_keepalive_core d1 (read_resume x2)) as [Hk Hs].
    destruct (check_keepalive d1 (read_resume x2)) as [d2 x3]. cbn in Hk, Hs.
    apply core_calls in Hk. destruct (next_item d2 x3) as [item retry d3 x4|] eqn:En; [ | cbn; lia].
    pose proof (run_item_calls item d3 x4) as Hr. destruct (run_item item d3 x4) as [d4 x5].
    specialize (IH retry d4 x5). cbn in Hr.
    apply next_item_core in En as [En%core_calls _]; [lia | congruence].
  - destruct (service_poll_ready x1). destruct (queue (d_inner d1)); [ | done].
    etrans; [ | apply IH]. done.
  - by destruct (service_poll_shutdown _ x1) as [[] ?].
Qed.

(** How a poll ends: no panic; finished with all responses written; stopped
    and waiting with a response missing *)
Definition poll_ends (r : PollResult) : Prop :=
  match r with
  | P_Panic _ _ => False
  | P_Ready _ d _ => queue (d_inner d) = []
  | P_Pending d _ => d_st d = Stop -> queue (d_inner d) <> []
  | P_OutOfFuel _ _ => True
  end.

Lemma poll_inv fuel enter d x :
  dinv d -> Z.of_nat (d_calls (poll_state (poll fuel enter d x))) < usize_max ->
  dinv (poll_state (poll fuel enter d x)) /\ poll_ends (poll fuel enter d x).
Proof.
  revert enter d x. induction fuel as [|fuel IH]; intros enter d x Hd; cbn [poll]; unfold ready_failed, poll_stop, poll_shutdown; [done | ].
  assert (exists d1 x1, (if enter then poll_response d x else Some (d, x)) = Some (d1, x1) /\ dinv d1)
    as (d1 & x1 & -> & Hd1).
  { destruct enter; [ | by eexists _, _].
    destruct (poll_response_inv d x Hd) as (d1 & x1 & H1 & H2 & _). by eexists _, _. }
  destruct (d_st d1) eqn:Est.
  - destruct (service_poll_ready x1) as [[[[]|e]|] x2]; [ | | cbn; split; [done | congruence]].
    + pose proof (check_keepalive_core d1 (read_resume x2)) as [Hk Hs].
      destruct (check_keepalive d1 (read_resume x2)) as [d2 x3]. cbn in Hk, Hs.
      assert (Hd2 : dinv d2) by (apply (core_dinv d1); [done | done | congruence]).
      destruct (next_item d2 x3) as [item retry d3 x4|] eqn:En; [ | cbn; split; [done | congruence]].
      apply next_item_core in En as [Hc Hst]; [ | congruence].
      pose proof (poll_calls fuel retry (run_item item d3 x4).1 (run_item item d3 x4).2) as Hp.
      pose proof (run_item_inv item d3 x4) as Hr. destruct (run_item item d3 x4) as [d4 x5]. cbn in Hp, Hr.
      intros Hm. apply IH; [ | done]. apply Hr; [by apply (core_dinv d2) | done | lia].
    + apply IH. by apply (core_dinv d1).
  - destruct (service_poll_ready x1). destruct (queue (d_inner d1)) as [|q0 q] eqn:Eq; [ | by cbn; rewrite Eq].
    apply IH. by apply (core_dinv d1).
  - pose proof (di_shutdown _ Hd1 Est) as Eq.
    destruct (service_poll_shutdown _ x1) as [[] ?]; [ | cbn; split; [done | congruence]].
    intros _. split; [by apply (core_dinv d1) | done].
Qed.

(** ** Termination of a poll

    [unread] counts the items in the read buffer.  The read task fills it, not
    the dispatcher: within a poll only [decode] changes it. *)
Class ReadBounded (unread : X -> nat) : Prop := {
  rb_item : forall x el x', read_decode x = (ok (Some el), x') -> (unread x' < unread x)%nat;
  rb_decode : forall x, (unread (read_decode x).2 <= unread x)%nat;
  rb_ready : forall x, (unread (service_poll_ready x).2 <= unread x)%nat;
  rb_call : forall i x, (unread (service_call i x).2 <= unread x)%nat;
  rb_future : forall f x, (unread (future_poll f x).2 <= unread x)%nat;
  rb_encode : forall t x, (unread (encode_result t x).2 <= unread x)%nat;
  rb_wake : forall x, (unread (wake_dispatcher x) <= unread x)%nat;
  rb_resume : forall x, (unread (read_resume x) <= unread x)%nat;
  rb_stopped : forall x, (unread (dispatcher_stopped x) <= unread x)%nat;
  rb_shutdown : forall x, (unread (shutdown_io x) <= unread x)%nat;
  rb_io_error : forall x, (unread (take_io_error x).2 <= unread x)%nat;
  rb_register : forall e p x, (unread (timer_register e p x) <= unread x)%nat;
  rb_unregister : forall e x, (unread (timer_unregister e x) <= unread x)%nat;
}.

Definition rank (st : IoDispatcherState) : nat :=
  match st with Processing => 2 | Stop => 1 | Shutdown => 0 end.

Section Terminates.
Context (unread : X -> nat) {Hb : ReadBounded unread}.

Lemma encode_log_unread t (w : X * list T) : (unread (encode_log t w).2.1 <= unread w.1)%nat.
Proof. unfold encode_log. pose proof (rb_encode t w.1). by destruct (encode_result t w.1). Qed.

Definition no_more (w w' : X * list T) : Prop := (unread w'.1 <= unread w.1)%nat.
#[local] Instance no_more_preorder : PreOrder no_more.
Proof. split; unfold no_more; [intros w; lia | intros ???; lia]. Qed.

Lemma poll_response_unread d x d' x' :
  poll_response d x = Some (d', x') -> (unread x' <= unread x)%nat /\ d_st d' = d_st d.
Proof.
  unfold poll_response, finish. destruct (d_response d) as [[n fut]|]; [ | by intros [= <- <-]].
  pose proof (rb_future fut x) as Hf. destruct (future_poll fut x) as [[[item|] fut'] x1]; cbn in Hf;
    [ | by intros [= <- <-]].
  destruct (handle_result _ _ _ _ _ _) as [[[w i] [x2 l]]|] eqn:Eh; [ | done].
  apply (handle_result_rel encode_log no_more encode_log_unread) in Eh. unfold no_more in Eh. cbn in Eh.
  pose proof (rb_wake x2). intros [= <- <-]. destruct w; cbn; split; first [done | lia].
Qed.

Lemma unregister_unread d x : (unread (unregister_keepalive d x) <= unread x)%nat.
Proof. unfold unregister_keepalive. destruct (_ =? 0); [done | apply rb_unregister]. Qed.

Lemma check_keepalive_unread d x : (unread (check_keepalive d x).2 <= unread x)%nat.
Proof. unfold check_keepalive. destruct (is_keepalive x); [apply rb_stopped | done]. Qed.

Lemma update_keepalive_unread d x : (unread (update_keepalive d x).2 <= unread x)%nat.
Proof. unfold update_keepalive. repeat case_match; [done | done | apply rb_register]. Qed.

Lemma take_error_unread d x : (unread (take_error d x).2 <= unread x)%nat.
Proof.
  unfold take_error. pose proof (rb_io_error x) as Hx.
  destruct (match error (d_inner d) with Some _ => _ | None => _ end) as [[[?|?]|] d']; cbn; [done | done | ].
  by destruct (take_io_error x).
Qed.

Lemma run_item_unread item d x :
  (unread (run_item item d x).2 <= unread x)%nat /\ d_st (run_item item d x).1 = d_st d.
Proof.
  destruct item as [item|]; [ | done]. cbn [run_item]. unfold call_service.
  pose proof (rb_call item x) as Hc. destruct (d_response d) as [[m g]|].
  { destruct (call_pending _). by destruct (service_call item x). }
  destruct (service_call item x) as [fut x1]. pose proof (rb_future fut x1) as Hf.
  destruct (future_poll fut x1) as [[[res|] fut'] x2]; cbn in Hc, Hf;
    [ | destruct (call_pending _); cbn; split; [lia | done]].
  set (d' := match queue (d_inner d) with [] => d | _ => _ end).
  pose proof (call_ready_rel encode_log no_more encode_log_unread res (d_inner d') (x2, d_log d')) as Hr.
  destruct (call_ready _ _ _ _) as [inner [x3 log]]. unfold no_more in Hr. cbn in *. split; [lia | ].
  unfold d'. by destruct (queue (d_inner d)).
Qed.

(** A round takes an item from the buffer or stops. *)
Lemma next_item_unread d x item retry d' x' :
  next_item d x = Round_item item retry d' x' -> d_st d = Processing ->
  (unread x' + rank (d_st d') < unread x + 2)%nat.
Proof.
  intros H Hst. revert H. unfold next_item. pose proof (unregister_unread d) as Hu.
  destruct (is_dispatcher_stopped x).
  - specialize (Hu x). pose proof (rb_decode (unregister_keepalive d x)) as Hd.
    pose proof (rb_item (unregister_keepalive d x)) as Hi.
    destruct (read_decode _) as [r x1]. cbn in Hd. pose proof (take_error_unread d x1) as Ht.
    destruct r as [[el|]|e]; [ | destruct (take_error d x1) as [[o d0] x2]; intros [= _ _ <- <-]; cbn in *; lia ..].
    intros [= _ _ <- <-]. rewrite Hst. specialize (Hi _ _ eq_refl). cbn. lia.
  - destruct (read_is_ready x); [ | done]. pose proof (rb_decode x) as Hd. pose proof (rb_item x) as Hi.
    destruct (read_decode x) as [[[el|]|e] x1]; [ | done | ]; cbn in Hd.
    + pose proof (update_keepalive_unread d x1) as Hk. pose proof (update_keepalive_core d x1) as [_ Hs].
      destruct (update_keepalive d x1) as [d0 x2]. intros [= _ _ <- <-]. cbn in Hs, Hk. rewrite Hs, Hst.
      specialize (Hi _ _ eq_refl). cbn. lia.
    + intros [= _ _ <- <-]. specialize (Hu x1). cbn. lia.
Qed.

Definition out_of_fuel (r : PollResult) : bool := match r with P_OutOfFuel _ _ => true | _ => false end.

Lemma poll_fuel fuel enter d x :
  (unread x + rank (d_st d) < fuel)%nat -> out_of_fuel (poll fuel enter d x) = false.
Proof.
  revert enter d x. induction fuel as [|fuel IH]; intros enter d x Hf; [lia | ]. cbn [poll]. unfold ready_failed, poll_stop, poll_shutdown.
  destruct (if enter then _ else _) as [[d1 x1]|] eqn:Er; [ | done].
  assert ((unread x1 <= unread x)%nat /\ d_st d1 = d_st d) as [Hx Hd].
  { destruct enter; [by eapply poll_response_unread | by injection Er as <- <-]. }
  rewrite <- Hd in Hf. pose proof (rb_ready x1) as Hr. destruct (d_st d1) eqn:Est; cbn in Hf.
  - destruct (service_poll_ready x1) as [[[[]|e]|] x2]; cbn in Hr; [ | | done].
    + pose proof (rb_resume x2) as Hrs. pose proof (check_keepalive_unread d1 (read_resume x2)) as Hk.
      pose proof (check_keepalive_core d1 (read_resume x2)) as [_ Hs].
      destruct (check_keepalive d1 (read_resume x2)) as [d2 x3]. cbn in Hk, Hs.
      destruct (next_item d2 x3) as [item retry d3 x4|] eqn:En; [ | done].
      apply next_item_unread in En; [ | congruence].
      pose proof (run_item_unread item d3 x4) as [Hi Hst]. destruct (run_item item d3 x4) as [d4 x5].
      apply IH. cbn in Hi, Hst. rewrite Hst. lia.
    + apply IH. pose proof (rb_stopped x2).
      pose proof (unregister_unread (set_error (Some (IE_Service e)) (set_st Stop d1)) (dispatcher_stopped x2)).
      cbn [d_st set_error set_inner set_st rank]. lia.
  - destruct (service_poll_ready x1) as [r x2]. cbn in Hr. destruct (queue (d_inner d1)); [ | done].
    apply IH. pose proof (rb_shutdown x2). cbn [d_st set_st rank]. lia.
  - by destruct (service_poll_shutdown _ x1) as [[] ?].
Qed.

End Terminates.

(** ** The connection over time

    Between the steps of the dispatcher and of its tasks the environment does
    what it likes: every step has an [X] of its own. *)
Inductive io_reachable : Dispatcher -> Prop :=
| io_with x y timeout :
    io_reachable (set_keepalive_timeout timeout (Dispatcher_with x).1 y).1
| io_poll d x fuel d' x' :
    io_reachable d -> poll fuel true d x = P_Pending d' x' -> io_reachable d'
| io_task d n x d' x' :
    io_reachable d -> poll_task n d x = Some (d', x') -> io_reachable d'.

Lemma poll_task_calls n d x d' x' : poll_task n d x = Some (d', x') -> d_calls d' = d_calls d.
Proof.
  unfold poll_task. repeat case_match; intros [= <- _]; try done. cbn. by eapply finish_calls.
Qed.

Lemma io_reachable_inv d : io_reachable d -> Z.of_nat (d_calls d) < usize_max -> dinv d.
Proof.
  induction 1 as [x y timeout|d x fuel d' x' Hd IH Hp|d n x d' x' Hd IH Ht]; intros Hc.
  - split; cbn; [ | done | done]. split; [ | done]. split; cbn; done.
  - pose proof (poll_calls fuel true d x) as Hm. pose proof (poll_inv fuel true d x) as Hi.
    rewrite Hp in Hm, Hi. cbn in Hm, Hi. apply Hi; [apply IH; lia | done].
  - destruct (poll_task_inv n d x) as (d1 & x1 & E & Hd1 & _).
    { apply IH. by rewrite <- (poll_task_calls _ _ _ _ _ Ht). }
    rewrite Ht in E. by injection E as <- _.
Qed.

(** C12: Responses in order.  Over any interleaving of polls of the dispatcher,
    polls of the spawned response tasks and moves of the environment, with
    fewer than 2^64 calls of the service: nothing panics (no response index is
    out of range); what has been given to the encoder is what the first calls
    gave, in the order of the calls, whatever order their futures finished in;
    when the dispatcher finishes every call has been answered; and a stopped
    dispatcher that waits does so for a call that is still pending. *)
Theorem io_responses_in_order fuel (d : Dispatcher) (x : X) :
  io_reachable d ->
  Z.of_nat (d_calls (poll_state (poll fuel true d x))) < usize_max ->
  let d' := poll_state (poll fuel true d x) in
  (forall i t, d_log d' !! i = Some t -> d_done d' !! i = Some t) /\
  (length (d_log d') <= d_calls d')%nat /\
  (forall n y, is_Some (poll_task n d y)) /\
  match poll fuel true d x with
  | P_Panic _ _ => False
  | P_Ready _ d' _ => length (d_log d') = d_calls d'
  | P_Pending d' _ => d_st d' = Stop -> tasks d' <> ∅
  | P_OutOfFuel _ _ => True
  end.
Proof.
  intros Hr Hc d'. pose proof (poll_calls fuel true d x) as Hm.
  assert (Hd : dinv d) by (apply io_reachable_inv; [done | lia]).
  destruct (poll_inv fuel true d x Hd Hc) as [Hd' He]. fold d' in Hd'.
  destruct (inv_order _ _ _ _ _ (di_queue _ Hd')) as (Ho & Hl & _ & Ht & Hq).
  split; [done | ]. split; [done | ]. split.
  { intros n y. destruct (poll_task_inv n d y Hd) as (d1 & y1 & E & _). by rewrite E. }
  subst d'. destruct (poll fuel true d x) as [d1 x1|r d1 x1| |]; cbn in *; try done.
  - intros Hs E. apply (He Hs). destruct (di_queue _ Hd') as [Hqo _].
    pose proof (qo_calls _ _ _ _ _ _ _ Hqo) as Hn. specialize (Ht E). cbn in Hn.
    destruct (queue (d_inner d1)); [done | cbn in Hn; lia].
  - by apply Hq.
Qed.

(** C26: A poll of the dispatcher ends.  Each round of its loop takes an item
    from the read buffer or moves the dispatcher on to the next state, so the
    number of buffered items plus three is enough fuel. *)
Theorem io_poll_terminates (unread : X -> nat) (d : Dispatcher) (x : X) fuel :
  ReadBounded unread -> (unread x + 3 <= fuel)%nat ->
  match poll fuel true d x with P_OutOfFuel _ _ => False | _ => True end.
Proof.
  intros Hb Hf. pose proof (poll_fuel unread fuel true d x) as H.
  destruct (poll fuel true d x); try done. discriminate H. destruct (d_st d); cbn; lia.
Qed.

End Poll.

(** ** An environment to run the dispatcher in

    Items and results are numbers; the future of an item finishes when the
    item is in [dx_ready]. *)
Record DemoX : Type := mkDemo { dx_buf : list nat; dx_ready : list nat; dx_stopped : bool }.

#[export] Instance demo_env : IoEnv DemoX nat nat nat unit unit unit unit := {
  service_poll_ready x := (Some (ok tt), x);
  service_call i x := (match i with DI_Item n => n | _ => 0%nat end, x);
  service_poll_shutdown _ x := (true, x);
  future_poll f x := (if bool_decide (f ∈ dx_ready x) then Some f else None, f, x);
  read_resume x := x;
  read_pause x := x;
  read_wake x := x;
  read_is_ready x := true;
  read_decode x :=
    match dx_buf x with
    | [] => (ok None, x)
    | n :: buf => (ok (Some n), mkDemo buf (dx_ready x) (dx_stopped x))
    end;
  encode_result _ x := (None, x);
  wake_dispatcher x := x;
  is_keepalive x := false;
  is_dispatcher_stopped x := dx_stopped x;
  dispatcher_stopped x := mkDemo (dx_buf x) (dx_ready x) true;
  take_io_error x := (None, x);
  shutdown_io x := x;
  register_dispatcher x := x;
  timer_now x := 0;
  timer_register _ _ x := x;
  timer_unregister _ x := x;
}.

Lemma demo_bounded : ReadBounded (fun x => length (dx_buf x)).
Proof.
  split; cbn; try done.
  - intros [[|n buf] r s] el x'; cbn; [done | ]. intros [= _ <-]. cbn. lia.
  - intros [[|n buf] r s]; cbn; lia.
Qed.

(** Three calls, of which the second finishes first *)
Definition demo_start : Dispatcher (Fut := nat) (T := nat) (S := unit) (U := unit) :=
  (set_keepalive_timeout 10 (Dispatcher_with (mkDemo [] [] false)).1 (mkDemo [] [] false)).1.
Definition demo_called : Dispatcher (Fut := nat) (T := nat) (S := unit) (U := unit) :=
  poll_state (poll 9 true demo_start (mkDemo [11; 12; 13]%nat [] false)).
Definition demo_second : Dispatcher (Fut := nat) (T := nat) (S := unit) (U := unit) :=
  match poll_task 1 demo_called (mkDemo [] [12]%nat false) with Some (d, _) => d | None => demo_called end.

Lemma io_responses_in_order_witness :
  d_log demo_second = [] /\
  d_log (poll_state (poll 9 true demo_second (mkDemo [] [11; 12]%nat false))) = [11; 12]%nat /\
  forall i t, d_log (poll_state (poll 9 true demo_second (mkDemo [] [11; 12]%nat false))) !! i = Some t ->
    d_done (poll_state (poll 9 true demo_second (mkDemo [] [11; 12]%nat false))) !! i = Some t.
Proof.
  split; [vm_compute; reflexivity | ]. split; [vm_compute; reflexivity | ].
  refine (proj1 (io_responses_in_order 9 demo_second (mkDemo [] [11; 12]%nat false) _ _));
    [ | vm_compute; reflexivity].
  refine (io_task demo_called 1 (mkDemo [] [12]%nat false) demo_second (mkDemo [] [12]%nat false) _ _);
    [ | vm_compute; reflexivity].
  refine (io_poll demo_start (mkDemo [11; 12; 13]%nat [] false) 9 demo_called (mkDemo [] [] false) _ _);
    [apply io_with | vm_compute; reflexivity].
Defined.

Lemma io_poll_terminates_witness :
  match poll 6 true demo_start (mkDemo [11; 12; 13]%nat [] true) with P_OutOfFuel _ _ => False | _ => True end.
Proof.
  apply (io_poll_terminates (fun x => length (dx_buf x)) demo_start (mkDemo [11; 12; 13]%nat [] true) 6).
  - exact demo_bounded.
  - cbn. lia.
Defined.
