(* ===== verification/Futures.v ===== *)
(** * The futures of [src/utils.rs]

    A future with state [S] is its [poll]: the output, or [None] while it is
    pending, and the state after the poll.  [Select] polls its first future
    before its second, so a handshake that is done in the very poll in which
    its delay is over is still in time. *)

From stdpp Require Import base list.
From S2P Require Import Prelude Sink.

Definition Future (S A : Type) : Type := S -> option A * S.

(** [ready(service)]: the future of the readiness of a service *)
Definition Ready_poll {S E} (poll_ready : Future S (result unit E)) : Future S (result unit E) := poll_ready.

(** [Select::poll] *)
Definition Select_poll {S1 S2 A B} (fut1 : Future S1 A) (fut2 : Future S2 B) : Future (S1 * S2) (A + B) :=
  fun '(s1, s2) =>
    let (r1, s1) := fut1 s1 in
    match r1 with
    | Some res => (Some (inl res), (s1, s2))
    | None =>
        let (r2, s2) := fut2 s2 in
        match r2 with
        | Some res => (Some (inr res), (s1, s2))
        | None => (None, (s1, s2))
        end
    end.

(** [.await] of a future, for at most [fuel] polls: the number of polls that
    were pending, the output and the last state *)
Fixpoint await {S A} (fuel : nat) (f : Future S A) (s : S) : option (nat * A * S) :=
  match fuel with
  | O => None
  | Datatypes.S fuel =>
      match f s with
      | (Some a, s) => Some (O, a, s)
      | (None, s) => match await fuel f s with Some (n, a, s) => Some (Datatypes.S n, a, s) | None => None end
      end
  end.

(** Awaiting both futures in turns gives the output of the one that needs
    fewer polls, and of the first one when they need as many: it is [inl a]
    exactly if the first future gives [a] while the second is pending before,
    and [inr b] exactly if the second gives [b] while the first is still
    pending in that poll. *)
Theorem select_first {S1 S2 A B} (f1 : Future S1 A) (f2 : Future S2 B) n s1 s2 :
  match await (Datatypes.S n) (Select_poll f1 f2) (s1, s2) with
  | Some (k, inl a, (s1', _)) => await (Datatypes.S n) f1 s1 = Some (k, a, s1') /\ await k f2 s2 = None
  | Some (k, inr b, (_, s2')) => await (Datatypes.S n) f2 s2 = Some (k, b, s2') /\ await (Datatypes.S k) f1 s1 = None
  | None => await (Datatypes.S n) f1 s1 = None /\ await (Datatypes.S n) f2 s2 = None
  end.
Proof.
  revert s1 s2. induction n as [|n IH]; intros s1 s2; cbn [await Select_poll].
  - destruct (f1 s1) as [[a|] t1] eqn:E1; [done | ]. destruct (f2 s2) as [[b|] t2] eqn:E2; cbn; by rewrite ?E1.
  - destruct (f1 s1) as [[a|] t1] eqn:E1; [done | ]. destruct (f2 s2) as [[b|] t2] eqn:E2; [cbn; by rewrite ?E1 | ].
    specialize (IH t1 t2). cbn [await] in IH.
    destruct (Select_poll f1 f2 (t1, t2)) as [[o|] t] eqn:Es.
    + destruct o as [a|b], t as [u1 u2]; destruct IH as [-> H0]; (split; [done | ]); cbn [await]; rewrite ?E1, ?E2; [done | ].
      cbn [await] in H0. by rewrite H0.
    + destruct (await n _ t) as [[[k o] [u1 u2]]|]; [destruct o as [a|b] | ]; destruct IH as [H1 H2];
        rewrite ?H1, ?H2; cbn [await]; rewrite ?E1, ?E2, ?H2; (split; [done | ]); try done.
      all: cbn [await] in H2; by rewrite H2.
Qed.

(** A handshake that is done when the delay is over *)
Definition countdown {A} (a : A) : Future nat A := fun n => match n with O => (Some a, O) | Datatypes.S n => (None, n) end.

Lemma select_tie : (await 9 (Select_poll (countdown true) (countdown false)) (4, 4) = Some (4, inl true, (0, 4 - 4)))%nat.
Proof. reflexivity. Qed.
