(* ===== verification/Net.v ===== *)
(** * A connection before its dispatcher runs

    The handshakes of servers and clients read and write single packets:
    [State::next] and [State::send] of ntex, the class [Net].  They work on the
    shared state of the sink of the connection ([MqttShared]), in the monad of
    [Sink]; the connect services of applications are computations of that
    monad, since they may use the sink. *)

From stdpp Require Import base gmap list.
From S2P Require Import Prelude Types Sink.
Open Scope Z_scope.

(** An io error has no structure here. *)
Inductive IoError : Type := io_error.

(** [next decode codec]: the next packet, [None] when the peer is gone;
    [send f]: what the codec writes, written to the peer ([None]: the codec
    panics); [sent]: all that was written to the peer. *)
Class Net (A Codec Packet : Type) `{R : Runtime A} := {
  next : (Codec -> bytes -> dres (option Packet) * Codec * bytes) -> Codec -> world ->
         result (option Packet) (DecodeError + IoError) * Codec * world;
  send_item : ewriter -> world -> option (result unit (EncodeError + IoError) * world);
  sent : world -> bytes;
  (* State::set_buffer_params, WriteTask::shutdown *)
  set_buffer_params : Z -> Z -> Z -> world -> world;
  shutdown_write : world -> world;
  (* does the delay of select(.., delay) win? *)
  delay_first : world -> bool * world;
}.

(** A packet that is sent has been encoded after what was in the buffer, and
    the buffer is empty; a packet that is received is the result of the last
    run of the decoder, and only the decoder changes the codec; a connection
    that is closed stays closed. *)
Class NetLaws (A Codec Packet : Type) `{N : Net A Codec Packet} := {
  send_ok f w w' : send_item f w = Some (ok tt, w') ->
    (f (wbuf w)).1 = Ok tt /\ sent w' = sent w ++ (f (wbuf w)).2 /\ wbuf w' = [];
  next_quiet decode c w : sent (next decode c w).2 = sent w /\ wbuf (next decode c w).2 = wbuf w;
  next_keeps (P : Codec -> Prop) decode c w :
    (forall c b, P c -> P (decode c b).1.2) -> P c -> P (next decode c w).1.2;
  params_quiet r wr lw w :
    sent (set_buffer_params r wr lw w) = sent w /\ wbuf (set_buffer_params r wr lw w) = wbuf w;
  next_decoded decode c w p c' w' :
    next decode c w = (ok (Some p), c', w') -> exists c0 b b', decode c0 b = (Ok (Some p), c', b');
  next_open decode c w : is_open (next decode c w).2 = true -> is_open w = true;
  send_open f w r w' : send_item f w = Some (r, w') -> is_open w' = true -> is_open w = true;
  params_open r wr lw w : is_open (set_buffer_params r wr lw w) = true -> is_open w = true;
  shutdown_open w : is_open (shutdown_write w) = true -> is_open w = true;
  delay_open w : is_open (delay_first w).2 = true -> is_open w = true;
}.

Declare Scope net_scope.

Section Ops.
Context {A Codec Packet : Type} `{N : Net A Codec Packet}.

Abbreviation Shared := (@MqttShared A R Codec).
Abbreviation M := (@M A R Codec).

Definition set_codec (c : Codec) (s : Shared) : Shared :=
  mkShared (cap s) (borrowed s) (queues s) (inflight_idx s) c (io s).

Definition upd_codec (f : Codec -> Codec) : M unit := fun s => Some (tt, set_codec (f (codec s)) s).
Definition upd_cap (c : Z) : M unit := fun s => Some (tt, set_cap c s).

Definition next_packet (decode : Codec -> bytes -> dres (option Packet) * Codec * bytes)
  : M (result (option Packet) (DecodeError + IoError)) := fun s =>
  let '(r, c, w) := next decode (codec s) (io s) in Some (r, set_io w (set_codec c s)).

Definition send_packet (f : ewriter) : M (result unit (EncodeError + IoError)) := fun s =>
  match send_item f (io s) with
  | Some (r, w) => Some (r, set_io w s)
  | None => None
  end.

(** [crate::utils::select(fut, delay)] with an optional delay: [None] when
    the delay is first; the future is dropped then, and with it the
    connection *)
Definition select {B} (delay : bool) (fut : M B) : M (option B) :=
  if delay then
    late ← run_io delay_first;
    if (late : bool) then mret None else b ← fut; mret (Some b)
  else b ← fut; mret (Some b).

End Ops.

(** The operator [?] *)
Definition and_then {A} `{R : Runtime A} {Codec B C E} (m : @M A R Codec (result B E))
  (k : B -> @M A R Codec (result C E)) : @M A R Codec (result C E) :=
  r ← m; match r with ok b => k b | err e => mret (err e) end.
Notation "x ←? m ; k" := (and_then m (fun x => k))
  (at level 20, m at level 100, k at level 200, right associativity) : net_scope.
Open Scope net_scope.

Lemma and_then_ok {A} `{R : Runtime A} {Codec B C E} (m : @M A R Codec (result B E))
  (k : B -> @M A R Codec (result C E)) s c s'' :
  and_then m k s = Some (ok c, s'') <->
  exists b s', m s = Some (ok b, s') /\ k b s' = Some (ok c, s'').
Proof.
  unfold and_then. rewrite bind_Some. split.
  - intros ([b|e] & s' & H1 & H2); [eauto | by apply ret_Some in H2 as [? _]].
  - intros (b & s' & H1 & H2). exists (ok b), s'. done.
Qed.

(** ** Predicates that a computation preserves

    [P] is kept by whatever ntex does to a connection, which it never opens
    again. *)
Section Preserves.
Context {A Codec Packet : Type} `{N : Net A Codec Packet} {NL : NetLaws A Codec Packet}.
Abbreviation Shared := (@MqttShared A R Codec).
Abbreviation M := (@M A R Codec).

Class IoStable (P : Shared -> Prop) : Prop :=
  io_stable s w : (is_open w = true -> is_open (io s) = true) -> P s -> P (set_io w s).
Context (P : Shared -> Prop) `{HP : !IoStable P}.

Lemma preserves_and_then {B C E} (m : M (result B E)) (k : B -> M (result C E)) :
  preserves P m -> (forall b, preserves P (k b)) -> preserves P (and_then m k).
Proof. intros Hm Hk. apply preserves_bind; [done | ]. intros [b|e]; [apply Hk | apply preserves_ret]. Qed.
Lemma preserves_upd_io (f : world -> world) :
  (forall w, is_open (f w) = true -> is_open w = true) -> preserves P (upd_io f).
Proof. intros Hf s b s' Hs [_ ->]%upd_io_Some. apply io_stable; [apply Hf | done]. Qed.
Lemma preserves_run_io {B} (f : world -> B * world) :
  (forall w, is_open (f w).2 = true -> is_open w = true) -> preserves P (run_io f).
Proof. intros Hf s b s' Hs [_ ->]%run_io_Some. apply io_stable; [apply Hf | done]. Qed.
Lemma preserves_upd_codec (f : Codec -> Codec) :
  (forall s, P s -> P (set_codec (f (codec s)) s)) -> preserves P (upd_codec f).
Proof. intros Hf s b s' Hs [= _ <-]. by apply Hf. Qed.
Lemma preserves_send f : preserves P (send_packet f).
Proof.
  intros s b s' Hs. unfold send_packet. destruct (send_item f (io s)) as [[r w]|] eqn:Es; [ | done].
  intros [= _ <-]. apply io_stable; [by eapply send_open | done].
Qed.

End Preserves.

Create HintDb preserves.
#[export] Hint Resolve preserves_ret preserves_gets preserves_send params_open shutdown_open delay_open : preserves.

Ltac preserves :=
  repeat first
    [ solve [eauto with preserves typeclass_instances]
    | apply preserves_bind; [ | intros ]
    | apply preserves_and_then; [ | intros ]
    | apply preserves_upd_io; [apply _ | solve [eauto with preserves]]
    | apply preserves_run_io; [apply _ | solve [eauto with preserves]]
    | match goal with
      | |- preserves _ (match ?x with _ => _ end) => destruct x
      | |- preserves _ (let _ := _ in _) => cbv zeta
      end ].

(** [map_err] *)
Definition map_err {B E E'} (f : E -> E') (r : result B E) : result B E' :=
  match r with ok b => ok b | err e => err (f e) end.

(** [From<Either<DecodeError, io::Error>>], [From<Either<EncodeError, io::Error>>] *)
Definition from_next {E} (e : DecodeError + IoError) : MqttError E :=
  match e with inl e => MProtocol (PDecode e) | inr _ => MProtocol PIo end.
Definition from_send {E} (e : EncodeError + IoError) : MqttError E :=
  match e with inl e => MProtocol (PEncode e) | inr _ => MProtocol PIo end.
Definition protocol_from_next (e : DecodeError + IoError) : ProtocolError :=
  match e with inl e => PDecode e | inr _ => PIo end.

(** ** A simulated network

    The world of [SimRuntime] with the bytes the peer has sent, the bytes sent
    to it, and whether the delay is over.  A connection that has no complete
    packet left is one whose peer is gone. *)
Record NetWorld (A : Type) : Type := mkNet {
  nw_sim : SimWorld A;
  nw_in : bytes;
  nw_sent : bytes;
  nw_late : bool;
}.
Arguments mkNet {A}.
Arguments nw_sim {A}.
Arguments nw_in {A}.
Arguments nw_sent {A}.
Arguments nw_late {A}.

Definition on_sim {A} (w : NetWorld A) (s : SimWorld A) : NetWorld A := mkNet s (nw_in w) (nw_sent w) (nw_late w).
Definition lift_sim {A B} (f : SimWorld A -> B * SimWorld A) (w : NetWorld A) : B * NetWorld A :=
  let (b, s) := f (nw_sim w) in (b, on_sim w s).
Definition set_sim_buf {A} (b : bytes) (s : SimWorld A) : SimWorld A :=
  mkSim (sim_open s) b (sim_acks s) (sim_wakes s).

Definition NetRuntime (A : Type) : Runtime A := {|
  world := NetWorld A;
  is_open w := is_open (nw_sim w);
  wbuf w := wbuf (nw_sim w);
  io_close w := on_sim w (io_close (nw_sim w));
  io_force_close w := on_sim w (io_force_close (nw_sim w));
  io_encode f := lift_sim (io_encode f);
  tx := nat;
  queue_channel := lift_sim (@queue_channel A (SimRuntime A));
  queue_send c a := lift_sim (@queue_send A (SimRuntime A) c a);
  queue_drop c w := on_sim w (@queue_drop A (SimRuntime A) c (nw_sim w));
  queue_drop_rx c w := on_sim w (@queue_drop_rx A (SimRuntime A) c (nw_sim w));
  queue_recv c w := @queue_recv A (SimRuntime A) c (nw_sim w);
  wtx := nat;
  waiter_channel := lift_sim (@waiter_channel A (SimRuntime A));
  waiter_send c := lift_sim (@waiter_send A (SimRuntime A) c);
  waiter_drop c w := on_sim w (@waiter_drop A (SimRuntime A) c (nw_sim w));
  waiter_recv c w := @waiter_recv A (SimRuntime A) c (nw_sim w);
|}.

#[export] Instance NetRuntimeLaws (A : Type) : @RuntimeLaws A (NetRuntime A).
Proof.
  split; cbn; auto using slot_settle_done, slot_settle_silent, slot_settle_pending, slot_settle_sent.
Qed.

Section Simulated.
Context {A Codec Packet : Type}.
Abbreviation World := (NetWorld A).

Definition sim_next (decode : Codec -> bytes -> dres (option Packet) * Codec * bytes) (c : Codec) (w : World)
  : result (option Packet) (DecodeError + IoError) * Codec * World :=
  let '(r, c, rest) := decode c (nw_in w) in
  (match r with Ok p => ok p | Err e => err (inl e) | Panic => err (inr io_error) end,
   c, mkNet (nw_sim w) rest (nw_sent w) (nw_late w)).

Definition sim_send (f : ewriter) (w : World) : option (result unit (EncodeError + IoError) * World) :=
  match f (sim_buf (nw_sim w)) with
  | (Ok _, b) => Some (ok tt, mkNet (set_sim_buf [] (nw_sim w)) (nw_in w) (nw_sent w ++ b) (nw_late w))
  | (Err e, _) => Some (err (inl e), w)
  | (Panic, _) => None
  end.

Definition SimNet : @Net A Codec Packet (NetRuntime A) := {|
  next := sim_next : _ -> _ -> @world A (NetRuntime A) -> _;
  send_item := sim_send : _ -> @world A (NetRuntime A) -> _;
  sent := nw_sent : @world A (NetRuntime A) -> _;
  set_buffer_params := fun _ _ _ w => w;
  shutdown_write := fun w => w;
  delay_first := fun w : @world A (NetRuntime A) => (nw_late w, w);
|}.

Lemma SimNetLaws : @NetLaws A Codec Packet (NetRuntime A) SimNet.
Proof.
  split.
  - intros f w w'. cbn. unfold sim_send. destruct (f _) as [[[]|e|] b] eqn:Ef; try done.
    by intros [= <-].
  - intros decode c w. cbn. unfold sim_next. by destruct (decode c (nw_in w)) as [[r c'] rest].
  - intros P decode c w Hd Hc. cbn. unfold sim_next. pose proof (Hd c (nw_in w) Hc) as H0.
    by destruct (decode c (nw_in w)) as [[r c'] rest].
  - done.
  - intros decode c w p c' w'. cbn. unfold sim_next. destruct (decode c (nw_in w)) as [[[r|e|] k] rest] eqn:E; try done.
    intros [= -> <- _]. eauto.
  - intros decode c w. cbn. unfold sim_next. by destruct (decode c (nw_in w)) as [[r c'] rest].
  - intros f w r w'. cbn. unfold sim_send. destruct (f _) as [[[]|e|] b]; try done; by intros [= _ <-].
  - done.
  - done.
  - done.
Qed.

(** A connection on which the peer has sent [b] *)
Definition sim_world (b : bytes) : World := mkNet (mkSim true [] [] []) b [] false.
End Simulated.
