(* ===== verification/Service.v ===== *)
(** * From a handshake to a dispatcher (src/service.rs, src/session.rs)

    [Session] is what a handshake gives to the services of a connection.
    [FramedServiceImpl] and [FramedServiceImpl2] make a connection of an
    accepted handshake; the second one runs under a delay that started when
    the connection was accepted.  What follows, the io dispatcher, is in
    [IoPoll]. *)

From stdpp Require Import base gmap list strings.
From S2P Require Import Prelude Types Sink Net.
Open Scope Z_scope.

(** ** Sessions *)
Record Session (St : Type) : Type := mkSession {
  se_st : St;
  se_max_receive : Z;
  se_max_topic_alias : Z;
}.
Arguments mkSession {St}.
Arguments se_st {St}.
Arguments se_max_receive {St}.
Arguments se_max_topic_alias {St}.

(** [Session::new], [Session::new_v5], [Session::params] *)
Definition Session_new {St} (st : St) : Session St := mkSession st 0 0.
Definition Session_new_v5 {St} (st : St) (max_receive max_topic_alias : Z) : Session St :=
  mkSession st max_receive max_topic_alias.
Definition Session_params {St} (s : Session St) : Z * Z := (se_max_receive s, se_max_topic_alias s).

(** ** Groups of services *)
Section Groups.
Context {H Err : Type}.

(** The services that factories give, in order: the first error ends it. *)
Fixpoint await_all (l : list (result H Err)) : result (list H) Err :=
  match l with
  | [] => ok []
  | ok h :: l => match await_all l with ok hs => ok (h :: hs) | err e => err e end
  | err e :: _ => err e
  end.

(** The readiness of services, in order: the first error, or whether all are
    ready *)
Fixpoint poll_ready_all (l : list (option (result unit Err))) (not_ready : bool)
  : result bool Err :=
  match l with
  | [] => ok (negb not_ready)
  | Some (err e) :: _ => err e
  | Some (ok _) :: l => poll_ready_all l not_ready
  | None :: l => poll_ready_all l true
  end.

Lemma await_all_spec l :
  (exists hs, await_all l = ok hs /\ l = ok <$> hs) \/
  (exists e, await_all l = err e /\ exists l1 l2, l = l1 ++ err e :: l2 /\ Forall (fun r => exists h, r = ok h) l1).
Proof.
  induction l as [|[h|e] l IH].
  - left. by exists [].
  - destruct IH as [(hs & E & ->) | (e & E & l1 & l2 & -> & Hl)]; cbn; rewrite E.
    + left. by exists (h :: hs).
    + right. exists e. split; [done | ]. exists (ok h :: l1), l2. split; [done | ]. constructor; eauto.
  - right. exists e. split; [done | ]. by exists [], l.
Qed.
End Groups.

(** A conjunction that is collected in a loop *)
Lemma fold_andb {A} (f : A -> bool) l :
  fold_left (fun b x => b && f x) l true = true <-> Forall (fun x => f x = true) l.
Proof.
  rewrite Forall_forall.
  enough (forall b, fold_left (fun b x => b && f x) l b = true <-> b = true /\ forall x, x ∈ l -> f x = true) as ->
    by naive_solver.
  induction l as [|x l IH]; intros b; cbn; [set_solver | ]. rewrite IH, andb_true_iff. set_solver.
Qed.

(** ** Connections *)

(** What [Dispatcher::with(..).keepalive_timeout(..).disconnect_timeout(..)]
    is made of, beside the connection itself *)
Record Connection (Hd : Type) : Type := mkConnection {
  cn_handler : Hd;
  cn_keepalive : Z;
  cn_disconnect_timeout : Z;
}.
Arguments mkConnection {Hd}.
Arguments cn_handler {Hd}.
Arguments cn_keepalive {Hd}.
Arguments cn_disconnect_timeout {Hd}.

Section Framed.
Context {A Codec Packet : Type} `{N : Net A Codec Packet} {St Hd Err : Type}.
Abbreviation M := (@M A R Codec).
Context (handshake : M (result (Session St * Z) Err)).
Context (new_service : Session St -> M (result Hd Err)) (disconnect_timeout : Z).

(** The handshake, then the handler of its session *)
Definition connect_handler : M (result (Hd * Z) Err) :=
  x ←? handshake;
  h ←? new_service x.1;
  mret (ok (h, x.2)).

(** [FramedServiceImpl::call] *)
Definition FramedServiceImpl_call : M (result (Connection Hd) Err) :=
  x ←? connect_handler;
  mret (ok (mkConnection x.1 x.2 disconnect_timeout)).

(** [FramedServiceImpl2::call]: [ok None] is the [Ok(())] of a handshake that
    took too long *)
Definition FramedServiceImpl2_call (delay : bool) : M (result (option (Connection Hd)) Err) :=
  res ← select delay connect_handler;
  match res with
  | None => mret (ok None)
  | Some (err e) => mret (err e)
  | Some (ok (h, ka)) => mret (ok (Some (mkConnection h ka disconnect_timeout)))
  end.

End Framed.

(** ntex's [Timeout] around a service, with the error it is given in the
    handshake services; a duration of 0 disables it. *)
Definition with_timeout {A Codec Packet} `{N : Net A Codec Packet} {B E} (timeout : Z)
  (m : @M A R Codec (result B (MqttError E))) : @M A R Codec (result B (MqttError E)) :=
  r ← select (0 <? timeout) m;
  mret (match r with Some r => r | None => err MHandshakeTimeout end).

(** A service under a timeout that was not late *)
Lemma with_timeout_ok {A Codec Packet} `{N : Net A Codec Packet} {NL : NetLaws A Codec Packet} {B E} timeout
    (m : @M A R Codec (result B (MqttError E))) s b s' :
  with_timeout timeout m s = Some (ok b, s') ->
  exists w, (is_open w = true -> is_open (io s) = true) /\ m (set_io w s) = Some (ok b, s').
Proof.
  intros (r & s1 & H & [Hr ->]%ret_Some)%bind_Some. destruct r as [r|]; [subst r | done].
  unfold select in H. destruct (0 <? timeout).
  - apply bind_Some in H as (late & s2 & [_ ->]%run_io_Some & H). eexists. split; [apply delay_open | ].
    destruct late; [by apply ret_Some in H as [? _] | ].
    by apply bind_Some in H as (b' & s3 & H & [[= ->] ->]%ret_Some).
  - exists (io s). split; [done | ]. apply bind_Some in H as (b' & s3 & H & [[= ->] ->]%ret_Some). by destruct s.
Qed.

(** ** Selectors

    The variants of a selector get CONNECT one after the other ([Hs] is what
    they are given); a variant that refuses it gives it back. *)
Section Selectors.
Context {A Codec Packet : Type} `{N : Net A Codec Packet} {Hs Hd E : Type}.
Abbreviation M := (@M A R Codec).
Abbreviation MError := (MqttError E).

(** [crate::utils::select] of a service's future and the delay, when there is one *)
Definition timed {B} (delay : bool) (m : M (result B E)) : M (result B MError) :=
  r ← select delay m;
  mret (match r with None => err MHandshakeTimeout | Some r => map_err MService r end).

(** The loop "call servers" *)
Fixpoint call_servers (servers : list (Hs -> bool -> M (result (Hs + Connection Hd) MError)))
  (item : Hs) (delay : bool) : M (result (Connection Hd) MError) :=
  match servers with
  | [] => mret (err (MServerError "Cannot handle CONNECT packet"))
  | srv :: servers =>
      r ←? srv item delay;
      match r with
      | inl item => call_servers servers item delay
      | inr c => mret (ok c)
      end
  end.

(** [poll_ready] of a selector *)
Definition selector_poll_ready (servers : list (option (result unit MError))) : option (result unit MError) :=
  match poll_ready_all servers false with
  | err e => Some (err e)
  | ok true => Some (ok tt)
  | ok false => None
  end.

End Selectors.

(** ** Building a selector

    [F] is a factory of variants and [V] a variant; both versions have the
    same builder. *)
Section SelectorBuilder.
Context {F V Err : Type}.

Record Selector : Type := mkSelector {
  sl_servers : list F;
  sl_max_size : Z;
  sl_handshake_timeout : Z;
}.

Definition Selector_new : Selector := mkSelector [] 0 0.
Definition Selector_handshake_timeout (timeout : Z) (sl : Selector) : Selector :=
  mkSelector (sl_servers sl) (sl_max_size sl) timeout.
Definition Selector_max_size (size : Z) (sl : Selector) : Selector :=
  mkSelector (sl_servers sl) size (sl_handshake_timeout sl).
Definition Selector_variant (server : F) (sl : Selector) : Selector :=
  mkSelector (sl_servers sl ++ [server]) (sl_max_size sl) (sl_handshake_timeout sl).

Record SelectorService : Type := mkSelectorService {
  sv_servers : list V;
  sv_max_size : Z;
  sv_handshake_timeout : Z;
}.

(** [Selector::new_service], with what each factory gives *)
Definition Selector_new_service (made : F -> result V Err) (sl : Selector) : result SelectorService Err :=
  match await_all (made <$> sl_servers sl) with
  | ok servers => ok (mkSelectorService servers (sl_max_size sl) (sl_handshake_timeout sl))
  | err e => err e
  end.

(** [poll_shutdown]: every variant is asked, and [true] is [Ready] *)
Definition selector_poll_shutdown (shutdown : V -> bool) (s : SelectorService) : bool :=
  fold_left (fun ready srv => ready && shutdown srv) (sv_servers s) true.

(** A selector has its variants in the order in which they were added, and
    is ready to end when all of them are; the first factory that fails ends
    the making. *)
Lemma selector_built made l sl :
  sl_servers (fold_left (fun sl f => Selector_variant f sl) l sl) = sl_servers sl ++ l /\
  match Selector_new_service made (fold_left (fun sl f => Selector_variant f sl) l Selector_new) with
  | ok s => ok <$> sv_servers s = made <$> l /\
            forall sd, selector_poll_shutdown sd s = true <-> Forall (fun v => sd v = true) (sv_servers s)
  | err e => exists l1 f l2, l = l1 ++ f :: l2 /\ made f = err e /\ Forall (fun f => exists v, made f = ok v) l1
  end.
Proof.
  assert (Hl : forall sl0, sl_servers (fold_left (fun sl f => Selector_variant f sl) l sl0) = sl_servers sl0 ++ l).
  { induction l as [|f l IH]; intros sl0; cbn; [by rewrite app_nil_r | rewrite IH; cbn; by rewrite <- app_assoc]. }
  split; [apply Hl | ]. unfold Selector_new_service. rewrite Hl. cbn [sl_servers Selector_new app].
  destruct (await_all_spec (made <$> l)) as [(hs & E & Hm) | (e & E & l1 & l2 & H1 & H2)]; rewrite E.
  - split; [done | ]. intros sd. unfold selector_poll_shutdown. cbn [sv_servers]. apply fold_andb.
  - apply fmap_app_inv in H1 as (k1 & k2 & -> & H4 & ->). destruct k2 as [|f k2]; [done | ].
    injection H4 as Hf Hk. exists k1, f, k2. split; [done | split; [done | ]].
    rewrite Forall_fmap in H2. exact H2.
Qed.

End SelectorBuilder.

(** Case analysis on the computations that run next *)
Ltac run_all :=
  repeat (match goal with
          | |- context [match ?m ?s with Some _ => _ | None => _ end] =>
              lazymatch m with context [match _ with _ => _ end] => fail | _ => destruct (m s) as [[? ?]|] eqn:? end
          | |- context [match ?r with ok _ => _ | err _ => _ end] => destruct r
          end; cbn).
