(* ===== verification/Factory.v ===== *)
(** * Services and their factories (src/service.rs, src/v3/selector.rs, src/v5/selector.rs)

    A service is polled for readiness, called and shut down; a factory makes
    it.  [FramedService] is the factory of servers: the connect service is
    made once, the handler of a connection when its handshake is over.  A
    selector is a factory of several of them. *)

From stdpp Require Import base gmap list strings.
From S2P Require Import Prelude Types Sink Net Service.
Open Scope Z_scope.
Open Scope net_scope.

Section Factories.
Context {A Codec Packet : Type} `{N : Net A Codec Packet}.
Abbreviation M := (@M A R Codec).

(** The trait [Service]: what polling it gives at some moment, and its calls;
    [svc_shutdown] is [true] when the service is down. *)
Record Svc (Req Res Er : Type) : Type := mkSvc {
  svc_ready : option (result unit Er);
  svc_shutdown : bool -> bool;
  svc_call : Req -> M (result Res Er);
}.
Arguments mkSvc {Req Res Er}.
Arguments svc_ready {Req Res Er}.
Arguments svc_shutdown {Req Res Er}.
Arguments svc_call {Req Res Er}.

(** ** Framed services

    A factory that takes no configuration is what its [new_service] gives. *)
Section Framed.
Context {St Hd Er IErr : Type}.

Record FramedService : Type := mkFramedService {
  fs_connect : result (Svc unit (Session St * Z) Er) IErr;
  fs_handler : Session St -> M (result Hd Er);
  fs_disconnect_timeout : Z;
}.

Record FramedServiceImpl : Type := mkFramedServiceImpl {
  fi_connect : Svc unit (Session St * Z) Er;
  fi_handler : Session St -> M (result Hd Er);
  fi_disconnect_timeout : Z;
}.

(** [FramedService::new], [FramedService::new_service] *)
Definition FramedService_new (connect : result (Svc unit (Session St * Z) Er) IErr)
  (service : Session St -> M (result Hd Er)) (disconnect_timeout : Z) : FramedService :=
  mkFramedService connect service disconnect_timeout.

Definition FramedService_new_service (f : FramedService) : result FramedServiceImpl IErr :=
  match fs_connect f with
  | ok connect => ok (mkFramedServiceImpl connect (fs_handler f) (fs_disconnect_timeout f))
  | err e => err e
  end.

(** [FramedServiceImpl] and [FramedServiceImpl2] as services: the second one
    gets the delay of its caller. *)
Definition framed_service (i : FramedServiceImpl) : Svc unit (Connection Hd) Er :=
  mkSvc (svc_ready (fi_connect i)) (svc_shutdown (fi_connect i))
    (fun _ => FramedServiceImpl_call (svc_call (fi_connect i) tt) (fi_handler i) (fi_disconnect_timeout i)).

Definition framed_service2 (i : FramedServiceImpl) : Svc bool (option (Connection Hd)) Er :=
  mkSvc (svc_ready (fi_connect i)) (svc_shutdown (fi_connect i))
    (fun delay => FramedServiceImpl2_call (svc_call (fi_connect i) tt) (fi_handler i) (fi_disconnect_timeout i) delay).

End Framed.

(** [handshake_service_factory]: the connect service in front of which
    [handshake] runs, under ntex's [Timeout]; [apply_fn] and [Timeout] of
    ntex pass readiness and shutdown on to the service they wrap *)
Definition handshake_service_factory {Hs Ha St E IErr : Type} (factory : result (Svc Hs Ha E) IErr) (handshake_timeout : Z)
  (handshake : (Hs -> M (result Ha E)) -> M (result (Session St * Z) (MqttError E)))
  : result (Svc unit (Session St * Z) (MqttError E)) IErr :=
  match factory with
  | ok service =>
      ok (mkSvc (map_err MService <$> svc_ready service) (svc_shutdown service)
            (fun _ => with_timeout handshake_timeout (handshake (svc_call service))))
  | err e => err e
  end.

(** ** Selectors *)
Section Selectors.
Context {Hs Hd E IErr : Type}.
Abbreviation MError := (MqttError E).

(** [Server] and [ServerFactory] of a selector: a variant gets CONNECT and
    whether there is a delay, and may give CONNECT back. *)
Abbreviation SelectorServer := (Svc (Hs * bool) (Hs + Connection Hd) MError).
Abbreviation ServerFactory := (result SelectorServer IErr).

(** [SelectorService::poll_ready], [poll_shutdown] and the variants as
    [SelectorService::call] uses them *)
Definition selector_ready (s : SelectorService (V := SelectorServer)) : option (result unit MError) :=
  selector_poll_ready (svc_ready <$> sv_servers s).
Definition selector_shutdown (s : SelectorService (V := SelectorServer)) (is_error : bool) : bool :=
  selector_poll_shutdown (fun srv => svc_shutdown srv is_error) s.
Definition selector_servers (s : SelectorService (V := SelectorServer))
  : list (Hs -> bool -> M (result (Hs + Connection Hd) MError)) :=
  (fun srv hs delay => svc_call srv (hs, delay)) <$> sv_servers s.

(** [Selector::finish_server]: the delay comes from the caller *)
Record Selector2 : Type := mkSelector2 { s2_servers : list ServerFactory; s2_max_size : Z }.
Definition Selector_finish_server (sl : Selector (F := ServerFactory)) : Selector2 :=
  mkSelector2 (sl_servers sl) (sl_max_size sl).

(** [Selector2::new_service] *)
Definition Selector2_new_service (sl : Selector2) : result (SelectorService (V := SelectorServer)) IErr :=
  match await_all (s2_servers sl) with
  | ok servers => ok (mkSelectorService servers (s2_max_size sl) 0)
  | err e => err e
  end.

(** A selector is ready when all of its variants are, and not before the
    first error. *)
Lemma selector_ready_spec s :
  selector_ready s = Some (ok tt) <-> Forall (fun srv => svc_ready srv = Some (ok tt)) (sv_servers s).
Proof.
  unfold selector_ready, selector_poll_ready.
  assert (H : forall l not_ready, poll_ready_all (svc_ready <$> l) not_ready = ok true <->
    not_ready = false /\ Forall (fun srv : SelectorServer => svc_ready srv = Some (ok tt)) l).
  { induction l as [|srv l IH]; intros nr; cbn.
    - destruct nr; naive_solver.
    - rewrite Forall_cons. destruct (svc_ready srv) as [[[]|e]|]; rewrite ?IH; naive_solver. }
  specialize (H (sv_servers s) false). destruct (poll_ready_all _ _) as [[]|e]; naive_solver.
Qed.

(** Which variants a selector has: those whose factories were added, in this
    order, if all of them succeed *)
Lemma selector_new_service (l : list ServerFactory) sl :
  sl_servers sl = [] ->
  match Selector_new_service id (fold_left (fun sl f => Selector_variant f sl) l sl) with
  | ok s => ok <$> sv_servers s = l /\ sv_max_size s = sl_max_size sl /\ sv_handshake_timeout s = sl_handshake_timeout sl
  | err e => exists l1 l2, l = l1 ++ err e :: l2 /\ Forall (fun f => exists v, f = ok v) l1
  end.
Proof.
  intros Hsl. set (sl' := fold_left _ _ _).
  assert (H : sl_servers sl' = sl_servers sl ++ l /\ sl_max_size sl' = sl_max_size sl /\
              sl_handshake_timeout sl' = sl_handshake_timeout sl).
  { subst sl'. clear Hsl. revert sl. induction l as [|f l IH]; intros sl; cbn; [by rewrite app_nil_r | ].
    destruct (IH (Selector_variant f sl)) as (-> & -> & ->). cbn. by rewrite <- app_assoc. }
  destruct H as (H1 & H2 & H3). unfold Selector_new_service. rewrite H1, H2, H3, Hsl, list_fmap_id. cbn [app].
  destruct (await_all_spec l) as [(hs & -> & ->) | (e & -> & l1 & l2 & -> & Hl)]; [done | eauto].
Qed.

(** ** Variants that are made of servers

    [connect v] is the connect service of the server [v], [serve v] the
    variant that is made with it, [accepts] its check. *)
Section Made.
Context {Sv C X : Type} (connect : Sv -> result C IErr) (serve : Sv -> C -> SelectorServer).

Definition made_factory (v : Sv) : ServerFactory :=
  match connect v with ok c => ok (serve v c) | err e => err e end.

Lemma made_all vs l :
  ok <$> l = made_factory <$> vs ->
  exists cs, Forall2 (fun v c => connect v = ok c) vs cs /\ l = zip_with serve vs cs.
Proof.
  revert l. induction vs as [|v vs IH]; intros [|srv l]; try done; [by exists [] | ].
  intros [= Hv Hl]. destruct (IH l Hl) as (cs & Hf & ->). unfold made_factory in Hv.
  destruct (connect v) as [c|] eqn:Hc; [injection Hv as -> | done].
  exists (c :: cs). split; [by constructor | done].
Qed.

(** A selector whose variants were added in the order [vs] has them in this
    order; the first of their errors ends the making. *)
Lemma selector_made vs sl :
  sl_servers sl = [] ->
  match Selector_new_service id (fold_left (fun sl v => Selector_variant (made_factory v) sl) vs sl) with
  | ok s => sv_max_size s = sl_max_size sl /\ sv_handshake_timeout s = sl_handshake_timeout sl /\
            exists cs, Forall2 (fun v c => connect v = ok c) vs cs /\ sv_servers s = zip_with serve vs cs
  | err e => exists vs1 v vs2, vs = vs1 ++ v :: vs2 /\ connect v = err e /\
                               Forall (fun v => exists c, connect v = ok c) vs1
  end.
Proof.
  intros Hsl. pose proof (selector_new_service (made_factory <$> vs) sl Hsl) as H.
  replace (fold_left (fun sl f => Selector_variant f sl) (made_factory <$> vs) sl)
    with (fold_left (fun sl v => Selector_variant (made_factory v) sl) vs sl) in H
    by (clear; revert sl; induction vs as [|v vs IH]; intros sl; [done | apply IH]).
  destruct (Selector_new_service id _) as [s|e].
  - destruct H as (H%made_all & -> & ->). done.
  - destruct H as (l1 & l2 & Hl & Hok). apply fmap_app_inv in Hl as (vs1 & vs' & -> & H2 & ->).
    destruct vs' as [|v vs2]; [done | ]. injection H2 as Hv _. exists vs1, v, vs2. unfold made_factory in Hv.
    split; [done | ]. split; [by destruct (connect v); [ | injection Hv as ->] | ].
    rewrite Forall_fmap in Hok. eapply Forall_impl; [exact Hok | ]. intros v0 [x Hx]. cbn in Hx. unfold made_factory in Hx.
    destruct (connect v0); [eauto | done].
Qed.

Lemma fmap_made {Y Z} (f : Sv -> C -> Y) (g : Y -> Z) vs cs : g <$> zip_with f vs cs = zip_with (fun v c => g (f v c)) vs cs.
Proof using Type. revert cs. induction vs as [|v vs IH]; intros [|c cs]; cbn; [done .. | ]. by rewrite IH. Qed.

(** The first variant that accepts is made of the first server that does. *)
Lemma find_made (accepts : Sv -> bool) (f : Sv -> C -> X) (accepts_x : X -> bool) vs cs :
  (forall v c, accepts_x (f v c) = accepts v) -> Forall2 (fun v c => connect v = ok c) vs cs ->
  match List.find accepts vs with
  | Some v => exists c, connect v = ok c /\ List.find accepts_x (zip_with f vs cs) = Some (f v c)
  | None => List.find accepts_x (zip_with f vs cs) = None
  end.
Proof.
  intros Ha. induction 1 as [|v c vs cs Hc _ IH]; [done | ]. cbn. rewrite Ha. destruct (accepts v); [by exists c | exact IH].
Qed.

End Made.

End Selectors.
End Factories.

Arguments mkSvc {A Codec R Req Res Er}.
Arguments svc_ready {A Codec R Req Res Er}.
Arguments svc_shutdown {A Codec R Req Res Er}.
Arguments svc_call {A Codec R Req Res Er}.
