(* ===== verification/Router.v ===== *)
(** * Routers (src/v3/router.rs, src/v5/router.rs, src/v3/publish.rs, src/v5/publish.rs)

    A router hands a publish to the handler of the first resource whose
    pattern matches its topic, or to a default service.  Matching is ntex's:
    [recognize] of the class [TopicRouter], which looks for a pattern among
    the ones that were added and may note in the path what it matched.  The
    router of MQTT 5 also resolves topic aliases and makes its handlers when
    they are first needed. *)

From stdpp Require Import base gmap list strings relations.
From S2P Require Import Prelude Types Wire V5Props V5Publish Sink Service.
Open Scope Z_scope.

(** ** ntex *)

Class TopicRouter := {
  Pattern : Type;
  Path : Type;
  (* Path::new *)
  path_new : ByteString -> Path;
  (* Router::recognize over the resources added by RouterBuilder::path *)
  recognize : list (Pattern * nat) -> Path -> option nat * Path;
}.

(** What is recognized was added. *)
Class TopicRouterLaws `{TopicRouter} := {
  recognize_added rs p i p' : recognize rs p = (Some i, p') -> exists pat, (pat, i) ∈ rs;
}.

Section Router.
Context `{TR : TopicRouter} {F H Err : Type}.

(** ** Building a router: [Router::new], [Router::resource] of both versions *)
Record Router : Type := mkRouter {
  r_router : list (Pattern * nat);
  r_handlers : list F;
  r_default : F;
}.

Definition Router_new (default_service : F) : Router := mkRouter [] [] default_service.

Definition resource (address : Pattern) (service : F) (r : Router) : Router :=
  mkRouter (r_router r ++ [(address, length (r_handlers r))]) (r_handlers r ++ [service]) (r_default r).

(** A router built by adding resources one after the other *)
Definition build (default : F) (l : list (Pattern * F)) : Router :=
  fold_left (fun r x => resource x.1 x.2 r) l (Router_new default).

(** [Publish] of both versions: the packet with its topic as a path *)
Record Request (P : Type) : Type := mkRequest { rq_packet : P; rq_topic : Path }.
Arguments mkRequest {P} rq_packet rq_topic.
Arguments rq_packet {P} r.
Arguments rq_topic {P} r.

(** ** The router of MQTT 3.1.1 *)

Record RouterService3 : Type := mkService3 {
  s3_router : list (Pattern * nat);
  s3_handlers : list H;
  s3_default : H;
}.

(** [RouterFactory::new_service]: what the factories give, in order, and
    then the default's *)
Definition new_service3 (r : Router) (made : list (result H Err)) (default : result H Err)
  : result RouterService3 Err :=
  match await_all made with
  | err e => err e
  | ok hs => match default with err e => err e | ok d => ok (mkService3 (r_router r) hs d) end
  end.

(** [RouterService::call]: the handler and its request; indexing panics. *)
Definition call3 {P} (s : RouterService3) (req : Request P) : option (H * Request P) :=
  let (o, topic) := recognize (s3_router s) (rq_topic req) in
  let req := mkRequest (rq_packet req) topic in
  match o with
  | Some idx => match s3_handlers s !! idx with Some h => Some (h, req) | None => None end
  | None => Some (s3_default s, req)
  end.

(** [RouterService::poll_ready] of MQTT 3.1.1, over what the handlers and the default give *)
Definition poll_ready3 (handlers : list (option (result unit Err))) (default : option (result unit Err))
  : option (result unit Err) :=
  match poll_ready_all (handlers ++ [default]) false with
  | err e => Some (err e)
  | ok true => Some (ok tt)
  | ok false => None
  end.

(** ** The router of MQTT 5 *)

Abbreviation Req := (Request Publish).

(** [Inner]: handlers that were made, aliases, is one being made, and is a
    task registered to be woken when it is *)
Record RouterService : Type := mkService {
  rs_router : list (Pattern * nat);
  rs_handlers : list (option H);
  rs_aliases : gmap Z (nat * Path);
  rs_creating : bool;
  rs_waker : bool;
}.

(** [RouterFactory::new_service], when the default is there *)
Definition new_service (r : Router) : RouterService :=
  mkService (r_router r) (repeat None (length (r_handlers r))) ∅ false false.

Definition set_aliases (a : gmap Z (nat * Path)) (s : RouterService) : RouterService :=
  mkService (rs_router s) (rs_handlers s) a (rs_creating s) (rs_waker s).
Definition set_creating (b : bool) (s : RouterService) : RouterService :=
  mkService (rs_router s) (rs_handlers s) (rs_aliases s) b (rs_waker s).
Definition set_waker (b : bool) (s : RouterService) : RouterService :=
  mkService (rs_router s) (rs_handlers s) (rs_aliases s) (rs_creating s) b.
Definition set_handlers (h : list (option H)) (s : RouterService) : RouterService :=
  mkService (rs_router s) h (rs_aliases s) (rs_creating s) (rs_waker s).

(** Where a publish goes: to the handler of a resource, or to none.  The
    alias of a publish with a topic is remembered when the topic is
    recognized; a publish without a topic uses it. *)
Definition route (router : list (Pattern * nat)) (aliases : gmap Z (nat * Path)) (req : Req)
  : option nat * Req * gmap Z (nat * Path) :=
  if has_remaining (pu_topic (rq_packet req)) then
    match recognize router (rq_topic req) with
    | (Some idx, topic) =>
        (Some idx, mkRequest (rq_packet req) topic,
         match pp_topic_alias (pu_properties (rq_packet req)) with
         | Some alias => <[(alias : Z) := (idx, topic)]> aliases
         | None => aliases
         end)
    | (None, topic) => (None, mkRequest (rq_packet req) topic, aliases)
    end
  else
    match pp_topic_alias (pu_properties (rq_packet req)) with
    | Some alias =>
        match aliases !! (alias : Z) with
        | Some (idx, topic) => (Some idx, mkRequest (rq_packet req) topic, aliases)
        | None => (None, req, aliases)
        end
    | None => (None, req, aliases)
    end.

(** The future of a call: with a handler or the default, or waiting for a
    handler to be made ([RF_New]) or to be ready *)
Inductive RFuture : Type :=
| RF_Handler (h : H) (req : Req)
| RF_Default (req : Req)
| RF_New (idx : nat) (req : Req)
| RF_Ready (idx : nat) (h : H) (req : Req)
| RF_Failed (e : Err).

(** [RouterService::call] with [create_handler]: [None] is a panic of the
    index. *)
Definition call5 (s : RouterService) (req : Req) : option (RFuture * RouterService) :=
  let '(o, req, aliases) := route (rs_router s) (rs_aliases s) req in
  let s := set_aliases aliases s in
  match o with
  | Some idx =>
      match rs_handlers s !! idx with
      | Some (Some h) => Some (RF_Handler h req, s)
      | Some None => Some (RF_New idx req, set_creating true s)
      | None => None
      end
  | None => Some (RF_Default req, s)
  end.

(** [inner.waker.wake(); inner.creating.set(false)] *)
Definition created (s : RouterService) : RouterService := set_creating false (set_waker false s).

(** The future of [create_handler], with what making the handler and its
    readiness give; once the handler is there its own future is polled. *)
Definition poll_ready_handler (rdy : option (result unit Err)) (idx : nat) (h : H) (req : Req)
  (s : RouterService) : option (RFuture * RouterService) :=
  match rdy with
  | None => Some (RF_Ready idx h req, s)
  | Some (err e) => Some (RF_Failed e, created s)
  | Some (ok _) =>
      if decide (idx < length (rs_handlers s))%nat
      then Some (RF_Handler h req, set_handlers (<[idx := Some h]> (rs_handlers s)) (created s))
      else None
  end.

Definition poll_future (made : option (result H Err)) (rdy : option (result unit Err)) (f : RFuture)
  (s : RouterService) : option (RFuture * RouterService) :=
  match f with
  | RF_New idx req =>
      if decide (idx < length (rs_handlers s))%nat then
        match made with
        | None => Some (f, s)
        | Some (err e) => Some (RF_Failed e, s)
        | Some (ok h) => poll_ready_handler rdy idx h req s
        end
      else None
  | RF_Ready idx h req => poll_ready_handler rdy idx h req s
  | f => Some (f, s)
  end.

(** [RouterService::poll_ready]: [hs] is the readiness of the handlers that
    were made *)
Definition poll_ready5 (hs : list (option (result unit Err))) (default : option (result unit Err))
  (s : RouterService) : option (result unit Err) * RouterService :=
  match poll_ready_all (hs ++ [default]) false with
  | err e => (Some (err e), s)
  | ok ready =>
      if rs_creating s then (None, set_waker true s)
      else if ready then (Some (ok tt), s) else (None, s)
  end.

(** ** Indices *)

(** The resources name handlers that exist. *)
Definition in_range (n : nat) (rs : list (Pattern * nat)) : Prop := forall pat i, (pat, i) ∈ rs -> (i < n)%nat.

Lemma build_in_range default l : in_range (length (r_handlers (build default l))) (r_router (build default l)).
Proof.
  unfold build. assert (H0 : in_range (length (r_handlers (Router_new default))) (r_router (Router_new default))).
  { by intros pat i ?%not_elem_of_nil. }
  revert H0. generalize (Router_new default) as r. induction l as [|[pat f] l IH]; intros r Hr; [done | ].
  cbn [fold_left]. apply IH. intros p i. cbn. rewrite length_app. cbn.
  intros [Hi%Hr|[= -> ->]%list_elem_of_singleton]%elem_of_app; lia.
Qed.

Lemma build_length default l : length (r_handlers (build default l)) = length l.
Proof.
  unfold build. assert (H0 : forall r, length (r_handlers (fold_left (fun r x => resource x.1 x.2 r) l r)) =
                                        (length (r_handlers r) + length l)%nat); [ | by rewrite H0].
  induction l as [|[pat f] l IH]; intros r; cbn [fold_left]; [cbn; lia | ].
  rewrite IH. cbn. rewrite length_app. cbn. lia.
Qed.

Context {TL : TopicRouterLaws}.

Lemma recognize_range n rs p i p' : in_range n rs -> recognize rs p = (Some i, p') -> (i < n)%nat.
Proof. intros Hr (pat & Hin)%recognize_added. by eapply Hr. Qed.

Definition aliases_in_range (n : nat) (a : gmap Z (nat * Path)) : Prop :=
  forall k i p, a !! k = Some (i, p) -> (i < n)%nat.

Lemma route_range n rs al req o req' al' :
  in_range n rs -> aliases_in_range n al -> route rs al req = (o, req', al') ->
  aliases_in_range n al' /\ (forall i, o = Some i -> (i < n)%nat) /\ rq_packet req' = rq_packet req.
Proof.
  intros Hr Ha. unfold route. destruct (has_remaining _).
  - destruct (recognize rs (rq_topic req)) as [[i|] p] eqn:Er.
    + intros [= <- <- <-]. pose proof (recognize_range _ _ _ _ _ Hr Er) as Hi.
      split; [ | split; [by intros j [= <-] | done]].
      destruct (pp_topic_alias _) as [k|]; [ | done].
      intros k' i' p' [[_ [= <- <-]]|[_ Hk]]%lookup_insert_Some; [done | by eapply Ha].
    + by intros [= <- <- <-].
  - destruct (pp_topic_alias _) as [k|]; [ | by intros [= <- <- <-]].
    destruct (al !! (k : Z)) as [[i p]|] eqn:Ek; intros [= <- <- <-]; [ | done].
    split; [done | ]. split; [ | done]. intros j [= <-]. by eapply Ha.
Qed.

(** ** The router at work

    Calls are made when [poll_ready] says so, the futures of calls are
    polled in any order with whatever the factories and handlers give. *)
Record RSys : Type := mkRSys { y_svc : RouterService; y_futs : list RFuture }.

Inductive rstep : RSys -> RSys -> Prop :=
| rs_call hs dflt req s f s' l :
    poll_ready5 hs dflt s = (Some (ok tt), s) -> call5 s req = Some (f, s') ->
    rstep (mkRSys s l) (mkRSys s' (l ++ [f]))
| rs_poll made rdy f s f' s' l1 l2 :
    poll_future made rdy f s = Some (f', s') ->
    rstep (mkRSys s (l1 ++ f :: l2)) (mkRSys s' (l1 ++ f' :: l2))
| rs_ready hs dflt s x s' l :
    poll_ready5 hs dflt s = (x, s') -> rstep (mkRSys s l) (mkRSys s' l).

Inductive rreachable (default : F) (rs : list (Pattern * F)) : RSys -> Prop :=
| rr_new : rreachable default rs (mkRSys (new_service (build default rs)) [])
| rr_step y y' : rreachable default rs y -> rstep y y' -> rreachable default rs y'.

(** The resource a future makes a handler for *)
Definition makes (f : RFuture) : list nat :=
  match f with RF_New idx _ | RF_Ready idx _ _ => [idx] | _ => [] end.

Record rinv (default : F) (rs : list (Pattern * F)) (y : RSys) : Prop := {
  ri_router : rs_router (y_svc y) = r_router (build default rs);
  ri_length : length (rs_handlers (y_svc y)) = length rs;
  ri_aliases : aliases_in_range (length rs) (rs_aliases (y_svc y));
  ri_range : Forall (fun i => (i < length rs)%nat) (y_futs y ≫= makes);
  ri_one : y_futs y ≫= makes = [] \/
           exists i, y_futs y ≫= makes = [i] /\ rs_creating (y_svc y) = true /\
                     rs_handlers (y_svc y) !! i = Some None;
  ri_waker : rs_waker (y_svc y) = true -> rs_creating (y_svc y) = true;
}.

Lemma poll_ready_not_creating hs dflt (s : RouterService) :
  poll_ready5 hs dflt s = (Some (ok tt), s) -> rs_creating s = false.
Proof.
  unfold poll_ready5. destruct (poll_ready_all _ _) as [b|e]; [ | done].
  destruct (rs_creating s); [done | done].
Qed.

Lemma poll_ready_same hs dflt s x s' :
  poll_ready5 hs dflt s = (x, s') ->
  s' = s \/ rs_creating s = true /\ s' = set_waker true s.
Proof.
  unfold poll_ready5. destruct (poll_ready_all _ _) as [b|e]; [ | intros [= _ <-]; by left].
  destruct (rs_creating s); [intros [= _ <-]; by right | ].
  destruct b; intros [= _ <-]; by left.
Qed.

(** A call returns; it makes a handler only for a resource without one. *)
Lemma call5_inv default rs y req :
  rinv default rs y ->
  exists f s', call5 (y_svc y) req = Some (f, s') /\
    rs_router s' = rs_router (y_svc y) /\ rs_handlers s' = rs_handlers (y_svc y) /\
    rs_waker s' = rs_waker (y_svc y) /\ aliases_in_range (length rs) (rs_aliases s') /\
    (makes f = [] /\ rs_creating s' = rs_creating (y_svc y) \/
     exists i, makes f = [i] /\ rs_creating s' = true /\ rs_handlers s' !! i = Some None).
Proof.
  intros [H1 H2 H3 H4 H5 H6]. unfold call5.
  destruct (route _ _ _) as [[o req'] al] eqn:Er.
  pose proof (build_in_range default rs) as Hbr. rewrite build_length in Hbr. rewrite H1 in Er.
  destruct (route_range _ _ _ _ _ _ _ Hbr H3 Er) as (Ha & Hi & _).
  destruct o as [i|]; [ | eexists _, _; split; [reflexivity | split_and!; try done; by left]].
  specialize (Hi i eq_refl). rewrite <- H2 in Hi. cbn [rs_handlers set_aliases].
  destruct (lookup_lt_is_Some_2 _ _ Hi) as [[h|] Hh]; rewrite Hh;
    (eexists _, _; split; [reflexivity | ]); [split_and!; try done; by left | ].
  do 4 (split; [done | ]). right. by exists i.
Qed.

(** Polling a future returns; when it makes a handler, the handler is kept. *)
Lemma poll_future_inv made rdy f (s : RouterService) :
  Forall (fun i => (i < length (rs_handlers s))%nat) (makes f) ->
  exists f' s', poll_future made rdy f s = Some (f', s') /\
    rs_router s' = rs_router s /\ rs_aliases s' = rs_aliases s /\
    (s' = s /\ (makes f' = makes f \/ makes f' = []) \/
     makes f' = [] /\ rs_creating s' = false /\ rs_waker s' = false /\
     exists i, makes f = [i] /\ (rs_handlers s' = rs_handlers s \/
                                 exists h, rs_handlers s' = <[i := Some h]> (rs_handlers s))).
Proof.
  assert (Hrdy : forall idx h req, (idx < length (rs_handlers s))%nat -> makes f = [idx] ->
    exists f' s', poll_ready_handler rdy idx h req s = Some (f', s') /\
    rs_router s' = rs_router s /\ rs_aliases s' = rs_aliases s /\
    (s' = s /\ (makes f' = makes f \/ makes f' = []) \/
     makes f' = [] /\ rs_creating s' = false /\ rs_waker s' = false /\
     exists i, makes f = [i] /\ (rs_handlers s' = rs_handlers s \/
                                 exists h, rs_handlers s' = <[i := Some h]> (rs_handlers s)))).
  { intros idx h req Hlt Hm. unfold poll_ready_handler. destruct rdy as [[u|e]|].
    - rewrite decide_True by done. eexists _, _. split; [reflexivity | ]. split; [done | ].
      split; [done | ]. right. split_and!; [done | done | done | ]. exists idx. split; [done | right; by exists h].
    - eexists _, _. split; [reflexivity | ]. split; [done | ]. split; [done | ]. right.
      split_and!; [done | done | done | ]. exists idx. split; [done | by left].
    - eexists _, _. split; [reflexivity | ]. split; [done | ]. split; [done | ]. left. auto. }
  destruct f as [h req|req|idx req|idx h req|e]; cbn [poll_future makes];
    intros Hf; try (by eexists _, _; split; [reflexivity | auto 10]).
  - rewrite Forall_singleton in Hf. rewrite decide_True by done. destruct made as [[h|e]|].
    + by apply Hrdy.
    + eexists _, _. split; [reflexivity | auto 10].
    + eexists _, _. split; [reflexivity | auto 10].
  - rewrite Forall_singleton in Hf. by apply Hrdy.
Qed.

Lemma rstep_inv default rs y y' : rinv default rs y -> rstep y y' -> rinv default rs y'.
Proof.
  intros Hi Hs. destruct Hs as [hs dflt req s f s' l Hp Hst|made rdy f s f' s' l1 l2 Hst|hs dflt s x s' l Hst].
  - destruct (call5_inv _ _ _ req Hi) as (f1 & s1 & E & E1 & E2 & E3 & Ha & Hf). cbn in *.
    rewrite Hst in E. injection E as <- <-. destruct Hi as [H1 H2 H3 H4 H5 H6]. cbn in *.
    apply poll_ready_not_creating in Hp.
    assert (Hl : l ≫= makes = []) by (destruct H5 as [?|(i & _ & Hc & _)]; [done | congruence]).
    split; cbn; rewrite ?bind_app, ?Hl, ?E1, ?E2, ?E3; cbn; rewrite ?app_nil_r; try done.
    + destruct Hf as [[-> _]|(i & -> & _ & Hn)]; [by constructor | ].
      apply Forall_singleton. rewrite E2 in Hn. apply lookup_lt_Some in Hn. lia.
    + destruct Hf as [[-> _]|(i & -> & Hc & Hn)]; [by left | right; exists i; by rewrite E2 in Hn].
    + intros Hw. apply H6 in Hw. congruence.
  - destruct Hi as [H1 H2 H3 H4 H5 H6]. cbn in *. rewrite bind_app in *. cbn in *.
    pose proof H4 as [H4a [H4b H4c]%Forall_app]%Forall_app. rewrite <- H2 in H4b.
    destruct (poll_future_inv made rdy f s H4b) as (f1 & s1 & E & E1 & E2 & Hc).
    rewrite Hst in E. injection E as <- <-.
    assert (Hm : makes f' = makes f \/ makes f' = []) by (destruct Hc as [[_ ?]|[? _]]; auto).
    assert (Hr : Forall (fun i => (i < length rs)%nat) ((l1 ≫= makes) ++ makes f' ++ (l2 ≫= makes))).
    { rewrite !Forall_app. split; [done | ]. split; [ | done]. rewrite H2 in H4b.
      destruct Hm as [->| ->]; [done | by constructor]. }
    destruct Hc as [[-> _]|(Hf' & Hcr & Hw & i & Hfi & Hh)].
    + split; cbn; rewrite ?bind_app; cbn; try done.
      destruct Hm as [->| ->]; [done | ]. destruct H5 as [H5|(i & H5 & Hc & Hn)].
      * left. apply app_eq_nil in H5 as [-> [_ ->]%app_eq_nil]. done.
      * destruct (makes f) as [|j k] eqn:Ef; [right; by exists i | left].
        apply app_eq_unit in H5 as [[-> H5]|[-> H5]]; [ | done]. injection H5 as _ [_ ->]%app_eq_nil. done.
    + assert (Hone : (l1 ≫= makes) ++ makes f' ++ (l2 ≫= makes) = []).
      { rewrite Hf'. rewrite Hfi in H5. destruct H5 as [H5|(j & H5 & _)].
        - by apply app_eq_nil in H5 as [_ H5].
        - apply app_eq_unit in H5 as [[-> H5]|[-> H5]]; [by injection H5 as _ -> | done]. }
      split; cbn; rewrite ?bind_app, ?E1, ?E2, ?Hcr, ?Hw; cbn; rewrite ?Hone; try done; try (by left).
      destruct Hh as [->|[h ->]]; [done | by rewrite length_insert].
  - apply poll_ready_same in Hst as [->|[Hc ->]]; [done | ]. destruct Hi as [H1 H2 H3 H4 H5 H6].
    by split.
Qed.

Lemma rreachable_inv default rs y : rreachable default rs y -> rinv default rs y.
Proof.
  induction 1 as [|y y' _ IH Hs]; [ | by eapply rstep_inv]. split; cbn; try done.
  - by rewrite repeat_length, build_length.
  - by left.
Qed.





(** ** Properties *)


(** No handler is being made, and still the flag says so. *)
Definition stuck (y : RSys) : Prop := rs_creating (y_svc y) = true /\ y_futs y ≫= makes = [].

Lemma stuck_step y y' : stuck y -> rstep y y' -> stuck y'.
Proof.
  intros [Hc Hm] Hs. destruct Hs as [hs dflt req s f s' l Hp Hst|made rdy f s f' s' l1 l2 Hst|hs dflt s x s' l Hst];
    cbn in *.
  - apply poll_ready_not_creating in Hp. congruence.
  - rewrite bind_app in Hm. apply app_eq_nil in Hm as [Hm1 Hm2]. cbn in Hm2.
    apply app_eq_nil in Hm2 as [Hm2 Hm3].
    assert (f' = f /\ s' = s) as [-> ->].
    { destruct f; try done; by injection Hst as <- <-. }
    split; cbn; [done | ]. rewrite bind_app. cbn. by rewrite Hm1, Hm2, Hm3.
  - apply poll_ready_same in Hst as [->|[_ ->]]; by split.
Qed.

Lemma stuck_steps y y' : stuck y -> rtc rstep y y' -> stuck y'.
Proof. intros Hs. induction 1 as [|y y1 y2 H1 _ IH]; [done | apply IH; by eapply stuck_step]. Qed.

(** A handler that cannot be made leaves the router unusable: when
    [new_service] of a resource fails, the call returns its error, but the
    flag [creating] is not reset, so [poll_ready] never says ready again,
    whatever happens later. *)
Theorem v5_router_failed_init default rs s l1 idx req l2 rdy (e : Err) :
  rreachable default rs (mkRSys s (l1 ++ RF_New idx req :: l2)) ->
  poll_future (Some (err e)) rdy (RF_New idx req) s = Some (RF_Failed e, s) /\
  forall y, rtc rstep (mkRSys s (l1 ++ RF_Failed e :: l2)) y ->
    forall hs dflt, (poll_ready5 hs dflt (y_svc y)).1 <> Some (ok tt).
Proof.
  intros Hr. pose proof (rreachable_inv _ _ _ Hr) as [H1 H2 H3 H4 H5 H6]. cbn in *.
  rewrite bind_app in *. cbn in *. apply Forall_app in H4 as [_ [Hlt _]%Forall_cons].
  split; [rewrite decide_True by lia; done | ].
  assert (Hs : stuck (mkRSys s (l1 ++ RF_Failed e :: l2))).
  { unfold stuck. cbn. rewrite bind_app. cbn. destruct H5 as [H5|(i & H5 & Hc & _)].
    - by apply app_eq_nil in H5 as [_ H5].
    - split; [done | ]. apply app_eq_unit in H5 as [[-> H5]|[_ H5]]; [by injection H5 as _ -> | done]. }
  intros y Hy hs dflt. destruct (stuck_steps _ _ Hs Hy) as [Hc _]. unfold poll_ready5.
  destruct (poll_ready_all _ _); [by rewrite Hc | done].
Qed.

(** ** Topic aliases

    What a peer means: an alias stands for the last topic it was sent with. *)
Definition bind_alias (p : Publish) (tbl : gmap Z ByteString) : gmap Z ByteString :=
  match pp_topic_alias (pu_properties p) with
  | Some a => if has_remaining (pu_topic p) then <[(a : Z) := pu_topic p]> tbl else tbl
  | None => tbl
  end.

Definition meant (tbl : gmap Z ByteString) (p : Publish) : option ByteString :=
  if has_remaining (pu_topic p) then Some (pu_topic p)
  else match pp_topic_alias (pu_properties p) with Some a => tbl !! (a : Z) | None => None end.

(** The resource of a topic, with the path as it is after matching *)
Definition matched (router : list (Pattern * nat)) (t : ByteString) : option (nat * Path) :=
  match recognize router (path_new t) with (Some i, path) => Some (i, path) | (None, _) => None end.

Definition request (p : Publish) : Req := mkRequest p (path_new (pu_topic p)).

(** Where the publishes of a connection go, and where they should *)
Fixpoint route_all (router : list (Pattern * nat)) (al : gmap Z (nat * Path)) (ps : list Publish)
  : list (option (nat * Path)) :=
  match ps with
  | [] => []
  | p :: ps =>
      let '(o, req, al) := route router al (request p) in
      option_map (fun i => (i, rq_topic req)) o :: route_all router al ps
  end.

Fixpoint meant_all (router : list (Pattern * nat)) (tbl : gmap Z ByteString) (ps : list Publish)
  : list (option (nat * Path)) :=
  match ps with
  | [] => []
  | p :: ps => (meant tbl p ≫= matched router) :: meant_all router (bind_alias p tbl) ps
  end.

(** No alias goes from a topic with a resource to one without. *)
Fixpoint rebinds_ok (router : list (Pattern * nat)) (tbl : gmap Z ByteString) (ps : list Publish) : Prop :=
  match ps with
  | [] => True
  | p :: ps =>
      (forall a, pp_topic_alias (pu_properties p) = Some a -> has_remaining (pu_topic p) = true ->
         matched router (pu_topic p) = None -> tbl !! (a : Z) ≫= matched router = None) /\
      rebinds_ok router (bind_alias p tbl) ps
  end.

Definition aliases_match (router : list (Pattern * nat)) (al : gmap Z (nat * Path))
  (tbl : gmap Z ByteString) : Prop := forall a, al !! a = tbl !! a ≫= matched router.

Lemma route_meant router al tbl p :
  aliases_match router al tbl ->
  (forall a, pp_topic_alias (pu_properties p) = Some a -> has_remaining (pu_topic p) = true ->
     matched router (pu_topic p) = None -> tbl !! (a : Z) ≫= matched router = None) ->
  let '(o, req, al') := route router al (request p) in
  option_map (fun i => (i, rq_topic req)) o = meant tbl p ≫= matched router /\
  aliases_match router al' (bind_alias p tbl).
Proof.
  intros Hm Hok. unfold route, meant, bind_alias, request. cbn [rq_packet rq_topic].
  destruct (has_remaining (pu_topic p)).
  - cbn [mbind option_bind]. unfold matched at 1.
    destruct (recognize router (path_new (pu_topic p))) as [[i|] path] eqn:Er.
    + split; [done | ]. destruct (pp_topic_alias _) as [a|]; [ | done]. intros k.
      destruct (Z.eq_dec a k) as [<-|Hk].
      * rewrite !lookup_insert_eq. cbn. unfold matched. by rewrite Er.
      * rewrite !lookup_insert_ne by done. apply Hm.
    + split; [done | ]. destruct (pp_topic_alias _) as [a|]; [ | done]. intros k.
      assert (Hnone : matched router (pu_topic p) = None) by (unfold matched; by rewrite Er).
      destruct (Z.eq_dec a k) as [<-|Hk].
      * rewrite lookup_insert_eq. cbn. rewrite Hnone, Hm. by apply Hok.
      * rewrite lookup_insert_ne by done. apply Hm.
  - destruct (pp_topic_alias _) as [a|]; [ | done].
    pose proof (Hm (a : Z)) as Ha. destruct (al !! (a : Z)) as [[i path]|]; by split.
Qed.

(** C22: the publishes of a connection go to the handlers of the topics they
    mean, each with the path of that topic, also when the topic is an alias
    for an earlier one, as long as no alias is bound again from a topic with
    a resource to a topic without one. *)
Theorem v5_router_aliases router ps :
  rebinds_ok router ∅ ps -> route_all router ∅ ps = meant_all router ∅ ps.
Proof.
  assert (Hm : aliases_match router ∅ ∅) by (intros a; by rewrite !lookup_empty).
  revert Hm. generalize (∅ : gmap Z (nat * Path)) as al. generalize (∅ : gmap Z ByteString) as tbl.
  induction ps as [|p ps IH]; intros tbl al Hm; cbn [rebinds_ok route_all meant_all]; [done | ].
  intros [Hp Hps]. pose proof (route_meant router al tbl p Hm Hp) as Hr.
  destruct (route router al (request p)) as [[o req] al']. destruct Hr as [-> Hm']. f_equal. by apply IH.
Qed.

(** An alias that is bound again to a topic without a resource keeps
    its old meaning: the next publish with the alias alone goes to the
    handler of the topic before, with that topic's path, and not to the
    default service. *)
Theorem v5_router_stale_alias router p1 p2 p3 (a : Z) (i : nat) (path : Path) :
  pp_topic_alias (pu_properties p1) = Some a -> pp_topic_alias (pu_properties p2) = Some a ->
  pp_topic_alias (pu_properties p3) = Some a ->
  has_remaining (pu_topic p1) = true -> has_remaining (pu_topic p2) = true ->
  has_remaining (pu_topic p3) = false ->
  matched router (pu_topic p1) = Some (i, path) -> matched router (pu_topic p2) = None ->
  route_all router ∅ [p1; p2; p3] = [Some (i, path); None; Some (i, path)] /\
  meant_all router ∅ [p1; p2; p3] = [Some (i, path); None; None].
Proof.
  intros A1 A2 A3 T1 T2 T3 M1 M2. split.
  - unfold matched in M1, M2. cbn [route_all]. unfold route, request. cbn [rq_packet rq_topic].
    rewrite T1, T2, T3, A1, A2, A3.
    destruct (recognize router (path_new (pu_topic p1))) as [[j|] q]; [injection M1 as -> -> | done].
    destruct (recognize router (path_new (pu_topic p2))) as [[j|] q2]; [done | ].
    by rewrite lookup_insert_eq.
  - cbn [meant_all]. unfold meant, bind_alias. rewrite T1, T2, T3, A1, A2, A3.
    rewrite lookup_insert_eq. cbn. by rewrite M1, M2.
Qed.

End Router.
Arguments mkRequest {TR P} rq_packet rq_topic.
Arguments rq_packet {TR P} r.
Arguments rq_topic {TR P} r.

(** ** A router to run: patterns match the topics that are equal to them *)

Definition demo_recognize (rs : list (bytes * nat)) (p : bytes) : option nat * bytes :=
  (option_map snd (List.find (fun r => bytes_eqb r.1 p) rs), p).

#[local] Instance demo_router : TopicRouter := {|
  Pattern := bytes; Path := bytes; path_new t := t; recognize := demo_recognize |}.

#[local] Instance demo_router_laws : @TopicRouterLaws demo_router.
Proof.
  split. intros rs p i p'. cbn. unfold demo_recognize. intros [= H _].
  destruct (List.find (fun r => bytes_eqb r.1 p) rs) as [[pat j]|] eqn:Ef; [ | done]. injection H as ->.
  apply List.find_some in Ef as [Hin _]. exists pat. by apply list_elem_of_In.
Qed.

(** A publish to [topic] with alias [alias] *)
Definition demo_publish (topic : bytes) (alias : option Z) : Publish :=
  {| pu_dup := false; pu_retain := false; pu_qos := AtMostOnce; pu_topic := topic; pu_packet_id := None;
     pu_payload := []; pu_properties := { PublishProperties_default with pp_topic_alias := alias } |}.
Definition demo_request (topic : bytes) (alias : option Z) : @Request demo_router Publish :=
  @request demo_router (demo_publish topic alias).
Definition demo_resources : list (@Pattern demo_router * nat) := [([97], 10%nat); ([98], 20%nat)].
Abbreviation DSys := (@RSys demo_router nat unit).

(** A handler is being made for the first resource. *)
Definition demo_waiting : DSys :=
  mkRSys (set_creating true (new_service (build 0%nat demo_resources)))
    [RF_New 0 (demo_request [97] None)].

Lemma demo_waiting_reachable : rreachable 0%nat demo_resources demo_waiting.
Proof.
  eapply rr_step; [apply rr_new | ].
  apply (rs_call [] (Some (ok tt)) (demo_request [97] None) _ _ _ []); reflexivity.
Qed.


Lemma v5_router_failed_init_witness :
  (poll_ready5 (Err := unit) [] (Some (ok tt)) (y_svc demo_waiting)).1 <> Some (ok tt).
Proof.
  exact (proj2 (v5_router_failed_init 0%nat demo_resources (y_svc demo_waiting) [] 0
                  (demo_request [97] None) [] None tt demo_waiting_reachable)
           (mkRSys (y_svc demo_waiting) [RF_Failed tt]) (rtc_refl _ _) [] (Some (ok tt))).
Defined.

(** Alias 1 for topic "a", used alone, and bound again to topic "b" *)
Definition demo_publishes : list Publish :=
  [demo_publish [97] (Some 1); demo_publish [] (Some 1); demo_publish [98] (Some 1); demo_publish [] (Some 1)].

Lemma v5_router_aliases_witness :
  route_all (r_router (build 0%nat demo_resources)) ∅ demo_publishes =
    [Some (0%nat, [97]); Some (0%nat, [97]); Some (1%nat, [98]); Some (1%nat, [98])].
Proof.
  rewrite (v5_router_aliases (r_router (build 0%nat demo_resources)) demo_publishes).
  - reflexivity.
  - repeat split; intros; discriminate.
Defined.

Lemma v5_router_stale_alias_witness :
  route_all (r_router (build 0%nat demo_resources)) ∅
    [demo_publish [97] (Some 1); demo_publish [99] (Some 1); demo_publish [] (Some 1)] =
    [Some (0%nat, [97]); None; Some (0%nat, [97])].
Proof.
  refine (proj1 (v5_router_stale_alias (r_router (build 0%nat demo_resources)) _ _ _ 1 0 [97] _ _ _ _ _ _ _ _)); reflexivity.
Defined.
