(* ===== verification/V3Server.v ===== *)
(** * The server of MQTT 3.1.1 (src/v3/handshake.rs, src/v3/server.rs, src/v3/selector.rs)

    A server reads CONNECT, asks the application's connect service and answers
    with CONNACK.  A selector holds several servers and gives the connection to
    the first one whose check accepts CONNECT. *)

From stdpp Require Import base gmap list strings relations.
From S2P Require Import Prelude Types Wire Framing V3Codec Sink V3Sink Net Service IoDispatcher IoPoll.
Open Scope Z_scope.
Open Scope net_scope.

(** ** Handshakes *)

(** [HandshakeAck]; [Handshake] is the CONNECT packet, since the connection
    and the shared state are in the monad *)
Record HandshakeAck (St : Type) : Type := mkHandshakeAck {
  a_session : option St;
  a_session_present : bool;
  a_return_code : ConnectAckReason;
  a_keepalive : Z;
  a_lw : Z;
  a_read_hw : Z;
  a_write_hw : Z;
}.
Arguments mkHandshakeAck {St}.
Arguments a_session {St}.
Arguments a_session_present {St}.
Arguments a_return_code {St}.
Arguments a_keepalive {St}.
Arguments a_lw {St}.
Arguments a_read_hw {St}.
Arguments a_write_hw {St}.

(** [Handshake::ack] *)
Definition Handshake_ack {St} (st : St) (session_present : bool) : HandshakeAck St :=
  mkHandshakeAck (Some st) session_present ConnectionAccepted 30 256 (4 * 1024) (4 * 1024).

(** [Handshake::identifier_rejected], [bad_username_or_pwd], [not_authorized],
    [service_unavailable] *)
Definition identifier_rejected {St} : HandshakeAck St :=
  mkHandshakeAck None false IdentifierRejected 30 256 (4 * 1024) (4 * 1024).
Definition bad_username_or_pwd {St} : HandshakeAck St :=
  mkHandshakeAck None false BadUserNameOrPassword 30 256 (4 * 1024) (4 * 1024).
Definition not_authorized {St} : HandshakeAck St :=
  mkHandshakeAck None false NotAuthorized 30 256 (4 * 1024) (4 * 1024).
Definition service_unavailable {St} : HandshakeAck St :=
  mkHandshakeAck None false ServiceUnavailable 30 256 (4 * 1024) (4 * 1024).

(** [HandshakeAck::idle_timeout], [buffer_params], [low_watermark],
    [read_high_watermark], [write_high_watermark] *)
Definition idle_timeout {St} (timeout : Z) (a : HandshakeAck St) : HandshakeAck St :=
  mkHandshakeAck (a_session a) (a_session_present a) (a_return_code a) timeout (a_lw a) (a_read_hw a) (a_write_hw a).
Definition buffer_params {St} (max_read_buf max_write_buf min_buf_size : Z) (a : HandshakeAck St) : HandshakeAck St :=
  mkHandshakeAck (a_session a) (a_session_present a) (a_return_code a) (a_keepalive a) min_buf_size max_read_buf max_write_buf.
Definition low_watermark {St} (lw : Z) (a : HandshakeAck St) : HandshakeAck St :=
  mkHandshakeAck (a_session a) (a_session_present a) (a_return_code a) (a_keepalive a) lw (a_read_hw a) (a_write_hw a).
Definition read_high_watermark {St} (hw : Z) (a : HandshakeAck St) : HandshakeAck St :=
  mkHandshakeAck (a_session a) (a_session_present a) (a_return_code a) (a_keepalive a) (a_lw a) hw (a_write_hw a).
Definition write_high_watermark {St} (hw : Z) (a : HandshakeAck St) : HandshakeAck St :=
  mkHandshakeAck (a_session a) (a_session_present a) (a_return_code a) (a_keepalive a) (a_lw a) (a_read_hw a) hw.

(** An acknowledgement that an application can make: its fields are private *)
Inductive made {St} : HandshakeAck St -> Prop :=
| made_ack st sp : made (Handshake_ack st sp)
| made_identifier : made identifier_rejected
| made_password : made bad_username_or_pwd
| made_authorized : made not_authorized
| made_unavailable : made service_unavailable
| made_idle t a : made a -> made (idle_timeout t a)
| made_buffers r w l a : made a -> made (buffer_params r w l a)
| made_lw lw a : made a -> made (low_watermark lw a)
| made_read hw a : made a -> made (read_high_watermark hw a)
| made_write hw a : made a -> made (write_high_watermark hw a).

Lemma made_code {St} (a : HandshakeAck St) :
  made a -> (a_session a = None <-> a_return_code a <> ConnectionAccepted).
Proof. induction 1; cbn in *; naive_solver. Qed.

(** ** The configuration of a server *)
Record MqttServer : Type := mkServer {
  ms_max_size : Z;
  ms_inflight : Z;
  ms_handshake_timeout : Z;
  ms_disconnect_timeout : Z;
}.

(** [MqttServer::new] and the setters *)
Definition MqttServer_new : MqttServer := mkServer 0 16 0 3000.
Definition handshake_timeout (timeout : Z) (s : MqttServer) : MqttServer :=
  mkServer (ms_max_size s) (ms_inflight s) timeout (ms_disconnect_timeout s).
Definition disconnect_timeout (val : Z) (s : MqttServer) : MqttServer :=
  mkServer (ms_max_size s) (ms_inflight s) (ms_handshake_timeout s) val.
Definition max_size (size : Z) (s : MqttServer) : MqttServer :=
  mkServer size (ms_inflight s) (ms_handshake_timeout s) (ms_disconnect_timeout s).
Definition inflight (val : Z) (s : MqttServer) : MqttServer :=
  mkServer (ms_max_size s) val (ms_handshake_timeout s) (ms_disconnect_timeout s).

(** What [finish], [inner_finish] and [finish_selector] put before the
    dispatcher: only packets reach it ([inl]), everything else is answered. *)
Definition dispatch_item {E} (req : DispatchItem Packet DecodeError EncodeError IoError)
  : Packet + result (option Packet) (MqttError E) :=
  match req with
  | DI_Item req => inl req
  | DI_KeepAliveTimeout => inr (err (MProtocol PKeepAliveTimeout))
  | DI_EncoderError e => inr (err (MProtocol (PEncode e)))
  | DI_DecoderError e => inr (err (MProtocol (PDecode e)))
  | DI_IoError e => inr (err (MProtocol PIo))
  | DI_WBackPressureEnabled | DI_WBackPressureDisabled => inr (ok None)
  end.

Section Server.
Context `{R : Runtime Ack} {N : Net Ack Codec Packet}.
Abbreviation Shared := (@MqttShared Ack R Codec).
Abbreviation M := (@M Ack R Codec).

Section Handshake.
Context {St E Hd : Type}.
Abbreviation MError := (MqttError E).

(** "read first packet" *)
Definition read_first : M (result Packet MError) :=
  r ← next_packet codec_decode;
  mret (match r with
        | err e => err (from_next e)
        | ok None => err MDisconnected
        | ok (Some p) => ok p
        end).

Definition unexpected (p : Packet) : MError :=
  MProtocol (PUnexpected (packet_type p) "MQTT-3.1.0-1: Expected CONNECT packet").

(** [state.send(io, codec, ConnectAck { .. }).await?] *)
Definition send_ack (session_present : bool) (return_code : ConnectAckReason) : M (result unit MError) :=
  r ← send_packet (codec_encode (PConnectAck session_present return_code));
  mret (map_err from_send r).

(** What follows the answer of the connect service; [limit] is set by a
    selector. *)
Definition finish_handshake (limit : option Z) (ack : HandshakeAck St) : M (result (Session St * Z) MError) :=
  match a_session ack with
  | Some session =>
      _ ← (match limit with Some n => upd_codec (fun c => set_max_size c n) | None => mret tt end);
      _ ← upd_io (set_buffer_params (a_read_hw ack) (a_write_hw ack) (a_lw ack));
      _ ←? send_ack (a_session_present ack) ConnectionAccepted;
      mret (ok (Session_new session, a_keepalive ack))
  | None =>
      _ ←? send_ack false (a_return_code ack);
      mret (err MDisconnected)
  end.

(** [handshake], on the shared state of [MqttShared::new(state, codec, 16, pool)]
    with [Codec::default().max_size(max_size)] *)
Definition handshake (srv : MqttServer) (service : Connect -> M (result (HandshakeAck St) E))
  : M (result (Session St * Z) MError) :=
  _ ← upd_codec (fun c => set_max_size c (ms_max_size srv));
  packet ←? read_first;
  match packet with
  | PConnect connect =>
      r ← service connect;
      ack ←? mret (map_err MService r);
      finish_handshake None ack
  | p => mret (err (unexpected p))
  end.

(** [MqttServer::finish] and [inner_finish] with [handshake_service_factory]
    and [handshake_service_factory2] *)
Definition finish (srv : MqttServer) (service : Connect -> M (result (HandshakeAck St) E))
  (new_service : Session St -> M (result Hd MError)) : M (result (Connection Hd) MError) :=
  FramedServiceImpl_call (with_timeout (ms_handshake_timeout srv) (handshake srv service))
    new_service (ms_disconnect_timeout srv).

Definition inner_finish (srv : MqttServer) (service : Connect -> M (result (HandshakeAck St) E))
  (new_service : Session St -> M (result Hd MError)) (delay : bool) : M (result (option (Connection Hd)) MError) :=
  FramedServiceImpl2_call (with_timeout (ms_handshake_timeout srv) (handshake srv service))
    new_service (ms_disconnect_timeout srv) delay.

(** ** Selectors *)

(** [ServerSelectorImpl::call]: [inl] gives CONNECT back *)
Definition ServerSelectorImpl_call (srv : MqttServer) (check : Connect -> M (result bool E))
  (service : Connect -> M (result (HandshakeAck St) E)) (new_service : Session St -> M (result Hd MError))
  (hnd : Connect) (delay : bool) : M (result (Connect + Connection Hd) MError) :=
  result ←? timed delay (check hnd);
  if negb result then mret (ok (inl hnd))
  else
    ack ←? timed delay (service hnd);
    x ←? finish_handshake (Some (ms_max_size srv)) ack;
    h ←? new_service x.1;
    mret (ok (inr (mkConnection h x.2 (ms_disconnect_timeout srv)))).

Abbreviation VariantCall := (Connect -> bool -> M (result (Connect + Connection Hd) MError)).

(** [SelectorService2::call], on a shared state with 16 credits *)
Definition SelectorService2_call (max_size : Z) (servers : list VariantCall) (delay : bool)
  : M (result (Connection Hd) MError) :=
  _ ← upd_codec (fun c => set_max_size c max_size);
  packet ←? read_first;
  match packet with
  | PConnect connect => call_servers servers connect delay
  | p => mret (err (unexpected p))
  end.

(** [SelectorService::call] *)
Definition SelectorService_call (max_size handshake_timeout : Z) (servers : list VariantCall) : M (result (Connection Hd) MError) :=
  SelectorService2_call max_size servers (0 <? handshake_timeout).

End Handshake.

(** ** Answers *)

Section Answers.
Context {NL : NetLaws Ack Codec Packet} {St E Hd : Type}.
Abbreviation MError := (MqttError E).

(** A connect service that uses the sink only *)
Definition uses_sink {B} (m : M B) : Prop := forall s r s', m s = Some (r, s') -> rtc step s s'.

Lemma steps_settings3 s s' : rtc step s s' -> settings s' = settings s.
Proof. induction 1 as [|s1 s2 s3 H1%step_settings3 _ IH]; congruence. Qed.

Lemma next_limit c w r c' w' : next codec_decode c w = (r, c', w') -> V3Codec.max_size c' = V3Codec.max_size c.
Proof.
  intros En. pose proof (next_keeps (fun c0 => V3Codec.max_size c0 = V3Codec.max_size c) codec_decode c w) as Hk.
  rewrite En in Hk. apply Hk; [ | done]. intros c0 b0 <-. unfold codec_decode.
  by destruct (frame_decode _ _ _ _) as [[r0 st] src].
Qed.

Lemma send_ack_Some sp code s (r : result unit MError) s' :
  send_ack sp code s = Some (r, s') ->
  exists w, s' = set_io w s /\ (is_open w = true -> is_open (io s) = true) /\
  match r with
  | ok _ => sent w = sent (io s) ++ wbuf (io s) ++ frame (PConnectAck sp code)
  | err e => exists x, send_item (codec_encode (PConnectAck sp code)) (io s) = Some (err x, w) /\ e = from_send x
  end.
Proof.
  intros (x & s1 & H1 & [<- <-]%ret_Some)%bind_Some. unfold send_packet in H1.
  destruct (send_item _ _) as [[r' w']|] eqn:Es; [ | done]. injection H1 as -> <-.
  exists w'. split; [done | ]. split; [by eapply send_open | ].
  destruct x as [[]|e]; [ | by exists e].
  apply send_ok in Es as (_ & Hs & _). rewrite Hs. rewrite codec_encode_writes; [done | done | by vm_compute].
Qed.

(** What a handshake does: it ends before the connect service is asked, or
    with its error, or with what follows its answer. *)
Lemma handshake_run srv (service : Connect -> M (result (HandshakeAck St) E)) s r s' :
  handshake srv service s = Some (r, s') ->
  exists n c w, next codec_decode (set_max_size (codec s) (ms_max_size srv)) (io s) = (n, c, w) /\
  match n with
  | ok (Some (PConnect connect)) =>
      exists a s1, service connect (set_io w (set_codec c s)) = Some (a, s1) /\
      match a with
      | ok ack => finish_handshake None ack s1 = Some (r, s')
      | err e => r = err (MService e) /\ s' = s1
      end
  | ok None => r = err MDisconnected /\ s' = set_io w (set_codec c s)
  | _ => (exists pe, r = err (MProtocol pe)) /\ s' = set_io w (set_codec c s)
  end.
Proof.
  intros (u & s0 & [= _ <-] & (x & s1 & H1 & H)%bind_Some)%bind_Some.
  apply bind_Some in H1 as (y & s2 & H2 & [<- <-]%ret_Some). unfold next_packet in H2. cbn [codec set_codec io] in H2.
  destruct (next codec_decode (set_max_size (codec s) (ms_max_size srv)) (io s)) as [[n c] w] eqn:En.
  injection H2 as <- <-. exists n, c, w. split; [done | ].
  destruct n as [[p|]|e]; cbn in H.
  2: { by apply ret_Some in H as [<- <-]. }
  2: { apply ret_Some in H as [<- <-]. split; [ | done]. destruct e; by eexists. }
  destruct p; try by apply ret_Some in H as [<- <-]; split; [eexists | ].
  apply bind_Some in H as (a & s3 & Hr & (z & s4 & [<- <-]%ret_Some & H)%bind_Some).
  exists a, s3. split; [done | ]. destruct a as [ack|e]; [done | by apply ret_Some in H as [<- <-]].
Qed.

(** The CONNACK that an answer of the connect service stands for *)
Definition connack_of (ack : HandshakeAck St) : Packet :=
  match a_session ack with
  | Some _ => PConnectAck (a_session_present ack) ConnectionAccepted
  | None => PConnectAck false (a_return_code ack)
  end.

(** What follows the answer of the connect service *)
Lemma finish_run (ack : HandshakeAck St) s (r : result (Session St * Z) MError) s' :
  finish_handshake None ack s = Some (r, s') ->
  exists w, s' = set_io w s /\ (is_open w = true -> is_open (io s) = true) /\
  match r with
  | ok (sess, ka) =>
      (exists st, a_session ack = Some st /\ sess = Session_new st) /\ ka = a_keepalive ack /\
      sent w = sent (io s) ++ wbuf (io s) ++ frame (connack_of ack)
  | err MDisconnected =>
      a_session ack = None /\ sent w = sent (io s) ++ wbuf (io s) ++ frame (connack_of ack)
  | err e =>
      exists w0 x, send_item (codec_encode (connack_of ack)) w0 = Some (err x, w) /\ e = from_send x /\
        sent w0 = sent (io s) /\ wbuf w0 = wbuf (io s)
  end.
Proof.
  unfold finish_handshake, connack_of. destruct (a_session ack) as [st|] eqn:Est; intros H.
  - apply bind_Some in H as (u1 & s5 & [_ <-]%ret_Some & (u2 & s6 & [_ ->]%upd_io_Some & (b & s7 & H7 & H)%bind_Some)%bind_Some).
    apply send_ack_Some in H7 as (w & -> & Ho & Hs). exists w.
    destruct (params_quiet (a_read_hw ack) (a_write_hw ack) (a_lw ack) (io s)) as [Hp1 Hp2].
    destruct b as [[]|e]; apply ret_Some in H as [<- <-].
    all: split; [done | ]. all: split; [intros Hw; by eapply params_open, Ho | ].
    + split; [by exists st | ]. split; [done | ]. rewrite Hs. cbn. by rewrite Hp1, Hp2.
    + destruct Hs as (x & Hs & ->). by destruct x; eexists _, _.
  - apply bind_Some in H as (b & s7 & H7 & H). apply send_ack_Some in H7 as (w & -> & Ho & Hs). exists w.
    destruct b as [[]|e]; apply ret_Some in H as [<- <-].
    all: split; [done | ]. all: split; [done | ].
    + by split.
    + destruct Hs as (x & Hs & ->). by destruct x; eexists _, _.
Qed.

(** C20: what a server answers to a client, for every outcome of a handshake.
    The first packet is read, which sends nothing.  Without one, or with one
    that is not CONNECT, or when the connect service fails, the handshake ends
    with an error and has sent no CONNACK: the state is the one that reading or
    the service left.  Otherwise one CONNACK follows what the service had sent
    and written; if the network takes it, the handshake ends with a session
    exactly when the service gave one, and the CONNACK then says accepted, and
    with [Disconnected] and the code of the refusal else; if it does not, with
    a protocol error.  On an accepted connection the decoder has the configured
    limit, the sink 16 credits and the keep-alive is the one of the service. *)
Theorem v3_handshake_answer srv (service : Connect -> M (result (HandshakeAck St) E)) w c0 r s' :
  (forall c, uses_sink (service c)) ->
  (forall c s ack s', service c s = Some (ok ack, s') -> made ack) ->
  handshake srv service (MqttShared_new w c0 16) = Some (r, s') ->
  exists n c w1, next codec_decode (set_max_size c0 (ms_max_size srv)) w = (n, c, w1) /\
    let s1 := MqttShared_new w1 c 16 in
    sent w1 = sent w /\ wbuf w1 = wbuf w /\
    match n with
    | ok (Some (PConnect connect)) =>
        exists a s2, service connect s1 = Some (a, s2) /\
        match a with
        | err e => r = err (MService e) /\ s' = s2
        | ok ack =>
            V3Codec.max_size (codec s') = ms_max_size srv /\ cap s' = 16 /\
            ((sent (io s') = sent (io s2) ++ wbuf (io s2) ++ frame (connack_of ack) /\
              match a_session ack with
              | Some st => r = ok (Session_new st, a_keepalive ack)
              | None => r = err MDisconnected /\ a_return_code ack <> ConnectionAccepted
              end) \/
             exists w0 x, send_item (codec_encode (connack_of ack)) w0 = Some (err x, io s') /\ r = err (from_send x) /\
               sent w0 = sent (io s2) /\ wbuf w0 = wbuf (io s2))
        end
    | ok None => r = err MDisconnected /\ s' = s1
    | _ => (exists pe, r = err (MProtocol pe)) /\ s' = s1
    end.
Proof.
  intros Hs Hm (n & c & w1 & En & H)%handshake_run. cbn [codec io MqttShared_new] in En. apply next_limit in En as Hl.
  pose proof (next_quiet codec_decode (set_max_size c0 (ms_max_size srv)) w) as [Hq1 Hq2]. rewrite En in Hq1, Hq2.
  exists n, c, w1. split; [done | ]. split; [done | ]. split; [done | ].
  destruct n as [[p|]|]; [ | done | done]. destruct p; try done.
  destruct H as ([ack|e] & s2 & Hr & H); [ | by exists (err e), s2]. exists (ok ack), s2. split; [exact Hr | ].
  pose proof (steps_settings3 _ _ (Hs _ _ _ _ Hr)) as [= Hcap Hcod].
  apply finish_run in H as (w2 & -> & _ & H). cbn. split; [by rewrite Hcod | ]. split; [done | ].
  destruct r as [[sess ka]|e].
  - left. destruct H as ((st & Hst & ->) & -> & Hsent). by rewrite Hst.
  - destruct e; [right | right | right | left | right].
    all: try (destruct H as (w0 & x & Hx & -> & H1 & H2); by exists w0, x).
    destruct H as (Hnone & Hsent). rewrite Hnone. split; [done | ]. split; [done | ].
    by apply (made_code _ (Hm _ _ _ _ Hr)).
Qed.

(** ** Which server gets a connection *)

(** A variant with a check that looks at CONNECT only *)
Record Variant : Type := mkVariant {
  v_server : MqttServer;
  v_accepts : Connect -> bool;
  v_service : Connect -> M (result (HandshakeAck St) E);
  v_new : Session St -> M (result Hd MError);
}.

Definition variant_call (v : Variant) : Connect -> bool -> M (result (Connect + Connection Hd) MError) :=
  ServerSelectorImpl_call (v_server v) (fun c => mret (ok (v_accepts v c))) (v_service v) (v_new v).

(** A server from CONNECT on *)
Definition serve (limit : option Z) (v : Variant) (connect : Connect) : M (result (Connection Hd) MError) :=
  r ← v_service v connect;
  ack ←? mret (map_err MService r);
  x ←? finish_handshake limit ack;
  h ←? v_new v x.1;
  mret (ok (mkConnection h x.2 (ms_disconnect_timeout (v_server v)))).

Lemma call_servers_first3 vs connect s :
  call_servers (variant_call <$> vs) connect false s =
    match List.find (fun v => v_accepts v connect) vs with
    | Some v => serve (Some (ms_max_size (v_server v))) v connect s
    | None => Some (err (MServerError "Cannot handle CONNECT packet"), s)
    end.
Proof.
  induction vs as [|v vs IH]; [done | ]. cbn [fmap list_fmap List.find call_servers].
  unfold and_then at 1, mbind at 1, M_bind at 1. unfold variant_call, ServerSelectorImpl_call at 1.
  destruct (v_accepts v connect) eqn:Ev.
  - clear IH. unfold serve, timed, select, and_then, mbind, M_bind, mret, M_ret. cbn.
    run_all; done.
  - unfold timed, select, and_then, mbind, M_bind, mret, M_ret. cbn. exact IH.
Qed.

Lemma finish_limit n (ack : HandshakeAck St) s :
  V3Codec.max_size (codec s) = n -> finish_handshake (E := E) (Some n) ack s = finish_handshake None ack s.
Proof.
  intros <-. unfold finish_handshake, mbind, M_bind, upd_codec, set_codec, mret, M_ret.
  destruct (a_session ack); [ | done]. by destruct s as [? ? ? ? [] ?].
Qed.

(** Setting the limit it has anyway changes nothing. *)
Lemma serve_limit v connect s :
  uses_sink (v_service v connect) -> V3Codec.max_size (codec s) = ms_max_size (v_server v) ->
  serve (Some (ms_max_size (v_server v))) v connect s = serve None v connect s.
Proof.
  intros Hs Hl. unfold serve, and_then, mbind, M_bind, mret, M_ret.
  destruct (v_service v connect s) as [[r s1]|] eqn:Er; [ | done].
  pose proof (steps_settings3 _ _ (Hs _ _ _ Er)) as [= _ Hk]. destruct r as [ack|e]; [ | done].
  cbn -[finish_handshake]. by rewrite finish_limit by congruence.
Qed.

(** A selector of MQTT 3.1.1 without a timeout gives the connection to
    the first server, in the order they were added, whose check accepts
    CONNECT, and the connection goes on exactly as if that server had been
    used alone (when both have the same limit for the size of CONNECT);
    without such a server it ends with an error. *)
Theorem v3_selector_first vs max_size s connect k w :
  Forall (fun v => forall c, uses_sink (v_service v c)) vs ->
  next codec_decode (set_max_size (codec s) max_size) (io s) = (ok (Some (PConnect connect)), k, w) ->
  match List.find (fun v => v_accepts v connect) vs with
  | Some v =>
      ms_max_size (v_server v) = max_size -> ms_handshake_timeout (v_server v) = 0 ->
      SelectorService_call max_size 0 (variant_call <$> vs) s = finish (v_server v) (v_service v) (v_new v) s
  | None =>
      exists s', SelectorService_call max_size 0 (variant_call <$> vs) s =
                 Some (err (MServerError "Cannot handle CONNECT packet"), s')
  end.
Proof.
  intros Hvs Hn. apply next_limit in Hn as Hl.
  assert (Hc : SelectorService_call max_size 0 (variant_call <$> vs) s =
    call_servers (variant_call <$> vs) connect false
      (set_io w (set_codec k (set_codec (set_max_size (codec s) max_size) s)))).
  { unfold SelectorService_call, SelectorService2_call, read_first, next_packet, upd_codec, and_then, mbind, M_bind, mret, M_ret.
    cbn -[set_max_size]. by rewrite Hn. }
  rewrite Hc, call_servers_first3. destruct (List.find _ vs) as [v|] eqn:Ef; [ | by eexists].
  apply List.find_some in Ef as [Hv%list_elem_of_In _]. rewrite Forall_forall in Hvs.
  intros <- Ht. rewrite serve_limit; [ | by apply Hvs | done].
  unfold finish, FramedServiceImpl_call, connect_handler, with_timeout, handshake, serve. rewrite Ht. cbn [Z.ltb Z.compare].
  unfold select, read_first, next_packet, upd_codec, and_then, mbind, M_bind, mret, M_ret.
  cbn -[set_max_size finish_handshake]. rewrite Hn. cbn -[set_max_size finish_handshake]. run_all; done.
Qed.

End Answers.
End Server.

(** ** A connection to run *)

Abbreviation DM A := (@M Ack (NetRuntime Ack) Codec A).

Definition demo_server : MqttServer := max_size 1000 MqttServer_new.
Definition demo_service (c : Connect) : DM (result (HandshakeAck nat) unit) :=
  mret (ok (if has_remaining (client_id c) then Handshake_ack 7%nat true else identifier_rejected)).
Definition demo_world : @world Ack (NetRuntime Ack) := sim_world (frame (PConnect sample_connect)).
Definition demo_start : @MqttShared Ack (NetRuntime Ack) Codec := MqttShared_new demo_world Codec_new 16.
Definition demo_handshake : DM (result (Session nat * Z) (MqttError unit)) :=
  @handshake (NetRuntime Ack) SimNet nat unit demo_server demo_service.

Lemma demo_uses_sink3 (c : Connect) : @uses_sink (NetRuntime Ack) _ (demo_service c).
Proof. intros s r s' H. injection H as _ <-. apply rtc_refl. Qed.

Lemma demo_made c s ack s' : demo_service c s = Some (ok ack, s') -> made ack.
Proof. intros H. injection H as <- _. destruct (has_remaining _); constructor. Qed.

Lemma v3_handshake_answer_witness :
  exists s', demo_handshake demo_start = Some (ok (mkSession 7%nat 0 0, 30), s') /\
    V3Codec.max_size (codec s') = 1000 /\ nw_sent (io s') = [32; 2; 1; 0].
Proof.
  eexists. split; [vm_compute; reflexivity | ].
  edestruct (@v3_handshake_answer (NetRuntime Ack) SimNet SimNetLaws nat unit demo_server demo_service demo_world Codec_new
               (ok (mkSession 7%nat 0 0, 30))) as (n & c & w1 & Hn & _ & _ & H);
    [exact demo_uses_sink3 | exact demo_made | vm_compute; reflexivity | ].
  vm_compute in Hn. injection Hn as <- <- <-. cbv zeta in H. destruct H as (a & s2 & Hr & H).
  vm_compute in Hr. injection Hr as <- <-. destruct H as (Hm & _ & _). split; [exact Hm | ]. vm_compute. reflexivity.
Defined.

Definition demo_new {St} (x : Session St) : DM (result Z (MqttError unit)) := mret (ok (se_max_receive x)).
Definition demo_variants : list (@Variant (NetRuntime Ack) nat unit Z) :=
  [mkVariant MqttServer_new (fun c => negb (has_remaining (client_id c))) demo_service demo_new;
   mkVariant demo_server (fun _ => true) demo_service demo_new].

Lemma v3_selector_first_witness :
  exists s', @SelectorService_call (NetRuntime Ack) SimNet unit Z 1000 0
               (@variant_call (NetRuntime Ack) SimNet nat unit Z <$> demo_variants) demo_start =
             Some (ok (mkConnection 0 30 3000), s').
Proof.
  eexists. etransitivity.
  - exact (@v3_selector_first (NetRuntime Ack) SimNet SimNetLaws nat unit Z demo_variants 1000 demo_start sample_connect _ _
             ltac:(repeat constructor; intros; apply demo_uses_sink3)
             ltac:(vm_compute; reflexivity) eq_refl eq_refl).
  - vm_compute. reflexivity.
Defined.
