(* ===== verification/V5Server.v ===== *)
(** * The server of MQTT 5 (src/v5/handshake.rs, src/v5/server.rs, src/v5/selector.rs)

    A server reads CONNECT, asks the application's connect service, and
    answers with CONNACK.  The limits it announces there are the ones the
    dispatcher and the decoder enforce; the ones CONNECT announces bound what
    the sink and the encoder send.  A selector holds several servers and gives
    the connection to the first one whose check accepts CONNECT. *)

From stdpp Require Import base gmap list strings relations.
From S2P Require Import Prelude Types Wire Framing V5Props V5ConnAck V5Connect V5Codec Sink V5Sink Net Service.
Open Scope Z_scope.
Open Scope net_scope.

(** ** Handshakes *)

(** [Handshake]; the connection and the shared state are in the monad *)
Record Handshake : Type := mkHandshake {
  h_pkt : Connect;
  h_max_size : Z;
  h_max_receive : Z;
  h_max_topic_alias : Z;
}.

Record HandshakeAck (St : Type) : Type := mkHandshakeAck {
  a_session : option St;
  a_packet : ConnectAck;
  a_keepalive : Z;
  a_lw : Z;
  a_read_hw : Z;
  a_write_hw : Z;
}.
Arguments mkHandshakeAck {St}.
Arguments a_session {St}.
Arguments a_packet {St}.
Arguments a_keepalive {St}.
Arguments a_lw {St}.
Arguments a_read_hw {St}.
Arguments a_write_hw {St}.

(** [Handshake::ack] *)
Definition Handshake_ack {St} (h : Handshake) (st : St) : HandshakeAck St :=
  let packet := { ConnectAck_default with ca_reason_code := CR_Success; ca_topic_alias_max := h_max_topic_alias h } in
  let packet := if negb (h_max_size h =? 0)
                then { packet with ca_max_packet_size := Some (h_max_size h) } else packet in
  let packet := if negb (h_max_receive h =? 0)
                then { packet with ca_receive_max := non_zero (h_max_receive h) } else packet in
  mkHandshakeAck (Some st) packet 30 256 (4 * 1024) (4 * 1024).

(** [Handshake::failed], [Handshake::fail_with] *)
Definition Handshake_fail_with {St} (h : Handshake) (ack : ConnectAck) : HandshakeAck St :=
  mkHandshakeAck None ack 30 256 (4 * 1024) (4 * 1024).
Definition Handshake_failed {St} (h : Handshake) (reason_code : ConnectAckReason) : HandshakeAck St :=
  Handshake_fail_with h ({ ConnectAck_default with ca_reason_code := reason_code }).

(** [HandshakeAck::keep_alive] (panics on 0), [buffer_params], [low_watermark],
    [read_high_watermark], [write_high_watermark], [with] *)
Definition keep_alive {St} (timeout : Z) (a : HandshakeAck St) : option (HandshakeAck St) :=
  if timeout =? 0 then None
  else Some (mkHandshakeAck (a_session a) (a_packet a) timeout (a_lw a) (a_read_hw a) (a_write_hw a)).
Definition buffer_params {St} (max_read_buf max_write_buf min_buf_size : Z) (a : HandshakeAck St) : HandshakeAck St :=
  mkHandshakeAck (a_session a) (a_packet a) (a_keepalive a) min_buf_size max_read_buf max_write_buf.
Definition low_watermark {St} (lw : Z) (a : HandshakeAck St) : HandshakeAck St :=
  mkHandshakeAck (a_session a) (a_packet a) (a_keepalive a) lw (a_read_hw a) (a_write_hw a).
Definition read_high_watermark {St} (hw : Z) (a : HandshakeAck St) : HandshakeAck St :=
  mkHandshakeAck (a_session a) (a_packet a) (a_keepalive a) (a_lw a) hw (a_write_hw a).
Definition write_high_watermark {St} (hw : Z) (a : HandshakeAck St) : HandshakeAck St :=
  mkHandshakeAck (a_session a) (a_packet a) (a_keepalive a) (a_lw a) (a_read_hw a) hw.
Definition ack_with {St} (f : ConnectAck -> ConnectAck) (a : HandshakeAck St) : HandshakeAck St :=
  mkHandshakeAck (a_session a) (f (a_packet a)) (a_keepalive a) (a_lw a) (a_read_hw a) (a_write_hw a).

(** ** The configuration of a server *)
Record MqttServer : Type := mkServer {
  ms_max_size : Z;
  ms_max_receive : Z;
  ms_max_qos : option QoS;
  ms_handshake_timeout : Z;
  ms_disconnect_timeout : Z;
  ms_max_topic_alias : Z;
}.

(** [MqttServer::new] and the setters *)
Definition MqttServer_new : MqttServer := mkServer 0 15 None 0 3000 32.
Definition handshake_timeout (timeout : Z) (s : MqttServer) : MqttServer :=
  { s with ms_handshake_timeout := timeout }.
Definition disconnect_timeout (val : Z) (s : MqttServer) : MqttServer :=
  { s with ms_disconnect_timeout := val }.
Definition max_size (size : Z) (s : MqttServer) : MqttServer := { s with ms_max_size := size }.
Definition receive_max (val : Z) (s : MqttServer) : MqttServer := { s with ms_max_receive := val }.
Definition max_topic_alias (val : Z) (s : MqttServer) : MqttServer := { s with ms_max_topic_alias := val }.
Definition max_qos (qos : QoS) (s : MqttServer) : MqttServer := { s with ms_max_qos := Some qos }.

Section Server.
Context `{R : Runtime Ack} {N : Net Ack Codec Packet}.
Abbreviation Shared := (@MqttShared Ack R Codec).
Abbreviation M := (@M Ack R Codec).

Section Handshake.
Context {St E : Type}.
Abbreviation MError := (MqttError E).

(** "read first packet" *)
Definition read_first : M (result Packet MError) :=
  r ← next_packet codec_decode;
  mret (match r with
        | err e => err (from_next e)
        | ok None => err MDisconnected
        | ok (Some p) => ok p
        end).

Definition unexpected (p : Packet) : MError :=
  MProtocol (PUnexpected (packet_type p) "MQTT-3.1.0-1: Expected CONNECT packet").

(** The limits of CONNECT: what the encoder may send, and how many publishes
    may wait for their acknowledgement *)
Definition peer_limits (connect : Connect) : M unit :=
  _ ← (match co_max_packet_size connect with
       | Some size => upd_codec (fun c => set_max_outbound_size c size)
       | None => mret tt
       end);
  upd_cap (match co_receive_max connect with Some v => v | None => 16 end).

(** CONNACK as it is sent *)
Definition final_packet (qos : option QoS) (ka : Z) (ack : HandshakeAck St) : ConnectAck :=
  let p := a_packet ack in
  let p := match ca_max_qos p with None => { p with ca_max_qos := qos } | Some _ => p end in
  match ca_server_keepalive_sec p with
  | None => if a_keepalive ack <? ka then { p with ca_server_keepalive_sec := Some (a_keepalive ack) } else p
  | Some _ => p
  end.

(** What follows the answer of the connect service: [qos] is the setting of
    the server, [ka] the keep-alive of CONNECT. *)
Definition finish_handshake (qos : option QoS) (ka : Z) (ack : HandshakeAck St) : M (result (Session St * Z) MError) :=
  let packet := final_packet qos ka ack in
  match a_session ack with
  | Some session =>
      _ ← (match ca_max_packet_size packet with
           | Some size => upd_codec (fun c => set_max_inbound_size c size)
           | None => mret tt
           end);
      _ ← upd_io (set_buffer_params (a_read_hw ack) (a_write_hw ack) (a_lw ack));
      c ← gets codec;
      r ← send_packet (codec_encode c (Pkt_ConnectAck packet));
      match r with
      | err e => mret (err (from_send e))
      | ok _ =>
          mret (ok (Session_new_v5 session
                      (match ca_receive_max packet with Some num => num | None => 0 end)
                      (ca_topic_alias_max packet), a_keepalive ack))
      end
  | None =>
      op ← sink_open;
      _ ← (if (op : bool) then
             r ← encode_item (Pkt_ConnectAck (a_packet ack));
             match r with ok _ => upd_io shutdown_write | err _ => mret tt end
           else mret tt);
      mret (err MDisconnected)
  end.

(** [handshake], on the shared state of [MqttShared::new(state, Codec::default(), 0, pool)] *)
Definition handshake (srv : MqttServer) (service : Handshake -> M (result (HandshakeAck St) E))
  : M (result (Session St * Z) MError) :=
  _ ← upd_codec (fun c => set_max_inbound_size c (ms_max_size srv));
  packet ←? read_first;
  match packet with
  | Pkt_Connect connect =>
      _ ← peer_limits connect;
      r ← service (mkHandshake connect (ms_max_size srv) (ms_max_receive srv) (ms_max_topic_alias srv));
      ack ←? mret (map_err MService r);
      finish_handshake (ms_max_qos srv) (co_keep_alive connect) ack
  | p => mret (err (unexpected p))
  end.

(** [MqttServer::finish] and [inner_finish] with [handshake_service_factory]
    and [handshake_service_factory2] *)
Context {Hd : Type}.
Definition finish (srv : MqttServer) (service : Handshake -> M (result (HandshakeAck St) E))
  (new_service : Session St -> M (result Hd MError)) : M (result (Connection Hd) MError) :=
  FramedServiceImpl_call (with_timeout (ms_handshake_timeout srv) (handshake srv service))
    new_service (ms_disconnect_timeout srv).

Definition inner_finish (srv : MqttServer) (service : Handshake -> M (result (HandshakeAck St) E))
  (new_service : Session St -> M (result Hd MError)) (delay : bool) : M (result (option (Connection Hd)) MError) :=
  FramedServiceImpl2_call (with_timeout (ms_handshake_timeout srv) (handshake srv service))
    new_service (ms_disconnect_timeout srv) delay.

(** ** Selectors *)

(** [ServerSelectorImpl::call]: [inl] gives CONNECT back *)
Definition ServerSelectorImpl_call (srv : MqttServer) (check : Handshake -> M (result bool E))
  (service : Handshake -> M (result (HandshakeAck St) E)) (new_service : Session St -> M (result Hd MError))
  (hnd : Handshake) (delay : bool) : M (result (Handshake + Connection Hd) MError) :=
  result ←? timed delay (check hnd);
  if negb result then mret (ok (inl hnd))
  else
    _ ← peer_limits (h_pkt hnd);
    ack ←? timed delay (service (mkHandshake (h_pkt hnd) (ms_max_size srv) (ms_max_receive srv) (ms_max_topic_alias srv)));
    x ←? finish_handshake (ms_max_qos srv) (co_keep_alive (h_pkt hnd)) ack;
    h ←? new_service x.1;
    mret (ok (inr (mkConnection h x.2 (ms_disconnect_timeout srv)))).

End Handshake.

Section Selector.
Context {E Hd : Type}.
Abbreviation MError := (MqttError E).
Abbreviation Variant := (Handshake -> bool -> M (result (Handshake + Connection Hd) MError)).

(** [SelectorService2::call], on the shared state of
    [MqttShared::new(state, Codec::default().max_inbound_size(max_size), 0, pool)] *)
Definition SelectorService2_call (max_size : Z) (servers : list Variant) (delay : bool)
  : M (result (Connection Hd) MError) :=
  _ ← upd_codec (fun c => set_max_inbound_size c max_size);
  packet ←? read_first;
  match packet with
  | Pkt_Connect connect => call_servers servers (mkHandshake connect 0 0 0) delay
  | p => mret (err (unexpected p))
  end.

(** [SelectorService::call] *)
Definition SelectorService_call (max_size handshake_timeout : Z) (servers : list Variant) : M (result (Connection Hd) MError) :=
  SelectorService2_call max_size servers (0 <? handshake_timeout).

End Selector.

(** ** The limits of a connection *)

Section Limits.
Context {NL : NetLaws Ack Codec Packet} {St E : Type}.
Abbreviation MError := (MqttError E).

(** Limits of the codec: no decoder changes them. *)
Definition limits (c : Codec) : Z * Z := (max_in_size c, max_out_size c).

Lemma decode_limits c b : limits (codec_decode c b).1.2 = limits c.
Proof.
  unfold codec_decode. destruct (frame_decode _ _ _ _) as [[r st] src]. cbn.
  by destruct r as [[[]|]|e|].
Qed.

Lemma next_limits c w r c' w' : next codec_decode c w = (r, c', w') -> limits c' = limits c.
Proof.
  intros En. pose proof (next_keeps (fun c0 => limits c0 = limits c) codec_decode c w) as Hk.
  rewrite En in Hk. apply Hk; [ | done]. intros c0 b0. by rewrite decode_limits.
Qed.

Lemma read_first_ok s (p : Packet) s' :
  read_first (E := E) s = Some (ok p, s') ->
  exists c w, next codec_decode (codec s) (io s) = (ok (Some p), c, w) /\
    s' = set_io w (set_codec c s) /\ limits c = limits (codec s).
Proof.
  unfold read_first. intros (r & s1 & H1 & [Hr <-]%ret_Some)%bind_Some.
  unfold next_packet in H1. destruct (next codec_decode (codec s) (io s)) as [[n c] w] eqn:En.
  injection H1 as <- <-. destruct n as [[q|]|e]; try done. injection Hr as <-.
  exists c, w. split; [done | ]. split; [done | ]. by eapply next_limits.
Qed.

Lemma peer_limits_Some connect s u s' :
  peer_limits connect s = Some (u, s') ->
  cap s' = (match co_receive_max connect with Some v => v | None => 16 end) /\
  max_in_size (codec s') = max_in_size (codec s) /\
  max_out_size (codec s') = (match co_max_packet_size connect with
                             | Some n => n | None => max_out_size (codec s) end).
Proof.
  unfold peer_limits. intros (v & s1 & H1 & [= _ <-])%bind_Some.
  destruct (co_max_packet_size connect); [injection H1 as _ <- | apply ret_Some in H1 as [_ <-]]; done.
Qed.

Lemma final_keepalive qos ka (ack : HandshakeAck St) :
  ca_server_keepalive_sec (final_packet qos ka ack) =
    match ca_server_keepalive_sec (a_packet ack) with
    | Some k => Some k
    | None => if a_keepalive ack <? ka then Some (a_keepalive ack) else None
    end.
Proof.
  destruct ack as [ses p k lw r w], p as [? ? ? ? mq ? ? ? ? ? ? ? ? ? sk ? ? ? ?]. unfold final_packet. cbn.
  destruct mq, sk; cbn; try done; by destruct (k <? ka).
Qed.

(** An accepted handshake: what was sent and what is enforced *)
Lemma finish_handshake_ok qos ka (ack : HandshakeAck St) s (sess : Session St) k s' :
  finish_handshake (E := E) qos ka ack s = Some (ok (sess, k), s') ->
  let p := final_packet qos ka ack in
  k = a_keepalive ack /\ cap s' = cap s /\ max_out_size (codec s') = max_out_size (codec s) /\
  max_in_size (codec s') = (match ca_max_packet_size p with Some n => n | None => max_in_size (codec s) end) /\
  se_max_receive sess = (match ca_receive_max p with Some n => n | None => 0 end) /\
  se_max_topic_alias sess = ca_topic_alias_max p /\
  exists w b, codec_encode (codec s') (Pkt_ConnectAck p) (wbuf w) = (Ok tt, b) /\ sent (io s') = sent w ++ b.
Proof.
  unfold finish_handshake. cbv zeta. destruct (a_session ack) as [st|].
  2: { intros (op & s1 & H1 & (u & s2 & _ & [? _]%ret_Some)%bind_Some)%bind_Some. done. }
  intros (u & s1 & H1 & (u2 & s2 & [_ ->]%upd_io_Some & (c & s3 & [= <- <-] & H4)%bind_Some)%bind_Some)%bind_Some.
  apply bind_Some in H4 as (r & s4 & H4 & H5). unfold send_packet in H4.
  destruct (send_item _ _) as [[r' w']|] eqn:Es; [ | done]. injection H4 as -> <-.
  destruct r as [[]|e]; [ | by apply ret_Some in H5 as [? _]].
  apply ret_Some in H5 as [[= <- <-] <-]. apply send_ok in Es as (He & Hs & _).
  assert (Hc : cap s1 = cap s /\ max_out_size (codec s1) = max_out_size (codec s) /\
    max_in_size (codec s1) = match ca_max_packet_size (final_packet qos ka ack) with
                             | Some n => n | None => max_in_size (codec s) end).
  { destruct (ca_max_packet_size _); [injection H1 as _ <- | apply ret_Some in H1 as [_ <-]]; done. }
  destruct Hc as (Hc1 & Hc2 & Hc3). cbn [codec set_io cap io] in *.
  split; [done | ]. split; [done | ]. split; [done | ]. split; [done | ]. split; [done | ]. split; [done | ].
  eexists _, _. split; [ | exact Hs]. by apply injective_projections.
Qed.

(** The enforced limits are the announced ones; [max_in] is what the decoder
    is set to before. *)
Record agreed (max_in : Z) (connect : Connect) (p : ConnectAck) (sess : Session St) (s : Shared) : Prop := {
  ag_receive : se_max_receive sess = match ca_receive_max p with Some n => n | None => 0 end;
  ag_alias : se_max_topic_alias sess = ca_topic_alias_max p;
  ag_inbound : max_in_size (codec s) = match ca_max_packet_size p with Some n => n | None => max_in end;
  ag_outbound : max_out_size (codec s) = match co_max_packet_size connect with Some n => n | None => 0 end;
  ag_credit : cap s = match co_receive_max connect with Some n => n | None => 16 end;
  ag_sent : exists w b, codec_encode (codec s) (Pkt_ConnectAck p) (wbuf w) = (Ok tt, b) /\
                        sent (io s) = sent w ++ b;
}.

Lemma steps_settings s s' : rtc step s s' -> settings s' = settings s.
Proof. induction 1 as [|s1 s2 s3 H1%step_settings _ IH]; congruence. Qed.

(** The connect service uses the sink only. *)
Definition uses_sink {B} (m : M B) : Prop := forall s r s', m s = Some (r, s') -> rtc step s s'.

Lemma serve_agreed max_in connect qos ka (m : M (result (HandshakeAck St) E)) s s1 ack s2 sess k s' :
  peer_limits connect s = Some (tt, s1) -> limits (codec s) = (max_in, 0) ->
  uses_sink m -> m s1 = Some (ok ack, s2) ->
  finish_handshake (E := E) qos ka ack s2 = Some (ok (sess, k), s') ->
  k = a_keepalive ack /\ agreed max_in connect (final_packet qos ka ack) sess s'.
Proof.
  intros (Hc & Hi & Ho)%peer_limits_Some [= Hin Hout] Hm H2%Hm%steps_settings.
  intros (Hk & Hf1 & Hf2 & Hf3 & Hf4 & Hf5 & Hf6)%finish_handshake_ok.
  injection H2 as H2c H2k. rewrite H2k, Hi, Ho, Hin, Hout in *. split; [done | ]. constructor; congruence.
Qed.

(** A connection that the server accepts *)
Lemma handshake_agreed srv (service : Handshake -> M (result (HandshakeAck St) E)) w sess ka s' :
  (forall h, uses_sink (service h)) ->
  handshake srv service (MqttShared_new w Codec_new 0) = Some (ok (sess, ka), s') ->
  exists connect ack c w1 s1 s2,
    next codec_decode (set_max_inbound_size Codec_new (ms_max_size srv)) w = (ok (Some (Pkt_Connect connect)), c, w1) /\
    service (mkHandshake connect (ms_max_size srv) (ms_max_receive srv) (ms_max_topic_alias srv)) s1 = Some (ok ack, s2) /\
    agreed (ms_max_size srv) connect (final_packet (ms_max_qos srv) (co_keep_alive connect) ack) sess s' /\
    ka = a_keepalive ack.
Proof.
  intros Hs (u & s0 & [= _ <-] & H)%bind_Some.
  apply and_then_ok in H as (p & s1 & (c & w1 & Hn & -> & Hl)%read_first_ok & H).
  destruct p as [connect| | | | | | | | | | | | | | ]; try by apply ret_Some in H as [? _].
  apply bind_Some in H as ([] & s2 & Hp & (r & s3 & Hr & H)%bind_Some).
  apply and_then_ok in H as (ack & s4 & [Ha <-]%ret_Some & H).
  destruct r as [ack'|e]; [injection Ha as -> | done].
  exists connect, ack, c, w1, s2, s3. split; [exact Hn | ].
  destruct (serve_agreed (ms_max_size srv) _ _ _ _ _ _ _ _ _ _ _ Hp Hl (Hs _) Hr H) as [Hk Hag].
  done.
Qed.

(** C16: where the settings of a connection come from that an MQTT 5 server
    accepts.  [connect] was read, and the CONNACK [p] was encoded and sent.  The
    receive maximum and the topic aliases of the session are those of [p] (0 if
    it has no receive maximum, which means no limit), the decoder's limit is the
    size of [p], or the configured one if [p] announces none; the encoder's limit
    is the size of [connect] (0, no limit, if it has none), and the credit of the
    sink its receive maximum (16 if it has none).  The timeout of the connection
    is the keep-alive of the service, and [p] announces the server keep-alive that
    the service has put there, or that timeout if the client's is longer, or none:
    a client with keep-alive 0 is not told of the timeout. *)
Theorem v5_handshake_limits srv (service : Handshake -> M (result (HandshakeAck St) E)) w sess ka s' :
  (forall h, uses_sink (service h)) ->
  handshake srv service (MqttShared_new w Codec_new 0) = Some (ok (sess, ka), s') ->
  exists connect ack c w1 s1 s2,
    next codec_decode (set_max_inbound_size Codec_new (ms_max_size srv)) w = (ok (Some (Pkt_Connect connect)), c, w1) /\
    service (mkHandshake connect (ms_max_size srv) (ms_max_receive srv) (ms_max_topic_alias srv)) s1 = Some (ok ack, s2) /\
    agreed (ms_max_size srv) connect (final_packet (ms_max_qos srv) (co_keep_alive connect) ack) sess s' /\
    ka = a_keepalive ack /\
    ca_server_keepalive_sec (final_packet (ms_max_qos srv) (co_keep_alive connect) ack) =
      match ca_server_keepalive_sec (a_packet ack) with
      | Some k => Some k
      | None => if ka <? co_keep_alive connect then Some ka else None
      end.
Proof.
  intros Hs Hh. destruct (handshake_agreed _ _ _ _ _ _ Hs Hh) as (connect & ack & c & w1 & s1 & s2 & Hn & Hr & Hag & ->).
  exists connect, ack, c, w1, s1, s2. do 4 (split; [done | ]). apply final_keepalive.
Qed.

End Limits.

(** ** Which server gets a connection *)

Section First.
Context {St E Hd : Type}.
Abbreviation MError := (MqttError E).

(** A variant with a check that looks at CONNECT only *)
Record Variant : Type := mkVariant {
  v_server : MqttServer;
  v_accepts : Connect -> bool;
  v_service : Handshake -> M (result (HandshakeAck St) E);
  v_new : Session St -> M (result Hd MError);
}.

Definition variant_call (v : Variant) : Handshake -> bool -> M (result (Handshake + Connection Hd) MError) :=
  ServerSelectorImpl_call (v_server v) (fun h => mret (ok (v_accepts v (h_pkt h)))) (v_service v) (v_new v).

(** A server from CONNECT on *)
Definition serve (v : Variant) (connect : Connect) : M (result (Connection Hd) MError) :=
  _ ← peer_limits connect;
  r ← v_service v (mkHandshake connect (ms_max_size (v_server v)) (ms_max_receive (v_server v))
                     (ms_max_topic_alias (v_server v)));
  ack ←? mret (map_err MService r);
  x ←? finish_handshake (ms_max_qos (v_server v)) (co_keep_alive connect) ack;
  h ←? v_new v x.1;
  mret (ok (mkConnection h x.2 (ms_disconnect_timeout (v_server v)))).

Lemma call_servers_first vs connect s :
  call_servers (variant_call <$> vs) (mkHandshake connect 0 0 0) false s =
    match List.find (fun v => v_accepts v connect) vs with
    | Some v => serve v connect s
    | None => Some (err (MServerError "Cannot handle CONNECT packet"), s)
    end.
Proof.
  induction vs as [|v vs IH]; [done | ]. cbn [fmap list_fmap List.find call_servers].
  unfold and_then at 1, mbind at 1, M_bind at 1. unfold variant_call, ServerSelectorImpl_call at 1.
  destruct (v_accepts v connect) eqn:Ev.
  - clear IH. unfold serve, timed, select, and_then, mbind, M_bind, mret, M_ret. cbn. rewrite Ev. cbn.
    run_all; done.
  - unfold timed, select, and_then, mbind, M_bind, mret, M_ret. cbn. rewrite Ev. cbn. exact IH.
Qed.

Lemma finish_serve v s connect k w :
  next codec_decode (set_max_inbound_size (codec s) (ms_max_size (v_server v))) (io s) = (ok (Some (Pkt_Connect connect)), k, w) ->
  ms_handshake_timeout (v_server v) = 0 ->
  finish (v_server v) (v_service v) (v_new v) s =
    serve v connect (set_io w (set_codec k (set_codec (set_max_inbound_size (codec s) (ms_max_size (v_server v))) s))).
Proof.
  intros Hn Ht. unfold finish, FramedServiceImpl_call, connect_handler, with_timeout, handshake, serve. rewrite Ht. cbn [Z.ltb Z.compare].
  unfold select, read_first, next_packet, upd_codec, and_then, mbind, M_bind, mret, M_ret. cbn -[set_max_inbound_size]. rewrite Hn. cbn -[set_max_inbound_size].
  run_all; done.
Qed.

(** A selector without a timeout gives the connection to the first
    server, in the order they were added, whose check accepts CONNECT, and
    the connection goes on exactly as if that server had been used alone
    (when both have the same limit for the size of CONNECT); without such a
    server it ends with an error. *)
Theorem v5_selector_first vs max_size s connect k w :
  next codec_decode (set_max_inbound_size (codec s) max_size) (io s) = (ok (Some (Pkt_Connect connect)), k, w) ->
  match List.find (fun v => v_accepts v connect) vs with
  | Some v =>
      ms_max_size (v_server v) = max_size -> ms_handshake_timeout (v_server v) = 0 ->
      SelectorService_call max_size 0 (variant_call <$> vs) s = finish (v_server v) (v_service v) (v_new v) s
  | None =>
      exists s', SelectorService_call max_size 0 (variant_call <$> vs) s =
                 Some (err (MServerError "Cannot handle CONNECT packet"), s')
  end.
Proof.
  intros Hn.
  assert (Hc : SelectorService_call max_size 0 (variant_call <$> vs) s =
    call_servers (variant_call <$> vs) (mkHandshake connect 0 0 0) false
      (set_io w (set_codec k (set_codec (set_max_inbound_size (codec s) max_size) s)))).
  { unfold SelectorService_call, SelectorService2_call, read_first, next_packet, upd_codec, and_then, mbind, M_bind, mret, M_ret.
    cbn -[set_max_inbound_size]. by rewrite Hn. }
  rewrite Hc, call_servers_first. destruct (List.find _ vs) as [v|]; [ | by eexists].
  intros <- Ht. symmetry. by apply finish_serve.
Qed.

(** With a selector the decoder of the connection keeps the limit of the
    selector, not the one of the server it chose, unless the connect service
    announces another one: with a server that has no limit of its own,
    clients are held to a limit that no CONNACK tells them. *)
Theorem v5_selector_limits {NL : NetLaws Ack Codec Packet} vs max_size w conn s' :
  Forall (fun v => (forall h, uses_sink (v_service v h)) /\ (forall x, uses_sink (v_new v x))) vs ->
  SelectorService_call max_size 0 (variant_call <$> vs) (MqttShared_new w Codec_new 0) = Some (ok conn, s') ->
  exists v connect s1 ack s2, v ∈ vs /\
    v_service v (mkHandshake connect (ms_max_size (v_server v)) (ms_max_receive (v_server v))
                   (ms_max_topic_alias (v_server v))) s1 = Some (ok ack, s2) /\
    max_in_size (codec s') = match ca_max_packet_size (a_packet ack) with Some n => n | None => max_size end.
Proof.
  intros Hvs (u & s0 & [= _ <-] & H)%bind_Some.
  apply and_then_ok in H as (p & s1 & (c & w1 & _ & -> & Hl)%read_first_ok & H).
  destruct p as [connect| | | | | | | | | | | | | | ]; try by apply ret_Some in H as [? _].
  rewrite call_servers_first in H. destruct (List.find _ vs) as [v|] eqn:Ef; [ | done].
  apply List.find_some in Ef as [Hv%list_elem_of_In _]. rewrite Forall_forall in Hvs.
  destruct (Hvs _ Hv) as [Hs Hnew].
  apply bind_Some in H as ([] & s2 & Hp & (r & s3 & Hr & H)%bind_Some).
  apply and_then_ok in H as (ack & s4 & [Ha <-]%ret_Some & H).
  destruct r as [ack'|e]; [injection Ha as -> | done].
  apply and_then_ok in H as ([sess ka] & s5 & Hf & H).
  apply and_then_ok in H as (h & s6 & H6%Hnew%steps_settings & [_ <-]%ret_Some).
  destruct (serve_agreed max_size _ _ _ _ _ _ _ _ _ _ _ Hp Hl (Hs _) Hr Hf) as [_ Hag].
  eexists _, _, _, _, _. split; [exact Hv | ]. split; [exact Hr | ].
  injection H6 as _ ->. rewrite (ag_inbound _ _ _ _ _ Hag).
  destruct ack as [ses p k lw rh wh], p as [? ? ? ? mq ? ? ? ? ? ? ? ? ? sk ? ? ? ?]. unfold final_packet. cbn.
  destruct mq, sk; cbn; try done; by destruct (_ <? _).
Qed.

End First.
End Server.

(** ** A connection to run *)

Abbreviation DM A := (@M Ack (NetRuntime Ack) Codec A).

(** A client with a keep-alive of 60 seconds that takes 10 publishes and packets of 2000 bytes *)
Definition demo_connect : Connect :=
  { Connect_default with co_client_id := [99]; co_keep_alive := 60; co_receive_max := Some 10;
                         co_max_packet_size := Some 2000 }.
Definition demo_server : MqttServer := max_size 1000 MqttServer_new.
Definition demo_service (h : Handshake) : DM (result (HandshakeAck nat) unit) := mret (ok (Handshake_ack h 7%nat)).
Definition demo_world : @world Ack (NetRuntime Ack) :=
  sim_world (codec_encode Codec_new (Pkt_Connect demo_connect) []).2.
Definition demo_start : @MqttShared Ack (NetRuntime Ack) Codec := MqttShared_new demo_world Codec_new 0.
Definition demo_handshake : DM (result (Session nat * Z) (MqttError unit)) :=
  @handshake (NetRuntime Ack) SimNet nat unit demo_server demo_service.

Definition demo_final : @MqttShared Ack (NetRuntime Ack) Codec :=
  match demo_handshake demo_start with Some (_, s) => s | None => demo_start end.

Lemma demo_uses_sink (h : Handshake) : @uses_sink (NetRuntime Ack) _ (demo_service h).
Proof. intros s r s' H. injection H as _ <-. apply rtc_refl. Qed.

Lemma v5_handshake_limits_witness :
  exists sess ka s', demo_handshake demo_start = Some (ok (sess, ka), s') /\ se_max_receive sess = 15 /\
    cap s' = 10 /\ limits (codec s') = (1000, 2000) /\
    exists connect (ack : HandshakeAck nat), agreed (N := SimNet) 1000 connect (final_packet None (co_keep_alive connect) ack) sess s' /\
      ca_server_keepalive_sec (final_packet None (co_keep_alive connect) ack) = Some 30.
Proof.
  exists (mkSession 7%nat 15 32), 30, demo_final.
  assert (Hh : demo_handshake demo_start = Some (ok (mkSession 7%nat 15 32, 30), demo_final)) by (vm_compute; reflexivity).
  split; [exact Hh | ]. do 3 (split; [vm_compute; reflexivity | ]).
  destruct (@v5_handshake_limits (NetRuntime Ack) SimNet SimNetLaws nat unit demo_server demo_service demo_world _ _ _
              demo_uses_sink Hh) as (connect & ack & c & w1 & s1 & s2 & Hn & Hr & Hag & Hk & Hka).
  exists connect, ack. split; [exact Hag | ]. vm_compute in Hn. injection Hn as <- _ _. injection Hr as <- _.
  vm_compute. reflexivity.
Defined.

(** Two variants: for the clients without an id, and for all *)
Definition demo_new {St} (x : Session St) : DM (result Z (MqttError unit)) := mret (ok (se_max_receive x)).
Definition demo_variants : list (@Variant (NetRuntime Ack) nat unit Z) :=
  [mkVariant MqttServer_new (fun c => negb (has_remaining (co_client_id c))) demo_service demo_new;
   mkVariant demo_server (fun _ => true) demo_service demo_new;
   mkVariant MqttServer_new (fun _ => true) demo_service demo_new].

Lemma v5_selector_first_witness :
  exists s', @SelectorService_call (NetRuntime Ack) SimNet unit Z 1000 0
               (@variant_call (NetRuntime Ack) SimNet nat unit Z <$> demo_variants) demo_start =
             Some (ok (mkConnection 15 30 3000), s').
Proof.
  eexists. etransitivity.
  - exact (@v5_selector_first (NetRuntime Ack) SimNet nat unit Z demo_variants 1000 demo_start demo_connect _ _
             ltac:(vm_compute; reflexivity) eq_refl eq_refl).
  - vm_compute. reflexivity.
Defined.

(** The limit of the selector is 1000; the server has none and announces none. *)
Lemma v5_selector_limits_witness :
  exists s', @SelectorService_call (NetRuntime Ack) SimNet unit Z 1000 0
               (@variant_call (NetRuntime Ack) SimNet nat unit Z <$> [mkVariant MqttServer_new (fun _ => true) demo_service demo_new]) demo_start =
             Some (ok (mkConnection 15 30 3000), s') /\ max_in_size (codec s') = 1000.
Proof.
  eexists. split; [vm_compute; reflexivity | ].
  edestruct (@v5_selector_limits (NetRuntime Ack) SimNet nat unit Z SimNetLaws
               [mkVariant MqttServer_new (fun _ => true) demo_service demo_new] 1000 demo_world (mkConnection 15 30 3000))
    as (v & connect & s1 & ack & s2 & Hv & Hr & ->).
  - repeat constructor; intros; intros s r s' H0; injection H0 as _ <-; apply rtc_refl.
  - vm_compute. reflexivity.
  - apply list_elem_of_singleton in Hv as ->. injection Hr as <- _. vm_compute. reflexivity.
Defined.
