(* ===== verification/V3Connector.v ===== *)
(** * The client of MQTT 3.1.1 (src/v3/client/connector.rs, src/v3/client/connection.rs)

    A connector sends CONNECT and reads CONNACK; the client it makes of them
    starts the dispatcher of [V3Client], alone or behind a router, and a task
    that pings the server. *)

From stdpp Require Import base gmap list strings relations.
From S2P Require Import Prelude Types Wire Framing V3Codec.
From S2P Require Import Sink V3Sink V3Dispatcher V3Client Net Service Router IoDispatcher IoPoll V3Server.
Open Scope Z_scope.
Open Scope net_scope.

(** [ClientError] (src/v3/error.rs); an error of the connector has no structure here *)
Inductive ClientError : Type :=
| CE_Ack (session_present : bool) (return_code : ConnectAckReason)
| CE_Protocol (e : ProtocolError)
| CE_HandshakeTimeout
| CE_Disconnected
| CE_Connect.

(** [From<Either<EncodeError, io::Error>>] *)
Definition ClientError_from (e : EncodeError + IoError) : ClientError :=
  match e with inl e => CE_Protocol (PEncode e) | inr _ => CE_Protocol PIo end.

(** ** Connectors *)
Record MqttConnector : Type := mkConnector {
  k_pkt : Connect;
  k_max_send : Z;
  k_max_receive : Z;
  k_max_packet_size : Z;
  k_handshake_timeout : Z;
  k_disconnect_timeout : Z;
}.

(** [Connect::default], [MqttConnector::new] *)
Definition Connect_default : Connect := mkConnect false 0 None [] None None.
Definition MqttConnector_new : MqttConnector := mkConnector Connect_default 16 16 (64 * 1024) 0 3000.

(** [MqttConnector::packet] and the setters *)
Definition packet (f : Connect -> Connect) (k : MqttConnector) : MqttConnector :=
  mkConnector (f (k_pkt k)) (k_max_send k) (k_max_receive k) (k_max_packet_size k) (k_handshake_timeout k) (k_disconnect_timeout k).
Definition set_client_id (id : ByteString) : MqttConnector -> MqttConnector :=
  packet (fun p => mkConnect (clean_session p) (keep_alive p) (last_will p) id (username p) (password p)).
Definition set_clean_session : MqttConnector -> MqttConnector :=
  packet (fun p => mkConnect true (keep_alive p) (last_will p) (client_id p) (username p) (password p)).
Definition set_keep_alive (val : Z) : MqttConnector -> MqttConnector :=
  packet (fun p => mkConnect (clean_session p) val (last_will p) (client_id p) (username p) (password p)).
Definition set_last_will (val : LastWill) : MqttConnector -> MqttConnector :=
  packet (fun p => mkConnect (clean_session p) (keep_alive p) (Some val) (client_id p) (username p) (password p)).
Definition set_username (val : ByteString) : MqttConnector -> MqttConnector :=
  packet (fun p => mkConnect (clean_session p) (keep_alive p) (last_will p) (client_id p) (Some val) (password p)).
Definition set_password (val : Bytes) : MqttConnector -> MqttConnector :=
  packet (fun p => mkConnect (clean_session p) (keep_alive p) (last_will p) (client_id p) (username p) (Some val)).
Definition max_send (val : Z) (k : MqttConnector) : MqttConnector :=
  mkConnector (k_pkt k) val (k_max_receive k) (k_max_packet_size k) (k_handshake_timeout k) (k_disconnect_timeout k).
Definition max_receive (val : Z) (k : MqttConnector) : MqttConnector :=
  mkConnector (k_pkt k) (k_max_send k) val (k_max_packet_size k) (k_handshake_timeout k) (k_disconnect_timeout k).
Definition max_packet_size (val : Z) (k : MqttConnector) : MqttConnector :=
  mkConnector (k_pkt k) (k_max_send k) (k_max_receive k) val (k_handshake_timeout k) (k_disconnect_timeout k).
Definition set_handshake_timeout (timeout : Z) (k : MqttConnector) : MqttConnector :=
  mkConnector (k_pkt k) (k_max_send k) (k_max_receive k) (k_max_packet_size k) timeout (k_disconnect_timeout k).
Definition set_disconnect_timeout (timeout : Z) (k : MqttConnector) : MqttConnector :=
  mkConnector (k_pkt k) (k_max_send k) (k_max_receive k) (k_max_packet_size k) (k_handshake_timeout k) timeout.

(** [Client], beside the connection and the shared state *)
Record Client : Type := mkClient {
  cl_session_present : bool;
  cl_keepalive : Z;
  cl_disconnect_timeout : Z;
  cl_max_receive : Z;
}.

Section Connector.
Context `{R : Runtime Ack} {N : Net Ack Codec Packet}.
Abbreviation Shared := (@MqttShared Ack R Codec).
Abbreviation M := (@M Ack R Codec).

(** [MqttConnector::_connect]; [dial] is what the connector gives.  The
    credit of the shared state is set when it is made, after CONNACK. *)
Definition _connect (k : MqttConnector) (dial : bool) : M (result Client ClientError) :=
  if negb dial then mret (err CE_Connect)
  else
    _ ← upd_codec (fun c => set_max_size c (k_max_packet_size k));
    r ← send_packet (codec_encode (PConnect (k_pkt k)));
    match r with
    | err e => mret (err (ClientError_from e))
    | ok _ =>
        r ← next_packet codec_decode;
        match r with
        | err e => mret (err (CE_Protocol (protocol_from_next e)))
        | ok None => mret (err CE_Disconnected)
        | ok (Some p) =>
            _ ← upd_cap (k_max_send k);
            match p with
            | PConnectAck session_present ConnectionAccepted =>
                mret (ok (mkClient session_present (keep_alive (k_pkt k)) (k_disconnect_timeout k) (k_max_receive k)))
            | PConnectAck session_present return_code => mret (err (CE_Ack session_present return_code))
            | p => mret (err (CE_Protocol (PUnexpected (packet_type p) "Expected CONNECT-ACK packet")))
            end
        end
    end.

(** [MqttConnector::connect] *)
Definition connect (k : MqttConnector) (dial : bool) : M (result Client ClientError) :=
  r ← select (0 <? k_handshake_timeout k) (_connect k dial);
  mret (match r with Some r => r | None => err CE_HandshakeTimeout end).

(** ** Running a client *)

(** What [start] and [start_default] of [Client] and [ClientRouter] start:
    the dispatcher with its limit on publishes, the period of the keep-alive
    task if it is spawned, and the timeouts of the io dispatcher *)
Record Started : Type := mkStarted {
  st_dispatcher : V3Dispatcher.Dispatcher;
  st_inflight : Z;
  st_keepalive_task : option Z;
  st_keepalive_timeout : Z;
  st_disconnect_timeout : Z;
}.

Definition start (cl : Client) (s : Shared) : Started :=
  mkStarted (V3Dispatcher.Dispatcher_new s) (cl_max_receive cl)
    (if 0 <? cl_keepalive cl then Some (cl_keepalive cl) else None) 0 (cl_disconnect_timeout cl).

(** The services of [start_default]: a publish goes to the control service,
    which disconnects. *)
Definition default_publish (pkt : Publish) : result (unit + Publish) unit := ok (inr pkt).
Definition default_control (msg : ControlMessage) : result ControlResult (MqttError unit) :=
  ok (V3Client.disconnect msg).

(** What is put before the dispatcher of a client *)
Definition client_item {E} (req : DispatchItem Packet DecodeError EncodeError IoError)
  : Packet + result (option Packet) (MqttError E) := dispatch_item req.

(** The task [keepalive], for [n] periods: [false] when it has ended *)
Fixpoint keepalive (n : nat) : M bool :=
  match n with
  | O => mret true
  | S n => pinged ← ping; if negb pinged then mret false else keepalive n
  end.

(** ** Routing clients *)
Section ClientRouter.
Context `{TR : TopicRouter} {H Err PErr : Type} (into : PErr -> Err).

Record ClientRouter : Type := mkClientRouter {
  rt_builder : list (Pattern * nat);
  rt_handlers : list H;
  rt_keepalive : Z;
  rt_disconnect_timeout : Z;
  rt_max_receive : Z;
}.

(** [Client::resource], [ClientRouter::resource] *)
Definition Client_resource (address : Pattern) (service : H) (cl : Client) : ClientRouter :=
  mkClientRouter [(address, 0%nat)] [service] (cl_keepalive cl) (cl_disconnect_timeout cl) (cl_max_receive cl).
Definition ClientRouter_resource (address : Pattern) (service : H) (c : ClientRouter) : ClientRouter :=
  mkClientRouter (rt_builder c ++ [(address, length (rt_handlers c))]) (rt_handlers c ++ [service])
    (rt_keepalive c) (rt_disconnect_timeout c) (rt_max_receive c).

(** [ClientRouter::start], [start_default]: the router is built from the
    patterns and the service of the publishes is [dispatch] on it. *)
Definition ClientRouter_start (c : ClientRouter) (s : Shared) : Started * list (Pattern * nat) * list H :=
  (mkStarted (V3Dispatcher.Dispatcher_new s) (rt_max_receive c)
     (if 0 <? rt_keepalive c then Some (rt_keepalive c) else None) 0 (rt_disconnect_timeout c),
   rt_builder c, rt_handlers c).

(** The service [dispatch]: a handler with its request, or the publish back;
    indexing the handlers panics ([None]). *)
Definition dispatch (router : list (Pattern * nat)) (handlers : list H) (req : Request Publish)
  : option (option H * Request Publish) :=
  let (o, topic) := recognize router (rq_topic req) in
  let req := mkRequest (rq_packet req) topic in
  match o with
  | Some idx => match handlers !! idx with Some h => Some (Some h, req) | None => None end
  | None => Some (None, req)
  end.

(** [call]: what becomes of the result of a handler *)
Definition call (r : result unit PErr) : result (unit + Publish) (MqttError Err) :=
  match r with ok _ => ok (inl tt) | err e => err (MService (into e)) end.

End ClientRouter.

(** ** The credit of a client *)

Context {NL : NetLaws Ack Codec Packet}.

(** A connected client has the limits of its connector: packets up to
    [max_packet_size] are accepted and [max_send] publishes may be in flight.
    With [max_send] 0 every publish with QoS 1 waits for an acknowledgement
    that cannot come: 0 does not disable the limit. *)
Theorem v3_client_credit k dial w c0 cl s p :
  _connect k dial (MqttShared_new w c0 0) = Some (ok cl, s) ->
  cap s = k_max_send k /\ V3Codec.max_size (codec s) = k_max_packet_size k /\
  cl_keepalive cl = keep_alive (k_pkt k) /\
  (k_max_send k = 0 -> is_open (io s) = true ->
   exists rx s', send_at_least_once p s = Some (SF_Wait rx (set_qos p AtLeastOnce), s') /\ Sink.inflight (queues s') = ∅).
Proof.
  unfold _connect. destruct dial; [ | by intros [? _]%ret_Some]. cbn [negb].
  intros (u & s1 & [= _ <-] & (r & s3 & H3 & H4)%bind_Some)%bind_Some.
  unfold send_packet in H3. destruct (send_item _ _) as [[r' w']|]; [ | done]. injection H3 as -> <-.
  destruct r as [[]|e]; [ | by apply ret_Some in H4 as [? _]].
  apply bind_Some in H4 as (r & s4 & H4 & H5). unfold next_packet in H4.
  destruct (next _ _ _) as [[n c] w2] eqn:En. injection H4 as -> <-. apply next_limit in En as Hl.
  destruct r as [[pk|]|e]; try by apply ret_Some in H5 as [? _].
  apply bind_Some in H5 as (u6 & s6 & [= _ <-] & H6).
  destruct pk as [|sp []| | | | | | | | | | | | ]; try by apply ret_Some in H6 as [? _].
  apply ret_Some in H6 as [[= <-] <-]. split; [done | ]. split; [exact Hl | ]. split; [done | ].
  intros Hz Ho. apply begin_send_waits; done.
Qed.

End Connector.

(** ** A client to run *)

Definition demo_connector : MqttConnector := max_send 0 (set_keep_alive 60 (set_client_id [99] MqttConnector_new)).
Definition demo_client_world : @world Ack (NetRuntime Ack) := sim_world (frame (PConnectAck true ConnectionAccepted)).

Lemma v3_client_credit_witness :
  exists cl s, @_connect (NetRuntime Ack) SimNet demo_connector true (MqttShared_new demo_client_world Codec_new 0) = Some (ok cl, s) /\
    cap s = 0 /\ V3Codec.max_size (codec s) = 65536 /\
    exists rx s', send_at_least_once hello s = Some (SF_Wait rx (set_qos hello AtLeastOnce), s').
Proof.
  eexists _, _. split; [vm_compute; reflexivity | ].
  edestruct (@v3_client_credit (NetRuntime Ack) SimNet SimNetLaws demo_connector true demo_client_world Codec_new)
    as (Hc & Hm & _ & Hw); [vm_compute; reflexivity | ].
  split; [exact Hc | ]. split; [exact Hm | ]. destruct (Hw eq_refl eq_refl) as (rx & s' & Hp & _).
  exists rx, s'. exact Hp.
Defined.
