(* ===== verification/V5Connector.v ===== *)
(** * The client of MQTT 5 (src/v5/client/connector.rs, src/v5/client/connection.rs)

    A connector sends CONNECT and reads CONNACK; the client it makes of them
    starts the dispatcher of [V5Client], alone or behind a router, and a task
    that pings the server. *)

From stdpp Require Import base gmap list strings relations.
From S2P Require Import Prelude Types Wire Framing V5Props V5ConnAck V5Connect V5PubAcks V5Disconnect V5Publish V5Codec.
From S2P Require Import Sink V5Sink V5Control V5Info V5Client Net Service Router V5Server.
Open Scope Z_scope.
Open Scope net_scope.

(** [ClientError] (src/v5/error.rs); an error of the connector has no structure here *)
Inductive ClientError : Type :=
| CE_Ack (pkt : ConnectAck)
| CE_Protocol (e : ProtocolError)
| CE_HandshakeTimeout
| CE_Disconnected
| CE_Connect.

(** [From<Either<EncodeError, io::Error>>] *)
Definition ClientError_from (e : EncodeError + IoError) : ClientError :=
  match e with inl e => CE_Protocol (PEncode e) | inr _ => CE_Protocol PIo end.

(** ** Connectors *)
Record MqttConnector : Type := mkConnector {
  k_pkt : Connect;
  k_handshake_timeout : Z;
  k_disconnect_timeout : Z;
}.

(** [MqttConnector::new] and the setters *)
Definition MqttConnector_new : MqttConnector := mkConnector Connect_default 0 3000.
Definition packet (f : Connect -> Connect) (k : MqttConnector) : MqttConnector :=
  mkConnector (f (k_pkt k)) (k_handshake_timeout k) (k_disconnect_timeout k).
Definition client_id (id : ByteString) : MqttConnector -> MqttConnector :=
  packet (fun p => { p with co_client_id := id }).
Definition clean_start : MqttConnector -> MqttConnector := packet (fun p => { p with co_clean_start := true }).
Definition keep_alive (val : Z) : MqttConnector -> MqttConnector := packet (fun p => { p with co_keep_alive := val }).
Definition last_will (val : LastWill) : MqttConnector -> MqttConnector :=
  packet (fun p => { p with co_last_will := Some val }).
Definition auth (method : ByteString) (data : Bytes) : MqttConnector -> MqttConnector :=
  packet (fun p => { p with co_auth_method := Some method; co_auth_data := Some data }).
Definition username (val : ByteString) : MqttConnector -> MqttConnector :=
  packet (fun p => { p with co_username := Some val }).
Definition password (val : Bytes) : MqttConnector -> MqttConnector :=
  packet (fun p => { p with co_password := Some val }).
Definition max_packet_size (val : Z) : MqttConnector -> MqttConnector :=
  packet (fun p => { p with co_max_packet_size := non_zero val }).
Definition receive_max (val : Z) : MqttConnector -> MqttConnector :=
  packet (fun p => { p with co_receive_max := non_zero val }).
Definition properties (f : UserProperties -> UserProperties) : MqttConnector -> MqttConnector :=
  packet (fun p => { p with co_user_properties := f (co_user_properties p) }).
Definition handshake_timeout (timeout : Z) (k : MqttConnector) : MqttConnector :=
  mkConnector (k_pkt k) timeout (k_disconnect_timeout k).
Definition disconnect_timeout (timeout : Z) (k : MqttConnector) : MqttConnector :=
  mkConnector (k_pkt k) (k_handshake_timeout k) timeout.

(** [Client], beside the connection and the shared state *)
Record Client : Type := mkClient {
  cl_pkt : ConnectAck;
  cl_max_receive : Z;
  cl_keepalive : Z;
  cl_disconnect_timeout : Z;
}.

Section Connector.
Context `{R : Runtime Ack} {N : Net Ack Codec Packet}.
Abbreviation Shared := (@MqttShared Ack R Codec).
Abbreviation M := (@M Ack R Codec).

Definition unwrap_or_zero (o : option Z) : Z := match o with Some v => v | None => 0 end.

(** What [_connect] makes of CONNACK *)
Definition connected (k : MqttConnector) (pkt : ConnectAck) : M (result Client ClientError) :=
  match ca_reason_code pkt with
  | CR_Success =>
      _ ← (match ca_max_packet_size pkt with
           | Some size => upd_codec (fun c => set_max_outbound_size c size)
           | None => mret tt
           end);
      let ka := match ca_server_keepalive_sec pkt with Some v => v | None => co_keep_alive (k_pkt k) end in
      _ ← upd_cap (unwrap_or_zero (ca_receive_max pkt));
      mret (ok (mkClient pkt (unwrap_or_zero (co_receive_max (k_pkt k))) ka (k_disconnect_timeout k)))
  | _ => mret (err (CE_Ack pkt))
  end.

(** [MqttConnector::_connect]; [dial] is what the connector gives.  The
    shared state of the client starts with the codec and no credit. *)
Definition _connect (k : MqttConnector) (dial : bool) : M (result Client ClientError) :=
  if negb dial then mret (err CE_Connect)
  else
    _ ← upd_codec (fun c => set_max_inbound_size c (unwrap_or_zero (co_max_packet_size (k_pkt k))));
    c ← gets codec;
    r ← send_packet (codec_encode c (Pkt_Connect (k_pkt k)));
    match r with
    | err e => mret (err (ClientError_from e))
    | ok _ =>
        r ← next_packet codec_decode;
        match r with
        | err e => mret (err (CE_Protocol (protocol_from_next e)))
        | ok None => mret (err CE_Disconnected)
        | ok (Some (Pkt_ConnectAck pkt)) => connected k pkt
        | ok (Some p) => mret (err (CE_Protocol (PUnexpected (packet_type p) "Expected CONNECT-ACK packet")))
        end
    end.

(** [MqttConnector::connect] *)
Definition connect (k : MqttConnector) (dial : bool) : M (result Client ClientError) :=
  r ← select (0 <? k_handshake_timeout k) (_connect k dial);
  mret (match r with Some r => r | None => err CE_HandshakeTimeout end).

(** ** Running a client *)

(** What [start] and [start_default] of [Client] and [ClientRouter] start:
    the dispatcher, the period of the keep-alive task if it is spawned, and
    the timeouts of the io dispatcher *)
Record Started : Type := mkStarted {
  st_dispatcher : Dispatcher;
  st_keepalive_task : option Z;
  st_keepalive_timeout : Z;
  st_disconnect_timeout : Z;
}.

Definition start (cl : Client) (s : Shared) : Started :=
  mkStarted (Dispatcher_new s (cl_max_receive cl) 16)
    (if 0 <? cl_keepalive cl then Some (cl_keepalive cl) else None) 0 (cl_disconnect_timeout cl).

(** The services of [start_default]: a publish goes to the control service,
    which disconnects. *)
Definition default_publish (pkt : Publish) : result (Publish + PubAck) unit := ok (inl pkt).
Definition default_control {E} (msg : ControlMessage E) : result ControlResult E :=
  ok (V5Client.disconnect msg Disconnect_default).

(** The task [keepalive], for [n] periods: [false] when it has ended *)
Fixpoint keepalive (n : nat) : M bool :=
  match n with
  | O => mret true
  | S n => pinged ← ping; if negb pinged then mret false else keepalive n
  end.

End Connector.

(** ** Routing clients *)

Section ClientRouter.
Context `{TR : TopicRouter} {H Err PErr : Type}.

Record ClientRouter : Type := mkClientRouter {
  rt_builder : list (Pattern * nat);
  rt_handlers : list H;
  rt_keepalive : Z;
  rt_disconnect_timeout : Z;
  rt_max_receive : Z;
}.

(** [Client::resource], [ClientRouter::resource] *)
Definition Client_resource (address : Pattern) (service : H) (cl : Client) : ClientRouter :=
  mkClientRouter [(address, 0%nat)] [service] (cl_keepalive cl) (cl_disconnect_timeout cl) (cl_max_receive cl).
Definition ClientRouter_resource (address : Pattern) (service : H) (c : ClientRouter) : ClientRouter :=
  mkClientRouter (rt_builder c ++ [(address, length (rt_handlers c))]) (rt_handlers c ++ [service])
    (rt_keepalive c) (rt_disconnect_timeout c) (rt_max_receive c).

(** [ClientRouter::start], [start_default]: the router is built from the
    patterns and the service of the publishes is [dispatch] on it. *)
Definition ClientRouter_start `{R : Runtime Ack} (c : ClientRouter) (s : @MqttShared Ack R Codec)
  : @Started R * list (Pattern * nat) * list H :=
  (mkStarted (Dispatcher_new s (rt_max_receive c) 16)
     (if 0 <? rt_keepalive c then Some (rt_keepalive c) else None) 0 (rt_disconnect_timeout c),
   rt_builder c, rt_handlers c).

(** The service [dispatch]: a handler with its request, or the publish back;
    indexing the handlers panics ([None]). *)
Definition dispatch (router : list (Pattern * nat)) (handlers : list H)
  (aliases : gmap Z (nat * Path)) (req : Request Publish)
  : option (option (H * Request Publish) * Request Publish * gmap Z (nat * Path)) :=
  let '(o, req, aliases) := route router aliases req in
  match o with
  | Some idx =>
      match handlers !! idx with
      | Some h => Some (Some (h, req), req, aliases)
      | None => None
      end
  | None => Some (None, req, aliases)
  end.

(** [call]: what becomes of the result of a handler *)
Definition call (try_from : PErr -> result PubAck Err) (r : result PubAck PErr) : result (Publish + PubAck) Err :=
  match r with
  | ok ack => ok (inr ack)
  | err e => match try_from e with ok ack => ok (inr ack) | err e => err e end
  end.

End ClientRouter.

(** ** Client and server *)

Section Agreement.
Context `{R : Runtime Ack} {N : Net Ack Codec Packet} {NL : NetLaws Ack Codec Packet}.
Abbreviation Shared := (@MqttShared Ack R Codec).
Abbreviation M := (@M Ack R Codec).

(** A client that is connected *)
Lemma connect_ok k dial w cl s' :
  _connect k dial (MqttShared_new w Codec_new 0) = Some (ok cl, s') ->
  cl_max_receive cl = unwrap_or_zero (co_receive_max (k_pkt k)) /\
  cl_keepalive cl = match ca_server_keepalive_sec (cl_pkt cl) with Some v => v | None => co_keep_alive (k_pkt k) end /\
  cap s' = unwrap_or_zero (ca_receive_max (cl_pkt cl)) /\
  max_in_size (codec s') = unwrap_or_zero (co_max_packet_size (k_pkt k)) /\
  max_out_size (codec s') = unwrap_or_zero (ca_max_packet_size (cl_pkt cl)) /\
  borrowed s' = false /\ queues s' = mkQueues ∅ [] [].
Proof.
  unfold _connect. destruct dial; [ | by intros [? _]%ret_Some]. cbn [negb].
  intros (u & s1 & [= _ <-] & (c & s2 & [= <- <-] & (r & s3 & H3 & H4)%bind_Some)%bind_Some)%bind_Some.
  unfold send_packet in H3. destruct (send_item _ _) as [[r' w']|]; [ | done]. injection H3 as -> <-.
  destruct r as [[]|e]; [ | by apply ret_Some in H4 as [? _]].
  apply bind_Some in H4 as (r & s4 & H4 & H5). unfold next_packet in H4.
  destruct (next _ _ _) as [[n c] w2] eqn:En. injection H4 as -> <-.
  apply next_limits in En as Hl.
  destruct r as [[[]|]|e]; try by apply ret_Some in H5 as [? _].
  unfold connected in H5. destruct (ca_reason_code _); try by apply ret_Some in H5 as [? _].
  apply bind_Some in H5 as (u5 & s5 & H5 & (u6 & s6 & [= _ <-] & [[= <-] <-]%ret_Some)%bind_Some).
  injection Hl as Hin Hout. cbn [cl_pkt cl_max_receive cl_keepalive].
  split; [done | ]. split; [done | ].
  destruct (ca_max_packet_size _); [injection H5 as _ <- | apply ret_Some in H5 as [_ <-]]; done.
Qed.

Lemma trim_limits l p :
  ca_receive_max (connack_trim l p) = ca_receive_max p /\
  ca_max_packet_size (connack_trim l p) = ca_max_packet_size p /\
  ca_server_keepalive_sec (connack_trim l p) = ca_server_keepalive_sec p.
Proof. by destruct p. Qed.

(** C14: the settings of a client and a server of MQTT 5 that accept each other,
    side by side: the server has read the client's CONNECT, and the client the
    server's CONNACK [p] as the codec leaves it.
    - Sizes: the server's encoder has the limit of the client's decoder.  If [p]
      announces a size, it is the limit of the client's encoder and of the server's
      decoder; if not, the client's encoder has none, while the server's decoder
      still has the configured one.
    - Publishes in flight: a receive maximum of [p] is the client's credit and what
      the server accepts, one of CONNECT the server's credit and what the client
      accepts.  Without one the receiver has no limit (0), but a client has no
      credit and a server 16.
    - Keep-alive: the client's is what the service put into CONNACK, or else the
      smaller one of its own and the server's timeout, so it pings in time unless
      its own is 0, which means that it never pings. *)
Theorem v5_limits_agree {St E} srv (service : Handshake -> M (result (HandshakeAck St) E)) ws sess ka ss
    k dial wc cl sc c w1 :
  (forall h, uses_sink (service h)) ->
  handshake srv service (MqttShared_new ws Codec_new 0) = Some (ok (sess, ka), ss) ->
  _connect k dial (MqttShared_new wc Codec_new 0) = Some (ok cl, sc) ->
  next codec_decode (set_max_inbound_size Codec_new (ms_max_size srv)) ws = (ok (Some (Pkt_Connect (k_pkt k))), c, w1) ->
  exists ack s1 s2, let p := final_packet (ms_max_qos srv) (co_keep_alive (k_pkt k)) ack in
    service (mkHandshake (k_pkt k) (ms_max_size srv) (ms_max_receive srv) (ms_max_topic_alias srv)) s1 = Some (ok ack, s2) /\
    (exists w b, codec_encode (codec ss) (Pkt_ConnectAck p) (wbuf w) = (Ok tt, b) /\ sent (io ss) = sent w ++ b) /\
    (cl_pkt cl = connack_trim (out_limit (codec ss)) p ->
     (* sizes *)
     max_out_size (codec ss) = max_in_size (codec sc) /\
     match ca_max_packet_size p with
     | Some n => max_out_size (codec sc) = n /\ max_in_size (codec ss) = n
     | None => max_out_size (codec sc) = 0 /\ max_in_size (codec ss) = ms_max_size srv
     end /\
     (* publishes of the client, publishes of the server *)
     match ca_receive_max p with
     | Some n => cap sc = n /\ se_max_receive sess = n
     | None => cap sc = 0 /\ se_max_receive sess = 0
     end /\
     match co_receive_max (k_pkt k) with
     | Some n => cap ss = n /\ cl_max_receive cl = n
     | None => cap ss = 16 /\ cl_max_receive cl = 0
     end /\
     (* keep-alive *)
     cl_keepalive cl = match ca_server_keepalive_sec (a_packet ack) with
                       | Some v => v
                       | None => Z.min (co_keep_alive (k_pkt k)) ka
                       end).
Proof.
  intros Hs Hh Hc Hn.
  destruct (handshake_agreed _ _ _ _ _ _ Hs Hh) as (connect & ack & c' & w1' & s1 & s2 & Hn' & Hsv & Hag & Hka).
  rewrite Hn in Hn'. injection Hn' as <- _ _. exists ack, s1, s2. split; [done | ]. split; [apply (ag_sent _ _ _ _ _ Hag) | ].
  intros Hp. apply connect_ok in Hc as (Hr & Hk & Hcap & Hin & Hout & _). rewrite Hp in *.
  destruct (trim_limits (out_limit (codec ss)) (final_packet (ms_max_qos srv) (co_keep_alive (k_pkt k)) ack)) as (T1 & T2 & T3).
  rewrite T1 in Hcap. rewrite T2 in Hout. rewrite T3, final_keepalive in Hk.
  destruct Hag as [A1 A2 A3 A4 A5 _]. split; [exact (eq_trans A4 (eq_sym Hin)) | ]. split; [ | split; [ | split]].
  - by destruct (ca_max_packet_size _).
  - by destruct (ca_receive_max _).
  - by destruct (co_receive_max _).
  - destruct (ca_server_keepalive_sec (a_packet ack)); [done | ].
    destruct (Z.ltb_spec (a_keepalive ack) (co_keep_alive (k_pkt k))); lia.
Qed.

(** a server that sets no limit on the publishes in flight (a CONNACK
    without a receive maximum) is not served at all: the client has no
    credit, and every publish with QoS 1 waits for an acknowledgement that
    cannot come. *)
Theorem v5_client_no_credit k dial w cl s p :
  _connect k dial (MqttShared_new w Codec_new 0) = Some (ok cl, s) ->
  ca_receive_max (cl_pkt cl) = None -> is_open (io s) = true ->
  cap s = 0 /\ inflight (queues s) = ∅ /\
  exists rx s', send_at_least_once p s = Some (SF_Wait rx (set_qos p AtLeastOnce), s') /\ inflight (queues s') = ∅.
Proof.
  intros (_ & _ & Hcap & _ & _ & Hb & Hq)%connect_ok Hn Ho. rewrite Hn in Hcap. cbn in Hcap.
  split; [done | ]. split; [by rewrite Hq | ]. by apply begin_send_waits.
Qed.

End Agreement.

(** ** A client and a server *)

Definition demo_connector : MqttConnector :=
  client_id [99] (keep_alive 60 (receive_max 10 (max_packet_size 2000 MqttConnector_new))).
Definition demo_client_world (b : bytes) : @world Ack (NetRuntime Ack) := sim_world b.
Definition demo_client (b : bytes) :=
  @_connect (NetRuntime Ack) SimNet demo_connector true (MqttShared_new (demo_client_world b) Codec_new 0).

(** The CONNACK of [V5Server.demo_server] *)
Definition demo_connack : bytes := nw_sent (io demo_final).
Lemma v5_limits_agree_witness :
  exists cl sc, demo_client demo_connack = Some (ok cl, sc) /\ cap sc = 15 /\ cl_keepalive cl = 30 /\
    max_out_size (codec sc) = max_in_size (codec demo_final).
Proof.
  assert (Hh : demo_handshake demo_start = Some (ok (mkSession 7%nat 15 32, 30), demo_final)) by (vm_compute; reflexivity).
  eexists _, _. split; [vm_compute; reflexivity | ].
  edestruct (@v5_limits_agree (NetRuntime Ack) SimNet SimNetLaws nat unit demo_server demo_service demo_world
              (mkSession 7%nat 15 32) 30 demo_final demo_connector true (demo_client_world demo_connack)) as (ack & s1 & s2 & Hr & Hsent & Hag);
    [exact demo_uses_sink | exact Hh | vm_compute; reflexivity | vm_compute; reflexivity | ].
  injection Hr as <- _. destruct Hag as (_ & [Hs1 Hs2] & [Hcap _] & _ & Hka); [vm_compute; reflexivity | ].
  split; [exact Hcap | ]. split; [exact Hka | ]. exact (eq_trans Hs1 (eq_sym Hs2)).
Defined.

(** A server without a receive maximum *)
Definition demo_unlimited : bytes := (codec_encode Codec_new (Pkt_ConnectAck ConnectAck_default) []).2.

Lemma v5_client_no_credit_witness :
  exists cl s, demo_client demo_unlimited = Some (ok cl, s) /\ cap s = 0 /\
    exists rx s', send_at_least_once hello s = Some (SF_Wait rx (set_qos hello AtLeastOnce), s').
Proof.
  eexists _, _. split; [vm_compute; reflexivity | ].
  edestruct (@v5_client_no_credit (NetRuntime Ack) SimNet SimNetLaws demo_connector true (demo_client_world demo_unlimited))
    as (Hc & _ & rx & s' & Hp & _); [vm_compute; reflexivity .. | ].
  split; [exact Hc | ]. exists rx, s'. exact Hp.
Defined.

