(* ===== verification/V5Connection.v ===== *)
(** * A connection of an MQTT 5 server (src/v5/dispatcher.rs, src/v5/server.rs)

    The pieces put together: [factory] makes the dispatcher of a session from
    what the handshake agreed, [MqttServer::finish] runs the handshake and the
    factory, and the dispatcher then works.  The theorem follows the limits
    from the packets of the handshake to the dispatcher at work. *)

From stdpp Require Import base gmap list strings relations.
From S2P Require Import Prelude Types Wire Framing V5Props V5PubAcks V5Subscribe V5Disconnect V5ConnAck V5Publish V5Connect V5Codec.
From S2P Require Import Sink Inflight V5Sink V5Control V5Info V5Dispatcher Net Service V5Server.
Open Scope Z_scope.

(** ** What the dispatcher does with the sink are steps of the sink *)
Section Steps.
Context `{R : Runtime Ack}.
Abbreviation DM := (V5Info.DM).

Definition dsteps {A} (m : DM A) : Prop :=
  forall d a d', m d = Some (a, d') -> rtc step (d_sink d) (d_sink d').

Lemma dsteps_bind {A B} (m : DM A) (k : A -> DM B) : dsteps m -> (forall a, dsteps (k a)) -> dsteps (m ≫= k).
Proof. intros Hm Hk d b d' (a & d1 & H1%Hm & H2%Hk)%dbind_Some. by etrans. Qed.
Lemma dsteps_ret {A} (a : A) : dsteps (mret a).
Proof. by intros d a' d' [= _ <-]. Qed.
Lemma dsteps_asks {A} (f : _ -> A) : dsteps (asks f).
Proof. by intros d a' d' [= _ <-]. Qed.
Lemma dsteps_on_sink {A} (m : @M Ack R Codec A) :
  (forall s a s', m s = Some (a, s') -> step s s') -> dsteps (on_sink m).
Proof.
  intros Hm d a d'. unfold on_sink. destruct (m (d_sink d)) as [[b s]|] eqn:E; [ | done].
  intros [= _ <-]. exact (rtc_once _ _ (Hm _ _ _ E)).
Qed.
Lemma dsteps_insert_id id : dsteps (insert_id id).
Proof. by intros d a' d' [= _ <-]. Qed.
Lemma dsteps_remove_id id : dsteps (remove_id id).
Proof. by intros d a' d' [= _ <-]. Qed.
Lemma dsteps_insert_alias a : dsteps (insert_alias a).
Proof. by intros d a' d' [= _ <-]. Qed.

End Steps.

Create HintDb sink_steps.
#[export] Hint Resolve dsteps_ret dsteps_asks dsteps_insert_id dsteps_remove_id dsteps_insert_alias
  step_ack step_send step_drop_sink : sink_steps.

Ltac dsteps :=
  repeat first
    [ solve [eauto with sink_steps]
    | apply dsteps_bind; [ | intros ]
    | apply dsteps_on_sink
    | match goal with
      | |- dsteps (match ?x with _ => _ end) => destruct x
      | |- dsteps (let _ := _ in _) => cbv zeta
      end ].

Section Work.
Context `{R : Runtime Ack} {E E2 : Type} (try_from : E2 -> result PubAck E) (into : E2 -> E).

Lemma dsteps_control {Msg} (error_msg : E -> Msg) pc c : dsteps (ControlResponse_poll error_msg pc c).
Proof. unfold ControlResponse_poll, ControlResponse_finish. dsteps. Qed.

#[local] Hint Resolve dsteps_control : sink_steps.

Lemma dsteps_call item : dsteps (V5Dispatcher.call (E := E) item).
Proof. unfold V5Dispatcher.call, checked, check_receive, check_alias, has_alias, call_ack. dsteps. Qed.

Lemma dsteps_poll pc fut r : dsteps (V5Dispatcher.poll try_from into pc fut r).
Proof.
  unfold V5Dispatcher.poll, V5Dispatcher.PublishResponse_poll, publish_done. dsteps.
Qed.

Lemma dsteps_shutdown b : dsteps (V5Dispatcher.poll_shutdown (E := E) b).
Proof.
  intros d m d'. unfold V5Dispatcher.poll_shutdown. destruct (d_shutdown d); [by intros [= _ <-] | ].
  destruct (drop_sink _) as [[u s]|] eqn:Hd; [ | done]. intros [= _ <-]. eapply rtc_once, step_drop_sink, Hd.
Qed.

Lemma sys_step_sink y y' :
  V5Dispatcher.sys_step try_from into y y' -> rtc step (d_sink (sys_d y)) (d_sink (sys_d y')).
Proof.
  destruct 1 as [item r d d' l H|pc fut resp resp' x d d' l1 l2 H|b m d d' l H|sk d l H]; cbn.
  - by eapply dsteps_call.
  - by eapply dsteps_poll.
  - by eapply dsteps_shutdown.
  - exact (rtc_once _ _ H).
Qed.

(** A dispatcher at work keeps its invariant and its settings. *)
Lemma sys_run mr ma y y' :
  rtc (V5Dispatcher.sys_step try_from into) y y' -> sys_inv mr ma y ->
  sys_inv mr ma y' /\ settings (d_sink (sys_d y')) = settings (d_sink (sys_d y)).
Proof.
  induction 1 as [y|y1 y2 y3 Hs _ IH]; intros Hi; [done | ].
  destruct (IH (sys_step_inv5 _ _ _ _ _ _ Hi Hs)) as [H1 ->]. split; [done | by eapply steps_settings, sys_step_sink].
Qed.

End Work.

Section Connection.
Context `{R : Runtime Ack} {N : Net Ack Codec Packet} {NL : NetLaws Ack Codec Packet}.
Abbreviation Shared := (@MqttShared Ack R Codec).
Abbreviation M := (@M Ack R Codec).
Context {St E E2 P C : Type}.
Abbreviation MError := (MqttError E).

(** [factory] of src/v5/dispatcher.rs: both services are made, and the first
    error ends it. *)
Definition factory (publish : Session St -> M (result P MError)) (control : Session St -> M (result C MError))
  (cfg : Session St) : M (result (V5Info.Dispatcher * P * C) MError) :=
  p ← publish cfg;
  c ← control cfg;
  let (max_receive, max_topic_alias) := Session_params cfg in
  d ← gets (fun sink => V5Info.Dispatcher_new sink max_receive max_topic_alias);
  mret (match p with
        | err e => err e
        | ok p => match c with err e => err e | ok c => ok (d, p, c) end
        end).


Lemma factory_ok publish control cfg s d p c s' :
  (forall x, uses_sink (publish x)) -> (forall x, uses_sink (control x)) ->
  factory publish control cfg s = Some (ok (d, p, c), s') ->
  d = V5Info.Dispatcher_new s' (se_max_receive cfg) (se_max_topic_alias cfg) /\ settings s' = settings s.
Proof.
  intros Hp Hc (rp & s1 & H1%Hp%steps_settings & (rc & s2 & H2%Hc%steps_settings & H)%bind_Some)%bind_Some.
  apply bind_Some in H as (d0 & s3 & [= <- <-] & [H ->]%ret_Some).
  destruct rp as [p0|]; [ | done]. destruct rc as [c0|]; [ | done]. injection H as <- <- <-.
  split; [done | congruence].
Qed.

(** [receive_max] of CONNACK is a [NonZeroU16]. *)
Definition non_zero_receive (ack : HandshakeAck St) : Prop :=
  match ca_receive_max (a_packet ack) with Some n => 0 < n | None => True end.

Lemma final_receive qos ka (ack : HandshakeAck St) :
  ca_receive_max (final_packet qos ka ack) = ca_receive_max (a_packet ack).
Proof.
  unfold final_packet. destruct (a_packet ack) as [].
  cbn. repeat (case_match; cbn; try done).
Qed.

(** What a sink does to keep to a size for what it receives, a size for what
    it sends and a number of packets in flight; sizes are those of contents,
    without the fixed header, and a size of 0 is none. *)
Record enforces (max_in max_out credit : Z) (s : Shared) : Prop := {
  en_refused first n rest : max_in <> 0 -> max_in < n -> 0 <= n <= MAX_VARINT ->
    frame_decode decode_packet (max_in_size (codec s)) FrameHeader (first :: varint n ++ rest) =
    (Err DMaxSizeExceeded, FrameHeader, first :: varint n ++ rest);
  en_accepted src : exists frames left, src = flat_map stream_bytes frames ++ left /\
    Forall2 (accepted decode_packet max_in) frames
      (drain decode_packet (max_in_size (codec s)) FrameHeader src).1.1.1;
  en_unsent p buf n :
    let limit := if max_out =? 0 then MAX_PACKET_SIZE else max_out in
    Packet_encoded_size (if no_problem_info (codec s) then strip_problem_info p else p) limit = Ok n ->
    limit < n -> codec_encode (codec s) p buf = (Err EInvalidLength, buf);
  en_publish_waits p f s' : is_open (io s) = true -> credit <= Z.of_nat (size (inflight (queues s))) ->
    send_at_least_once p s = Some (f, s') -> joined_waiters (set_qos p AtLeastOnce) s f s';
  en_subscribe_waits b r f s' : is_open (io s) = true -> credit <= Z.of_nat (size (inflight (queues s))) ->
    poll_subscribe (SF_Init b) s = Some (r, f, s') -> r = None /\ joined_waiters b s f s';
  en_unsubscribe_waits b r f s' : is_open (io s) = true -> credit <= Z.of_nat (size (inflight (queues s))) ->
    poll_unsubscribe (SF_Init b) s = Some (r, f, s') -> r = None /\ joined_waiters b s f s';
}.

Lemma sink_enforces (s : Shared) : enforces (max_in_size (codec s)) (max_out_size (codec s)) (cap s) s.
Proof.
  split.
  - intros first n rest H0 Hm Hn. by apply frame_decode_too_long.
  - intros src. destruct (drain _ _ _ src) as [[[ps r] st] rest] eqn:Ed.
    destruct (drain_accepted _ _ FrameHeader [] _ _ _ _ _ eq_refl Ed) as (fs & left & H1 & H2 & _). by exists fs, left.
  - intros p buf n limit Hp Hn. unfold codec_encode, wlet. cbv zeta.
    replace (out_limit (codec s)) with limit by (unfold limit, out_limit; by destruct (_ =? _)).
    rewrite Hp. by rewrite (proj2 (Z.ltb_lt _ _) Hn).
  - intros p f s'. apply begin_full.
  - intros b r f s'. apply poll_full.
  - intros b r f s'. apply poll_full.
Qed.

(** C13: a connection that the server accepts is run with the limits of its
    handshake, whatever the peer and the application do afterwards: the CONNECT
    [connect] was read and the CONNACK [p] sent, and in every state the
    dispatcher gets to
    - the publish service works on no more publishes than the receive maximum
      of [p], if it has one, and no topic alias above the maximum of [p] is
      known;
    - what the decoder returns are the packets of frames whose contents are
      within the size [p] announced (the configured one if it announced none),
      and a longer frame is refused at its header;
    - a packet whose computed size is above the size of [connect] is refused
      by the encoder, and nothing is written;
    - a publish, a subscribe or an unsubscribe that starts while as many
      packets are in flight as the receive maximum of [connect] allows (16 if
      it has none) only joins the waiters.
    Sizes are those of contents, without the fixed header.  Nothing is said of
    a send that waited and was woken: it goes on without looking at the credit
    again.  [p] has a server keep-alive if the client asked for a longer one
    than the connection is timed by. *)
Theorem v5_connection_enforced (try_from : E2 -> result PubAck E) (into : E2 -> E)
    srv (service : Handshake -> M (result (HandshakeAck St) E)) publish control w conn d pb ct s' :
  (forall h, uses_sink (service h)) -> (forall x, uses_sink (publish x)) -> (forall x, uses_sink (control x)) ->
  (forall connect s ack s',
     service (mkHandshake connect (ms_max_size srv) (ms_max_receive srv) (ms_max_topic_alias srv)) s = Some (ok ack, s') ->
     non_zero_receive ack) ->
  finish srv service (factory publish control) (MqttShared_new w Codec_new 0) = Some (ok conn, s') ->
  cn_handler conn = (d, pb, ct) ->
  exists connect c w0 w1 s2 s3 (ack : HandshakeAck St) sess s1, let p := final_packet (ms_max_qos srv) (co_keep_alive connect) ack in
    next codec_decode (set_max_inbound_size Codec_new (ms_max_size srv)) w0 = (ok (Some (Pkt_Connect connect)), c, w1) /\
    service (mkHandshake connect (ms_max_size srv) (ms_max_receive srv) (ms_max_topic_alias srv)) s2 = Some (ok ack, s3) /\
    handshake srv service (MqttShared_new w0 Codec_new 0) = Some (ok (sess, cn_keepalive conn), s1) /\
    (exists w b, codec_encode (codec s1) (Pkt_ConnectAck p) (wbuf w) = (Ok tt, b) /\ sent (io s1) = sent w ++ b) /\
    (cn_keepalive conn < co_keep_alive connect -> is_Some (ca_server_keepalive_sec p)) /\
    forall y, rtc (V5Dispatcher.sys_step try_from into) (mkSys d []) y ->
      (forall n, ca_receive_max p = Some n -> Z.of_nat (length (publishing_all (sys_pending y))) <= n) /\
      (forall a, a ∈ d_aliases (sys_d y) -> a <= ca_topic_alias_max p) /\
      enforces (match ca_max_packet_size p with Some n => n | None => ms_max_size srv end)
        (match co_max_packet_size connect with Some n => n | None => 0 end)
        (match co_receive_max connect with Some n => n | None => 16 end) (d_sink (sys_d y)).
Proof.
  intros Hs Hp Hc Hnz H Hd. unfold finish, FramedServiceImpl_call, connect_handler in H.
  apply and_then_ok in H as ([hd ka] & s2 & H & [[= <-] <-]%ret_Some). cbn in Hd |- *. subst hd.
  apply and_then_ok in H as ([sess ka'] & s1 & (w0 & _ & Hh)%with_timeout_ok & H).
  apply and_then_ok in H as (h & s3 & Hf & [[= -> ->] <-]%ret_Some).
  apply factory_ok in Hf as [-> Hset]; [ | done | done].
  change (set_io w0 _) with (MqttShared_new w0 Codec_new 0) in Hh.
  destruct (handshake_agreed _ _ _ _ _ _ Hs Hh) as (connect & ack & c & w1 & s4 & s5 & Hn & Hr & [A1 A2 A3 A4 A5 A6] & ->).
  exists connect, c, w0, w1, s4, s5, ack, sess, s1. do 4 (split; [done | ]). split.
  { intros Hlt. rewrite final_keepalive. destruct (ca_server_keepalive_sec _); [done | ].
    by rewrite (proj2 (Z.ltb_lt _ _) Hlt). }
  intros y Hy. set (p := final_packet _ _ _) in *.
  apply Hnz in Hr. unfold non_zero_receive in Hr. rewrite <- (final_receive (ms_max_qos srv) (co_keep_alive connect)) in Hr.
  fold p in Hr. assert (Hmr : 0 <= se_max_receive sess) by (rewrite A1; destruct (ca_receive_max p); lia).
  assert (H0 : sys_inv (E := E) (se_max_receive sess) (se_max_topic_alias sess)
                 (mkSys (Dispatcher_new s3 (se_max_receive sess) (se_max_topic_alias sess)) [])).
  { eapply (sys_reachable_inv5 try_from into); [exact Hmr | apply sys_new]. }
  destruct (sys_run _ _ _ _ _ _ Hy H0) as [(_ & Hma & Ha & [_ _ Hq]) Hset'].
  change (settings (d_sink (sys_d y)) = settings s3) in Hset'. rewrite Hset in Hset'. injection Hset' as Hcap Hcod.
  split_and!; [ | | rewrite <- A3, <- A4, <- A5, <- Hcap, <- Hcod; apply sink_enforces].
  - intros n Hn'. rewrite Hn' in A1. rewrite Hn' in Hr. subst n. apply Hq. lia.
  - intros a Hin. rewrite <- A2, <- Hma. by apply Ha.
Qed.

End Connection.

(** ** A connection to run: its dispatcher after one publish *)
Definition demo_factory (x : Session nat) : DM (result nat (MqttError unit)) := mret (ok (se_st x)).
Definition demo_run : option (result (Connection (V5Info.Dispatcher (R := NetRuntime Ack) * nat * nat)) (MqttError unit)
                              * @MqttShared Ack (NetRuntime Ack) Codec) :=
  @finish (NetRuntime Ack) SimNet nat unit _ demo_server demo_service (factory demo_factory demo_factory) demo_start.
Definition demo_dispatcher : V5Info.Dispatcher (R := NetRuntime Ack) :=
  V5Info.Dispatcher_new demo_final 15 32.
Definition demo_working : V5Dispatcher.Sys (R := NetRuntime Ack) (E := unit) :=
  mkSys (set_info demo_dispatcher ({[7]} ∪ ∅) ∅) [R_Publish 7 (qos1 7)].

Lemma demo_step : V5Dispatcher.sys_step no_ack (fun e => e) (mkSys demo_dispatcher []) demo_working.
Proof.
  apply (sys_call no_ack (fun e => e) (DI_Item (Pkt_Publish (qos1 7))) (R_Publish 7 (qos1 7)) demo_dispatcher
           (set_info demo_dispatcher ({[7]} ∪ ∅) ∅) []).
  reflexivity.
Qed.

Lemma v5_connection_enforced_witness :
  demo_run = Some (ok (mkConnection (demo_dispatcher, 7, 7)%nat 30 3000), demo_final) /\
  exists p, ca_receive_max p = Some 15 /\ Z.of_nat (length (publishing_all (sys_pending demo_working))) <= 15 /\
    (forall a, a ∈ d_aliases (sys_d demo_working) -> a <= ca_topic_alias_max p).
Proof.
  assert (Hr : demo_run = Some (ok (mkConnection (demo_dispatcher, 7, 7)%nat 30 3000), demo_final))
    by (vm_compute; reflexivity).
  split; [exact Hr | ].
  destruct (@v5_connection_enforced (NetRuntime Ack) SimNet SimNetLaws nat unit unit nat nat no_ack (fun e => e)
              demo_server demo_service demo_factory demo_factory demo_world
              (mkConnection (demo_dispatcher, 7, 7)%nat 30 3000) demo_dispatcher 7%nat 7%nat demo_final
              demo_uses_sink)
    as (connect & c & w0 & w1 & s2 & s3 & ack & sess & s1 & _ & Hs & _ & _ & _ & Hy);
    [ intros x s r s' [= _ <-]; apply rtc_refl | intros x s r s' [= _ <-]; apply rtc_refl
    | intros h s ack s' [= <- _]; done | exact Hr | done | ].
  specialize (Hy demo_working (rtc_once _ _ demo_step)) as (Hq & Ha & _).
  injection Hs as <- _. eexists. split; [ | split; [apply Hq | exact Ha]]; by rewrite final_receive.
Defined.
