(* ===== verification/Server.v ===== *)
(** * The server of both versions (src/server.rs)

    [MqttServer] looks at the first bytes of a connection and gives it, with
    those bytes still in the buffer and with what is left of the delay, to the
    server of the protocol that CONNECT names. *)

From stdpp Require Import base list strings.
From S2P Require Import Prelude Types Wire Framing V3Codec V5Connect V5Codec Version Sink Net Service.
Open Scope Z_scope.

(** [MqttServer] *)
Record MqttServer (V3 V5 : Type) : Type := mkServer {
  sv_v3 : V3;
  sv_v5 : V5;
  sv_handshake_timeout : Z;
}.
Arguments mkServer {V3 V5}.
Arguments sv_v3 {V3 V5}.
Arguments sv_v5 {V3 V5}.
Arguments sv_handshake_timeout {V3 V5}.

(** [DefaultProtocolServer] has no service for its version *)
Record DefaultProtocolServer : Type := mkDefault { df_ver : ProtocolVersion }.
Definition Default_call {E} (s : DefaultProtocolServer) : result unit (MqttError E) := err (MProtocol PIo).
Definition Default_poll_ready {E} (s : DefaultProtocolServer) : option (result unit (MqttError E)) := Some (ok tt).

(** [MqttServer::new], [handshake_timeout], [v3] and [v3_variants], [v5] and [v5_variants] *)
Definition MqttServer_new : MqttServer DefaultProtocolServer DefaultProtocolServer :=
  mkServer (mkDefault MQTT3) (mkDefault MQTT5) 0.
Definition handshake_timeout {V3 V5} (timeout : Z) (s : MqttServer V3 V5) : MqttServer V3 V5 :=
  mkServer (sv_v3 s) (sv_v5 s) timeout.
Definition set_v3 {V3 V5 V} (service : V) (s : MqttServer V3 V5) : MqttServer V V5 :=
  mkServer service (sv_v5 s) (sv_handshake_timeout s).
Definition set_v5 {V3 V5 V} (service : V) (s : MqttServer V3 V5) : MqttServer V3 V :=
  mkServer (sv_v3 s) service (sv_handshake_timeout s).

(** [MqttServerImpl] *)
Record MqttServerImpl (H3 H5 : Type) : Type := mkServerImpl {
  si_v3 : H3;
  si_v5 : H5;
  si_handshake_timeout : Z;
}.
Arguments mkServerImpl {H3 H5}.
Arguments si_v3 {H3 H5}.
Arguments si_v5 {H3 H5}.
Arguments si_handshake_timeout {H3 H5}.

(** [MqttServer::new_service], from what the two factories give *)
Definition new_service {V3 V5 H3 H5 I} (s : MqttServer V3 V5) (v3 : result H3 I) (v5 : result H5 I)
  : result (MqttServerImpl H3 H5) I :=
  match v3 with
  | err e => err e
  | ok v3 => match v5 with
             | err e => err e
             | ok v5 => ok (mkServerImpl v3 v5 (sv_handshake_timeout s))
             end
  end.

(** [MqttServerImpl::poll_ready] and [poll_shutdown], from what the handlers give *)
Definition poll_ready {E} (v3 v5 : option (result unit E)) : option (result unit E) :=
  match poll_ready_all [v3; v5] false with
  | err e => Some (err e)
  | ok true => Some (ok tt)
  | ok false => None
  end.
Definition poll_shutdown (v3 v5 : bool) : bool := v3 && v5.

(** ** The response of a call

    [X] is the connection; [F3] and [F5] are the futures of the two handlers,
    which get the connection and whether a delay runs. *)
Class ServerEnv (X F3 F5 E : Type) := {
  (* the bytes in the read buffer after what has arrived is read *)
  arrived : X -> bytes;
  (* is the delay over? *)
  delay_poll : X -> bool * X;
  (* State::poll_next with VersionCodec *)
  version_next : X -> option (result (option ProtocolVersion) (DecodeError + IoError)) * X;
  call3 : bool -> X -> F3 * X;
  call5 : bool -> X -> F5 * X;
  poll3 : F3 -> X -> option (result unit (MqttError E)) * F3 * X;
  poll5 : F5 -> X -> option (result unit (MqttError E)) * F5 * X;
}.

(** [poll_next] gives what the codec decodes; VersionCodec takes nothing from
    the buffer. *)
Class ServerEnvLaws (X F3 F5 E : Type) `{ServerEnv X F3 F5 E} := {
  delay_arrived x : arrived (delay_poll x).2 = arrived x;
  next_version x v : version_decode (arrived x) = Ok (Some v) ->
    exists x', version_next x = (Some (ok (Some v)), x') /\ arrived x' = arrived x;
  next_error x e : version_decode (arrived x) = Err e -> (version_next x).1 = Some (err (inl e));
}.

Section Response.
Context {X F3 F5 E : Type} `{Env : ServerEnv X F3 F5 E}.
Abbreviation MError := (MqttError E).

(** [MqttServerImplState]; [delay]: is there one? *)
Inductive MqttServerImplState : Type :=
| SV3 (fut : F3)
| SV5 (fut : F5)
| SVersion (delay : bool).

(** [MqttServerImpl::call] *)
Definition call {H3 H5} (s : MqttServerImpl H3 H5) : MqttServerImplState :=
  SVersion (0 <? si_handshake_timeout s).

(** The loop of [MqttServerImplResponse::poll]: once a version is known the
    future of its handler is polled. *)
Definition poll_handler3 (fut : F3) (x : X) : option (result unit MError) * MqttServerImplState * X :=
  let '(r, fut, x) := poll3 fut x in (r, SV3 fut, x).
Definition poll_handler5 (fut : F5) (x : X) : option (result unit MError) * MqttServerImplState * X :=
  let '(r, fut, x) := poll5 fut x in (r, SV5 fut, x).

Definition poll_version (delay : bool) (x : X) : option (result unit MError) * MqttServerImplState * X :=
  match version_next x with
  | (Some (ok (Some MQTT3)), x) => let (fut, x) := call3 delay x in poll_handler3 fut x
  | (Some (ok (Some MQTT5)), x) => let (fut, x) := call5 delay x in poll_handler5 fut x
  | (Some (ok None), x) => (Some (err MDisconnected), SVersion delay, x)
  | (Some (err e), x) => (Some (err (from_next e)), SVersion delay, x)
  | (None, x) => (None, SVersion delay, x)
  end.

Definition poll (st : MqttServerImplState) (x : X) : option (result unit MError) * MqttServerImplState * X :=
  match st with
  | SV3 fut => poll_handler3 fut x
  | SV5 fut => poll_handler5 fut x
  | SVersion delay =>
      if (delay : bool) then
        let (late, x) := delay_poll x in
        if (late : bool) then (Some (err MHandshakeTimeout), SVersion delay, x) else poll_version delay x
      else poll_version delay x
  end.

(** ** Which handler gets a connection *)
Context {L : ServerEnvLaws X F3 F5 E}.

(** C21: a connection goes to the server that can read its CONNECT.  When the
    bytes that have arrived start with a CONNECT that the codec of MQTT 3.1.1
    (MQTT 5) decodes and the delay is not over, one poll hands the connection
    to the handler of MQTT 3.1.1 (MQTT 5), with all these bytes still to be
    read; a CONNECT of another protocol ends it with a decode error, and a
    delay that is over with a timeout. *)
Theorem server_by_version delay x content rest :
  len content <= MAX_VARINT -> arrived x = frame_bytes pt_CONNECT content ++ rest ->
  (delay = true /\ (delay_poll x).1 = true -> (poll (SVersion delay) x).1 = (Some (err MHandshakeTimeout), SVersion delay)) /\
  (delay = false \/ (delay_poll x).1 = false ->
   (forall p, V3Codec.decode_packet content pt_CONNECT = Ok p ->
      exists x', arrived x' = arrived x /\ poll (SVersion delay) x = poll_handler3 (call3 delay x').1 (call3 delay x').2) /\
   (forall p, V5Codec.decode_packet content pt_CONNECT = Ok p ->
      exists x', arrived x' = arrived x /\ poll (SVersion delay) x = poll_handler5 (call5 delay x').1 (call5 delay x').2) /\
   (forall e, version_decode (arrived x) = Err e ->
      (poll (SVersion delay) x).1 = (Some (err (MProtocol (PDecode e))), SVersion delay))).
Proof.
  intros Hl Ha. split.
  - intros [-> Hd]. cbn. by destruct (delay_poll x) as [[] x'].
  - intros Hd.
    assert (Hv : exists x', arrived x' = arrived x /\ poll (SVersion delay) x = poll_version delay x').
    { cbn. destruct delay; [ | by exists x]. destruct Hd as [|Hd]; [done | ].
      pose proof (delay_arrived x) as Hx. destruct (delay_poll x) as [late x']; cbn in *. rewrite Hd. by exists x'. }
    destruct Hv as (x1 & Hx1 & ->). clear Hd. unfold poll_version.
    assert (Hn : forall v, version_decode (arrived x) = Ok (Some v) ->
      exists x', version_next x1 = (Some (ok (Some v)), x') /\ arrived x' = arrived x).
    { intros v Hv. rewrite <- Hx1 in *. by apply next_version. }
    destruct (version_codec content rest Hl) as [H3 H5]. rewrite <- Ha in H3, H5.
    split; [ | split].
    + intros p Hp%H3. destruct (Hn _ Hp) as (x' & -> & Hx'). exists x'. split; [done | ]. by destruct (call3 delay x').
    + intros p Hp%H5. destruct (Hn _ Hp) as (x' & -> & Hx'). exists x'. split; [done | ]. by destruct (call5 delay x').
    + intros e He. rewrite <- Hx1 in He. apply next_error in He.
      destruct (version_next x1) as [r x']. cbn in He. by rewrite He.
Qed.

End Response.

(** ** A server to run: connections are bytes, and whether the delay is over *)

#[local] Instance demo_env : ServerEnv (bytes * bool) nat nat unit := {|
  arrived x := x.1;
  delay_poll x := (x.2, x);
  version_next x :=
    (match version_decode x.1 with
     | Ok (Some v) => Some (ok (Some v))
     | Err e => Some (err (inl e))
     | _ => None
     end, x);
  call3 _ x := (length x.1, x);
  call5 _ x := (length x.1, x);
  poll3 f x := (None, f, x);
  poll5 f x := (Some (ok tt), f, x);
|}.

#[local] Instance demo_laws : ServerEnvLaws (bytes * bool) nat nat unit.
Proof.
  split; [done | | ].
  - intros x v Hv. cbn in *. rewrite Hv. by exists x.
  - intros x e He. cbn in *. by rewrite He.
Qed.

Definition demo_content : bytes := V5Codec.content MAX_PACKET_SIZE (V5Codec.Pkt_Connect V5Codec.sample_connect).
Definition demo_bytes : bytes := frame_bytes pt_CONNECT demo_content ++ [192; 0].

Lemma server_by_version_witness :
  (poll (SVersion true) (demo_bytes, true)).1 = (Some (err MHandshakeTimeout), SVersion true) /\
  exists x', x'.1 = demo_bytes /\
    poll (SVersion true) (demo_bytes, false) = poll_handler5 (call5 true x').1 (call5 true x').2.
Proof.
  split.
  - apply (proj1 (server_by_version true (demo_bytes, true) demo_content [192; 0] ltac:(vm_compute; discriminate) eq_refl)).
    split; reflexivity.
  - eapply (proj1 (proj2 (proj2 (server_by_version true (demo_bytes, false) demo_content [192; 0]
               ltac:(vm_compute; discriminate) eq_refl) (or_intror eq_refl)))).
    vm_compute. reflexivity.
Defined.
