(* ===== verification/Serving.v ===== *)
(** * A connection: codec, io dispatcher and protocol dispatcher together

    [Dispatcher::with(io, state, codec, service, timer)] joins three parts:
    the codec that cuts packets out of the read buffer, the io dispatcher
    ([IoPoll]) and the service, which is a protocol dispatcher.  This file
    puts them together for any protocol dispatcher.  The class [Protocol] has
    its operations, [ProtocolLaws] what it promises: the response to an item
    answers that item, and it panics only if it may ([pl_may_panic]).  [V3Serving] and [V5Serving]
    discharge it.  What ntex and the application do is the class [Ntex]:
    they may move the protocol dispatcher only as [pl_move] allows. *)

From stdpp Require Import base gmap list relations.
From S2P Require Import Prelude Types Wire Framing Sink IoDispatcher IoPoll.
Open Scope Z_scope.

(** ** Interfaces *)

(** [D] is the protocol dispatcher with the sink and the codec, [Resp] its
    futures, [Choice] what the futures of the application's services give
    when one of these is polled. *)
Class Protocol (D Resp Choice I T IE : Type) := {
  pr_call : DispatchItem I DecodeError EncodeError IE -> D -> option (Resp * D);
  pr_poll : Choice -> Resp -> D -> option (option T * Resp * D);
  pr_shutdown : bool -> D -> option D;
  pr_decode : D -> bytes -> dres (option I) * D * bytes;
  (* the codec's limit, its state and its content decoder *)
  pr_max : D -> Z;
  pr_state : D -> DecodeState;
  pr_decode_packet : bytes -> Z -> dres I;
  (* whether the connection is open *)
  pr_open : D -> bool;
}.

(** [kept d d']: nothing that decoding depends on has changed, and a closed
    connection has not been opened. *)
Definition kept {D Resp Choice I T IE} `{Protocol D Resp Choice I T IE} (d d' : D) : Prop :=
  pr_max d' = pr_max d /\ pr_state d' = pr_state d /\ (pr_open d' = true -> pr_open d = true).

Class ProtocolLaws (D Resp Choice I T IE : Type) `{Protocol D Resp Choice I T IE} := {
  (* states of a dispatcher, moves of ntex and the application, choices of the services *)
  pl_ok : D -> Prop;
  pl_move : relation D;
  pl_valid : Resp -> Choice -> Prop;
  (* whether the code can panic; a future of the call of a state with an item;
     an answer to such a call, in a connection that is still open or not *)
  pl_may_panic : Prop;
  pl_about : D -> DispatchItem I DecodeError EncodeError IE -> Resp -> Prop;
  pl_answers : bool -> D -> DispatchItem I DecodeError EncodeError IE -> T -> Prop;
  pl_closed d i t : pl_answers true d i t -> pl_answers false d i t;
  pl_call i d : pl_ok d ->
    match pr_call i d with
    | Some (r, d') => pl_about d i r /\ pl_ok d' /\ kept d d'
    | None => pl_may_panic
    end;
  pl_poll d0 i ch r d : pl_ok d -> pl_about d0 i r -> pl_valid r ch ->
    match pr_poll ch r d with
    | Some (x, r', d') =>
        pl_ok d' /\ kept d d' /\
        match x with Some t => pl_answers (pr_open d') d0 i t | None => pl_about d0 i r' end
    | None => pl_may_panic
    end;
  pl_shutdown b d : pl_ok d ->
    match pr_shutdown b d with Some d' => pl_ok d' /\ kept d d' | None => pl_may_panic end;
  pl_moved d d' : pl_ok d -> pl_move d d' -> pl_ok d' /\ kept d d';
  pl_decode d b r d' b' : pr_decode d b = (r, d', b') ->
    frame_decode pr_decode_packet (pr_max d) (pr_state d) b = (r, pr_state d', b') /\
    pr_max d' = pr_max d /\ pr_open d' = pr_open d /\ (pl_ok d -> pl_ok d');
  pl_decode_packet b first : no_panic (pr_decode_packet b first);
}.

(** The operations of ntex and the application on the connection; [W] is
    whatever they keep. *)
Inductive NtexOp : Type :=
| Op_resume | Op_pause | Op_wake | Op_wake_dispatcher | Op_stopped | Op_shutdown | Op_register
| Op_timer_register (expire prev : Z) | Op_timer_unregister (expire : Z).
Inductive NtexFlag : Type := Flag_ready | Flag_keepalive | Flag_stopped.

Class Ntex (D Resp Choice T S IE W : Type) := {
  nx_service_ready : D * W -> option (result unit S) * (D * W);
  nx_service_poll : Resp -> D * W -> Choice * (D * W);
  nx_encode_result : T -> D * W -> option (S + EncodeError) * (D * W);
  nx_io_error : D * W -> option IE * (D * W);
  nx_do : NtexOp -> D * W -> D * W;
  nx_flag : NtexFlag -> D * W -> bool;
  nx_now : D * W -> Z;
}.

Class NtexLaws (D Resp Choice I T S IE W : Type) `{ProtocolLaws D Resp Choice I T IE, !Ntex D Resp Choice T S IE W} := {
  nl_ready dw : rtc pl_move dw.1 (nx_service_ready dw).2.1;
  nl_poll r dw : rtc pl_move dw.1 (nx_service_poll r dw).2.1;
  nl_encode t dw : rtc pl_move dw.1 (nx_encode_result t dw).2.1;
  nl_io_error dw : rtc pl_move dw.1 (nx_io_error dw).2.1;
  nl_do op dw : rtc pl_move dw.1 (nx_do op dw).1;
  nl_valid r dw : pl_valid r (nx_service_poll r dw).1;
}.

(** ** The connection *)
Section Connection.
Context {D Resp Choice I T S IE W : Type}.
Context `{Pr : Protocol D Resp Choice I T IE} `{Nx : !Ntex D Resp Choice T S IE W}.
Abbreviation Item := (DispatchItem I DecodeError EncodeError IE).

(** [c_buf] is the read buffer.  For the statements below, [c_received] has
    all the bytes that have arrived, [c_called] what the service was called
    with and in which state, [c_failed] says that decoding gave an error, and [c_panicked] that
    some code panicked. *)
Record Conn : Type := mkConn {
  c_d : D;
  c_w : W;
  c_buf : bytes;
  c_received : bytes;
  c_called : list (D * Item);
  c_failed : bool;
  c_panicked : bool;
}.

Definition c_items (x : Conn) : list Item := (c_called x).*2.

Definition set_d (d : D) (x : Conn) : Conn :=
  mkConn d (c_w x) (c_buf x) (c_received x) (c_called x) (c_failed x) (c_panicked x).
Definition set_dw (dw : D * W) (x : Conn) : Conn :=
  mkConn dw.1 dw.2 (c_buf x) (c_received x) (c_called x) (c_failed x) (c_panicked x).
Definition set_panicked (x : Conn) : Conn :=
  mkConn (c_d x) (c_w x) (c_buf x) (c_received x) (c_called x) (c_failed x) true.
Definition add_item (item : Item) (x : Conn) : Conn :=
  mkConn (c_d x) (c_w x) (c_buf x) (c_received x) (c_called x ++ [(c_d x, item)]) (c_failed x) (c_panicked x).
Definition set_decoded (d : D) (buf : bytes) (failed : bool) (x : Conn) : Conn :=
  mkConn d (c_w x) buf (c_received x) (c_called x) (c_failed x || failed) (c_panicked x).
Definition receive (chunk : bytes) (x : Conn) : Conn :=
  mkConn (c_d x) (c_w x) (c_buf x ++ chunk) (c_received x ++ chunk) (c_called x) (c_failed x) (c_panicked x).

Definition on_ntex {A} (f : D * W -> A * (D * W)) (x : Conn) : A * Conn :=
  let (a, dw) := f (c_d x, c_w x) in (a, set_dw dw x).
Definition do_ntex (op : NtexOp) (x : Conn) : Conn := set_dw (nx_do op (c_d x, c_w x)) x.

(** A future that panicked is lost ([None]). *)
Definition conn_call (item : Item) (x : Conn) : option Resp * Conn :=
  let x := add_item item x in
  match pr_call item (c_d x) with
  | Some (r, d) => (Some r, set_d d x)
  | None => (None, set_panicked x)
  end.

Definition conn_poll (f : option Resp) (x : Conn) : option T * option Resp * Conn :=
  match f with
  | None => (None, None, x)
  | Some r =>
      let (ch, x) := on_ntex (nx_service_poll r) x in
      match pr_poll ch r (c_d x) with
      | Some (t, r, d) => (t, Some r, set_d d x)
      | None => (None, None, set_panicked x)
      end
  end.

(** [poll_shutdown] of both protocol dispatchers is ready at once. *)
Definition conn_shutdown (is_error : bool) (x : Conn) : bool * Conn :=
  match pr_shutdown is_error (c_d x) with
  | Some d => (true, set_d d x)
  | None => (true, set_panicked x)
  end.

Definition conn_decode (x : Conn) : result (option I) DecodeError * Conn :=
  let '(r, d, buf) := pr_decode (c_d x) (c_buf x) in
  match r with
  | Ok o => (ok o, set_decoded d buf false x)
  | Err e => (err e, set_decoded d buf true x)
  | Panic => (ok None, set_panicked x)
  end.

#[export] Instance ConnEnv : IoEnv Conn (option Resp) I T S EncodeError DecodeError IE := {
  service_poll_ready := on_ntex nx_service_ready;
  service_call := conn_call;
  service_poll_shutdown := conn_shutdown;
  future_poll := conn_poll;
  read_resume := do_ntex Op_resume;
  read_pause := do_ntex Op_pause;
  read_wake := do_ntex Op_wake;
  read_is_ready x := nx_flag Flag_ready (c_d x, c_w x);
  read_decode := conn_decode;
  encode_result t := on_ntex (nx_encode_result t);
  wake_dispatcher := do_ntex Op_wake_dispatcher;
  is_keepalive x := nx_flag Flag_keepalive (c_d x, c_w x);
  is_dispatcher_stopped x := nx_flag Flag_stopped (c_d x, c_w x);
  dispatcher_stopped := do_ntex Op_stopped;
  take_io_error := on_ntex nx_io_error;
  shutdown_io := do_ntex Op_shutdown;
  register_dispatcher := do_ntex Op_register;
  timer_now x := nx_now (c_d x, c_w x);
  timer_register e p := do_ntex (Op_timer_register e p);
  timer_unregister e := do_ntex (Op_timer_unregister e);
}.

Abbreviation Io := (Dispatcher (Fut := option Resp) (T := T) (S := S) (U := EncodeError)).

(** The packets among the items *)
Definition packets (l : list Item) : list I :=
  l ≫= fun item => match item with DI_Item p => [p] | _ => [] end.

(** ** Invariant *)

Context {PL : ProtocolLaws D Resp Choice I T IE} {NL : NtexLaws D Resp Choice I T S IE W}.

(** Only the protocol dispatcher and the state of ntex have changed. *)
Record moved (x x' : Conn) : Prop := {
  mv_ok : pl_ok (c_d x) -> pl_ok (c_d x') /\ kept (c_d x) (c_d x');
  mv_buf : c_buf x' = c_buf x;
  mv_received : c_received x' = c_received x;
  mv_called : c_called x' = c_called x;
  mv_failed : c_failed x' = c_failed x;
  mv_panicked : c_panicked x' = c_panicked x;
}.

Lemma mv_items x x' : moved x x' -> c_items x' = c_items x.
Proof. intros Hm. unfold c_items. by rewrite (mv_called _ _ Hm). Qed.

#[local] Instance moved_preorder : PreOrder moved.
Proof.
  split; [by split | ]. intros x y z [H1 H2 H3 H4 H5 H6] [G1 G2 G3 G4 G5 G6].
  split; [ | congruence ..]. intros [Hy (Hm & Hs & Ho)]%H1. destruct (G1 Hy) as [Hz (Gm & Gs & Go)].
  split; [done | ]. unfold kept in *. split_and!; [congruence .. | auto].
Qed.

Lemma moves_ok d d' : rtc pl_move d d' -> pl_ok d -> pl_ok d' /\ kept d d'.
Proof.
  induction 1 as [d|d1 d2 d3 Hm _ IH]; intros Hd; [done | ].
  destruct (pl_moved _ _ Hd Hm) as [H2 (E1 & E2 & O1)]. destruct (IH H2) as [H3 (E3 & E4 & O2)].
  split; [done | ]. unfold kept. split_and!; [congruence .. | auto].
Qed.

Lemma on_ntex_moved {A} (f : D * W -> A * (D * W)) x :
  (forall dw, rtc pl_move dw.1 (f dw).2.1) -> moved x (on_ntex f x).2.
Proof.
  intros Hf. unfold on_ntex. specialize (Hf (c_d x, c_w x)). destruct (f _) as [a [d w]].
  split; cbn in *; try done. by apply moves_ok.
Qed.

Lemma do_ntex_moved op x : moved x (do_ntex op x).
Proof.
  pose proof (nl_do op (c_d x, c_w x)) as Hd. split; cbn in *; try done. by apply moves_ok.
Qed.

(** The bytes that have arrived decode to the packets [ps], and then to what
    the rest of the buffer decodes to; after an error, to [ps] at least. *)
Definition drained (d : D) := drain (P := I) pr_decode_packet (pr_max d).
Definition prepend {P R St B} (ps : list P) (x : list P * R * St * B) : list P * R * St * B :=
  let '(qs, r, st, b) := x in (ps ++ qs, r, st, b).
Definition decoded_packets (x : Conn) : list I := (drained (c_d x) FrameHeader (c_received x)).1.1.1.

Definition streamed (x : Conn) (ps : list I) : Prop :=
  state_ok (pr_max (c_d x)) (pr_state (c_d x)) /\
  if c_failed x then ps `prefix_of` decoded_packets x
  else forall more, drained (c_d x) FrameHeader (c_received x ++ more) =
         prepend ps (drained (c_d x) (pr_state (c_d x)) (c_buf x ++ more)).

(** The future of call [n] answers item [n]. *)
Definition made (x : Conn) (n : nat) (f : option Resp) : Prop :=
  exists d0 item r, c_called x !! n = Some (d0, item) /\ f = Some r /\ pl_about d0 item r.

(** [t] answers call [n]. *)
Definition answered (x : Conn) (n : nat) (t : T) : Prop :=
  exists d0 item, c_called x !! n = Some (d0, item) /\ pl_answers (pr_open (c_d x)) d0 item t.

Lemma answered_later x x' n t :
  (pr_open (c_d x') = true -> pr_open (c_d x) = true) -> c_called x `prefix_of` c_called x' ->
  answered x n t -> answered x' n t.
Proof.
  intros Ho Hp (d0 & item & Hl & Ha). exists d0, item. split; [by eapply prefix_lookup_Some | ].
  destruct (pr_open (c_d x')); [by rewrite Ho in Ha | ]. destruct (pr_open (c_d x)); [by apply pl_closed | done].
Qed.

Record serves (d : Io) (x : Conn) : Prop := {
  sv_calls : length (c_called x) = d_calls d;
  sv_response : forall n f, d_response d = Some (n, f) -> made x n f;
  sv_spawned : forall n f i, d_spawned d !! n = Some (f, i) -> made x n f;
  sv_done : forall n t, d_done d !! n = Some t -> answered x n t;
  sv_failed : c_failed x = true -> d_st d <> Processing;
  sv_ok : pl_ok (c_d x);
  sv_panicked : c_panicked x = false;
}.

Lemma serves_moved d x x' : moved x x' -> serves d x -> serves d x'.
Proof.
  intros [H1 H2 H3 H4 H5 H6] [S1 S2 S3 S4 S5 S6 S7]. destruct (H1 S6) as [Hok (_ & _ & Ho)].
  split; unfold made in *; rewrite ?H4, ?H5, ?H6; try done.
  intros n t Ht%S4. eapply answered_later; [done | by rewrite H4 | done].
Qed.

Lemma answered_moved x x' n t : moved x x' -> pl_ok (c_d x) -> answered x n t -> answered x' n t.
Proof.
  intros Hm Hok. apply answered_later; [ | by rewrite (mv_called _ _ Hm)].
  by destruct (mv_ok _ _ Hm Hok) as [_ (_ & _ & ?)].
Qed.

Lemma streamed_moved x x' ps : moved x x' -> pl_ok (c_d x) -> streamed x ps -> streamed x' ps.
Proof.
  intros [H1 H2 H3 H4 H5 H6] [_ (Em & Es & _)]%H1.
  unfold streamed, decoded_packets, drained. by rewrite H2, H3, H5, Em, Es.
Qed.

(** The parts of the io dispatcher that the invariant is about *)
Lemma serves_core d d' x :
  d_calls d' = d_calls d -> d_response d' = d_response d -> d_spawned d' = d_spawned d ->
  d_done d' = d_done d -> (d_st d' = Processing -> d_st d = Processing) -> serves d x -> serves d' x.
Proof.
  intros E1 E2 E3 E4 E5 [S1 S2 S3 S4 S5 S6 S7].
  split; rewrite ?E1, ?E2, ?E3, ?E4; try done. intros Hf Hs. by apply S5, E5.
Qed.

(** ** What every step does

    A panic is final, and only arriving bytes count as received. *)

Definition ruined (x : Conn) : Prop := c_panicked x = true /\ pl_may_panic.
Definition onward (x x' : Conn) : Prop :=
  (c_panicked x = true -> c_panicked x' = true) /\ c_received x' = c_received x.
#[local] Instance onward_preorder : PreOrder onward.
Proof. split; unfold onward; [done | ]. intros x y z [H1 H2] [H3 H4]. split; [auto | congruence]. Qed.

Lemma moved_onward x x' : moved x x' -> onward x x'.
Proof. intros Hm. unfold onward. by rewrite (mv_panicked _ _ Hm), (mv_received _ _ Hm). Qed.
#[local] Hint Resolve moved_onward : core.

Lemma ruined_onward x x' : onward x x' -> ruined x -> ruined x'.
Proof. intros [Hg _] [H1 H2]. split; auto. Qed.

Lemma conn_call_onward item x f x' : conn_call item x = (f, x') -> onward x x'.
Proof. unfold conn_call. destruct (pr_call _ _) as [[r d]|]; by intros [= <- <-]; split. Qed.

Lemma conn_poll_onward f x t f' x' : conn_poll f x = (t, f', x') -> onward x x'.
Proof.
  destruct f as [r|]; cbn [conn_poll]; [ | by intros [= <- <- <-]].
  pose proof (moved_onward _ _ (on_ntex_moved (nx_service_poll r) x (nl_poll r))) as Hg.
  destruct (on_ntex (nx_service_poll r) x) as [ch x1]. cbn in Hg.
  destruct (pr_poll ch r (c_d x1)) as [[[t1 r1] d1]|]; intros [= <- <- <-];
    [exact Hg | by split; [ | apply Hg]].
Qed.

Lemma conn_shutdown_onward b x : onward x (conn_shutdown b x).2.
Proof. unfold conn_shutdown. destruct (pr_shutdown b (c_d x)); by split. Qed.

Lemma conn_decode_onward x r x' : conn_decode x = (r, x') -> onward x x'.
Proof. unfold conn_decode. destruct (pr_decode _ _) as [[[o|e|] d] b]; by intros [= <- <-]; split. Qed.

(** ** Steps *)

Lemma made_moved x x' n f : c_called x' = c_called x -> made x n f -> made x' n f.
Proof. unfold made. by intros ->. Qed.

(** Polling the future of an item *)
Lemma conn_poll_made x n f t f' x' :
  conn_poll f x = (t, f', x') -> pl_ok (c_d x) -> made x n f ->
  (ruined x' /\ t = None) \/
  (moved x x' /\
   match t with
   | Some t => answered x' n t
   | None => made x' n f'
   end).
Proof.
  intros H Hok (d0 & item & r & Hi & -> & Ha). unfold conn_poll in H.
  pose proof (on_ntex_moved (nx_service_poll r) x (nl_poll r)) as Hm.
  assert (Hv : pl_valid r (on_ntex (nx_service_poll r) x).1).
  { pose proof (nl_valid r (c_d x, c_w x)). unfold on_ntex. by destruct (nx_service_poll r _). }
  destruct (on_ntex (nx_service_poll r) x) as [ch x1]. cbn in Hm, Hv.
  destruct (mv_ok _ _ Hm Hok) as [Hok1 _].
  pose proof (pl_poll d0 item ch r (c_d x1) Hok1 Ha Hv) as Hp.
  destruct (pr_poll ch r (c_d x1)) as [[[t1 r'] d']|]; injection H as <- <- <-; [right | by left].
  destruct Hp as (Hok' & Hk & Ht). split.
  - etrans; [exact Hm | ]. by split.
  - destruct t1 as [t|]; [exists d0, item | exists d0, item, r']; cbn; by rewrite (mv_called _ _ Hm).
Qed.

(** What writing results does to the connection and the record of them *)
Definition logged (w w' : Conn * list T) : Prop := moved w.1 w'.1.
#[local] Instance logged_preorder : PreOrder logged.
Proof. split; unfold logged; [by intros w | intros w1 w2 w3; by etrans]. Qed.

Lemma encode_log_moved t w : logged w (encode_log t w).2.
Proof.
  unfold logged, encode_log. cbn. pose proof (on_ntex_moved (nx_encode_result t) w.1 (nl_encode t)) as Hm.
  by destruct (on_ntex (nx_encode_result t) w.1).
Qed.

Lemma finish_moved k t idx wake d x d' x' :
  finish k t idx wake d x = Some (d', x') ->
  moved x x' /\ exists inner log, d' = record k t (set_inner inner log d).
Proof.
  unfold finish. destruct (handle_result _ _ _ _ _ _) as [[[w inner] [x1 log]]|] eqn:Eh; [ | done].
  apply (handle_result_rel encode_log logged encode_log_moved) in Eh. unfold logged in Eh. cbn in Eh.
  intros [= <- <-]. split; [ | by exists inner, log]. destruct w; [ | done].
  etrans; [exact Eh | apply do_ntex_moved].
Qed.

(** A call that is finished: its result is recorded, and its future, if it
    was still held, is gone. *)
Lemma serves_finished k t d d' x :
  answered x k t ->
  d_calls d' = d_calls d -> d_done d' = <[k := t]> (d_done d) -> d_st d' = d_st d ->
  (forall n f, d_response d' = Some (n, f) -> d_response d = Some (n, f)) ->
  (forall n f, d_spawned d' !! n = Some f -> d_spawned d !! n = Some f) ->
  serves d x -> serves d' x.
Proof.
  intros Hk E1 E2 E3 E4 E5 [S1 S2 S3 S4 S5 S6 S7]. split; rewrite ?E1, ?E2, ?E3; try done.
  - intros n f Hr. by apply S2, E4.
  - intros n f i Hs. by eapply S3, E5.
  - intros n t'. destruct (decide (n = k)) as [->|Hne]; [rewrite lookup_insert_eq | rewrite lookup_insert_ne by done];
      [by intros [= <-] | apply S4].
Qed.

Lemma poll_response_serves d x d' x' :
  poll_response d x = Some (d', x') -> serves d x -> ruined x' \/ serves d' x' /\ moved x x'.
Proof.
  unfold poll_response. destruct (d_response d) as [[n f]|] eqn:Er; [ | by right; simplify_eq].
  intros H Hs. cbn [future_poll ConnEnv] in H. destruct (conn_poll f x) as [[t f'] x1] eqn:Ep.
  destruct (conn_poll_made _ _ _ _ _ _ Ep (sv_ok _ _ Hs) (sv_response _ _ Hs _ _ Er)) as [[Hr ->]|[Hm Ht]];
    [left; by injection H as <- <- | right]. destruct t as [t|].
  - destruct (finish n t _ false d x1) as [[d2 x2]|] eqn:Ef; [injection H as <- <- | done].
    apply finish_moved in Ef as (Hm2 & inner & log & ->).
    split; [ | by etrans].
    apply (serves_moved _ x1); [done | ]. apply (serves_finished n t d); try done. by apply (serves_moved _ x).
  - injection H as <- <-. split; [ | done]. apply (serves_moved _ _ x1) in Hs; [ | done].
    destruct Hs as [S1 S2 S3 S4 S5 S6 S7]. split; cbn; try done. by intros m g [= <- <-].
Qed.

Lemma poll_task_serves k d x d' x' :
  poll_task k d x = Some (d', x') -> serves d x -> ruined x' \/ serves d' x' /\ moved x x'.
Proof.
  unfold poll_task. destruct (d_spawned d !! k) as [[f idx]|] eqn:Es; [ | by right; simplify_eq].
  intros H Hs. cbn [future_poll ConnEnv] in H. destruct (conn_poll f x) as [[t f'] x1] eqn:Ep.
  destruct (conn_poll_made _ _ _ _ _ _ Ep (sv_ok _ _ Hs) (sv_spawned _ _ Hs _ _ _ Es)) as [[Hr ->]|[Hm Ht]];
    [left; by injection H as <- <- | right]. destruct t as [t|].
  - destruct (finish k t _ true d x1) as [[d2 x2]|] eqn:Ef; [injection H as <- <- | done].
    apply finish_moved in Ef as (Hm2 & inner & log & ->).
    split; [ | by etrans]. apply (serves_moved _ x1); [done | ].
    apply (serves_finished k t d); try done; [ | by apply (serves_moved _ x)]. cbn. intros n g Hg. by apply lookup_delete_Some in Hg as [_ Hg].
  - injection H as <- <-. split; [ | done]. apply (serves_moved _ _ x1) in Hs; [ | done].
    destruct Hs as [S1 S2 S3 S4 S5 S6 S7]. split; cbn; try done. intros m g i Hg.
    destruct (decide (m = k)) as [->|Hne]; [rewrite lookup_insert_eq in Hg | rewrite lookup_insert_ne in Hg by done];
      [by injection Hg as <- _ | by eapply S3].
Qed.

(** Decoding takes the next packet of the stream. *)
Lemma conn_decode_streamed x ps r x' :
  conn_decode x = (r, x') -> pl_ok (c_d x) -> c_failed x = false -> streamed x ps ->
  pl_ok (c_d x') /\ pr_open (c_d x') = pr_open (c_d x) /\ c_called x' = c_called x /\ c_panicked x' = c_panicked x /\
  match r with
  | ok o => c_failed x' = false /\ streamed x' (ps ++ match o with Some el => [el] | None => [] end)
  | err _ => streamed x' ps
  end.
Proof.
  intros H Hok Hf [Hst Hs]. rewrite Hf in Hs. unfold conn_decode in H.
  destruct (pr_decode (c_d x) (c_buf x)) as [[o d'] buf'] eqn:Ed.
  apply pl_decode in Ed as (Ed & Em & Ho & Hok'). specialize (Hok' Hok).
  destruct (frame_decode_ok _ _ _ _ _ _ _ pl_decode_packet Hst Ed) as [Hnp Hst'].
  destruct o as [o|e|]; [ | | done]; injection H as <- <-; cbn [c_d c_called c_panicked set_decoded];
    (split; [exact Hok' | ]); (split; [done | ]); (split; [done | ]); (split; [done | ]).
  - split; [cbn; by rewrite Hf | ]. unfold streamed, drained.
    cbn [c_d c_buf c_received c_failed set_decoded]. rewrite Hf, Em. split; [exact Hst' | ]. cbn [orb].
    intros more. specialize (Hs more). unfold drained in Hs. rewrite Hs.
    pose proof (frame_decode_app pr_decode_packet (pr_max (c_d x)) (pr_state (c_d x)) (c_buf x) more) as Ha.
    rewrite Ed in Ha. rewrite (drain_eq _ _ (pr_state (c_d x))). destruct o as [el|]; rewrite Ha.
    + destruct (drain pr_decode_packet (pr_max (c_d x)) (pr_state d') (buf' ++ more)) as [[[qs r] st] b]. cbn [prepend].
      by rewrite <- app_assoc.
    + rewrite <- drain_eq, app_nil_r. done.
  - unfold streamed, decoded_packets, drained.
    cbn [c_d c_buf c_received c_failed set_decoded]. rewrite Hf, Em. split; [exact Hst' | ]. cbn [orb].
    specialize (Hs []). rewrite app_nil_r in Hs. unfold drained in Hs. rewrite Hs, app_nil_r, drain_eq, Ed.
    cbn. by rewrite app_nil_r.
Qed.

Lemma update_keepalive_moved (d : Io) x d' x' :
  update_keepalive d x = (d', x') -> moved x x' /\ core d' = core d /\ d_st d' = d_st d.
Proof.
  intros E. pose proof (update_keepalive_core d x) as Hc. rewrite E in Hc. split; [ | done].
  revert E. unfold update_keepalive. repeat case_match; intros [= <- <-]; try done. apply do_ntex_moved.
Qed.

Lemma check_keepalive_moved (d : Io) x d' x' :
  check_keepalive d x = (d', x') -> moved x x' /\ core d' = core d /\ d_st d' = d_st d.
Proof.
  intros E. pose proof (check_keepalive_core d x) as Hc. rewrite E in Hc. split; [ | done].
  revert E. unfold check_keepalive. case_match; intros [= <- <-]; try done. apply do_ntex_moved.
Qed.

Lemma take_error_moved (d : Io) x o d' x' :
  take_error d x = (o, d', x') -> moved x x' /\ core d' = core d /\ packets (option_list o) = [].
Proof.
  intros E. pose proof (take_error_core d x) as Hc. rewrite E in Hc. destruct Hc as [Hc _]. revert E.
  unfold take_error. pose proof (on_ntex_moved nx_io_error x nl_io_error) as Hm. cbn [take_io_error ConnEnv].
  destruct (match error (d_inner d) with Some _ => _ | None => _ end) as [[[k|e]|] d0]; [intros [= <- <- <-] .. | ];
    try done. destruct (on_ntex nx_io_error x) as [[e|] x1]; by intros [= <- <- <-].
Qed.

Lemma serves_core' (d d' : Io) x :
  core d' = core d -> (d_st d' = Processing -> d_st d = Processing) -> serves d x -> serves d' x.
Proof. unfold core. intros [= E1 E2 E3 E4 E5 E6 E7 E8]. by apply serves_core. Qed.

(** The io dispatcher and the connection together; [todo] is what has been
    decoded and not handed to the service yet. *)
Definition good (todo : list Item) (d : Io) (x : Conn) : Prop :=
  serves d x /\ streamed x (packets (c_items x ++ todo)).

Lemma good_moved todo d d' x x' :
  moved x x' -> core d' = core d -> (d_st d' = Processing -> d_st d = Processing) ->
  good todo d x -> good todo d' x'.
Proof.
  intros Hm Hc Hst [Hs Hg]. split.
  - apply (serves_core' d); [done | done | by eapply serves_moved].
  - rewrite (mv_items _ _ Hm). eapply streamed_moved; [done | apply (sv_ok _ _ Hs) | done].
Qed.

Lemma packets_app l k : packets (l ++ k) = packets l ++ packets k.
Proof. apply bind_app. Qed.

Lemma serves_decoded d d' x x' :
  serves d x -> pl_ok (c_d x') -> (pr_open (c_d x') = true -> pr_open (c_d x) = true) ->
  c_called x' = c_called x -> c_panicked x' = c_panicked x ->
  core d' = core d -> (d_st d' = Processing -> d_st d = Processing) ->
  (c_failed x' = true -> d_st d' <> Processing) -> serves d' x'.
Proof.
  intros [S1 S2 S3 S4 S5 S6 S7] Hok Ho Hi Hp. unfold core. intros [= E1 E2 E3 E4 E5 E6 E7 E8] Hst Hf.
  split; unfold made in *; rewrite ?Hi, ?E4, ?E5, ?E6, ?E8; try done; [ | congruence].
  intros n t Ht%S4. eapply answered_later; [done | by rewrite Hi | done].
Qed.

Lemma unregister_moved (d : Io) x : moved x (unregister_keepalive d x).
Proof. unfold unregister_keepalive. case_match; [done | apply do_ntex_moved]. Qed.

(** What a round has decoded *)
Definition round_decoded (x : Conn) (r : result (option I) DecodeError) (x' : Conn) : Prop :=
  pl_ok (c_d x') /\ (pr_open (c_d x') = true -> pr_open (c_d x) = true) /\
  c_called x' = c_called x /\ c_panicked x' = c_panicked x /\
  match r with
  | ok o => c_failed x' = false /\ streamed x' (packets (c_items x) ++ match o with Some el => [el] | None => [] end)
  | err _ => streamed x' (packets (c_items x))
  end.

Lemma good_decode d x x0 r x' :
  good [] d x -> d_st d = Processing -> moved x x0 -> conn_decode x0 = (r, x') -> round_decoded x r x'.
Proof.
  intros [Hs Hg] Hst Hm Hd. rewrite app_nil_r in Hg. destruct (mv_ok _ _ Hm (sv_ok _ _ Hs)) as [Hok0 (_ & _ & Ho)].
  unfold round_decoded. rewrite <- (mv_called _ _ Hm), <- (mv_items _ _ Hm), <- (mv_panicked _ _ Hm).
  destruct (conn_decode_streamed x0 (packets (c_items x0)) r x' Hd Hok0) as (H1 & H2 & H3); [ | | by rewrite H2].
  - rewrite (mv_failed _ _ Hm). destruct (c_failed x) eqn:Ef; [ | done]. by destruct (sv_failed _ _ Hs Ef).
  - rewrite (mv_items _ _ Hm). by eapply streamed_moved; [ | apply (sv_ok _ _ Hs) | ].
Qed.

(** A packet, or nothing, was decoded. *)
Lemma good_decoded d x o x' :
  good [] d x -> d_st d = Processing -> round_decoded x (ok o) x' ->
  good (match o with Some el => [DI_Item el] | None => [] end) d x'.
Proof.
  intros [Hs _] Hst (Hok & Ho & Hi & Hp & Hf & Hg). split.
  - by apply (serves_decoded d _ x); [ | | | | | | | congruence].
  - unfold c_items in *. rewrite packets_app, Hi. by destruct o.
Qed.

(** The dispatcher stops, with an item that is no packet or without one. *)
Lemma good_stop d d' x r x1 x' item :
  good [] d x -> d_st d = Processing -> round_decoded x r x1 ->
  match r with ok (Some _) => False | _ => True end ->
  moved x1 x' -> core d' = core d -> packets item = [] -> good item (set_st Stop d') x'.
Proof.
  intros [Hs _] Hst (Hok & Ho & Hi & Hp & Hr) Hn Hm Hc He. split.
  - apply (serves_moved _ x1); [done | ]. by apply (serves_decoded d _ x).
  - rewrite packets_app, He, app_nil_r, (mv_items _ _ Hm). unfold c_items in *. rewrite Hi. eapply streamed_moved; [done | done | ].
    destruct r as [[el|]|e]; [done | by rewrite app_nil_r in Hr; apply Hr | done].
Qed.

Lemma next_item_good d x :
  good [] d x -> d_st d = Processing ->
  match next_item d x with
  | Round_item item retry d' x' => good (option_list item) d' x'
  | Round_wait x' => good [] d x'
  end.
Proof.
  intros Hg Hst. unfold next_item. cbn [is_dispatcher_stopped read_is_ready read_decode ConnEnv].
  destruct (nx_flag Flag_stopped _).
  - destruct (conn_decode (unregister_keepalive d x)) as [r x1] eqn:Ed.
    pose proof (good_decode d x _ _ _ Hg Hst (unregister_moved d x) Ed) as Hr.
    destruct r as [[el|]|e]; [by apply (good_decoded d x (Some el)) | | ];
      destruct (take_error d x1) as [[o d2] x2] eqn:Et; apply take_error_moved in Et as (Hm & Hc & Ho);
      by eapply (good_stop d).
  - destruct (nx_flag Flag_ready _); [ | apply (good_moved [] d d x); [apply do_ntex_moved | done | done | done]].
    destruct (conn_decode x) as [r x1] eqn:Ed.
    pose proof (good_decode d x _ _ _ Hg Hst (PreOrder_Reflexive _) Ed) as Hr.
    destruct r as [[el|]|e].
    + destruct (update_keepalive d x1) as [d2 x2] eqn:Eu. apply update_keepalive_moved in Eu as (Hm & Hc & Hs2).
      apply (good_moved _ d d2 x1); [done | done | congruence | ]. by apply (good_decoded d x (Some el)).
    + apply (good_moved _ d d x1); [apply do_ntex_moved | done | done | ]. by apply (good_decoded d x None).
    + by eapply (good_stop d); [ | | | | apply unregister_moved | | ].
Qed.

(** The service is called with it. *)
Lemma serves_called d x item f x' :
  serves d x -> conn_call item x = (f, x') ->
  (ruined x' /\ f = None) \/
  pl_ok (c_d x') /\ kept (c_d x) (c_d x') /\ c_called x' = c_called x ++ [(c_d x, item)] /\ c_failed x' = c_failed x /\
  c_panicked x' = false /\ c_buf x' = c_buf x /\ c_received x' = c_received x /\ made x' (d_calls d) f.
Proof.
  intros Hs. unfold conn_call. cbn [c_d add_item].
  pose proof (pl_call item (c_d x) (sv_ok _ _ Hs)) as Hp.
  destruct (pr_call item (c_d x)) as [[r d']|]; intros [= <- <-]; [right | by left].
  destruct Hp as (Ha & Hok & Hk).
  split; [done | ]. split; [done | ]. do 2 (split; [done | ]). split; [apply (sv_panicked _ _ Hs) | ].
  do 2 (split; [done | ]). exists (c_d x), item, r. cbn. split; [ | done]. rewrite <- (sv_calls _ _ Hs).
  by rewrite lookup_app_r, Nat.sub_diag by done.
Qed.

(** The state after a call, before its future is looked at: futures and
    results of earlier calls are as before. *)
Lemma good_called d d' x item f x' :
  good [item] d x -> conn_call item x = (f, x') ->
  d_calls d' = Datatypes.S (d_calls d) -> d_st d' = d_st d ->
  (forall n g, d_response d' = Some (n, g) -> d_response d = Some (n, g) \/ n = d_calls d /\ g = f) ->
  (forall n g i, d_spawned d' !! n = Some (g, i) -> (exists i, d_spawned d !! n = Some (g, i)) \/ n = d_calls d /\ g = f) ->
  d_done d' = d_done d -> (ruined x' /\ f = None) \/ good [] d' x'.
Proof.
  intros [Hs Hg] Hc E1 E2 E3 E4 E5.
  destruct (serves_called _ _ _ _ _ Hs Hc) as [|(Hok & (Em & Es & Ho) & Hi & Hf & Hp & Hb & Hr & Hm)]; [by left | right].
  assert (Hit : c_items x' = c_items x ++ [item]) by (unfold c_items; by rewrite Hi, fmap_app).
  destruct Hs as [S1 S2 S3 S4 S5 S6 S7].
  assert (Hold : forall n g, made x n g -> made x' n g).
  { intros n g (dt & it & r & Hl & Hg'). exists dt, it, r. rewrite Hi. split; [by apply lookup_app_l_Some | done]. }
  split; [ | unfold streamed, decoded_packets, drained in *; by rewrite app_nil_r, Hit, Hf, Hb, Hr, Em, Es].
  split; [ | | | | by rewrite Hf, E2 | done | done].
  - rewrite Hi, length_app, E1. cbn. lia.
  - intros n g [H|[-> ->]]%E3; [by apply Hold, S2 | done].
  - intros n g i [[j H]|[-> ->]]%E4; [by eapply Hold, S3 | done].
  - intros n t. rewrite E5. intros Ht%S4. eapply answered_later; [done | rewrite Hi; by eexists | done].
Qed.

Lemma call_service_good item d x d' x' :
  call_service item d x = (d', x') -> good [item] d x -> ruined x' \/ good [] d' x'.
Proof.
  intros H Hg. unfold call_service in H. cbn [service_call future_poll ConnEnv] in H.
  destruct (conn_call item x) as [f x1] eqn:Ec.
  destruct (d_response d) as [[m g]|] eqn:Er.
  { destruct (call_pending (d_inner d)) as [idx inner]. injection H as <- <-.
    destruct (good_called d (count_call (set_spawned (<[d_calls d := (f, idx)]> (d_spawned d)) (set_inner inner (d_log d) d)))
      x item f x1 Hg Ec) as [[? _]|?]; try done; cbn; [by eauto | | by left | by right]. intros n h i Hl.
    destruct (decide (n = d_calls d)) as [->|Hne]; [rewrite lookup_insert_eq in Hl | rewrite lookup_insert_ne in Hl by done].
    + injection Hl as <- _. by right.
    + left. by exists i. }
  destruct (serves_called _ _ _ _ _ (proj1 Hg) Ec) as [[Hru ->]|(Hok1 & _ & Hi1 & _ & _ & _ & _ & Hm1)].
  { left. cbn in H. by injection H as _ <-. }
  assert (Hg1 : good [] (count_call d) x1).
  { destruct (good_called d (count_call d) x item f x1 Hg Ec) as [[_ ->]|?]; eauto. by destruct Hm1 as (? & ? & ? & _ & ? & _). }
  destruct (conn_poll f x1) as [[t f'] x2] eqn:Ep.
  destruct (conn_poll_made _ _ _ _ _ _ Ep Hok1 Hm1) as [[Hru ->]|[Hm2 Ht]];
    [left; cbn in H; by injection H as _ <- | right].
  { apply (good_moved _ _ (count_call d) _ x2) in Hg1; [ | done | done | done].
    destruct t as [t|].
    + set (d1 := match queue (d_inner d) with [] => d | _ => _ end) in H.
      assert (Hd1 : d_calls d1 = d_calls d /\ d_done d1 = d_done d /\ d_st d1 = d_st d /\
                d_response d1 = d_response d /\ d_spawned d1 = d_spawned d)
        by (unfold d1; by destruct (queue (d_inner d))).
      clearbody d1. destruct Hd1 as (E1 & E2 & E3 & E4 & E5).
      pose proof (call_ready_rel encode_log logged encode_log_moved t (d_inner d1) (x2, d_log d1)) as Hm3.
      destruct (call_ready _ _ _ _) as [inner [x3 log]]. injection H as <- <-. unfold logged in Hm3. cbn in Hm3.
      destruct (good_moved _ _ (count_call d) _ x3 Hm3 eq_refl (fun e => e) Hg1) as [Hs3 Hg3]. split; [ | exact Hg3].
      apply (serves_finished (d_calls d) t (count_call d)); cbn; try congruence.
      by eapply answered_moved; [exact Hm3 | apply (mv_ok _ _ Hm2) | ].
    + destruct (call_pending (d_inner d)) as [idx inner]. injection H as <- <-.
      destruct Hg1 as [[S1 S2 S3 S4 S5 S6 S7] Hg1]. split; [ | exact Hg1].
      split; cbn; try done. by intros n h [= <- <-]. }
Qed.

Definition poll_conn (r : PollResult (X := Conn) (Fut := option Resp) (T := T) (S := S) (U := EncodeError)) : Conn :=
  match r with P_Pending _ x | P_Ready _ _ x | P_Panic _ x | P_OutOfFuel _ x => x end.

Lemma poll_response_onward (d : Io) x d' x' : poll_response d x = Some (d', x') -> onward x x'.
Proof.
  unfold poll_response. destruct (d_response d) as [[n f]|]; [ | by intros [= <- <-]]. cbn [future_poll ConnEnv].
  destruct (conn_poll f x) as [[t f'] x1] eqn:Ep. apply conn_poll_onward in Ep. destruct t as [t|]; [ | by intros [= <- <-]].
  destruct (finish n t _ false d x1) as [[d2 x2]|] eqn:Ef; [intros [= <- <-] | done].
  apply finish_moved in Ef as [Hm _]. etrans; [exact Ep | auto].
Qed.

Lemma next_item_onward d x :
  match next_item d x with Round_item _ _ _ x' | Round_wait x' => onward x x' end.
Proof.
  unfold next_item. cbn [is_dispatcher_stopped read_is_ready read_decode ConnEnv].
  pose proof (unregister_moved d x) as Hu. destruct (nx_flag Flag_stopped _).
  - destruct (conn_decode (unregister_keepalive d x)) as [r x1] eqn:Ed. apply conn_decode_onward in Ed.
    assert (Hg : onward x x1) by (etrans; [by apply moved_onward | done]).
    destruct r as [[el|]|e]; [done | ..]; destruct (take_error d x1) as [[o d2] x2] eqn:Et;
      apply take_error_moved in Et as (Hm & _); etrans; eauto.
  - destruct (nx_flag Flag_ready _); [ | apply moved_onward, do_ntex_moved].
    destruct (conn_decode x) as [r x1] eqn:Ed. apply conn_decode_onward in Ed. destruct r as [[el|]|e].
    + destruct (update_keepalive d x1) as [d2 x2] eqn:Eu. apply update_keepalive_moved in Eu as (Hm & _). etrans; eauto.
    + etrans; [done | apply moved_onward, do_ntex_moved].
    + etrans; [done | apply moved_onward, unregister_moved].
Qed.

Lemma run_item_onward item d x d' x' : run_item item d x = (d', x') -> onward x x'.
Proof.
  destruct item as [item|]; cbn [run_item]; [ | by intros [= <- <-]].
  unfold call_service. cbn [service_call future_poll ConnEnv].
  destruct (conn_call item x) as [f x1] eqn:Ec. apply conn_call_onward in Ec.
  destruct (d_response d) as [[m g]|]; [by intros [= <- <-] | ].
  destruct (conn_poll f x1) as [[t f'] x2] eqn:Ep. apply conn_poll_onward in Ep.
  assert (Hg : onward x x2) by (by etrans). destruct t as [t|]; [ | by intros [= <- <-]].
  set (d1 := match queue (d_inner d) with [] => d | _ => _ end).
  pose proof (call_ready_rel encode_log logged encode_log_moved t (d_inner d1) (x2, d_log d1)) as Hm.
  destruct (call_ready _ _ _ _) as [inner [x3 log]]. intros [= <- <-]. etrans; [exact Hg | by apply moved_onward].
Qed.

Lemma poll_onward fuel enter d x : onward x (poll_conn (poll fuel enter d x)).
Proof.
  revert enter d x. induction fuel as [|fuel IH]; intros enter d x; cbn [poll]; unfold ready_failed, poll_stop, IoPoll.poll_shutdown; [done | ].
  destruct (if enter then _ else _) as [[d1 x1]|] eqn:Ee; [ | done].
  assert (Hg1 : onward x x1).
  { destruct enter; [by eapply poll_response_onward | by injection Ee as <- <-]. }
  etrans; [exact Hg1 | ]. clear dependent x. pose proof (moved_onward _ _ (on_ntex_moved nx_service_ready x1 nl_ready)) as Hm.
  cbn [service_poll_ready service_poll_shutdown ConnEnv]. destruct (d_st d1).
  - destruct (on_ntex nx_service_ready x1) as [o x2]. cbn in Hm. etrans; [exact Hm | ]. clear Hm x1. destruct o as [[u|e]|].
    + destruct (check_keepalive d1 (read_resume x2)) as [d2 x3] eqn:Ek. apply check_keepalive_moved in Ek as (Hk & _).
      etrans; [apply moved_onward, (do_ntex_moved Op_resume) | ]. etrans; [apply moved_onward, Hk | ].
      pose proof (next_item_onward d2 x3) as Hn. destruct (next_item d2 x3) as [item retry d3 x4|x4]; [ | done].
      etrans; [exact Hn | ]. destruct (run_item item d3 x4) as [d4 x5] eqn:Er. apply run_item_onward in Er.
      etrans; [exact Er | apply IH].
    + etrans; [apply moved_onward, (do_ntex_moved Op_stopped) | ]. etrans; [apply moved_onward, unregister_moved | apply IH].
    + apply moved_onward, (do_ntex_moved Op_pause).
  - destruct (on_ntex nx_service_ready x1) as [o x2]. cbn in Hm. etrans; [exact Hm | ]. destruct (queue (d_inner d1)).
    + etrans; [apply moved_onward, (do_ntex_moved Op_shutdown) | apply IH].
    + apply moved_onward, (do_ntex_moved Op_register).
  - set (b := match error (d_inner d1) with Some _ => true | None => false end).
    pose proof (conn_shutdown_onward b x1) as Hs. by destruct (conn_shutdown b x1) as [[] x2].
Qed.

(** Good, or a panic that may be *)
Definition fair (d : Io) (x : Conn) : Prop := ruined x \/ good [] d x.

Lemma poll_fair fuel enter d x :
  fair d x -> fair (poll_state (poll fuel enter d x)) (poll_conn (poll fuel enter d x)).
Proof.
  intros [Hr|Hg]; [left; by eapply ruined_onward; [apply poll_onward | ] | ].
  revert enter d x Hg. induction fuel as [|fuel IH0]; intros enter d x Hg; cbn [poll]; unfold ready_failed, poll_stop, IoPoll.poll_shutdown; [by right | ].
  assert (IH : forall e d x, fair d x -> fair (poll_state (poll fuel e d x)) (poll_conn (poll fuel e d x))).
  { intros e d' x' [Hr|]; [left; by eapply ruined_onward; [apply poll_onward | ] | by apply IH0]. }
  clear IH0. pose proof (poll_onward (Datatypes.S fuel)) as Honward.
  destruct (if enter then _ else _) as [[d1 x1]|] eqn:Ee; [ | by right].
  assert (Hg1 : fair d1 x1).
  { destruct enter; [ | right; by injection Ee as <- <-]. destruct Hg as [Hs Hst].
    destruct (poll_response_serves _ _ _ _ Ee Hs) as [|[Hs1 Hm]]; [by left | right]. split; [done | ].
    rewrite (mv_items _ _ Hm). eapply streamed_moved; [done | apply (sv_ok _ _ Hs) | done]. }
  destruct Hg1 as [Hr|Hg1].
  { left. eapply ruined_onward; [ | exact Hr]. apply (Honward false d1 x1). }
  clear Hg Honward. pose proof (on_ntex_moved nx_service_ready x1 nl_ready) as Hm.
  cbn [service_poll_ready service_poll_shutdown ConnEnv].
  destruct (d_st d1) eqn:Est.
  - destruct (on_ntex nx_service_ready x1) as [o x2]. cbn in Hm. destruct o as [[u|e]|].
    + destruct (check_keepalive d1 (read_resume x2)) as [d2 x3] eqn:Ek.
      apply check_keepalive_moved in Ek as (Hm2 & Hc & Hst).
      assert (Hg2 : good [] d2 x3).
      { apply (good_moved [] d1 d2 x1); [ | done | congruence | done]. etrans; [exact Hm | ].
        etrans; [apply (do_ntex_moved Op_resume) | exact Hm2]. }
      pose proof (next_item_good d2 x3 Hg2 ltac:(congruence)) as Hn.
      destruct (next_item d2 x3) as [item retry d3 x4|x4]; [ | by right].
      destruct (run_item item d3 x4) as [d4 x5] eqn:Er. apply IH.
      destruct item as [item|]; cbn in Er; [by eapply call_service_good | right; by injection Er as <- <-].
    + apply IH. right. apply (good_moved [] d1 _ x1); [ | done | done | done]. etrans; [exact Hm | ].
      etrans; [apply (do_ntex_moved Op_stopped) | apply unregister_moved].
    + right. apply (good_moved [] d1 _ x1); [ | done | done | done]. etrans; [exact Hm | apply (do_ntex_moved Op_pause)].
  - destruct (on_ntex nx_service_ready x1) as [o x2]. cbn in Hm. destruct (queue (d_inner d1)) as [|q qs].
    + apply IH. right. apply (good_moved [] d1 _ x1); [ | done | done | done].
      etrans; [exact Hm | apply (do_ntex_moved Op_shutdown)].
    + right. apply (good_moved [] d1 _ x1); [ | done | done | done].
      etrans; [exact Hm | apply (do_ntex_moved Op_register)].
  - unfold conn_shutdown. set (b := match error (d_inner d1) with Some _ => true | None => false end).
    pose proof (pl_shutdown b (c_d x1) (sv_ok _ _ (proj1 Hg1))) as Hp.
    destruct (pr_shutdown b (c_d x1)) as [d'|]; [right | by left].
    apply (good_moved [] d1 _ x1); [by split | done | done | done].
Qed.

(** ** The connection over time

    It starts with what the handshake left in the read buffer.  Between the
    polls of the io dispatcher and of the tasks it spawned, bytes arrive, and
    ntex and the application go on. *)
Definition Conn_new (d : D) (w : W) (buf : bytes) : Conn := mkConn d w buf buf [] false false.

Definition conn_start (timeout : Z) (x : Conn) : Io * Conn :=
  let (d, x) := Dispatcher_with x in set_keepalive_timeout timeout d x.

(** A connection that starts has called and received nothing yet. *)
Lemma conn_start_new timeout d0 w0 buf io x :
  conn_start timeout (Conn_new d0 w0 buf) = (io, x) ->
  moved (Conn_new d0 w0 buf) x /\ d_log io = [] /\ d_calls io = 0%nat.
Proof.
  unfold conn_start, Dispatcher_with, set_keepalive_timeout. intros [= <- <-]. split; [ | done].
  case_match; (etrans; [apply do_ntex_moved | apply do_ntex_moved]).
Qed.

Inductive conn_reachable (d0 : D) (w0 : W) (buf : bytes) (timeout : Z) : Io -> Conn -> Prop :=
| conn_new d x : conn_start timeout (Conn_new d0 w0 buf) = (d, x) -> conn_reachable d0 w0 buf timeout d x
| conn_polled fuel d x d' x' :
    conn_reachable d0 w0 buf timeout d x -> poll fuel true d x = P_Pending d' x' ->
    conn_reachable d0 w0 buf timeout d' x'
| conn_task n d x d' x' :
    conn_reachable d0 w0 buf timeout d x -> poll_task n d x = Some (d', x') ->
    conn_reachable d0 w0 buf timeout d' x'
| conn_env d x dp w chunk :
    conn_reachable d0 w0 buf timeout d x -> rtc pl_move (c_d x) dp ->
    conn_reachable d0 w0 buf timeout d (set_dw (dp, w) (receive chunk x)).

Lemma poll_task_onward n (d : Io) x d' x' : poll_task n d x = Some (d', x') -> onward x x'.
Proof.
  unfold poll_task. destruct (d_spawned d !! n) as [[f idx]|]; [ | by intros [= <- <-]]. cbn [future_poll ConnEnv].
  destruct (conn_poll f x) as [[t f'] x1] eqn:Ep. apply conn_poll_onward in Ep. destruct t as [t|]; [ | by intros [= <- <-]].
  destruct (finish n t _ true d x1) as [[d2 x2]|] eqn:Ef; [intros [= <- <-] | done].
  apply finish_moved in Ef as [Hm _]. etrans; [exact Ep | auto].
Qed.

Lemma good_received d x chunk : good [] d x -> good [] d (receive chunk x).
Proof.
  intros [Hs [Hst Hg]]. split.
  - destruct Hs as [S1 S2 S3 S4 S5 S6 S7]. by split.
  - split; [done | ]. cbn [c_failed receive]. revert Hg.
    unfold decoded_packets, drained. cbn [c_d c_buf c_received c_items receive].
    destruct (c_failed x).
    + intros [k Hk]. rewrite drain_app. destruct (drain _ _ _ (c_received x)) as [[[qs r] st] b]. cbn in Hk. subst qs.
      destruct r as [u|e|]; [destruct (drain _ _ _ _) as [[[qs' r'] st'] b'] | ..]; cbn; rewrite <- ?app_assoc;
        by eexists.
    + intros Hg more. rewrite <- !app_assoc. apply Hg.
Qed.

Lemma conn_reachable_fair d0 w0 buf timeout d x :
  pl_ok d0 -> pr_state d0 = FrameHeader -> conn_reachable d0 w0 buf timeout d x -> fair d x /\ io_reachable d.
Proof.
  intros Hok Hst. induction 1 as [d x H|fuel d x d' x' _ [IH IHr] H|n d x d' x' _ [IH IHr] H|d x dp w chunk _ [IH IHr] H].
  - destruct (conn_start_new _ _ _ _ _ _ H) as [Hm _].
    unfold conn_start, Dispatcher_with, set_keepalive_timeout in H. injection H as <- _.
    split; [ | exact (io_with (Conn_new d0 w0 buf) (Conn_new d0 w0 buf) timeout)].
    right. split.
    + apply (serves_moved _ (Conn_new d0 w0 buf)); [done | ]. by split.
    + eapply streamed_moved; [exact Hm | done | ]. unfold streamed. cbn [c_d c_failed Conn_new]. rewrite Hst.
      split; [done | ]. intros more. unfold drained. cbn [c_d c_buf c_received c_items Conn_new].
      rewrite (mv_items _ _ Hm). unfold prepend.
      by destruct (drain pr_decode_packet (pr_max d0) FrameHeader (buf ++ more)) as [[[? ?] ?] ?].
  - split; [ | by eapply io_poll]. pose proof (poll_fair fuel true d x IH) as Hp. by rewrite H in Hp.
  - split; [ | by eapply io_task]. destruct IH as [Hru|[Hs Hg]]; [left; by eapply ruined_onward; [eapply poll_task_onward | ] | ].
    destruct (poll_task_serves _ _ _ _ _ H Hs) as [|[Hs' Hm]]; [by left | right]. split; [done | ].
    rewrite (mv_items _ _ Hm). eapply streamed_moved; [done | apply (sv_ok _ _ Hs) | done].
  - split; [ | done]. destruct IH as [Hru|IH]; [by left | right].
    apply (good_moved [] d d (receive chunk x)); [ | done | done | by apply good_received].
    split; try done. by apply moves_ok.
Qed.

(** The packets handed to the service are the first ones of the stream, and
    what was written answers the first of them. *)
Definition answer_of (x : Conn) (call : D * Item) (t : T) : Prop := pl_answers (pr_open (c_d x)) call.1 call.2 t.
Definition served (d : Io) (x : Conn) : Prop :=
  packets (c_items x) `prefix_of` decoded_packets x /\
  Forall2 (answer_of x) (take (length (d_log d)) (c_called x)) (d_log d).

(** Answers that depend on the items only *)
Lemma items_answered x n (P : Item -> T -> Prop) log :
  (forall o d i t, pl_answers o d i t -> P i t) ->
  Forall2 (answer_of x) (take n (c_called x)) log -> Forall2 P (take n (c_items x)) log.
Proof.
  intros HP H. unfold c_items. rewrite <- fmap_take. apply Forall2_fmap_l. eapply Forall2_impl; [done | ].
  intros c t. apply HP.
Qed.

Lemma fair_served d x :
  fair d x -> dinv d -> (c_panicked x = true -> pl_may_panic) /\ (c_panicked x = false -> serves d x /\ served d x).
Proof.
  intros Hg Hd. destruct (inv_order _ _ _ _ _ (di_queue _ Hd)) as (Ho & Hl & _).
  destruct Hg as [[Hru Hmay]|[Hs [_ Hp]]]; [by rewrite Hru | ].
  rewrite app_nil_r in Hp. split; [by rewrite (sv_panicked _ _ Hs) | intros _]. split; [done | ]. split.
  - destruct (c_failed x); [done | ]. specialize (Hp []). rewrite !app_nil_r in Hp.
    unfold decoded_packets. rewrite Hp. clear Hp. destruct (drained _ _ _) as [[[qs ?] ?] ?]. by exists qs.
  - apply Forall2_same_length_lookup. split.
    + rewrite length_take, (sv_calls _ _ Hs). lia.
    + intros i item t Hi Hlog. apply lookup_take_Some in Hi as [Hi _].
      destruct (sv_done _ _ Hs i t (Ho _ _ Hlog)) as (d0 & item' & Hi' & Ha).
      assert (item = (d0, item')) as -> by congruence. exact Ha.
Qed.

(** A connection answers the packets of its peer in order, as long as
    nothing panics, and it panics only if the dispatcher may: between polls
    and after a poll. *)
Lemma conn_state_served d0 w0 buf timeout d x :
  pl_ok d0 -> pr_state d0 = FrameHeader -> conn_reachable d0 w0 buf timeout d x ->
  Z.of_nat (d_calls d) < usize_max ->
  (c_panicked x = true -> pl_may_panic) /\ (c_panicked x = false -> serves d x /\ served d x).
Proof.
  intros Hok Hst Hr Hc. destruct (conn_reachable_fair _ _ _ _ _ _ Hok Hst Hr) as [Hg Hio].
  apply fair_served; [done | by apply io_reachable_inv].
Qed.

Lemma conn_poll_served d0 w0 buf timeout d x fuel :
  pl_ok d0 -> pr_state d0 = FrameHeader -> conn_reachable d0 w0 buf timeout d x ->
  let r := poll fuel true d x in
  Z.of_nat (d_calls (poll_state r)) < usize_max ->
  match r with P_Panic _ _ => False | _ => True end /\
  (c_panicked (poll_conn r) = true -> pl_may_panic) /\
  (c_panicked (poll_conn r) = false ->
   pl_ok (c_d (poll_conn r)) /\ served (poll_state r) (poll_conn r) /\
   match r with
   | P_Ready _ d' x' => length (d_log d') = length (c_items x')
   | _ => True
   end).
Proof.
  intros Hok Hst Hr r Hc. destruct (conn_reachable_fair _ _ _ _ _ _ Hok Hst Hr) as [Hg Hio].
  pose proof (poll_calls fuel true d x) as Hm. fold r in Hm.
  assert (Hd : dinv d) by (apply io_reachable_inv; [done | lia]).
  destruct (poll_inv fuel true d x Hd Hc) as [Hd' He].
  destruct (inv_order _ _ _ _ _ (di_queue _ Hd')) as (_ & _ & _ & _ & Hq). fold r in Hd', He, Hq.
  destruct (fair_served _ _ (poll_fair fuel true d x Hg) Hd') as [Hp Hs]. fold r in Hp, Hs.
  split; [by destruct r | ]. split; [done | ]. intros Hn. destruct (Hs Hn) as [Hsv Hse].
  split; [apply (sv_ok _ _ Hsv) | ]. split; [done | ].
  destruct r as [ |res d' x'| | ]; cbn in *; try done. by unfold c_items; rewrite length_fmap, (Hq He), (sv_calls _ _ Hsv).
Qed.

(** ** Runs

    A schedule of polls, tasks and arrivals, to run a connection: the
    application's state is set to [w], and the sink is left alone. *)
Inductive Act : Type :=
| Act_poll (fuel : nat)
| Act_task (n : nat)
| Act_env (w : W) (chunk : bytes).

Definition act (a : Act) (dx : Io * Conn) : option (Io * Conn) :=
  match a with
  | Act_poll fuel => match poll fuel true dx.1 dx.2 with P_Pending d x => Some (d, x) | _ => None end
  | Act_task n => poll_task n dx.1 dx.2
  | Act_env w chunk => Some (dx.1, set_dw (c_d dx.2, w) (receive chunk dx.2))
  end.

Fixpoint run (l : list Act) (dx : Io * Conn) : option (Io * Conn) :=
  match l with
  | [] => Some dx
  | a :: l => match act a dx with Some dx => run l dx | None => None end
  end.

Lemma run_reachable d0 w0 buf timeout l dx :
  run l (conn_start timeout (Conn_new d0 w0 buf)) = Some dx -> conn_reachable d0 w0 buf timeout dx.1 dx.2.
Proof.
  assert (H : forall l dx0, conn_reachable d0 w0 buf timeout dx0.1 dx0.2 -> run l dx0 = Some dx ->
    conn_reachable d0 w0 buf timeout dx.1 dx.2).
  { clear l. intros l. induction l as [|a l IH]; intros [d x] Hr; cbn; [by intros [= <-] | ].
    destruct (act a (d, x)) as [[d' x']|] eqn:Ea; [ | done]. apply IH. cbn in *.
    destruct a as [fuel|n|w chunk]; cbn in Ea.
    - destruct (poll fuel true d x) eqn:Ep; try done. injection Ea as <- <-. by eapply conn_polled.
    - by eapply conn_task.
    - injection Ea as <- <-. by apply conn_env. }
  apply H. apply conn_new. apply surjective_pairing.
Qed.

End Connection.

(** ** The limit of the decoder stays

    The laws hold for the states with a given limit, too, so a connection
    keeps the limit it starts with. *)
Section Limit.
Context {D Resp Choice I T S IE W : Type}.
Context `{Pr : Protocol D Resp Choice I T IE} `{Nx : !Ntex D Resp Choice T S IE W}.
Context {PL : ProtocolLaws D Resp Choice I T IE} {NL : NtexLaws D Resp Choice I T S IE W}.
Context (limit : Z).

Definition within (d : D) : Prop := pl_ok d /\ pr_max d = limit.

Lemma kept_within d d' : within d -> pl_ok d' /\ kept d d' -> within d' /\ kept d d'.
Proof. intros [_ Hl] [Hok Hk]. pose proof Hk as (Hm & _). split; [split; [done | congruence] | done]. Qed.

#[local] Instance limit_laws : ProtocolLaws D Resp Choice I T IE.
Proof.
  refine {| pl_ok := within; pl_move := pl_move; pl_valid := pl_valid; pl_may_panic := pl_may_panic;
            pl_about := pl_about; pl_answers := pl_answers; pl_closed := pl_closed; pl_decode_packet := pl_decode_packet |}.
  - intros i d Hw. pose proof (pl_call i d (proj1 Hw)) as H. destruct (pr_call i d) as [[r d']|]; [ | done].
    destruct H as (Ha & Hk). split; [done | by apply kept_within].
  - intros d0 i ch r d Hw Ha Hv. pose proof (pl_poll d0 i ch r d (proj1 Hw) Ha Hv) as H.
    destruct (pr_poll ch r d) as [[[x r'] d']|]; [ | done]. destruct H as (Hok & Hk & Hx).
    destruct (kept_within _ _ Hw (conj Hok Hk)). done.
  - intros b d Hw. pose proof (pl_shutdown b d (proj1 Hw)) as H. destruct (pr_shutdown b d); [ | done].
    by apply kept_within.
  - intros d d' Hw Hm. apply kept_within; [done | ]. by apply pl_moved; [apply Hw | ].
  - intros d b r d' b' H. destruct (pl_decode _ _ _ _ _ H) as (H1 & H2 & H3 & H4). do 3 (split; [done | ]).
    intros [Hok Hl]. split; [by apply H4 | congruence].
Defined.

#[local] Instance limit_ntex : NtexLaws (H0 := limit_laws) D Resp Choice I T S IE W.
Proof. destruct NL. by split. Qed.

Lemma limit_reachable d0 (w0 : W) buf timeout d x :
  conn_reachable (PL := PL) d0 w0 buf timeout d x -> conn_reachable (PL := limit_laws) d0 w0 buf timeout d x.
Proof.
  induction 1; [by apply conn_new | by eapply conn_polled | by eapply conn_task | by apply conn_env].
Qed.

End Limit.

(** A connection answers the packets that its decoder gives with the limit
    it started with. *)
Lemma conn_served {D Resp Choice I T S IE W} `{Pr : Protocol D Resp Choice I T IE} `{Nx : !Ntex D Resp Choice T S IE W}
    {PL : ProtocolLaws D Resp Choice I T IE} {NL : NtexLaws D Resp Choice I T S IE W}
    (d0 : D) (w0 : W) buf timeout d x fuel :
  pl_ok d0 -> pr_state d0 = FrameHeader -> conn_reachable d0 w0 buf timeout d x ->
  let r := poll fuel true d x in
  Z.of_nat (d_calls (poll_state r)) < usize_max ->
  match r with P_Panic _ _ => False | _ => True end /\
  (c_panicked (poll_conn r) = true -> pl_may_panic) /\
  (c_panicked (poll_conn r) = false ->
   packets (c_items (poll_conn r)) `prefix_of`
     (drain pr_decode_packet (pr_max d0) FrameHeader (c_received (poll_conn r))).1.1.1 /\
   Forall2 (answer_of (poll_conn r)) (take (length (d_log (poll_state r))) (c_called (poll_conn r)))
     (d_log (poll_state r)) /\
   match r with
   | P_Ready _ d' x' => length (d_log d') = length (c_items x')
   | _ => True
   end).
Proof.
  intros Hok Hst Hr r Hc.
  destruct (conn_poll_served (PL := limit_laws (pr_max d0)) (NL := limit_ntex (pr_max d0)) d0 w0 buf timeout d x fuel
              (conj Hok eq_refl) Hst (limit_reachable _ _ _ _ _ _ _ Hr) Hc) as (Hp & Hm & Hs).
  split; [exact Hp | ]. split; [exact Hm | ]. intros Hn. destruct (Hs Hn) as ([_ Hl] & [Hd Ha] & Hlen).
  unfold decoded_packets, drained in Hd. rewrite Hl in Hd. done.
Qed.
