(* ===== verification/V3Serving.v ===== *)
(** * A connection of an MQTT 3.1.1 server

    [Serving] with the dispatcher of [V3Dispatcher]: the
    packets that arrive are answered in the order of their arrival, each with
    the acknowledgement that MQTT has for it. *)

From stdpp Require Import base gmap list strings relations.
From S2P Require Import Prelude Types Wire Framing V3Codec Sink V3Sink V3Dispatcher.
From S2P Require Import IoDispatcher IoPoll Net Service V3Server Serving.
Open Scope Z_scope.

Abbreviation Item3 := (DispatchItem Packet DecodeError EncodeError IoError).

(** ** The sink of a dispatcher *)
Section Shared.
Context `{R : Runtime Ack}.
Abbreviation Disp := (V3Dispatcher.Dispatcher).

Definition set_sink3 (s : @MqttShared Ack R Codec) (d : Disp) : Disp :=
  V3Dispatcher.mkDispatcher (V3Dispatcher.d_shutdown d) (V3Dispatcher.d_inflight d) s.
Definition set_codec3 (c : Codec) (d : Disp) : Disp := set_sink3 (set_codec c (V3Dispatcher.d_sink d)) d.
Definition codec_of (d : Disp) : Codec := codec (V3Dispatcher.d_sink d).

(** [read.decode(&codec)]: the codec is the one of the sink *)
Definition decode3 (d : Disp) (b : bytes) : dres (option Packet) * Disp * bytes :=
  let '(r, c, b) := codec_decode (codec_of d) b in (r, set_codec3 c d, b).

(** The application uses the sink, or ntex moves the io state. *)
Definition sink_move (d d' : Disp) : Prop :=
  exists s, step (V3Dispatcher.d_sink d) s /\ d' = set_sink3 s d.

Definition sink_ok (d : Disp) : Prop := Sink.inv consistent (V3Dispatcher.d_sink d).

Definition open3 (d : Disp) : bool := is_open (Sink.io (V3Dispatcher.d_sink d)).

Lemma decode3_frame d b r d' b' :
  decode3 d b = (r, d', b') ->
  frame_decode decode_packet (V3Codec.max_size (codec_of d)) (state (codec_of d)) b = (r, state (codec_of d'), b') /\
  V3Codec.max_size (codec_of d') = V3Codec.max_size (codec_of d) /\ open3 d' = open3 d /\ (sink_ok d -> sink_ok d').
Proof.
  unfold decode3, codec_decode. destruct (frame_decode _ _ _ _) as [[r0 st] b0]. by intros [= <- <- <-].
Qed.

Context {L : RuntimeLaws Ack}.

Lemma sink_step_kept s s' :
  Sink.inv consistent s -> step s s' ->
  Sink.inv consistent s' /\ codec s' = codec s /\ (is_open (Sink.io s') = true -> is_open (Sink.io s) = true).
Proof.
  intros Hi Hs. pose proof (step_moved _ _ Hi Hs) as Hm. split; [apply Hm | ].
  split; [ | by eapply moved_open]. apply step_settings3 in Hs. by injection Hs.
Qed.

(** The sink of [d'] comes from the one of [d] by nothing or by a step. *)
Definition sink_stepped (d d' : Disp) : Prop :=
  V3Dispatcher.d_sink d' = V3Dispatcher.d_sink d \/ step (V3Dispatcher.d_sink d) (V3Dispatcher.d_sink d').

Lemma stepped_ok d d' : sink_ok d -> sink_stepped d d' -> sink_ok d' /\ codec_of d' = codec_of d /\ (open3 d' = true -> open3 d = true).
Proof. unfold sink_ok, codec_of, open3. intros Hi [->|Hs]; [done | by apply sink_step_kept]. Qed.

Lemma sink_ok_borrowed d : sink_ok d -> borrowed (V3Dispatcher.d_sink d) = false.
Proof. by intros [Hb _]. Qed.

(** Closing and acknowledging return. *)
Lemma on_sink_close d :
  sink_ok d -> exists d', V3Dispatcher.on_sink close d = Some (tt, d') /\ sink_stepped d d'.
Proof.
  intros Hb%sink_ok_borrowed. unfold on_sink. rewrite (close_eq _ Hb). eexists. split; [done | ].
  right. eapply step_close. cbn. by rewrite (close_eq _ Hb).
Qed.

Lemma on_sink_ack a d :
  sink_ok d -> exists r d', V3Dispatcher.on_sink (pkt_ack a) d = Some (r, d') /\ sink_stepped d d'.
Proof.
  intros Hb%sink_ok_borrowed. destruct (pkt_ack_total a _ Hb) as (r & s & Ha).
  unfold on_sink. rewrite Ha. eexists _, _. split; [done | ]. right. by eapply step_ack.
Qed.

End Shared.

(** ** The server *)
Section Server.
Context `{R : Runtime Ack} {L : RuntimeLaws Ack} {E : Type}.
Abbreviation MError := (MqttError E).
Abbreviation Disp := (V3Dispatcher.Dispatcher).
Abbreviation Resp := (V3Dispatcher.Response (E := E)).
Abbreviation Answer := (result (option Packet) MError).

(** The service that [MqttServer::finish] gives to the io dispatcher *)
Definition serve_call (item : Item3) (d : Disp) : option (Resp * Disp) :=
  match dispatch_item item with
  | inl pkt => V3Dispatcher.call pkt d
  | inr r => Some (V3Dispatcher.R_Ready r, d)
  end.

(** What polling the publish service and the control service gives *)
Abbreviation Choice := (option (result unit MError) * option (result ControlResult MError))%type.

Definition serve_poll (ch : Choice) (r : Resp) (d : Disp) : option (option Answer * Resp * Disp) :=
  match r with
  | V3Dispatcher.R_Ready x => Some (Some x, r, d)
  | V3Dispatcher.R_Publish id p =>
      match V3Dispatcher.PublishResponse_poll id ch.1 d with Some (x, d) => Some (x, r, d) | None => None end
  | V3Dispatcher.R_Control m =>
      match V3Dispatcher.ControlResponse_poll ch.2 d with Some (x, d) => Some (x, r, d) | None => None end
  end.

Definition serve_shutdown (is_error : bool) (d : Disp) : option Disp :=
  match V3Dispatcher.poll_shutdown is_error d with Some (_, d) => Some d | None => None end.

#[export] Instance ServerProtocol3 : Protocol Disp Resp Choice Packet Answer IoError := {
  pr_call := serve_call;
  pr_poll := serve_poll;
  pr_shutdown := serve_shutdown;
  pr_decode := decode3;
  pr_max d := V3Codec.max_size (codec_of d);
  pr_state d := state (codec_of d);
  pr_decode_packet := decode_packet;
  pr_open := open3;
}.

Definition failed (t : Answer) : Prop := exists e, t = err e.

(** The answers that MQTT has for a packet: every request of the client gets
    the acknowledgement with its own packet id, nothing if the control
    service ends the connection, or an error that ends it. *)
Definition server_answer (item : Item3) (t : Answer) : Prop :=
  failed t \/
  match item with
  | DI_Item (PPublish p) => t = ok (PPublishAck <$> packet_id p)
  | DI_Item (PSubscribe id _) => (exists codes, t = ok (Some (PSubscribeAck id codes))) \/ t = ok None
  | DI_Item (PUnsubscribe id _) => t = ok (Some (PUnsubscribeAck id)) \/ t = ok None
  | DI_Item PPingRequest => t = ok (Some PPingResponse) \/ t = ok None
  | _ => t = ok None
  end.

(** The future of a packet *)
Definition server_about (item : Item3) (r : Resp) : Prop :=
  (exists t, r = V3Dispatcher.R_Ready t /\ server_answer item t) \/
  match item with
  | DI_Item (PPublish p) => r = V3Dispatcher.R_Publish (packet_id p) p
  | DI_Item (PSubscribe id fs) => r = V3Dispatcher.R_Control (CM_Subscribe (Subscribe_new id fs))
  | DI_Item (PUnsubscribe id fs) => r = V3Dispatcher.R_Control (CM_Unsubscribe (mkUnsubscribeMsg id fs))
  | DI_Item PPingRequest => r = V3Dispatcher.R_Control CM_Ping
  | DI_Item PDisconnect => r = V3Dispatcher.R_Control V3Dispatcher.CM_Disconnect
  | _ => False
  end.

(** The control service answers the message it was given. *)
Definition server_valid (r : Resp) (ch : Choice) : Prop :=
  match r with V3Dispatcher.R_Control m => forall a, ch.2 = Some (ok a) -> V3Dispatcher.answers m a | _ => True end.

Lemma about_ready item t : server_answer item t -> server_about item (V3Dispatcher.R_Ready t).
Proof. intros H. left. eauto. Qed.

Lemma answer_failed item e : server_answer item (err e).
Proof. left. by exists e. Qed.

Lemma serve_call_ok item d :
  sink_ok d -> exists r d', serve_call item d = Some (r, d') /\ server_about item r /\ sink_stepped d d'.
Proof.
  intros Hok.
  assert (Hret : forall r : Resp, server_about item r ->
    exists r' d', (mret r : V3Dispatcher.DM Resp) d = Some (r', d') /\ server_about item r' /\ sink_stepped d d').
  { intros r Hr. eexists _, _. split; [done | ]. split; [done | by left]. }
  assert (Hins : forall id (e : MError) r, server_about item r ->
    exists r' d', (fresh ← insert_id id; if negb fresh then mret (V3Dispatcher.R_Ready (err e)) else mret r
                   : V3Dispatcher.DM Resp) d = Some (r', d') /\ server_about item r' /\ sink_stepped d d').
  { intros id e r Hr. unfold mbind, V3Dispatcher.DM_bind, insert_id. case_bool_decide; cbn [negb];
      (eexists _, _; split; [done | ]); (split; [ | by left]); [done | apply about_ready, answer_failed]. }
  unfold serve_call. destruct item as [pkt| |e|e|e| | ]; cbn [dispatch_item];
    try (apply Hret, about_ready; first [apply answer_failed | by right]).
  destruct pkt as [c|sp rc|p|id|id|id|id|id fs|id st|id fs|id| | | ]; cbn [V3Dispatcher.call];
    try (apply Hret, about_ready; by right); try (apply Hret; by right).
  - destruct (packet_id p) as [pid|] eqn:Hp; [apply Hins | apply Hret]; right; by rewrite Hp.
  - destruct (on_sink_ack (Ack_Publish id) d Hok) as (r & d' & Ha & Hst).
    unfold mbind, V3Dispatcher.DM_bind. rewrite Ha. eexists _, _. split; [done | ]. split; [ | done].
    apply about_ready. destruct r; [by right | apply answer_failed].
  - apply Hins. by right.
  - apply Hins. by right.
Qed.

Lemma control_poll_ok item m fut d :
  sink_ok d -> server_about item (V3Dispatcher.R_Control m) ->
  (forall a, fut = Some (ok a) -> V3Dispatcher.answers m a) ->
  exists x d', V3Dispatcher.ControlResponse_poll (E := E) fut d = Some (x, d') /\ sink_stepped d d' /\
    match x with Some t => server_answer item t | None => True end.
Proof.
  intros Hok Hab Hv. destruct fut as [[a|e]|]; cbn [V3Dispatcher.ControlResponse_poll];
    [ | by eexists _, _; split; [done | ]; split; [left | apply answer_failed] | by eexists _, _; split; [done | ]; split; [left | ]].
  specialize (Hv a eq_refl).
  assert (Hnone : server_answer item (ok None)).
  { destruct Hab as [(t & ? & _)|Hab]; [done | ]. destruct item as [[]| | | | | | ]; try done; right; eauto. }
  destruct (on_sink_close d Hok) as (dc & Hc & Hst).
  destruct Hv as [->|Hv]; cbn.
  { unfold mbind, V3Dispatcher.DM_bind. rewrite Hc. by eexists _, _. }
  destruct Hab as [(t & ? & _)|Hab]; [done | ].
  destruct item as [[]| | | | | | ]; try done; injection Hab as ->; cbn in Hv;
    [destruct Hv as [codes ->] | subst a ..]; cbn; unfold mbind, V3Dispatcher.DM_bind; rewrite ?Hc;
    (eexists _, _; split; [done | ]); (split; [first [done | by left] | ]); first [done | right; eauto].
Qed.

Lemma serve_poll_ok item ch r d :
  sink_ok d -> server_about item r -> server_valid r ch ->
  exists x r' d', serve_poll ch r d = Some (x, r', d') /\ sink_stepped d d' /\
    match x with Some t => server_answer item t | None => server_about item r' end.
Proof.
  intros Hok Hab Hv. destruct r as [t|id p|m]; cbn [serve_poll].
  - eexists _, _, _. split; [done | ]. split; [by left | ]. destruct Hab as [(t' & [= <-] & Ht)|Hab]; [done | ].
    by destruct item as [[]| | | | | | ].
  - destruct Hab as [(t & ? & _)|Hab]; [done | ]. destruct item as [[]| | | | | | ]; try done. injection Hab as -> ->.
    destruct ch as [[[u|e]|] ctl]; cbn; [destruct (packet_id p0) eqn:Hp; cbn | ..];
      (eexists _, _, _; split; [done | ]); (split; [by left | ]); try apply answer_failed;
      right; rewrite ?Hp; done.
  - destruct (control_poll_ok item m ch.2 d Hok Hab Hv) as (x & d' & -> & Hst & Hx).
    eexists _, _, _. split; [done | ]. split; [done | ]. by destruct x.
Qed.

Lemma stepped_kept d d' : sink_ok d -> sink_stepped d d' -> sink_ok d' /\ kept d d'.
Proof. intros Hok Hst. destruct (stepped_ok _ _ Hok Hst) as (? & Hc & ?). unfold kept. cbn. by rewrite Hc. Qed.

Lemma serve_call_law i d :
  sink_ok d ->
  match pr_call i d with Some (r, d') => server_about i r /\ sink_ok d' /\ kept d d' | None => False end.
Proof.
  intros Hok. destruct (serve_call_ok i d Hok) as (r & d' & H & Ha & Hst).
  cbn [pr_call ServerProtocol3]. rewrite H. split; [done | by apply stepped_kept].
Qed.

Lemma serve_poll_law (d0 : Disp) i ch r d :
  sink_ok d -> server_about i r -> server_valid r ch ->
  match pr_poll ch r d with
  | Some (x, r', d') =>
      sink_ok d' /\ kept d d' /\ match x with Some t => server_answer i t | None => server_about i r' end
  | None => False
  end.
Proof.
  intros Hok Ha Hv. destruct (serve_poll_ok i ch r d Hok Ha Hv) as (x & r' & d' & H & Hst & Hx).
  cbn [pr_poll ServerProtocol3]. rewrite H, assoc by apply _. split; [by apply stepped_kept | done].
Qed.

Lemma serve_shutdown_law b d :
  sink_ok d -> match pr_shutdown b d with Some d' => sink_ok d' /\ kept d d' | None => False end.
Proof.
  intros Hok. cbn [pr_shutdown ServerProtocol3]. unfold serve_shutdown, V3Dispatcher.poll_shutdown.
  destruct (V3Dispatcher.d_shutdown d); [done | ].
  rewrite (close_eq _ (sink_ok_borrowed _ Hok)). apply stepped_kept; [done | ].
  right. eapply step_close. cbn. by rewrite (close_eq _ (sink_ok_borrowed _ Hok)).
Qed.

Lemma serve_moved_law d d' : sink_ok d -> sink_move d d' -> sink_ok d' /\ kept d d'.
Proof. intros Hok (s & Hs & ->). apply stepped_kept; [done | by right]. Qed.

#[export] Instance ServerLaws3 : ProtocolLaws Disp Resp Choice Packet Answer IoError := {
  pl_may_panic := False;
  pl_about _ := server_about;
  pl_answers _ _ := server_answer;
  pl_closed _ _ _ H := H;
  pl_call := serve_call_law;
  pl_poll := serve_poll_law;
  pl_shutdown := serve_shutdown_law;
  pl_moved := serve_moved_law;
  pl_decode := decode3_frame;
  pl_decode_packet := decode_packet_no_panic;
}.

(** ** Order *)
Context {W : Type} `{Nx : !Ntex Disp Resp Choice Answer MError IoError W}.
Context {NL : NtexLaws Disp Resp Choice Packet Answer MError IoError W}.

(** The packet ids of publishes that ask for an acknowledgement, and of
    acknowledgements *)
Definition publish_id (item : Item3) : option Z :=
  match item with DI_Item (PPublish p) => packet_id p | _ => None end.
Definition puback_id (t : Answer) : option Z :=
  match t with ok (Some (PPublishAck id)) => Some id | _ => None end.

Lemma answers_pubacks items log :
  Forall2 server_answer items log -> Forall (fun t => ~ failed t) log ->
  base.omap puback_id log = base.omap publish_id items.
Proof.
  induction 1 as [|item t items log Ha _ IH]; intros Hn; [done | ]. apply Forall_cons in Hn as [Hnf Hn].
  cbn [base.omap list_omap]. rewrite (IH Hn). clear IH.
  destruct Ha as [Hf|Ha]; [by destruct Hnf | ].
  destruct item as [[]| | | | | | ]; cbn in Ha |- *; try by subst t.
  - subst t. by destruct (packet_id p).
  - by destruct Ha as [[codes ->]| ->].
  - by destruct Ha as [-> | ->].
  - by destruct Ha as [-> | ->].
Qed.

(** From a well-formed sink and a decoder between two packets on, nothing
    panics and the packets are answered in order. *)
Lemma served_in_order sink w buf timeout io x fuel :
  Sink.inv consistent sink -> state (codec sink) = FrameHeader ->
  conn_reachable (V3Dispatcher.Dispatcher_new sink) w buf timeout io x ->
  let r := poll fuel true io x in
  let log := d_log (poll_state r) in
  let items := take (length log) (c_items (poll_conn r)) in
  Z.of_nat (d_calls (poll_state r)) < usize_max ->
  packets (c_items (poll_conn r)) `prefix_of`
    (drain decode_packet (V3Codec.max_size (codec sink)) FrameHeader (c_received (poll_conn r))).1.1.1 /\
  Forall2 server_answer items log /\
  (Forall (fun t => ~ failed t) log -> base.omap puback_id log = base.omap publish_id items) /\
  c_panicked (poll_conn r) = false /\
  match r with
  | P_Panic _ _ => False
  | P_Ready _ d' x' => length (d_log d') = length (c_items x')
  | _ => True
  end.
Proof.
  intros Hi Hst Hr r log items Hc.
  destruct (conn_served (PL := ServerLaws3) (V3Dispatcher.Dispatcher_new sink) w buf timeout io x fuel Hi Hst Hr Hc)
    as (He & Hs & Hrest). apply not_true_is_false in Hs. destruct (Hrest Hs) as (Hp & Ha & Hlen).
  assert (Ha' : Forall2 server_answer items log) by (by eapply items_answered; [ | exact Ha]).
  split; [exact Hp | ]. split; [exact Ha' | ]. split; [by apply answers_pubacks | ]. split; [exact Hs | ].
  clear -He Hlen. destruct (poll fuel true io x) eqn:Er; subst r; done.
Qed.

End Server.

(** ** A connection to run

    [W] is whether the publish service is done with its packets.  Results are
    encoded with the codec of the connection. *)
Section Simulated.
Context `{R : Runtime Ack} {L : RuntimeLaws Ack}.
Abbreviation SimDisp := (V3Dispatcher.Dispatcher).
Abbreviation SimResp := (V3Dispatcher.Response (E := unit)).
Abbreviation SimChoice :=
  (option (result unit (MqttError unit)) * option (result ControlResult (MqttError unit)))%type.

Definition sim_encode (t : result (option Packet) (MqttError unit)) (dw : SimDisp * bool)
  : option (MqttError unit + EncodeError) * (SimDisp * bool) :=
  match t with
  | ok (Some p) =>
      let s := V3Dispatcher.d_sink dw.1 in
      let (r, w) := io_encode (codec_encode p) (io s) in
      (match r with Err e => Some (inr e) | _ => None end, (set_sink3 (set_io w s) dw.1, dw.2))
  | ok None => (None, dw)
  | err e => (Some (inl e), dw)
  end.

#[export] Instance SimNtex : Ntex SimDisp SimResp SimChoice (result (option Packet) (MqttError unit)) (MqttError unit) IoError bool := {
  nx_service_ready dw := (Some (ok tt), dw);
  nx_service_poll r dw :=
    ((if dw.2 then Some (ok tt) else None,
      match r with V3Dispatcher.R_Control m => Some (ok (default_control m)) | _ => None end), dw);
  nx_encode_result := sim_encode;
  nx_io_error dw := (None, dw);
  nx_do _ dw := dw;
  nx_flag f _ := match f with Flag_ready => true | _ => false end;
  nx_now _ := 0;
}.

#[export] Instance SimNtexLaws :
  NtexLaws SimDisp SimResp SimChoice Packet (result (option Packet) (MqttError unit)) (MqttError unit) IoError bool.
Proof.
  split; cbn; try (intros; apply rtc_refl).
  - intros [[p|]|e] [d w]; try apply rtc_refl. cbn.
    pose proof (encode_open (codec_encode p) (io (V3Dispatcher.d_sink d))) as Ho.
    destruct (io_encode _ _) as [r w']. apply rtc_once. eexists. split; [ | done]. by apply step_io.
  - intros [t|id p|m] dw; cbn; try done. intros a [= <-]. destruct m; right; cbn; eauto.
Qed.

End Simulated.

(** A publish with id 7, a ping and a publish with id 8 *)
Definition demo_publish (id : Z) : Publish :=
  {| topic := [97]; payload := [104; 105]; dup := false; retain := false; qos := AtLeastOnce; packet_id := Some id |}.
Definition demo_bytes : bytes := frame (PPublish (demo_publish 7)) ++ frame PPingRequest ++ frame (PPublish (demo_publish 8)).
Definition demo_sink : MqttShared := sink0 5.
