(* ===== verification/V5Serving.v ===== *)
(** * A connection of an MQTT 5 server

    [Serving] with the dispatcher of [V5Dispatcher].  Unlike the one of MQTT
    3.1.1 it can panic: the packets it sends itself are sized under the
    maximum of the peer ([V5Codec.v5_small_limit_underflow]). *)

From stdpp Require Import base gmap list strings relations.
From S2P Require Import Prelude Types Wire Framing V5Props V5PubAcks V5Subscribe V5Disconnect V5Publish V5Codec.
From S2P Require Import Sink V5Sink V5Control V5Info V5Dispatcher IoDispatcher IoPoll Net Service Serving V5Server V5Connection.
Open Scope Z_scope.

(** ** Responses of the control service *)
Section Settles.
Context `{R : Runtime Ack} {L : RuntimeLaws Ack}.
Abbreviation Disp := (V5Info.Dispatcher).

Definition open5 (d : Disp) : bool := is_open (io (V5Info.d_sink d)).

Lemma drop_sink_closes (s : @MqttShared Ack R Codec) u s' : drop_sink s = Some (u, s') -> is_open (io s') = false.
Proof. intros (u1 & s1 & _ & [_ ->]%upd_io_Some)%bind_Some. apply close_closes. Qed.

Context {Msg E : Type} (is_error : Msg -> bool) (error_msg : E -> Msg).

(** The future of the control service is about a message [Asked] for, or about
    an error it was told of. *)
Definition settling (Asked : Msg -> Prop) (c : ControlResponse) : Prop :=
  (c_error c = true /\ is_error (c_msg c) = true) \/ (c_error c = false /\ Asked (c_msg c)).

Lemma settling_new m (Asked : Msg -> Prop) :
  (is_error m = false -> Asked m) -> settling Asked (ControlResponse_new is_error m).
Proof. unfold settling. cbn. destruct (is_error m); auto. Qed.

(** It ends with what the service made of the message; when the service was
    told of an error, with nothing and the connection closed. *)
Lemma control_settles (Asked : Msg -> Prop) (Ans : bool -> result (option Packet) (MqttError E) -> Prop) pc c d x c' d' :
  ControlResponse_poll error_msg pc c d = Some (x, c', d') ->
  (forall e, is_error (error_msg e) = true) ->
  (forall m r, is_error m = true -> pc m = Some (ok r) -> cr_disconnect r = true) ->
  (forall m e o, pc m = Some (err e) -> Ans o (err (MService e))) -> Ans false (ok None) ->
  (forall m r o, Asked m -> pc m = Some (ok r) -> (cr_disconnect r = true -> o = false) -> Ans o (ok (cr_packet r))) ->
  settling Asked c ->
  match x with Some t => Ans (open5 d') t | None => settling Asked c' end.
Proof.
  intros H Herr Hdis He Hn Ha Hc.
  assert (Hdrop : forall (r : ControlResult) (d1 : Disp) u d2,
    (if cr_disconnect r then on_sink drop_sink else mret tt : V5Info.DM unit) d1 = Some (u, d2) ->
    cr_disconnect r = true -> open5 d2 = false).
  { intros r d1 u d2 Hd Hr. rewrite Hr in Hd. unfold on_sink in Hd.
    destruct (drop_sink (V5Info.d_sink d1)) as [[v s']|] eqn:Es; [injection Hd as _ <- | done]. by eapply drop_sink_closes. }
  assert (Hfin : forall c1 r, pc (c_msg c1) = Some (ok r) -> settling Asked c1 ->
    (x ← ControlResponse_finish c1 r; mret (x, c1) : V5Info.DM _) d = Some (x, c', d') ->
    match x with Some t => Ans (open5 d') t | None => settling Asked c' end).
  { intros c1 r Hr Hc1 (y & d1 & (u & d2 & _ & Hf)%dbind_Some & [[= <- <-] ->]%dret_Some)%dbind_Some.
    destruct Hc1 as [[Ec Em]|[Ec Em]]; rewrite Ec in Hf.
    - apply dbind_Some in Hf as (u2 & d3 & _ & (u3 & d4 & H4 & [<- ->]%dret_Some)%dbind_Some).
      rewrite (Hdrop _ _ _ _ H4 (Hdis _ _ Em Hr)). exact Hn.
    - apply dbind_Some in Hf as (u2 & d3 & H3 & [<- ->]%dret_Some). eapply Ha; [done | done | by eapply Hdrop]. }
  unfold ControlResponse_poll in H. destruct (pc (c_msg c)) as [[r|e]|] eqn:Ep; [by eapply Hfin | | ].
  - destruct (c_error c) eqn:Ec; [apply dret_Some in H as [[= <- <-] _]; eauto | ].
    assert (Hc' : settling Asked (mkControlResponse (error_msg e) true (c_packet_id c))) by (left; eauto).
    destruct (pc _) as [[r|e']|] eqn:Ep2 in H; [by eapply Hfin | ..]; apply dret_Some in H as [[= <- <-] _]; eauto.
  - by apply dret_Some in H as [[= <- <-] _].
Qed.

Lemma in_use (d : Disp) (id : Z) : ~ (id ∉ d_inflight d) -> id ∈ d_inflight d.
Proof. destruct (decide (id ∈ d_inflight d)); [done | by intros []]. Qed.

(** A publish is stopped by a protocol error or because its id is in use, or
    it passes. *)
Lemma checked_stops {Resp} (proto_error : ProtocolError -> Resp) nothing p pass (d : Disp) r d' :
  checked proto_error nothing p pass d = Some (r, d') ->
  (exists e, r = proto_error e) \/ (r = nothing /\ V5Dispatcher.publish_id p ∈ d_inflight d) \/ r = pass.
Proof.
  intros (o & d1 & H1 & H2)%dbind_Some. destruct o as [r1|].
  - apply dret_Some in H2 as [<- _]. unfold check_receive in H1. unfold V5Dispatcher.publish_id.
    destruct (pu_packet_id p) as [id|]; [ | by apply dret_Some in H1 as [? _]].
    apply dbind_Some in H1 as (mr & d2 & [= _ <-] & (n & d3 & [= _ <-] & H1)%dbind_Some).
    destruct (_ && _); [apply dret_Some in H1 as [[= <-] _]; eauto | ].
    apply dbind_Some in H1 as (fr & d4 & [= <- _] & H1). case_bool_decide as Hin; cbn [negb] in H1; [by apply dret_Some in H1 as [? _] | ].
    apply dbind_Some in H1 as (u & d5 & _ & [[= <-] _]%dret_Some). right. left. split; [done | ].
    by apply in_use.
  - apply dbind_Some in H2 as (o & d2 & H2 & H3). destruct o as [r2|]; apply dret_Some in H3 as [<- _]; [left | auto].
    unfold check_alias in H2. destruct (pp_topic_alias _); [ | by apply dret_Some in H2 as [? _]].
    destruct (negb (has_remaining _)).
    + apply dbind_Some in H2 as (k & d3 & _ & H2). destruct (negb k); apply dret_Some in H2 as [[= ] _]; eauto.
    + apply dbind_Some in H2 as (k & d3 & _ & H2). destruct (_ <? _); [apply dret_Some in H2 as [[= <-] _]; eauto | ].
      by apply dbind_Some in H2 as (u & d4 & _ & [? _]%dret_Some).
Qed.

End Settles.

Section Server.
Context `{R : Runtime Ack} {L : RuntimeLaws Ack} {E E2 IE : Type}.
Context (try_from : E2 -> result PubAck E) (into : E2 -> E) (control_fails : Prop).
Abbreviation Disp := (V5Info.Dispatcher).
Abbreviation Item5 := (IoPoll.DispatchItem Packet DecodeError EncodeError IE).
Abbreviation Resp := (V5Dispatcher.Response (E := E)).
Abbreviation Answer := (result (option Packet) (MqttError E)).
Abbreviation control pkt := (ControlResponse_new V5Dispatcher.is_error pkt).

(** ** Operations *)

(** The dispatcher does not look at the io error. *)
Definition item5 (item : Item5) : V5Dispatcher.DispatchItem :=
  match item with
  | IoPoll.DI_Item pkt => V5Dispatcher.DI_Item pkt
  | IoPoll.DI_WBackPressureEnabled => V5Dispatcher.DI_WBackPressureEnabled
  | IoPoll.DI_WBackPressureDisabled => V5Dispatcher.DI_WBackPressureDisabled
  | IoPoll.DI_KeepAliveTimeout => V5Dispatcher.DI_KeepAliveTimeout
  | IoPoll.DI_DecoderError e => V5Dispatcher.DI_DecoderError e
  | IoPoll.DI_EncoderError e => V5Dispatcher.DI_EncoderError e
  | IoPoll.DI_IoError _ => V5Dispatcher.DI_IoError
  end.

(** [read.decode(&codec)]: the codec is the one of the sink *)
Definition codec5 (d : Disp) : Codec := codec (V5Info.d_sink d).
Definition decode5 (d : Disp) (b : bytes) : dres (option Packet) * Disp * bytes :=
  let '(r, c, b) := codec_decode (codec5 d) b in (r, V5Info.set_sink d (set_codec c (V5Info.d_sink d)), b).

(** What the control service gives for a message, and the publish service
    for the publish of a response *)
Abbreviation Choice5 := ((ControlMessage E -> option (result ControlResult E)) * option (result PubAck E2))%type.

#[export] Instance ServerProtocol5 : Protocol Disp Resp Choice5 Packet Answer IE := {
  pr_call item := V5Dispatcher.call (item5 item);
  pr_poll ch := V5Dispatcher.poll try_from into ch.1 ch.2;
  pr_shutdown b d := match V5Dispatcher.poll_shutdown (E := E) b d with Some (_, d) => Some d | None => None end;
  pr_decode := decode5;
  pr_max d := max_in_size (codec5 d);
  pr_state d := state (codec5 d);
  pr_decode_packet := decode_packet;
  pr_open := open5;
}.

(** ** Answers *)

(** What an application can answer to a control message *)
Definition answers5 (m : ControlMessage E) (r : ControlResult) : Prop :=
  (exists pkt, r = disconnect_with pkt) \/
  match m with
  | CM_Auth _ => exists pkt, r = Auth_ack pkt
  | CM_Ping => r = Ping_ack
  | CM_Disconnect _ => r = Disconnect_ack
  | CM_Subscribe s => exists s', sub_made (sm_packet s) s' /\ r = Subscribe_ack s'
  | CM_Unsubscribe u => exists u', unsub_made (um_packet u) u' /\ r = Unsubscribe_ack u'
  | CM_Closed _ => r = Closed_ack
  | CM_Error _ _ | CM_ProtocolError _ _ => exists pkt, r = ProtocolError_ack pkt
  end.

(** The packets that answer a packet: the acknowledgement with its id, one
    status per filter, or a DISCONNECT of the control service, which closes
    the connection. *)
Definition acknowledges (is_open : bool) (item : Item5) (pkt : Packet) : Prop :=
  let disconnects := is_open = false /\ exists d, pkt = Pkt_Disconnect d in
  match item with
  | IoPoll.DI_Item (Pkt_Publish p) => exists a, pkt = Pkt_PublishAck a /\ pu_packet_id p = Some (pa_packet_id a)
  | IoPoll.DI_Item (Pkt_Subscribe s) =>
      (exists a, pkt = Pkt_SubscribeAck a /\ sa_packet_id a = su_packet_id s /\
         length (sa_status a) = length (su_topic_filters s)) \/ disconnects
  | IoPoll.DI_Item (Pkt_Unsubscribe u) =>
      (exists a, pkt = Pkt_UnsubscribeAck a /\ sa_packet_id a = un_packet_id u /\
         length (sa_status a) = length (un_topic_filters u)) \/ disconnects
  | IoPoll.DI_Item Pkt_PingRequest => pkt = Pkt_PingResponse \/ disconnects
  | IoPoll.DI_Item (Pkt_Auth _) => (exists a, pkt = Pkt_Auth a) \/ disconnects
  | IoPoll.DI_Item (Pkt_Disconnect _) => disconnects
  | _ => False
  end.

Definition failed5 (t : Answer) : Prop := exists e, t = err e.

(** The items that need no answer: publishes without an id, packets that no
    server expects, acknowledgements and back-pressure; and the packets whose
    id was in use at the call, which the sink acknowledges itself.  Everything
    else is only left without an answer when the connection is closed. *)
Definition unanswered (d0 : Disp) (item : Item5) : Prop :=
  match item with
  | IoPoll.DI_Item (Pkt_Publish p) => V5Dispatcher.publish_id p = 0 \/ V5Dispatcher.publish_id p ∈ d_inflight d0
  | IoPoll.DI_Item (Pkt_Subscribe s) => (su_packet_id s : Z) ∈ d_inflight d0
  | IoPoll.DI_Item (Pkt_Unsubscribe u) => (un_packet_id u : Z) ∈ d_inflight d0
  | IoPoll.DI_Item (Pkt_Auth _) | IoPoll.DI_Item Pkt_PingRequest | IoPoll.DI_Item (Pkt_Disconnect _) => False
  | IoPoll.DI_Item _ | IoPoll.DI_WBackPressureEnabled | IoPoll.DI_WBackPressureDisabled => True
  | _ => False
  end.

(** An item that a dispatcher in state [d0] was called with is answered by an
    acknowledgement, by nothing, or, when the control service can fail, by its
    error. *)
Definition answer5 (is_open : bool) (d0 : Disp) (item : Item5) (t : Answer) : Prop :=
  (control_fails /\ failed5 t) \/ (t = ok None /\ (is_open = true -> unanswered d0 item)) \/
  exists pkt, t = ok (Some pkt) /\ acknowledges is_open item pkt.

Definition request_message (item : Item5) : option (ControlMessage E) :=
  match item with
  | IoPoll.DI_Item (Pkt_Auth pkt) => Some (CM_Auth pkt)
  | IoPoll.DI_Item Pkt_PingRequest => Some CM_Ping
  | IoPoll.DI_Item (Pkt_Disconnect pkt) => Some (CM_Disconnect pkt)
  | IoPoll.DI_Item (Pkt_Subscribe pkt) => Some (Subscribe_create pkt)
  | IoPoll.DI_Item (Pkt_Unsubscribe pkt) => Some (Unsubscribe_create pkt)
  | _ => None
  end.

(** The future of an item *)
Definition asked5 (item : Item5) (m : ControlMessage E) : Prop := request_message item = Some m.
Definition about5 (d0 : Disp) (item : Item5) (r : Resp) : Prop :=
  match r with
  | V5Dispatcher.R_Ready t => answer5 true d0 item t
  | V5Dispatcher.R_Publish id p => item = IoPoll.DI_Item (Pkt_Publish p) /\ id = V5Dispatcher.publish_id p
  | V5Dispatcher.R_PublishControl _ c => settling V5Dispatcher.is_error (fun _ => False) c
  | V5Dispatcher.R_Control c => settling V5Dispatcher.is_error (asked5 item) c
  end.

Definition valid5 (r : Resp) (ch : Choice5) : Prop :=
  (forall m a, ch.1 m = Some (ok a) -> answers5 m a) /\ (forall m e, ch.1 m = Some (err e) -> control_fails).

(** ** Laws *)

Definition ok5 (d : Disp) : Prop := Sink.inv queued (V5Info.d_sink d).
Definition move5 (d d' : Disp) : Prop := exists s, V5Sink.step (V5Info.d_sink d) s /\ d' = V5Info.set_sink d s.

Lemma steps_inv5 s s' :
  rtc V5Sink.step s s' -> Sink.inv queued s ->
  Sink.inv queued s' /\ (is_open (io s') = true -> is_open (io s) = true).
Proof.
  induction 1 as [|s1 s2 s3 H1 _ IH]; [done | ]. intros Hi. pose proof (step_moved5 _ _ Hi H1) as Hm.
  destruct (IH (proj1 Hm)) as [Hi' Ho]. split; [done | ]. intros Ho3. by eapply moved_open, Ho.
Qed.

Lemma steps_kept5 d d' : rtc V5Sink.step (V5Info.d_sink d) (V5Info.d_sink d') -> ok5 d -> ok5 d' /\ kept d d'.
Proof.
  intros Hs Hok. pose proof (steps_settings _ _ Hs) as [= _ Hc]. destruct (steps_inv5 _ _ Hs Hok) as [Hi Ho].
  unfold kept. cbn. unfold codec5. by rewrite Hc.
Qed.

Lemma answer5_none o d0 item : (o = true -> unanswered d0 item) -> answer5 o d0 item (ok None).
Proof. intros H. right. by left. Qed.
Lemma answer5_failed o d0 item e : control_fails -> answer5 o d0 item (err e).
Proof. intros H. left. by split; [ | exists e]. Qed.
Lemma answer5_closed d0 item t : answer5 true d0 item t -> answer5 false d0 item t.
Proof.
  intros [H|[[H _]|(pkt & -> & H)]]; [by left | right; by left | right; right]. exists pkt. split; [done | ].
  destruct item as [[]| | | | | | ]; cbn in *; try done; naive_solver.
Qed.

Lemma about5_error d0 item e : about5 d0 item (V5Dispatcher.proto_error e).
Proof. left. done. Qed.
Lemma about5_control d0 item m :
  V5Dispatcher.is_error m = false -> request_message item = Some m -> about5 d0 item (V5Dispatcher.R_Control (control m)).
Proof. intros _ H. by apply settling_new. Qed.
#[local] Hint Resolve about5_error : core.

(** A request with an id that is in use is answered by the sink. *)
Lemma fresh_about d0 item (id : Z) pkt r0 r d' :
  about5 d0 item r0 -> (id ∈ d_inflight d0 -> unanswered d0 item) ->
  (fresh ← insert_id id;
   if negb fresh then _ ← on_sink (send pkt); mret (V5Dispatcher.R_Ready (ok None)) else mret r0 : V5Info.DM Resp) d0
  = Some (r, d') -> about5 d0 item r.
Proof.
  intros Hr Hu (fresh & d1 & [= <- _] & H)%dbind_Some. case_bool_decide as Hin; cbn [negb] in H.
  - by apply dret_Some in H as [<- _].
  - apply dbind_Some in H as (u & d2 & _ & [<- _]%dret_Some). apply answer5_none. intros _. by apply Hu.
Qed.

Lemma call_about item d r d' : V5Dispatcher.call (E := E) (item5 item) d = Some (r, d') -> about5 d item r.
Proof.
  assert (Hret : forall r1, about5 d item r1 -> (mret r1 : V5Info.DM Resp) d = Some (r, d') -> about5 d item r)
    by (by intros r1 H1 [<- _]%dret_Some).
  destruct item as [pkt| |e|e|e| | ]; cbn [item5 V5Dispatcher.call];
    try (apply Hret; first [apply about5_error | by apply answer5_none]).
  destruct pkt; cbn [V5Dispatcher.call];
    try (apply Hret; first [by apply answer5_none | by apply about5_control]).
  - intros [[e ->]|[[-> Hin]| ->]]%checked_stops; [auto | apply answer5_none; by right | done].
  - intros (x & d1 & _ & [<- _]%dret_Some)%dbind_Some. destruct x; [by apply answer5_none | auto].
  - apply fresh_about; [by right | done].
  - apply fresh_about; [by right | done].
Qed.

(** What the application makes of a request answers it. *)
Lemma asked_answer o d0 item m r :
  asked5 item m -> answers5 m r -> (cr_disconnect r = true -> o = false) -> answer5 o d0 item (ok (cr_packet r)).
Proof.
  intros Hm Ha Ho. unfold asked5 in Hm. destruct (cr_packet r) as [pkt|] eqn:Ep.
  - right. right. exists pkt. split; [done | ]. destruct Ha as [[k ->]|Ha].
    + injection Ep as <-. rewrite Ho by done. destruct item as [[]| | | | | | ]; try done; cbn; eauto.
    + destruct item as [[]| | | | | | ]; try done; injection Hm as <-; cbn in Ha.
      * destruct Ha as (s' & (_ & H1 & H2)%sub_made_shape & ->). injection Ep as <-. left. by eexists.
      * destruct Ha as (u' & (_ & H1 & H2)%unsub_made_shape & ->). injection Ep as <-. left. by eexists.
      * subst r. injection Ep as <-. by left.
      * by subst r.
      * destruct Ha as [k ->]. injection Ep as <-. left. by eexists.
  - destruct Ha as [[k ->]|Ha]; [done | ].
    destruct item as [[]| | | | | | ]; try done; injection Hm as <-; cbn in Ha;
      repeat match goal with H : exists _, _ |- _ => destruct H | H : _ /\ _ |- _ => destruct H end; subst r; try done.
    apply answer5_none. by rewrite Ho.
Qed.

Lemma error_disconnects m (r : ControlResult) : V5Dispatcher.is_error (E := E) m = true -> answers5 m r -> cr_disconnect r = true.
Proof. intros Hm [[k ->]|Ha]; [done | ]. destruct m; try done; by destruct Ha as [k ->]. Qed.

Lemma control_about d0 item (Asked : ControlMessage E -> Prop) r ch c d x c' d' :
  ControlResponse_poll (Error_new (E := E)) ch.1 c d = Some (x, c', d') -> valid5 r ch ->
  (forall m, Asked m -> asked5 item m) -> settling V5Dispatcher.is_error Asked c ->
  match x with Some t => answer5 (open5 d') d0 item t | None => settling V5Dispatcher.is_error Asked c' end.
Proof.
  intros H [Hv Hf] Has Hc.
  apply (control_settles V5Dispatcher.is_error _ Asked (fun o => answer5 o d0 item)) in H; [done | done | ..]; try done.
  - intros m a Hm Ha. by eapply error_disconnects, Hv.
  - intros m e o He. by eapply answer5_failed, Hf.
  - by apply answer5_none.
  - intros m a o Hm Ha Ho. eapply asked_answer; [by apply Has | by apply Hv | done].
Qed.

Lemma publish_done_answer d0 item p ack d (x : option Answer) d' :
  item = IoPoll.DI_Item (Pkt_Publish p) ->
  publish_done (V5Dispatcher.publish_id p) ack d = Some (x, d') -> exists t, x = Some t /\ forall o, answer5 o d0 item t.
Proof.
  intros -> H. destruct (publish_done_value _ _ _ _ _ H) as (t & -> & [[-> Hz]|(a & -> & Ha)]); (eexists; split; [done | ]); intros o.
  { apply answer5_none. intros _. by left. }
  right. right. eexists. split; [done | ]. eexists. split; [done | ].
  unfold V5Dispatcher.publish_id in *. destruct (pu_packet_id p); [by rewrite Ha | ]. done.
Qed.

Lemma poll_about d0 item ch r d x r' d' :
  V5Dispatcher.poll try_from into ch.1 ch.2 r d = Some (x, r', d') -> about5 d0 item r -> valid5 r ch ->
  match x with Some t => answer5 (open5 d') d0 item t | None => about5 d0 item r' end.
Proof.
  intros H Ha Hv. destruct r as [y|id p|id c|c]; cbn [V5Dispatcher.poll] in H.
  - apply dret_Some in H as [[= <- <-] _]. destruct (open5 d'); [done | by apply answer5_closed].
  - destruct Ha as [Hi ->].
    assert (Hctl : forall e,
      (x ← ControlResponse_poll Error_new ch.1 (control (Error_new e));
       mret (x.1, V5Dispatcher.R_PublishControl (V5Dispatcher.publish_id p) x.2) : V5Info.DM _) d = Some (x, r', d') ->
      match x with Some t => answer5 (open5 d') d0 item t | None => about5 d0 item r' end).
    { intros e ([y c'] & d1 & Hp & [[= <- <-] ->]%dret_Some)%dbind_Some.
      eapply (control_about d0 item (fun _ => False)) in Hp; [ | done | done | by left]. by destruct y. }
    assert (Hdone : forall ack,
      (x ← publish_done (V5Dispatcher.publish_id p) ack;
       mret (x, V5Dispatcher.R_Publish (V5Dispatcher.publish_id p) p) : V5Info.DM _) d = Some (x, r', d') ->
      match x with Some t => answer5 (open5 d') d0 item t | None => about5 d0 item r' end).
    { intros ack (y & d1 & Hp & [[= <- <-] _]%dret_Some)%dbind_Some.
      by destruct (publish_done_answer d0 item _ _ _ _ _ Hi Hp) as (t & -> & Ht). }
    unfold V5Dispatcher.PublishResponse_poll in H. destruct ch.2 as [[ack|e]|].
    + by eapply Hdone.
    + destruct (negb _); [destruct (try_from e); [by eapply Hdone | ] | ]; by eapply Hctl.
    + by apply dret_Some in H as [[= <- <-] _].
  - apply dbind_Some in H as ([y c'] & d1 & Hp & [[= <- <-] ->]%dret_Some).
    eapply (control_about d0 item (fun _ => False)) in Hp; [ | done ..]. by destruct y.
  - apply dbind_Some in H as ([y c'] & d1 & Hp & [[= <- <-] ->]%dret_Some).
    eapply (control_about d0 item (asked5 item)) in Hp; [ | done ..]. by destruct y.
Qed.

Lemma call_law5 i d :
  ok5 d -> match pr_call i d with Some (r, d') => about5 d i r /\ ok5 d' /\ kept d d' | None => True end.
Proof.
  intros Hok. cbn [pr_call ServerProtocol5]. destruct (V5Dispatcher.call (item5 i) d) as [[r d']|] eqn:Ec; [ | done].
  split; [by eapply call_about | ]. eapply steps_kept5; [by eapply dsteps_call | done].
Qed.

Lemma poll_law5 d0 i ch r d :
  ok5 d -> about5 d0 i r -> valid5 r ch ->
  match pr_poll ch r d with
  | Some (x, r', d') =>
      ok5 d' /\ kept d d' /\ match x with Some t => answer5 (pr_open d') d0 i t | None => about5 d0 i r' end
  | None => True
  end.
Proof.
  intros Hok Ha Hv. cbn [pr_poll ServerProtocol5]. destruct (V5Dispatcher.poll _ _ _ _ _ _) as [[[x r'] d']|] eqn:Ep; [ | done].
  rewrite assoc by apply _. split; [ | by eapply poll_about]. eapply steps_kept5; [by eapply dsteps_poll | done].
Qed.

Lemma shutdown_law5 b d :
  ok5 d -> match pr_shutdown b d with Some d' => ok5 d' /\ kept d d' | None => True end.
Proof.
  intros Hok. cbn [pr_shutdown ServerProtocol5].
  destruct (V5Dispatcher.poll_shutdown (E := E) b d) as [[m d']|] eqn:Es; [ | done].
  eapply steps_kept5; [by eapply dsteps_shutdown | done].
Qed.

Lemma moved_law5 d d' : ok5 d -> move5 d d' -> ok5 d' /\ kept d d'.
Proof. intros Hok (s & Hs & ->). apply steps_kept5; [by apply rtc_once | done]. Qed.

Lemma decode_law5 d b r d' b' :
  decode5 d b = (r, d', b') ->
  frame_decode decode_packet (max_in_size (codec5 d)) (state (codec5 d)) b = (r, state (codec5 d'), b') /\
  max_in_size (codec5 d') = max_in_size (codec5 d) /\ open5 d' = open5 d /\ (ok5 d -> ok5 d').
Proof.
  unfold decode5, codec_decode. destruct (frame_decode _ _ _ _) as [[r0 st] b0].
  destruct r0 as [[[]|]|e|]; intros [= <- <- <-]; try done.
Qed.

#[export] Instance ServerLaws5 : ProtocolLaws Disp Resp Choice5 Packet Answer IE := {
  pl_may_panic := True;
  pl_closed := answer5_closed;
  pl_call := call_law5;
  pl_poll := poll_law5;
  pl_shutdown := shutdown_law5;
  pl_moved := moved_law5;
  pl_decode := decode_law5;
  pl_decode_packet := decode_packet5_no_panic;
}.

(** ** Order *)
Context {W : Type} `{Nx : !Ntex Disp Resp Choice5 Answer (MqttError E) IE W}.
Context {NL : NtexLaws Disp Resp Choice5 Packet Answer (MqttError E) IE W}.

Definition item_publish_id (item : Item5) : option Z :=
  match item with IoPoll.DI_Item (Pkt_Publish p) => pu_packet_id p | _ => None end.
Definition answer_puback_id (t : Answer) : option Z :=
  match t with ok (Some (Pkt_PublishAck a)) => Some (pa_packet_id a) | _ => None end.

(** A publish with an id that is not in use when the dispatcher gets it *)
Definition fresh_id (call : Disp * Item5) : Prop :=
  forall id, item_publish_id call.2 = Some id -> 0 < id /\ id ∉ d_inflight call.1.

Lemma answer_puback o d0 item t id :
  answer5 o d0 item t -> answer_puback_id t = Some id -> item_publish_id item = Some id.
Proof.
  intros [[_ [e ->]]|[[-> _]|(pkt & -> & Ha)]] Ht; [done | done | ]. cbn in Ht. destruct pkt; try done. injection Ht as <-.
  destruct item as [[]| | | | | | ]; try done; cbn in Ha.
  1: by destruct Ha as (a' & [= ->] & ?).
  all: by repeat match goal with
                 | H : _ \/ _ |- _ => destruct H
                 | H : exists _, _ |- _ => destruct H
                 | H : _ /\ _ |- _ => destruct H
                 end.
Qed.

Definition answers_call5 (is_open : bool) (call : Disp * Item5) (t : Answer) : Prop :=
  answer5 is_open call.1 call.2 t.

Lemma answers_pubacks5 o calls log :
  Forall2 (answers_call5 o) calls log ->
  base.omap answer_puback_id log `sublist_of` base.omap item_publish_id calls.*2.
Proof.
  induction 1 as [|[d0 item] t calls log Ha _ IH]; [done | ]. cbn.
  pose proof (answer_puback o d0 item t) as Hp. destruct (answer_puback_id t) as [id|].
  - rewrite (Hp id Ha eq_refl). by apply sublist_skip.
  - destruct (item_publish_id item); [by apply sublist_cons | done].
Qed.

(** On an open connection every publish with a fresh id is acknowledged. *)
Lemma answered_fresh d0 item t id :
  answer5 true d0 item t -> ~ failed5 t -> fresh_id (d0, item) -> item_publish_id item = Some id ->
  answer_puback_id t = Some id.
Proof.
  intros Ha Hn Hf Hi. destruct (Hf id Hi) as [Hid Hni]. destruct item as [[p| | | | | | | | | | | | | | ]| | | | | | ]; try done.
  cbn in Hi, Ha, Hni. destruct Ha as [[_ ?]|[[_ Hu]|(pkt & -> & (a & -> & Hp))]]; [done | | ].
  - specialize (Hu eq_refl). cbn in Hu. unfold V5Dispatcher.publish_id in Hu. rewrite Hi in Hu. destruct Hu; [lia | done].
  - cbn. congruence.
Qed.

Lemma answered_pubacks5 calls log :
  Forall2 (answers_call5 true) calls log -> Forall (fun t => ~ failed5 t) log -> Forall fresh_id calls ->
  base.omap answer_puback_id log = base.omap item_publish_id calls.*2.
Proof.
  induction 1 as [|[d0 item] t calls log Ha _ IH]; intros Hn Hf; [done | ].
  apply Forall_cons in Hn as [Hnt Hn], Hf as [Hfi Hf]. cbn. rewrite (IH Hn Hf).
  destruct (item_publish_id item) as [id|] eqn:Ei; [by rewrite (answered_fresh d0 item t id) | ].
  destruct (answer_puback_id t) as [id|] eqn:Et; [ | done]. apply (answer_puback true d0 item t) in Et; [congruence | done].
Qed.

(** The first calls are answered by the results, one by one; the PUBACKs are
    those of publishes, and of all of them if the connection is open, the
    control service has not failed and no id was in use. *)
Definition in_order5 (log : list Answer) (x : Conn (D := Disp) (I := Packet) (IE := IE) (W := W)) : Prop :=
  let calls := take (length log) (c_called x) in
  Forall2 (answers_call5 (open5 (c_d x))) calls log /\
  base.omap answer_puback_id log `sublist_of` base.omap item_publish_id calls.*2 /\
  (open5 (c_d x) = true -> Forall (fun t => ~ failed5 t) log -> Forall fresh_id calls ->
   base.omap answer_puback_id log = base.omap item_publish_id calls.*2).

(** From a well-formed sink and a decoder between two packets on, the packets
    are answered in order. *)
Lemma served_in_order5 sink max_receive max_topic_alias w buf timeout io x fuel :
  Sink.inv queued sink -> state (codec sink) = FrameHeader ->
  conn_reachable (V5Info.Dispatcher_new sink max_receive max_topic_alias) w buf timeout io x ->
  let r := IoPoll.poll fuel true io x in
  Z.of_nat (d_calls (poll_state r)) < usize_max ->
  match r with P_Panic _ _ => False | _ => True end /\
  (c_panicked (poll_conn r) = false ->
   packets (c_items (poll_conn r)) `prefix_of`
     (drain decode_packet (max_in_size (codec sink)) FrameHeader (c_received (poll_conn r))).1.1.1 /\
   in_order5 (d_log (poll_state r)) (poll_conn r) /\
   match r with P_Ready _ d' x' => length (d_log d') = length (c_items x') | _ => True end).
Proof.
  intros Hi Hst Hr r Hc.
  destruct (conn_served (PL := ServerLaws5) (V5Info.Dispatcher_new sink max_receive max_topic_alias) w buf timeout io x fuel Hi Hst Hr Hc) as (He & _ & Hrest).
  split; [exact He | ]. intros Hs. destruct (Hrest Hs) as (Hp & Ha & Hlen).
  split; [exact Hp | ]. split; [ | exact Hlen]. split; [exact Ha | ]. split; [by eapply answers_pubacks5; exact Ha | ].
  intros Ho. apply answered_pubacks5. rewrite <- Ho. exact Ha.
Qed.

End Server.

(** ** A connection to run

    [W] is whether the publish service is done with its packets. *)
Section Simulated.
Context `{R : Runtime Ack} {L : RuntimeLaws Ack} {IE : Type}.
Abbreviation SimDisp := (V5Info.Dispatcher).
Abbreviation SimAnswer := (result (option Packet) (MqttError unit)).
Abbreviation SimChoice := ((ControlMessage unit -> option (result ControlResult unit)) * option (result PubAck unit))%type.
Abbreviation SimResp := (V5Dispatcher.Response (E := unit)).

Definition sim_encode5 (t : SimAnswer) (dw : SimDisp * bool) : option (MqttError unit + EncodeError) * (SimDisp * bool) :=
  match t with
  | ok (Some p) =>
      let s := V5Info.d_sink dw.1 in
      let (r, w) := io_encode (codec_encode (codec s) p) (io s) in
      (match r with Err e => Some (inr e) | _ => None end, (V5Info.set_sink dw.1 (set_io w s), dw.2))
  | ok None => (None, dw)
  | err e => (Some (inl e), dw)
  end.

#[export] Instance SimProtocol5 : Protocol SimDisp SimResp SimChoice Packet SimAnswer IE :=
  ServerProtocol5 no_ack (fun e => e).
#[export] Instance SimLaws5 : ProtocolLaws SimDisp SimResp SimChoice Packet SimAnswer IE :=
  ServerLaws5 no_ack (fun e => e) False.

#[export] Instance SimNtex5 : Ntex SimDisp SimResp SimChoice SimAnswer (MqttError unit) IE bool := {
  nx_service_ready dw := (Some (ok tt), dw);
  nx_service_poll r dw :=
    ((fun m => Some (ok (default_control m)), if dw.2 then Some (ok Publish_ack) else None), dw);
  nx_encode_result := sim_encode5;
  nx_io_error dw := (None, dw);
  nx_do _ dw := dw;
  nx_flag f _ := match f with Flag_ready => true | _ => false end;
  nx_now _ := 0;
}.

#[export] Instance SimNtexLaws5 :
  NtexLaws SimDisp SimResp SimChoice Packet SimAnswer (MqttError unit) IE bool.
Proof.
  split; cbn; try (intros; apply rtc_refl).
  - intros [[p|]|e] [d w]; try apply rtc_refl. cbn.
    pose proof (encode_open (codec_encode (codec (V5Info.d_sink d)) p) (io (V5Info.d_sink d))) as Ho.
    destruct (io_encode _ _) as [r w']. apply rtc_once. eexists. split; [ | done]. by apply V5Sink.step_io.
  - intros r dw. split; [ | done]. intros m a [= <-]. destruct m; cbn; [left | by right | by right | left ..]; by eexists.
Qed.

End Simulated.

(** A publish with id 7, a ping and a publish with id 8 *)
Definition demo_publish5 (id : Z) : Publish := { qos1 id with pu_qos := AtLeastOnce }.
Definition demo_bytes5 : bytes :=
  frame MAX_PACKET_SIZE (Pkt_Publish (demo_publish5 7)) ++ frame MAX_PACKET_SIZE Pkt_PingRequest ++
  frame MAX_PACKET_SIZE (Pkt_Publish (demo_publish5 8)).
