(* ===== verification/Exchange.v ===== *)
(** * A client and a server on one connection

    The sink of a client ([V3Sink], [V5Sink]) takes an acknowledgement only
    when it matches the front of its queue; a server ([Serving]) answers in
    order.  This file puts the two together: publishes of the client reach the
    server as bytes, in any pieces, and the PUBACKs the server has written
    reach the sink.  What ntex sends of the write buffer is on the wire
    ([lk_wire]).

    The class [Publisher] has what a version of the protocol does on both
    sides, [PublisherLaws] what that promises; [V3Exchange] and [V5Exchange]
    discharge them. *)

From stdpp Require Import base gmap list strings relations.
From S2P Require Import Prelude Types Wire Framing Sink IoDispatcher IoPoll Serving.
Open Scope Z_scope.

(** ** Interfaces *)

(** [Pub] is a publish as the application builds it, [A] and [E] what its
    future gives.  [cl_start] registers and writes it, [cl_finish] looks at the
    acknowledgement, [cl_ack] is [pkt_ack].  [cl_packet p id] is the packet,
    [cl_frame] its bytes, [cl_received] what the server decodes and
    [cl_request] the id to acknowledge.  [cl_puback] is the PUBACK in an answer
    of the server, [cl_arrives] relates it to what the client decodes, and
    [cl_value] is the result of the publish. *)
Class Publisher (Ack Codec Pub A E I T : Type) `{R : Runtime Ack} := {
  cl_disconnected : E;
  cl_prepare : Pub -> Pub;
  cl_start : Pub -> @M Ack R Codec (result tx E);
  cl_finish : Ack -> @M Ack R Codec (result A E);
  cl_ack : Ack -> @M Ack R Codec (result unit ProtocolError);
  cl_fresh : Pub -> Prop;
  cl_packet : Pub -> Z -> I;
  cl_frame : I -> bytes;
  cl_received : I -> I;
  cl_sendable : Z -> I -> bool;
  cl_request : I -> option Z;
  cl_puback : T -> option Ack;
  cl_ack_id : Ack -> Z;
  cl_arrives : Ack -> Ack -> Prop;
  cl_value : Ack -> result A E;
}.

(** [send_at_least_once] and the poll of its future *)
Definition client_send {Ack Codec Pub A E I T} `{C : Publisher Ack Codec Pub A E I T} (p : Pub)
  : @M Ack R Codec (SendFuture Pub A E) :=
  begin_send cl_disconnected cl_start (cl_prepare p).
Definition client_poll {Ack Codec Pub A E I T} `{C : Publisher Ack Codec Pub A E I T}
  : SendFuture Pub A E -> @M Ack R Codec (option (result A E) * SendFuture Pub A E) :=
  poll_send cl_disconnected cl_start cl_finish.

(** [cl_ok] are the states of a client; none of its operations leaves them or
    opens a closed connection.  A publish joins the queue and is written, a
    PUBACK takes the front of the queue.  [cl_answered] says which answers of
    the server are in the ordinary. *)
Class PublisherLaws (Ack Codec Pub A E D Resp Choice I T IE : Type)
    `{C : Publisher Ack Codec Pub A E I T} `{PL : ProtocolLaws D Resp Choice I T IE} := {
  cl_ok : @MqttShared Ack R Codec -> Prop;
  cl_answered : bool -> list (D * DispatchItem I DecodeError EncodeError IE) -> list T -> Prop;
  cl_send_kept p s f s' : cl_ok s -> client_send p s = Some (f, s') ->
    cl_ok s' /\ (is_open (io s') = true -> is_open (io s) = true);
  cl_poll_kept f s r s' : cl_ok s -> client_poll f s = Some (r, s') ->
    cl_ok s' /\ (is_open (io s') = true -> is_open (io s) = true);
  cl_ack_kept a s r s' : cl_ok s -> cl_ack a s = Some (r, s') ->
    cl_ok s' /\ (is_open (io s') = true -> is_open (io s) = true);
  cl_io_kept w s : cl_ok s -> (is_open w = true -> is_open (io s) = true) -> cl_ok (set_io w s);
  cl_sent p s c s' max : cl_ok s -> is_open (io s) = true -> cl_fresh p ->
    cl_start (cl_prepare p) s = Some (ok c, s') ->
    let id := inflight_idx s + 1 in
    cl_sendable max (cl_packet p id) = true ->
    outstanding (queues s') = outstanding (queues s) ++ [mkEntry id c AT_Publish] /\
    wbuf (io s') = wbuf (io s) ++ cl_frame (cl_packet p id) /\
    cl_request (cl_packet p id) = Some id;
  cl_acked t a a' s e rest : cl_ok s -> is_open (io s) = true ->
    cl_puback t = Some a -> cl_arrives a a' ->
    outstanding (queues s) = e :: rest -> en_id e = cl_ack_id a -> en_type e = AT_Publish ->
    exists s', cl_ack a' s = Some (ok tt, s') /\ outstanding (queues s') = rest /\
      wbuf (io s') = wbuf (io s) /\
      ((queue_send (en_tx e) a' (io s)).1 = true -> queue_recv (en_tx e) (io s') = Some (Some a'));
  cl_finished t a a' s : cl_puback t = Some a -> cl_arrives a a' -> cl_finish a' s = Some (cl_value a', s);
  cl_finish_pure a s r s' : cl_finish a s = Some (r, s') -> s' = s;
  cl_drained max ps : forallb (cl_sendable max) ps = true ->
    drain pr_decode_packet max FrameHeader (flat_map cl_frame ps) = (map cl_received ps, Ok tt, FrameHeader, []);
  cl_received_request p : cl_request (cl_received p) = cl_request p;
  cl_answers o calls log :
    Forall2 (fun call t => pl_answers o call.1 call.2 t) calls log -> cl_answered o calls log ->
    base.omap (fun t => cl_ack_id <$> cl_puback t) log = base.omap cl_request (packets calls.*2);
}.

Section Exchange.
Context {Ack Codec Pub A E D Resp Choice I T S IE W : Type}.
Context `{C : Publisher Ack Codec Pub A E I T} {L : RuntimeLaws Ack}.
Context `{Pr : Protocol D Resp Choice I T IE} {PL : ProtocolLaws D Resp Choice I T IE}.
Context {CL : PublisherLaws Ack Codec Pub A E D Resp Choice I T IE}.
Context `{Nx : !Ntex D Resp Choice T S IE W} {NL : NtexLaws D Resp Choice I T S IE W}.
Abbreviation Shared := (@MqttShared Ack R Codec).
Abbreviation Io := (Dispatcher (Fut := option Resp) (T := T) (S := S) (U := EncodeError)).
Abbreviation SConn := (Conn (D := D) (W := W) (I := I) (IE := IE)).

(** The client's sink, what is on the wire, the packets the client has
    written and how many PUBACKs it has handled; the server's connection *)
Record Link : Type := mkLink {
  lk_sink : Shared;
  lk_wire : bytes;
  lk_sent : list I;
  lk_acked : nat;
  lk_io : Io;
  lk_conn : SConn;
}.

(** The PUBACKs that the server has written *)
Definition pubacks (l : Link) : list Ack := base.omap cl_puback (d_log (lk_io l)).

Definition publish_packet (p : Pub) (s : Shared) : I := cl_packet p (inflight_idx s + 1).

(** What happens on the two sides: the client publishes, waits for credit,
    goes on when it is woken and looks at its results, ntex sends a part of
    its write buffer, and a PUBACK arrives; on the side of the server bytes
    arrive (and the application or ntex goes on), and the dispatcher and its
    tasks are polled. *)
Inductive link_step : Link -> Link -> Prop :=
| ls_publish p c s' s wire sent k d x :
    cl_fresh p -> client_send p s = Some (SF_Ack c, s') ->
    link_step (mkLink s wire sent k d x) (mkLink s' wire (sent ++ [publish_packet p s]) k d x)
| ls_wait p rx b s' s wire sent k d x :
    client_send p s = Some (SF_Wait rx b, s') ->
    link_step (mkLink s wire sent k d x) (mkLink s' wire sent k d x)
| ls_resume p rx c s' s wire sent k d x :
    cl_fresh p -> is_open (io s) = true ->
    client_poll (SF_Wait rx (cl_prepare p)) s = Some (None, SF_Ack c, s') ->
    link_step (mkLink s wire sent k d x) (mkLink s' wire (sent ++ [publish_packet p s]) k d x)
| ls_result c r f s' s wire sent k d x :
    client_poll (SF_Ack c) s = Some (r, f, s') ->
    link_step (mkLink s wire sent k d x) (mkLink s' wire sent k d x)
| ls_flush n w s wire sent k d x :
    is_open (io s) = true -> wbuf w = drop n (wbuf (io s)) ->
    link_step (mkLink s wire sent k d x) (mkLink (set_io w s) (wire ++ take n (wbuf (io s))) sent k d x)
| ls_ack a a' r s' s wire sent k d x :
    pubacks (mkLink s wire sent k d x) !! k = Some a -> cl_arrives a a' -> cl_ack a' s = Some (r, s') ->
    link_step (mkLink s wire sent k d x) (mkLink s' wire sent (Datatypes.S k) d x)
| ls_deliver chunk dp w s wire sent k d x :
    c_received x ++ chunk `prefix_of` wire -> rtc pl_move (c_d x) dp ->
    link_step (mkLink s wire sent k d x) (mkLink s wire sent k d (set_dw (dp, w) (receive chunk x)))
| ls_poll fuel d' x' s wire sent k d x :
    poll fuel true d x = P_Pending d' x' ->
    link_step (mkLink s wire sent k d x) (mkLink s wire sent k d' x')
| ls_task n d' x' s wire sent k d x :
    poll_task n d x = Some (d', x') ->
    link_step (mkLink s wire sent k d x) (mkLink s wire sent k d' x').

(** Nothing out of the ordinary: the publishes can be encoded and are within
    the limit of the server, its answers are ordinary ones, and it has not
    panicked where it can. *)
Definition fine (l : Link) : Prop :=
  forallb (cl_sendable (pr_max (c_d (lk_conn l)))) (lk_sent l) = true /\
  cl_answered (pr_open (c_d (lk_conn l))) (take (length (d_log (lk_io l))) (c_called (lk_conn l)))
    (d_log (lk_io l)) /\
  (pl_may_panic -> c_panicked (lk_conn l) = false) /\ Z.of_nat (d_calls (lk_io l)) < usize_max.

Context (server : D) (w0 : W) (timeout : Z).

Inductive linked : Link -> Prop :=
| linked_start client d x :
    cl_ok client -> is_open (io client) = true -> outstanding (queues client) = [] -> wbuf (io client) = [] ->
    conn_start timeout (Conn_new server w0 []) = (d, x) ->
    fine (mkLink client [] [] 0 d x) -> linked (mkLink client [] [] 0 d x)
| linked_next l l' : linked l -> link_step l l' -> fine l' -> linked l'.

(** ** Invariant *)

(** The ids that ask for a PUBACK, and the queue of the client *)
Definition wanted (sent : list I) : list Z := base.omap cl_request sent.
Definition waiting_for (s : Shared) : list (Z * AckType) := (fun e => (en_id e, en_type e)) <$> outstanding (queues s).
Definition as_publish (id : Z) : Z * AckType := (id, AT_Publish).

Record link_ok (l : Link) : Prop := {
  lo_ok : cl_ok (lk_sink l);
  lo_wire : lk_wire l `prefix_of` flat_map cl_frame (lk_sent l);
  lo_written : is_open (io (lk_sink l)) = true ->
    lk_wire l ++ wbuf (io (lk_sink l)) = flat_map cl_frame (lk_sent l);
  lo_waiting : is_open (io (lk_sink l)) = true ->
    waiting_for (lk_sink l) = drop (lk_acked l) (as_publish <$> wanted (lk_sent l));
  lo_acked : (lk_acked l <= length (wanted (lk_sent l)))%nat;
  lo_conn : conn_reachable server w0 [] timeout (lk_io l) (lk_conn l);
  lo_received : c_received (lk_conn l) `prefix_of` lk_wire l;
}.

Context (server_ok : pl_ok server) (server_state : pr_state server = FrameHeader).

Lemma omap_prefix {X Y} (f : X -> option Y) l k : l `prefix_of` k -> base.omap f l `prefix_of` base.omap f k.
Proof. intros [m ->]. rewrite omap_app. by eexists. Qed.

Lemma packets_prefix (l k : list (DispatchItem I DecodeError EncodeError IE)) :
  l `prefix_of` k -> packets l `prefix_of` packets k.
Proof. intros [m ->]. unfold packets. rewrite bind_app. by eexists. Qed.

Lemma wanted_received ps : wanted (map cl_received ps) = wanted ps.
Proof.
  induction ps as [|p ps IH]; [done | ]. unfold wanted in *. cbn. rewrite cl_received_request. by rewrite IH.
Qed.

Lemma omap_fmap {X Y V} (f : X -> option Y) (g : Y -> V) (l : list X) :
  base.omap (fun x => g <$> f x) l = g <$> base.omap f l.
Proof. induction l as [|x l IH]; [done | ]. cbn. rewrite IH. by destruct (f x). Qed.

(** The PUBACKs written are those of the first publishes of the client. *)
Lemma pubacks_wanted l : link_ok l -> fine l -> (cl_ack_id <$> pubacks l) `prefix_of` wanted (lk_sent l).
Proof.
  intros Hl (Hs & Hf & Hpa & Hc).
  destruct (conn_state_served server _ _ _ _ _ server_ok server_state (lo_conn _ Hl) Hc) as [Hp Hserved].
  assert (Hn : c_panicked (lk_conn l) = false) by (destruct (c_panicked (lk_conn l)); [by apply Hpa, Hp | done]).
  destruct (Hserved Hn) as [_ [Hpre Hans]].
  unfold pubacks. rewrite <- omap_fmap, (cl_answers _ _ _ Hans Hf), <- (wanted_received (lk_sent l)). apply omap_prefix.
  rewrite fmap_take. etrans; [apply packets_prefix, prefix_take | ]. etrans; [exact Hpre | ].
  apply cl_drained in Hs.
  assert (Hr : c_received (lk_conn l) `prefix_of` flat_map cl_frame (lk_sent l)).
  { etrans; [apply (lo_received _ Hl) | apply (lo_wire _ Hl)]. }
  destruct Hr as [more Hr]. rewrite Hr in Hs. apply drain_prefix in Hs as (qs & qs' & st & rest & Hd & ->).
  unfold decoded_packets, drained. rewrite Hd. by exists qs'.
Qed.

(** So the next one is the acknowledgement the client waits for. *)
Lemma next_ack l a :
  link_ok l -> fine l -> is_open (io (lk_sink l)) = true -> pubacks l !! lk_acked l = Some a ->
  exists e rest, outstanding (queues (lk_sink l)) = e :: rest /\ en_id e = cl_ack_id a /\ en_type e = AT_Publish /\
    drop (lk_acked l) (as_publish <$> wanted (lk_sent l)) =
      as_publish (cl_ack_id a) :: drop (Datatypes.S (lk_acked l)) (as_publish <$> wanted (lk_sent l)).
Proof.
  intros Hl Hf Ho Hid. pose proof (pubacks_wanted l Hl Hf) as Hp.
  assert (Hw : (as_publish <$> wanted (lk_sent l)) !! lk_acked l = Some (as_publish (cl_ack_id a))).
  { rewrite list_lookup_fmap. erewrite prefix_lookup_Some; [ | | exact Hp]; [done | by rewrite list_lookup_fmap, Hid]. }
  apply drop_S in Hw. pose proof (lo_waiting _ Hl Ho) as Hq. rewrite Hw in Hq.
  unfold waiting_for in Hq. destruct (outstanding (queues (lk_sink l))) as [|e rest]; [done | ].
  injection Hq as H1 H2 _. by exists e, rest.
Qed.

Lemma wanted_app l k : wanted (l ++ k) = wanted l ++ wanted k.
Proof. apply omap_app. Qed.

(** [begin_send] on its way to a future that waits for the acknowledgement *)
Lemma begin_acked p s c s' :
  client_send p s = Some (SF_Ack c, s') ->
  is_open (io s) = true /\ cl_start (cl_prepare p) s = Some (ok c, s').
Proof.
  intros (op & s1 & [= <- <-] & H)%bind_Some. destruct (is_open (io s)); [ | by apply ret_Some in H as [? _]].
  apply bind_Some in H as (cr & s2 & H1 & H2). unfold has_credit in H1. destruct (borrowed s); [done | ].
  destruct (_ <=? _) in H1; [ | done]. injection H1 as <- <-.
  destruct (negb _). { apply bind_Some in H2 as (rx & s3 & _ & [? _]%ret_Some). done. }
  apply bind_Some in H2 as (r & s3 & H2 & [Hr <-]%ret_Some). destruct r as [c'|e]; [by injection Hr as -> | done].
Qed.

Lemma acked_later (rx : wtx) (b : Pub) s c s' :
  client_poll (SF_Wait rx b) s = Some (None, SF_Ack c, s') -> cl_start b s = Some (ok c, s').
Proof.
  unfold client_poll, poll_send. intros (v & s1 & [= <- <-] & H)%bind_Some.
  destruct (waiter_recv rx (io s)) as [[u|]|]; try (by apply ret_Some in H as [? _]).
  apply bind_Some in H as (f & s2 & H1 & H2). apply bind_Some in H1 as (r & s3 & H1 & [<- <-]%ret_Some).
  destruct r as [c'|e]; cbn [poll_ack] in H2; [ | by apply ret_Some in H2 as [? _]].
  apply bind_Some in H2 as (q & s4 & [= <- <-] & H2).
  destruct (queue_recv c' (io s3)) as [[a|]|];
    [by apply bind_Some in H2 as (r & s5 & _ & [? _]%ret_Some) | by apply ret_Some in H2 as [? _] | ].
  apply ret_Some in H2 as [[= <-] <-]. exact H1.
Qed.

(** Waiting and looking at a result leave queue and write buffer alone. *)
Lemma waits p rx b s s' :
  client_send p s = Some (SF_Wait rx b, s') ->
  is_open (io s') = is_open (io s) /\ wbuf (io s') = wbuf (io s) /\ waiting_for s' = waiting_for s.
Proof.
  intros (op & s1 & [= <- <-] & H)%bind_Some. destruct (is_open (io s)) eqn:Ho; [ | by apply ret_Some in H as [? _]].
  apply bind_Some in H as (cr & s2 & H1 & H2). unfold has_credit in H1. destruct (borrowed s) eqn:Hb; [done | ].
  destruct (_ <=? _) in H1; [ | done]. injection H1 as <- <-.
  destruct (negb _); [ | by apply bind_Some in H2 as ([] & s3 & _ & [? _]%ret_Some)].
  apply bind_Some in H2 as (rx' & s3 & H2 & [_ <-]%ret_Some).
  apply bind_Some in H2 as (rx2 & s4 & [_ ->]%run_io_Some & H2).
  apply bind_Some in H2 as (u & s5 & H2 & [_ <-]%ret_Some).
  apply with_queues_Some in H2 as (_ & q & s6 & [[= Hq] <-]%ret_Some & ->). subst q. cbn.
  by rewrite waiter_channel_io, waiter_channel_wbuf.
Qed.

Lemma looks c s r f s' : client_poll (SF_Ack c) s = Some (r, f, s') -> s' = s.
Proof.
  unfold client_poll. cbn [poll_send poll_ack]. intros (v & s1 & [= <- <-] & H)%bind_Some.
  destruct (queue_recv c (io s)) as [[a|]|]; [ | by apply ret_Some in H as [_ <-] ..].
  by apply bind_Some in H as (r' & s2 & ->%cl_finish_pure & [_ <-]%ret_Some).
Qed.

(** A publish joins the queue and the bytes. *)
Lemma publish_ok p c s' l :
  link_ok l -> cl_fresh p -> is_open (io (lk_sink l)) = true ->
  cl_start (cl_prepare p) (lk_sink l) = Some (ok c, s') -> cl_ok s' ->
  forallb (cl_sendable (pr_max (c_d (lk_conn l)))) (lk_sent l ++ [publish_packet p (lk_sink l)]) = true ->
  link_ok (mkLink s' (lk_wire l) (lk_sent l ++ [publish_packet p (lk_sink l)]) (lk_acked l) (lk_io l) (lk_conn l)).
Proof.
  intros [Hi Hwi Hwr Hwa Hk Hc Hr] Hp Ho H Hok Hse.
  rewrite forallb_app, andb_true_iff in Hse. destruct Hse as [_ Hse]. cbn [forallb] in Hse. rewrite andb_true_r in Hse.
  destruct (cl_sent p _ c s' _ Hi Ho Hp H Hse) as (H1 & H2 & H3). fold (publish_packet p (lk_sink l)) in H2, H3.
  split; cbn [lk_sink lk_wire lk_sent lk_acked lk_io lk_conn]; try done.
  - rewrite flat_map_app. by apply prefix_app_r.
  - intros _. rewrite H2, app_assoc, (Hwr Ho), flat_map_app. cbn [flat_map]. by rewrite app_nil_r.
  - intros _. rewrite wanted_app, fmap_app, drop_app_le by (by rewrite length_fmap). rewrite <- (Hwa Ho).
    unfold waiting_for, wanted. rewrite H1, fmap_app. cbn. by rewrite H3.
  - rewrite wanted_app, length_app. lia.
Qed.

(** A change of the sink that leaves the queue and the bytes alone *)
Lemma quiet_ok s' l :
  link_ok l -> cl_ok s' ->
  (is_open (io s') = true -> is_open (io (lk_sink l)) = true /\
     wbuf (io s') = wbuf (io (lk_sink l)) /\ waiting_for s' = waiting_for (lk_sink l)) ->
  link_ok (mkLink s' (lk_wire l) (lk_sent l) (lk_acked l) (lk_io l) (lk_conn l)).
Proof.
  intros [Hi Hwi Hwr Hwa Hk Hc Hr] Hi' Hs. split; cbn [lk_sink lk_wire lk_sent lk_acked lk_io lk_conn]; try done.
  - intros (Ho & -> & _)%Hs. by apply Hwr.
  - intros (Ho & _ & ->)%Hs. by apply Hwa.
Qed.

Lemma puback_answer l a : a ∈ pubacks l -> exists t, cl_puback t = Some a.
Proof. intros (t & _ & Ht)%list_elem_of_omap. eauto. Qed.

(** A PUBACK takes the front of the queue. *)
Lemma ack_ok a a' l :
  link_ok l -> fine l -> is_open (io (lk_sink l)) = true -> pubacks l !! lk_acked l = Some a -> cl_arrives a a' ->
  exists e rest s', outstanding (queues (lk_sink l)) = e :: rest /\ en_id e = cl_ack_id a /\
    cl_ack a' (lk_sink l) = Some (ok tt, s') /\ outstanding (queues s') = rest /\
    ((queue_send (en_tx e) a' (io (lk_sink l))).1 = true -> queue_recv (en_tx e) (io s') = Some (Some a')) /\
    link_ok (mkLink s' (lk_wire l) (lk_sent l) (Datatypes.S (lk_acked l)) (lk_io l) (lk_conn l)).
Proof.
  intros Hl Hf Ho Hid Ha. destruct (next_ack l a Hl Hf Ho Hid) as (e & rest & He & Hei & Het & Hd).
  destruct (puback_answer l a) as [t Ht]; [by eapply list_elem_of_lookup_2 | ].
  destruct Hl as [Hi Hwi Hwr Hwa Hk Hc Hr].
  destruct (cl_acked t a a' _ e rest Hi Ho Ht Ha He Hei Het) as (s' & Hp & Hrest & Hb & Hq).
  exists e, rest, s'. split; [done | ]. split; [done | ]. split; [done | ]. split; [done | ]. split; [done | ].
  split; cbn [lk_sink lk_wire lk_sent lk_acked lk_io lk_conn]; try done.
  - by eapply cl_ack_kept.
  - intros _. rewrite Hb. by apply Hwr.
  - intros _. pose proof (Hwa Ho) as Hw. unfold waiting_for in *. rewrite He, Hd in Hw. rewrite Hrest.
    cbn in Hw. by injection Hw.
  - assert (Hlen : (lk_acked l < length (wanted (lk_sent l)))%nat); [ | lia].
    apply Nat.nle_gt. intros Hle. rewrite drop_ge in Hd; [done | ]. by rewrite length_fmap.
Qed.

(** One that arrives after the connection was closed changes nothing here. *)
Lemma late_ack a a' r s' l :
  link_ok l -> fine l -> is_open (io (lk_sink l)) = false -> pubacks l !! lk_acked l = Some a ->
  cl_ack a' (lk_sink l) = Some (r, s') ->
  link_ok (mkLink s' (lk_wire l) (lk_sent l) (Datatypes.S (lk_acked l)) (lk_io l) (lk_conn l)).
Proof.
  intros Hl Hf Ho Hid H. pose proof (pubacks_wanted _ Hl Hf) as Hpre%prefix_length. rewrite length_fmap in Hpre.
  apply lookup_lt_Some in Hid. destruct Hl as [Hi Hwi Hwr Hwa Hk Hc Hr]. destruct (cl_ack_kept _ _ _ _ Hi H) as [Hi' Ho'].
  assert (Hcl : is_open (io s') = false) by (apply not_true_is_false; intros ?%Ho'; congruence).
  split; cbn [lk_sink lk_wire lk_sent lk_acked lk_io lk_conn]; try done; [congruence | congruence | lia].
Qed.

Lemma link_step_ok l l' : link_ok l -> fine l -> link_step l l' -> fine l' -> link_ok l'.
Proof.
  intros Hl Hf Hs (Hse & _ & _). pose proof Hl as [Hi Hwi Hwr Hwa Hk Hc Hr].
  destruct Hs as [p c s' s wire sent k d x Hp H|p rx b s' s wire sent k d x H|p rx c s' s wire sent k d x Hp Ho H
    |c r f s' s wire sent k d x H|n w s wire sent k d x Ho Hw|a a' r s' s wire sent k d x Hid Ha H
    |chunk dp w s wire sent k d x Hd Hm|fuel d' x' s wire sent k d x H|n d' x' s wire sent k d x H];
    cbn [lk_sink lk_wire lk_sent lk_acked lk_io lk_conn] in *.
  - pose proof (begin_acked _ _ _ _ H) as [Ho H2].
    apply (publish_ok p c s' (mkLink s wire sent k d x)); try done. by eapply cl_send_kept.
  - apply (quiet_ok s' (mkLink s wire sent k d x)); [done | by eapply cl_send_kept | ].
    apply waits in H as (H1 & H2 & H3). cbn. by rewrite H1.
  - pose proof (acked_later _ _ _ _ _ H) as H2.
    apply (publish_ok p c s' (mkLink s wire sent k d x)); try done. by eapply cl_poll_kept.
  - apply looks in H as ->. done.
  - split; cbn [lk_sink lk_wire lk_sent lk_acked lk_io lk_conn]; try done.
    + by apply cl_io_kept.
    + rewrite <- (Hwr Ho). apply prefix_app. by apply prefix_take.
    + intros _. cbn [io set_io]. by rewrite Hw, <- app_assoc, take_drop, Hwr.
    + intros _. by apply Hwa.
    + etrans; [exact Hr | by eexists].
  - destruct (is_open (io s)) eqn:Ho; [ | by eapply (late_ack a a' r s' (mkLink s wire sent k d x))].
    destruct (ack_ok a a' _ Hl Hf Ho Hid Ha) as (e & rest & s2 & _ & _ & H2 & _ & _ & Hok). cbn in H2, Hok. congruence.
  - split; cbn [lk_sink lk_wire lk_sent lk_acked lk_io lk_conn]; try done. by apply conn_env.
  - pose proof (poll_onward fuel true d x) as [_ Hon]. rewrite H in Hon. cbn in Hon.
    split; cbn [lk_sink lk_wire lk_sent lk_acked lk_io lk_conn]; try done; [by eapply conn_polled | by rewrite Hon].
  - pose proof (poll_task_onward _ _ _ _ _ H) as [_ Hon].
    split; cbn [lk_sink lk_wire lk_sent lk_acked lk_io lk_conn]; try done; [by eapply conn_task | by rewrite Hon].
Qed.

Lemma linked_ok l : linked l -> link_ok l /\ fine l.
Proof.
  induction 1 as [client d x Hi Ho Hq Hb Hc Hf|l l' _ [IH IHf] Hs Hf]; [ | split; [by eapply link_step_ok | done]].
  pose proof (conn_start_new _ _ _ _ _ _ Hc) as (Hm & _). split; [ | done].
  split; cbn [lk_sink lk_wire lk_sent lk_acked lk_io lk_conn]; try done.
  - intros _. unfold waiting_for. by rewrite Hq.
  - by apply conn_new.
  - by rewrite (mv_received _ _ Hm).
Qed.

(** The PUBACKs of the server are those of the first publishes of the client,
    the client waits for the ones it has not got, and the next one is
    accepted and ends its publish. *)
Lemma publishes_acknowledged l :
  linked l -> is_open (io (lk_sink l)) = true ->
  (cl_ack_id <$> pubacks l) `prefix_of` wanted (lk_sent l) /\
  waiting_for (lk_sink l) = drop (lk_acked l) (as_publish <$> wanted (lk_sent l)) /\
  forall a a', pubacks l !! lk_acked l = Some a -> cl_arrives a a' ->
    exists e rest s', outstanding (queues (lk_sink l)) = e :: rest /\ en_id e = cl_ack_id a /\
      cl_ack a' (lk_sink l) = Some (ok tt, s') /\ outstanding (queues s') = rest /\
      ((queue_send (en_tx e) a' (io (lk_sink l))).1 = true ->
       client_poll (SF_Ack (en_tx e)) s' = Some (Some (cl_value a'), SF_Done (cl_value a'), s')).
Proof.
  intros [Hl Hf]%linked_ok Ho. split; [by apply pubacks_wanted | ]. split; [by apply (lo_waiting _ Hl) | ].
  intros a a' Hid Ha. destruct (ack_ok a a' l Hl Hf Ho Hid Ha) as (e & rest & s' & He & Hi & Hp & Hr & Hq & _).
  exists e, rest, s'. split; [done | ]. split; [done | ]. split; [done | ]. split; [done | ]. intros Hsend%Hq.
  destruct (puback_answer l a) as [t Ht]; [by eapply list_elem_of_lookup_2 | ].
  unfold client_poll. cbn [poll_send poll_ack]. unfold mbind, M_bind, gets. rewrite Hsend.
  by rewrite (cl_finished t a a' _ Ht Ha).
Qed.

End Exchange.

(** ** Exchanges to run

    The client publishes, ntex sends, bytes arrive (the application's state
    is set to [w]), and the server is polled. *)
Section Runs.
Context {Ack Codec Pub A E D Resp Choice I T S IE W : Type}.
Context {C : @Publisher Ack Codec Pub A E I T (SimRuntime Ack)}.
Context `{Pr : Protocol D Resp Choice I T IE} {PL : ProtocolLaws D Resp Choice I T IE}.
Context {CL : PublisherLaws Ack Codec Pub A E D Resp Choice I T IE}.
Context `{Nx : !Ntex D Resp Choice T S IE W} {NL : NtexLaws D Resp Choice I T S IE W}.
Abbreviation SimLink := (Link (R := SimRuntime Ack) (Codec := Codec) (D := D) (Resp := Resp) (I := I) (T := T) (S := S) (IE := IE) (W := W)).

Definition do_publish (p : Pub) (l : SimLink) : SimLink :=
  match client_send p (lk_sink l) with
  | Some (SF_Ack _, s') => mkLink s' (lk_wire l) (lk_sent l ++ [publish_packet p (lk_sink l)]) (lk_acked l) (lk_io l) (lk_conn l)
  | _ => l
  end.
Definition flushed (n : nat) (w : SimWorld Ack) : SimWorld Ack :=
  mkSim (sim_open w) (drop n (sim_buf w)) (sim_acks w) (sim_wakes w).
Definition do_flush (n : nat) (l : SimLink) : SimLink :=
  let w : SimWorld Ack := io (lk_sink l) in
  mkLink (set_io (R := SimRuntime Ack) (flushed n w) (lk_sink l))
    (lk_wire l ++ take n (sim_buf w)) (lk_sent l) (lk_acked l) (lk_io l) (lk_conn l).
Definition do_deliver (w : W) (chunk : bytes) (l : SimLink) : SimLink :=
  mkLink (lk_sink l) (lk_wire l) (lk_sent l) (lk_acked l) (lk_io l)
    (set_dw (c_d (lk_conn l), w) (receive chunk (lk_conn l))).
Definition do_poll (fuel : nat) (l : SimLink) : SimLink :=
  match poll fuel true (lk_io l) (lk_conn l) with
  | P_Pending d x => mkLink (lk_sink l) (lk_wire l) (lk_sent l) (lk_acked l) d x
  | _ => l
  end.
Definition do_ack (a : Ack) (l : SimLink) : SimLink :=
  match cl_ack a (lk_sink l) with
  | Some (_, s') => mkLink s' (lk_wire l) (lk_sent l) (Datatypes.S (lk_acked l)) (lk_io l) (lk_conn l)
  | None => l
  end.

Context (server : D) (w0 : W) (timeout : Z).
Abbreviation sim_linked := (linked server w0 timeout).

Lemma do_publish_linked p (l : SimLink) :
  cl_fresh p -> sim_linked l -> fine (do_publish p l) -> sim_linked (do_publish p l).
Proof.
  intros Hp Hl Hf. unfold do_publish in *. destruct (client_send p (lk_sink l)) as [[[ | |c| ] s']|] eqn:Es; try done.
  eapply linked_next; [exact Hl | | exact Hf]. destruct l. by apply (ls_publish p c).
Qed.

Lemma do_flush_linked n (l : SimLink) :
  is_open (io (lk_sink l)) = true -> sim_linked l -> fine (do_flush n l) -> sim_linked (do_flush n l).
Proof.
  intros Ho Hl Hf. eapply linked_next; [exact Hl | | exact Hf]. destruct l as [s wire sent k d x].
  exact (ls_flush n (flushed n (io s)) s wire sent k d x Ho eq_refl).
Qed.

Lemma do_deliver_linked w chunk (l : SimLink) :
  c_received (lk_conn l) ++ chunk = lk_wire l -> sim_linked l -> fine (do_deliver w chunk l) ->
  sim_linked (do_deliver w chunk l).
Proof.
  intros Hc Hl Hf. eapply linked_next; [exact Hl | | exact Hf]. destruct l as [s wire sent k d x].
  apply (ls_deliver chunk (c_d x) w s wire sent k d x); [ | done]. cbn in Hc. by rewrite Hc.
Qed.

Lemma do_poll_linked fuel (l : SimLink) : sim_linked l -> fine (do_poll fuel l) -> sim_linked (do_poll fuel l).
Proof.
  intros Hl Hf. unfold do_poll in *. destruct (poll fuel true (lk_io l) (lk_conn l)) as [d x|r d x|d x|d x] eqn:Ep; try done.
  eapply linked_next; [exact Hl | | exact Hf]. destruct l. by apply (ls_poll fuel).
Qed.

Lemma do_ack_linked a a' (l : SimLink) :
  pubacks l !! lk_acked l = Some a -> cl_arrives a a' -> sim_linked l -> fine (do_ack a' l) -> sim_linked (do_ack a' l).
Proof.
  intros Ha Har Hl Hf. unfold do_ack in *. destruct (cl_ack a' (lk_sink l)) as [[r s']|] eqn:Es; [ | done].
  eapply linked_next; [exact Hl | | exact Hf]. destruct l. by eapply (ls_ack a a').
Qed.

End Runs.
