(* ===== verification/V3Exchange.v ===== *)
(** * A client and a server of MQTT 3.1.1 on one connection

    [Exchange] with the sink of [V3Sink] and the server of [V3Serving].  The
    sink closes the connection when an acknowledgement does not match the
    front of its queue; the server's always do. *)

From stdpp Require Import base gmap list strings relations.
From S2P Require Import Prelude Types Wire Framing V3Codec Sink V3Sink V3Dispatcher.
From S2P Require Import IoDispatcher IoPoll Net Service V3Server Serving V3Serving Exchange.
Open Scope Z_scope.

Section Exchange.
Context `{R : Runtime Ack} {L : RuntimeLaws Ack} {E W : Type}.
Abbreviation Shared := (@MqttShared Ack R Codec).
Abbreviation MError := (MqttError E).
Abbreviation Disp := (V3Dispatcher.Dispatcher).
Abbreviation Resp := (V3Dispatcher.Response (E := E)).
Abbreviation Answer := (result (option Packet) MError).
Abbreviation Choice := (option (result unit MError) * option (result ControlResult MError))%type.
Context `{Nx : !Ntex Disp Resp Choice Answer MError IoError W}.
Context {NL : NtexLaws Disp Resp Choice Packet Answer MError IoError W}.

Definition request (p : Packet) : option Z := match p with PPublish p => packet_id p | _ => None end.

#[export] Instance Publisher3 : Publisher Ack Codec Publish unit SendPacketError Packet Answer := {
  cl_disconnected := SDisconnected;
  cl_prepare p := set_qos p AtLeastOnce;
  cl_start := send_at_least_once_inner;
  cl_finish _ := mret (ok tt);
  cl_ack := pkt_ack;
  cl_fresh p := packet_id p = None;
  cl_packet p id := PPublish (set_packet_id (set_qos p AtLeastOnce) (Some id));
  cl_frame := frame;
  cl_received p := p;
  cl_sendable := sendable;
  cl_request := request;
  cl_puback t := Ack_Publish <$> puback_id t;
  cl_ack_id := Ack_packet_id;
  cl_arrives a a' := a' = a;
  cl_value _ := ok tt;
}.

(** ** Laws *)

Abbreviation ok3 := (Sink.inv (Codec := Codec) consistent).

Lemma step_kept (s s' : Shared) :
  ok3 s -> step s s' -> ok3 s' /\ (is_open (Sink.io s') = true -> is_open (Sink.io s) = true).
Proof.
  intros Hi Hs. pose proof (step_moved _ _ Hi Hs) as Hm. split; [apply Hm | by eapply moved_open].
Qed.

Lemma sent3 p (s : Shared) c s' max :
  ok3 s -> is_open (Sink.io s) = true -> packet_id p = None ->
  send_at_least_once_inner (set_qos p AtLeastOnce) s = Some (ok c, s') ->
  let id := inflight_idx s + 1 in
  let pkt := PPublish (set_packet_id (set_qos p AtLeastOnce) (Some id)) in
  sendable max pkt = true ->
  outstanding (queues s') = outstanding (queues s) ++ [mkEntry id c AT_Publish] /\
  wbuf (Sink.io s') = wbuf (Sink.io s) ++ frame pkt /\ request pkt = Some id.
Proof.
  intros Hi Ho Hp H id pkt. unfold sendable. rewrite !andb_true_iff, Z.leb_le. intros [[Hv Hn] _].
  destruct (inner_sent (set_qos p AtLeastOnce) s c s' Hi Ho Hp H Hv Hn) as [Hq Hb]. done.
Qed.

Lemma acked3 a (s : Shared) e rest :
  ok3 s -> is_open (Sink.io s) = true -> outstanding (queues s) = e :: rest -> ack_error a (Some e) = None ->
  exists s', pkt_ack a s = Some (ok tt, s') /\ outstanding (queues s') = rest /\
    wbuf (Sink.io s') = wbuf (Sink.io s) /\
    ((queue_send (en_tx e) a (Sink.io s)).1 = true -> queue_recv (en_tx e) (Sink.io s') = Some (Some a)).
Proof.
  intros Hi Ho He Herr. pose proof (pkt_ack_cases a s Hi Ho) as Hcase. cbv zeta in Hcase. rewrite He in Hcase.
  cbn [head] in Hcase. rewrite Herr in Hcase. destruct Hcase as (e' & rest' & [= <- <-] & Hp).
  eexists. split; [exact Hp | ]. cbn [Sink.io queues set_queues set_io].
  rewrite woken_wbuf, queue_send_wbuf, woken_queue. split; [ | by split; [ | apply queue_send_recv]].
  by apply (served_front _ _ _ _ (consistent_ordered _ _ (proj2 (proj2 Hi) Ho)) He).
Qed.

Lemma requests (items : list Item3) : base.omap publish_id items = base.omap request (packets items).
Proof.
  induction items as [|item items IH]; [done | ]. cbn [base.omap list_omap].
  change (packets (item :: items)) with ((match item with DI_Item p => [p] | _ => [] end) ++ packets items).
  rewrite omap_app, <- IH. destruct item as [[]| | | | | | ]; cbn; try done. by destruct (packet_id p).
Qed.

#[export] Instance PublisherLaws3 :
  PublisherLaws Ack Codec Publish unit SendPacketError Disp Resp Choice Packet Answer IoError.
Proof.
  refine {| cl_ok := ok3; cl_answered _ _ log := Forall (fun t => ~ failed t) log; cl_sent := sent3 |}.
  - intros p s f s' Hi H. eapply step_kept; [done | exact (step_publish s p f s' H)].
  - intros f s r s' Hi H. eapply step_kept; [done | exact (step_poll_publish s f r s' H)].
  - intros a s r s' Hi H. eapply step_kept; [done | exact (step_ack s a r s' H)].
  - intros w s Hi Hw. eapply step_kept; [done | exact (step_io s w Hw)].
  - intros t a a' s e rest Hi Ho Ht -> He Hid Htp. apply acked3; [done | done | done | ].
    cbn in Ht. destruct (puback_id t) as [id|]; [injection Ht as <- | done].
    unfold ack_error. by rewrite Hid, Z.eqb_refl, Htp.
  - done.
  - by intros a s r s' [_ <-]%ret_Some.
  - intros max ps H. cbn [cl_frame cl_received Publisher3]. rewrite List.map_id. by apply drain_packets.
  - done.
  - intros o calls log Ha Hf. etrans; [ | apply requests].
    rewrite <- (answers_pubacks calls.*2 log (proj2 (Forall2_fmap_l _ _ _ _) Ha) Hf). clear.
    induction log as [|t log IH]; [done | ]. cbn [base.omap list_omap]. rewrite <- IH. cbn. by destruct (puback_id t).
Defined.

(** C6: a client and a server of MQTT 3.1.1 understand each other about the
    QoS 1 publishes of the client.  However publishes of the client, its
    waiting for credit, the sending and the arrival of the bytes in any pieces,
    the work of the server and the arrival of its PUBACKs are interleaved (with
    fewer than 2^64 calls), as long as in every state so far
    - the publishes that were sent can be encoded and fit the limit of the
      server (one that cannot be encoded stays in the queue of the client and
      makes the next PUBACK mismatch),
    - none of the results of the server is an error, so no service of it has
      failed,
    and the client's connection is open: the PUBACKs the server has written
    are those of the first publishes of the client, in the order in which they
    were sent; the client waits exactly for the PUBACKs it has not got; and the
    next PUBACK is the one it waits for, so it is accepted, and the publish it
    belongs to is done with success, unless its future was dropped. *)
Theorem v3_publishes_acknowledged (server : Shared) (w0 : W) timeout l :
  Sink.inv consistent server -> state (codec server) = FrameHeader ->
  linked (V3Dispatcher.Dispatcher_new server) w0 timeout l -> is_open (Sink.io (lk_sink l)) = true ->
  (Ack_packet_id <$> pubacks l) `prefix_of` wanted (lk_sent l) /\
  waiting_for (lk_sink l) = drop (lk_acked l) (as_publish <$> wanted (lk_sent l)) /\
  forall a, pubacks l !! lk_acked l = Some a ->
    exists e rest s', outstanding (queues (lk_sink l)) = e :: rest /\ en_id e = Ack_packet_id a /\
      pkt_ack a (lk_sink l) = Some (ok tt, s') /\ outstanding (queues s') = rest /\
      ((queue_send (en_tx e) a (Sink.io (lk_sink l))).1 = true ->
       poll_publish (SF_Ack (en_tx e)) s' = Some (Some (ok tt), SF_Done (ok tt), s')).
Proof.
  intros Hi Hst Hl Ho. destruct (publishes_acknowledged (PL := ServerLaws3) (CL := PublisherLaws3) (V3Dispatcher.Dispatcher_new server) w0 timeout Hi Hst l Hl Ho) as (H1 & H2 & H3).
  split; [exact H1 | ]. split; [exact H2 | ]. intros a Ha. exact (H3 a a Ha eq_refl).
Qed.

End Exchange.

(** ** An exchange to run

    The client publishes twice, its bytes are sent and arrive in part, and
    the server answers. *)
Abbreviation SimLink := (Link (R := SimRuntime Ack) (Codec := Codec) (D := V3Dispatcher.Dispatcher)
  (Resp := V3Dispatcher.Response (E := unit)) (I := Packet) (T := result (option Packet) (MqttError unit))
  (S := MqttError unit) (IE := IoError) (W := bool)).

Definition link0 : SimLink :=
  let (io, x) := conn_start 30 (Conn_new (V3Dispatcher.Dispatcher_new demo_sink) true []) in
  mkLink (sink0 5) [] [] 0 io x.
Definition link1 : SimLink := do_publish hello link0.
Definition link2 : SimLink := do_publish hello link1.
Definition link3 : SimLink := do_flush 12 link2.
Definition link4 : SimLink := do_deliver true (lk_wire link3) link3.
Definition link5 : SimLink := do_poll 9 link4.

Lemma run_fine (l : SimLink) :
  forallb (sendable (V3Codec.max_size (codec_of (c_d (lk_conn l))))) (lk_sent l) &&
  forallb (fun t => match t with ok _ => true | err _ => false end) (d_log (lk_io l)) &&
  (Z.of_nat (d_calls (lk_io l)) <? usize_max) = true -> fine l.
Proof.
  rewrite !andb_true_iff, Z.ltb_lt, (forallb_forall (fun t => _) (d_log (lk_io l))). intros [[H1 H2] H3].
  split; [done | ]. split; [ | done]. apply Forall_forall. intros t Ht%list_elem_of_In%H2 [e ->]. done.
Qed.

Lemma link5_linked : linked (V3Dispatcher.Dispatcher_new demo_sink) true 30 link5.
Proof.
  apply do_poll_linked; [ | apply run_fine; by vm_compute].
  apply do_deliver_linked; [by vm_compute | | apply run_fine; by vm_compute].
  apply do_flush_linked; [by vm_compute | | apply run_fine; by vm_compute].
  apply do_publish_linked; [done | | apply run_fine; by vm_compute].
  apply do_publish_linked; [done | | apply run_fine; by vm_compute].
  apply linked_start; [ | done .. | apply run_fine; by vm_compute].
  apply (reachable_inv sim0 Codec_new 5), reach_new.
Qed.

(** After the server's poll the first PUBACK is there: the client accepts it. *)
Lemma v3_publishes_acknowledged_witness :
  pubacks link5 = [Ack_Publish 1] /\ waiting_for (lk_sink link5) = [(1, AT_Publish); (2, AT_Publish)] /\
  exists s', pkt_ack (Ack_Publish 1) (lk_sink link5) = Some (ok tt, s') /\
    poll_publish (SF_Ack (0%nat : tx)) s' = Some (Some (ok tt), SF_Done (ok tt), s').
Proof.
  assert (Hr : waiting_for (lk_sink link5) = [(1, AT_Publish); (2, AT_Publish)] /\ pubacks link5 = [Ack_Publish 1] /\
    is_open (Sink.io (lk_sink link5)) = true /\
    outstanding (queues (lk_sink link5)) = [mkEntry 1 (0%nat : tx) AT_Publish; mkEntry 2 (1%nat : tx) AT_Publish] /\
    (queue_send (0%nat : tx) (Ack_Publish 1) (Sink.io (lk_sink link5))).1 = true) by (by vm_compute).
  destruct Hr as (H1 & H2 & H3 & H4 & H5). split; [exact H2 | ]. split; [exact H1 | ].
  destruct (v3_publishes_acknowledged demo_sink true 30 link5 (reachable_inv sim0 Codec_new 5 _ (reach_new _ _ _)) eq_refl
              link5_linked H3) as (_ & _ & Ha).
  destruct (Ha (Ack_Publish 1)) as (e & rest & s' & He & _ & Hp & _ & Hq); [by rewrite H2 | ]. exists s'. split; [exact Hp | ].
  rewrite H4 in He. injection He as <- _. exact (Hq H5).
Defined.
