(* ===== verification/V5Exchange.v ===== *)
(** * A client and a server of MQTT 5 on one connection

    [Exchange] with the sink of [V5Sink] and the server of [V5Serving].  The
    client encodes with the limit that the server has announced; the codec
    may leave diagnostic properties out of a PUBACK, but its id and reason
    code arrive ([trimmed_arrives]). *)

From stdpp Require Import base gmap list strings relations.
From S2P Require Import Prelude Types Wire Framing V5Props V5PubAcks V5Subscribe V5Disconnect V5Publish V5Codec.
From S2P Require Import Sink V5Sink V5Control V5Info V5Dispatcher IoDispatcher IoPoll Net Service Serving V5Server V5Connection V5Serving Exchange.
Open Scope Z_scope.

(** What the client decodes of an acknowledgement *)
Definition arrives (a a' : Ack) : Prop :=
  match a, a' with
  | Ack_Publish a, Ack_Publish a' => pa_packet_id a' = pa_packet_id a /\ pa_reason_code a' = pa_reason_code a
  | _, _ => False
  end.

Lemma trimmed_arrives limit (c : bool) (a : PublishAck) :
  match trim limit (if c then strip_problem_info (Pkt_PublishAck a) else Pkt_PublishAck a) with
  | Pkt_PublishAck a' => arrives (Ack_Publish a) (Ack_Publish a')
  | _ => False
  end.
Proof. by destruct c. Qed.

Section Exchange.
Context `{R : Runtime Ack} {L : RuntimeLaws Ack} {E E2 IE : Type}.
Context (try_from : E2 -> result PubAck E) (into : E2 -> E) (control_fails : Prop).
Abbreviation Shared := (@MqttShared Ack R Codec).
Abbreviation Disp := (V5Info.Dispatcher).
Abbreviation Item := (IoPoll.DispatchItem Packet DecodeError EncodeError IE).
Abbreviation Resp := (V5Dispatcher.Response (E := E)).
Abbreviation Answer := (result (option Packet) (MqttError E)).
Abbreviation Choice := ((ControlMessage E -> option (result ControlResult E)) * option (result PubAck E2))%type.
#[local] Instance exchange_protocol5 : Protocol Disp Resp Choice Packet Answer IE := ServerProtocol5 try_from into.
#[local] Instance exchange_laws5 : ProtocolLaws Disp Resp Choice Packet Answer IE := ServerLaws5 try_from into control_fails.

(** The limit of the client's codec *)
Context (limit : Z) (limit_ok : 0 <= limit <= MAX_VARINT).

Definition request5 (p : Packet) : option Z := match p with Pkt_Publish p => pu_packet_id p | _ => None end.
Definition puback5 (t : Answer) : option Ack :=
  match t with ok (Some (Pkt_PublishAck a)) => Some (Ack_Publish a) | _ => None end.
Definition value5 (a : Ack) : result PublishAck PublishQos1Error :=
  match a with
  | Ack_Publish pkt => match pa_reason_code pkt with PA_Success => ok pkt | _ => err (Q_Fail pkt) end
  | _ => err Q_Disconnected
  end.

#[local] Instance Publisher5 : Publisher Ack Codec Publish PublishAck PublishQos1Error Packet Answer := {
  cl_disconnected := Q_Disconnected;
  cl_prepare p := set_qos p AtLeastOnce;
  cl_start := send_at_least_once_inner;
  cl_finish := publish_result;
  cl_ack := pkt_ack;
  cl_fresh p := pu_packet_id p = None;
  cl_packet p id := Pkt_Publish (set_packet_id (set_qos p AtLeastOnce) (Some id));
  cl_frame := frame limit;
  cl_received := trim limit;
  cl_sendable := sendable limit;
  cl_request := request5;
  cl_puback := puback5;
  cl_ack_id := Ack_packet_id;
  cl_arrives := arrives;
  cl_value := value5;
}.

(** ** Laws *)

Definition client5 (s : Shared) : Prop := Sink.inv queued s /\ out_limit (codec s) = limit.

Lemma step_kept5 s s' :
  client5 s -> step s s' -> client5 s' /\ (is_open (Sink.io s') = true -> is_open (Sink.io s) = true).
Proof.
  intros [Hi Hl] Hs. pose proof (step_moved5 _ _ Hi Hs) as Hm. apply step_settings in Hs as [= _ Hc].
  split; [split; [apply Hm | by rewrite Hc] | by eapply moved_open].
Qed.

Lemma sent5 p (s : Shared) c s' max :
  client5 s -> is_open (Sink.io s) = true -> pu_packet_id p = None ->
  send_at_least_once_inner (set_qos p AtLeastOnce) s = Some (ok c, s') ->
  let id := inflight_idx s + 1 in
  let pkt := Pkt_Publish (set_packet_id (set_qos p AtLeastOnce) (Some id)) in
  sendable limit max pkt = true ->
  outstanding (queues s') = outstanding (queues s) ++ [mkEntry id c AT_Publish] /\
  wbuf (Sink.io s') = wbuf (Sink.io s) ++ frame limit pkt /\ request5 pkt = Some id.
Proof.
  intros [Hi Hl] Ho Hp H id pkt (Hv & Hn & _)%sendable_fits5; [ | lia]. rewrite assoc by apply _. split; [ | done].
  apply (inner_sent5 (set_qos p AtLeastOnce) s c s' _ Hi Ho Hp H). pose proof (codec_encode_frame (codec s) pkt) as Hw. rewrite Hl in Hw.
  destruct (no_problem_info (codec s)); by apply Hw.
Qed.

Lemma acked5 a (s : Shared) e rest :
  client5 s -> is_open (Sink.io s) = true -> outstanding (queues s) = e :: rest -> ack_error a (Some e) = None ->
  exists s', pkt_ack a s = Some (ok tt, s') /\ outstanding (queues s') = rest /\
    wbuf (Sink.io s') = wbuf (Sink.io s) /\
    ((queue_send (en_tx e) a (Sink.io s)).1 = true -> queue_recv (en_tx e) (Sink.io s') = Some (Some a)).
Proof.
  intros [(Hb & Hx & Hq) _] Ho He Herr. specialize (Hq Ho).
  rewrite (pkt_ack5_eq a s Hb Hq). cbv zeta. rewrite He. cbn [head tail]. rewrite Herr.
  destruct (served_front _ _ _ _ (proj1 Hq) He) as (Eo & Hin & H1 & H2).
  eexists. split; [reflexivity | ]. cbn [Sink.io queues set_queues set_io].
  rewrite woken_wbuf, queue_send_wbuf, woken_queue. split; [done | ]. by split; [ | apply queue_send_recv].
Qed.

Lemma requests5 (items : list Item) : base.omap item_publish_id items = base.omap request5 (packets items).
Proof.
  induction items as [|item items IH]; [done | ]. cbn [base.omap list_omap].
  change (packets (item :: items)) with ((match item with IoPoll.DI_Item p => [p] | _ => [] end) ++ packets items).
  rewrite omap_app, <- IH. destruct item as [[]| | | | | | ]; cbn; try done. by destruct (pu_packet_id p).
Qed.

(** The server is in order: its connection is open, no result is an error, and
    no publish came with an id that was in use. *)
Definition answered5 (is_open : bool) (calls : list (Disp * Item)) (log : list Answer) : Prop :=
  is_open = true /\ Forall (fun t => ~ failed5 t) log /\ Forall fresh_id calls.

Lemma answered_requests5 o calls log :
  Forall2 (answers_call5 control_fails o) calls log -> answered5 o calls log ->
  base.omap (fun t => Ack_packet_id <$> puback5 t) log = base.omap request5 (packets calls.*2).
Proof.
  intros Ha (-> & Hn & Hf). rewrite <- requests5, <- (answered_pubacks5 control_fails calls log Ha Hn Hf). clear.
  induction log as [|t log IH]; [done | ]. cbn. rewrite IH. by destruct t as [[[]|]|].
Qed.

#[local] Instance PublisherLaws5 :
  PublisherLaws Ack Codec Publish PublishAck PublishQos1Error Disp Resp Choice Packet Answer IE.
Proof.
  refine {| cl_ok := client5; cl_answered := answered5; cl_sent := sent5 |}.
  - intros p s f s' Hi H. eapply step_kept5; [done | exact (step_publish s p f s' H)].
  - intros f s r s' Hi H. eapply step_kept5; [done | exact (step_poll_publish s f r s' H)].
  - intros a s r s' Hi H. eapply step_kept5; [done | exact (step_ack s a r s' H)].
  - intros w s Hi Hw. eapply step_kept5; [done | exact (step_io s w Hw)].
  - intros t a a' s e rest Hi Ho Ht Ha He Hid Htp. apply acked5; [done | done | done | ].
    destruct a as [a| |], a' as [a'| |]; try done. destruct Ha as [Ha _].
    unfold ack_error. cbn [Ack_packet_id] in *. by rewrite Hid, Ha, Z.eqb_refl, Htp.
  - intros t a a' s Ht Ha. by destruct a as [a| |], a' as [a'| |].
  - intros a s r s' H. destruct a as [a| |]; [ | done | done]. by injection H as _ <-.
  - intros max ps H. by apply drain_packets5.
  - by intros [].
  - exact answered_requests5.
Defined.

Context {W : Type} `{Nx : !Ntex Disp Resp Choice Answer (MqttError E) IE W}.
Context {NL : NtexLaws Disp Resp Choice Packet Answer (MqttError E) IE W}.

(** C7: a client and a server of MQTT 5 understand each other about the QoS 1
    publishes of the client.  However publishes of the client, its waiting for
    credit, the sending and the arrival of the bytes in any pieces, the work of
    the server and the arrival of its PUBACKs are interleaved (with fewer than
    2^64 calls), as long as in every state so far
    - the publishes that were sent can be encoded and fit the limits of both
      sides (one that cannot stays in the queue of the client and makes the
      next PUBACK mismatch, [V5Sink.v5_failed_publish_stays]),
    - the server has not panicked, its connection is open (it closes when a
      publish exceeds the receive maximum or a service fails), none of its
      results is an error of the control service, and no publish arrived with
      an id that was still in use,
    and the client's connection is open: the PUBACKs the server has written
    are those of the first publishes of the client, in the order in which they
    were sent; the client waits exactly for the PUBACKs it has not got; and the
    next PUBACK, with whatever diagnostic properties arrive of it, is the one
    the client waits for, so it is accepted.  The publish it belongs to
    succeeds when the service of the server acknowledged it with Success, and
    fails with the reason otherwise, unless its future was dropped. *)
Theorem v5_publishes_acknowledged (server : Shared) max_receive max_topic_alias (w0 : W) timeout l :
  Sink.inv queued server -> state (codec server) = FrameHeader ->
  linked (V5Info.Dispatcher_new server max_receive max_topic_alias) w0 timeout l ->
  is_open (Sink.io (lk_sink l)) = true ->
  (Ack_packet_id <$> pubacks l) `prefix_of` wanted (lk_sent l) /\
  waiting_for (lk_sink l) = drop (lk_acked l) (as_publish <$> wanted (lk_sent l)) /\
  forall a a', pubacks l !! lk_acked l = Some (Ack_Publish a) -> arrives (Ack_Publish a) (Ack_Publish a') ->
    exists e rest s', outstanding (queues (lk_sink l)) = e :: rest /\ en_id e = pa_packet_id a /\
      pkt_ack (Ack_Publish a') (lk_sink l) = Some (ok tt, s') /\ outstanding (queues s') = rest /\
      ((queue_send (en_tx e) (Ack_Publish a') (Sink.io (lk_sink l))).1 = true ->
       let r := match pa_reason_code a with PA_Success => ok a' | _ => err (Q_Fail a') end in
       poll_publish (SF_Ack (en_tx e)) s' = Some (Some r, SF_Done r, s')).
Proof.
  intros Hi Hst Hl Ho.
  destruct (publishes_acknowledged (PL := exchange_laws5) (CL := PublisherLaws5)
    (V5Info.Dispatcher_new server max_receive max_topic_alias) w0 timeout Hi Hst l Hl Ho) as (H1 & H2 & H3).
  split; [exact H1 | ]. split; [exact H2 | ]. intros a a' Ha Har. destruct Har as [Har1 Har2]. rewrite <- Har2.
  exact (H3 (Ack_Publish a) (Ack_Publish a') Ha (conj Har1 Har2)).
Qed.

End Exchange.

(** ** An exchange to run

    The client publishes twice under a limit of 100 bytes, its bytes are sent
    and arrive, the server answers both, and the first PUBACK arrives. *)
Section Run.
Abbreviation SimLink5 := (Link (R := SimRuntime Ack) (Codec := Codec) (D := V5Info.Dispatcher)
  (Resp := V5Dispatcher.Response (E := unit)) (I := Packet) (T := result (option Packet) (MqttError unit))
  (S := MqttError unit) (IE := IoError) (W := bool)).
Abbreviation same_error := (fun e : unit => e).

Lemma limit100 : 0 <= 100 <= MAX_VARINT.
Proof. done. Qed.

#[local] Instance sim_publisher5 :
  @Publisher Ack Codec Publish PublishAck PublishQos1Error Packet (result (option Packet) (MqttError unit)) (SimRuntime Ack) :=
  Publisher5 100.
#[local] Instance sim_publisher_laws5 :
  PublisherLaws Ack Codec Publish PublishAck PublishQos1Error V5Info.Dispatcher (V5Dispatcher.Response (E := unit))
    ((ControlMessage unit -> option (result ControlResult unit)) * option (result PubAck unit))
    Packet (result (option Packet) (MqttError unit)) IoError (H := SimProtocol5) (PL := SimLaws5) :=
  PublisherLaws5 no_ack same_error False 100 limit100.

Definition client0 : MqttShared (R := SimRuntime Ack) := MqttShared_new sim0 (set_max_outbound_size Codec_new 100) 5.
Definition server0 : MqttShared (R := SimRuntime Ack) := MqttShared_new sim0 Codec_new 5.
Definition server_disp : V5Info.Dispatcher := V5Info.Dispatcher_new server0 10 0.
Definition puback_of (id : Z) : PublishAck := mkAck id PA_Success [] None.

Definition xlink0 : SimLink5 :=
  let (io, x) := conn_start 30 (Conn_new server_disp true []) in mkLink client0 [] [] 0 io x.
Definition xlink1 : SimLink5 := do_publish hello (do_publish hello xlink0).
Definition xlink2 : SimLink5 := do_flush 100 xlink1.
Definition xlink3 : SimLink5 := do_deliver true (lk_wire xlink2) xlink2.
Definition xlink4 : SimLink5 := do_poll 9 xlink3.
Definition xlink5 : SimLink5 := do_ack (Ack_Publish (puback_of 1)) xlink4.

Definition is_fresh (call : V5Info.Dispatcher (R := SimRuntime Ack) * IoPoll.DispatchItem Packet DecodeError EncodeError IoError) : bool :=
  match item_publish_id call.2 with Some id => (0 <? id) && bool_decide (id ∉ d_inflight call.1) | None => true end.

Lemma run_fine5 (l : SimLink5) :
  forallb (sendable 100 (max_in_size (codec5 (c_d (lk_conn l))))) (lk_sent l) &&
  open5 (c_d (lk_conn l)) && forallb (fun t => match t with ok _ => true | err _ => false end) (d_log (lk_io l)) &&
  forallb is_fresh (take (length (d_log (lk_io l))) (c_called (lk_conn l))) &&
  negb (c_panicked (lk_conn l)) && (Z.of_nat (d_calls (lk_io l)) <? usize_max) = true -> fine l.
Proof.
  rewrite !andb_true_iff, negb_true_iff, Z.ltb_lt, (forallb_forall (fun t => _) (d_log (lk_io l))), (forallb_forall is_fresh).
  intros [[[[[H1 H2] H3] H4] H5] H6]. split; [done | ]. split; [ | done]. split; [done | ]. split; apply Forall_forall.
  - intros t Ht%list_elem_of_In%H3 [e ->]. done.
  - intros call Hc%list_elem_of_In%H4 id Hid. unfold is_fresh in Hc. rewrite Hid in Hc.
    by apply andb_true_iff in Hc as [?%Z.ltb_lt ?%bool_decide_eq_true].
Qed.

Ltac run_step := first [by vm_compute | apply run_fine5; by vm_compute | done].

Lemma xlink5_linked : linked server_disp true 30 xlink5.
Proof.
  apply (do_ack_linked _ _ _ (Ack_Publish (puback_of 1))); [run_step | run_step | | run_step].
  apply do_poll_linked; [ | run_step]. apply do_deliver_linked; [run_step | | run_step].
  apply do_flush_linked; [run_step | | run_step]. apply do_publish_linked; [done | | run_step].
  apply do_publish_linked; [done | | run_step]. apply linked_start; [ | done .. | run_step].
  split; [ | done]. apply (reachable_inv5 sim0 (set_max_outbound_size Codec_new 100) 5), V5Sink.reach_new.
Qed.

(** The second PUBACK is the one the client waits for now. *)
Lemma v5_publishes_acknowledged_witness :
  pubacks xlink5 = [Ack_Publish (puback_of 1); Ack_Publish (puback_of 2)] /\ lk_acked xlink5 = 1%nat /\
  waiting_for (lk_sink xlink5) = [(2, AT_Publish)] /\
  exists s', pkt_ack (Ack_Publish (puback_of 2)) (lk_sink xlink5) = Some (ok tt, s') /\
    poll_publish (SF_Ack (1%nat : tx)) s' = Some (Some (ok (puback_of 2)), SF_Done (ok (puback_of 2)), s').
Proof.
  assert (Hr : pubacks xlink5 = [Ack_Publish (puback_of 1); Ack_Publish (puback_of 2)] /\ lk_acked xlink5 = 1%nat /\
    waiting_for (lk_sink xlink5) = [(2, AT_Publish)] /\ is_open (Sink.io (lk_sink xlink5)) = true /\
    outstanding (queues (lk_sink xlink5)) = [mkEntry 2 (1%nat : tx) AT_Publish] /\
    (queue_send (1%nat : tx) (Ack_Publish (puback_of 2)) (Sink.io (lk_sink xlink5))).1 = true) by (by vm_compute).
  destruct Hr as (H1 & H2 & H3 & H4 & H5 & H6). split; [exact H1 | ]. split; [exact H2 | ]. split; [exact H3 | ].
  destruct (v5_publishes_acknowledged no_ack same_error False 100 limit100 server0 10 0 true 30 xlink5
    (reachable_inv5 sim0 Codec_new 5 _ (V5Sink.reach_new _ _ _)) eq_refl xlink5_linked H4) as (_ & _ & Ha).
  destruct (Ha (puback_of 2) (puback_of 2)) as (e & rest & s' & He & _ & Hp & _ & Hq); [vm_compute; reflexivity | split; reflexivity | ].
  exists s'. split; [exact Hp | ]. rewrite H5 in He. injection He as <- _. exact (Hq H6).
Defined.

End Run.
