(* ===== verification/V3Connection.v ===== *)
(** * A connection of an MQTT 3.1.1 server (src/v3/dispatcher.rs, src/v3/server.rs)

    The pieces put together: [MqttServer::finish] runs the handshake and
    [factory], and the dispatcher it makes is run by the io dispatcher
    ([V3Serving]).  What the handshake leaves is what serving starts from: the
    decoder is between two packets, with the configured limit, and the sink
    is well-formed. *)

From stdpp Require Import base gmap list strings relations.
From S2P Require Import Prelude Types Wire Framing V3Codec Sink V3Sink V3Dispatcher.
From S2P Require Import IoDispatcher IoPoll Net Service V3Server Serving V3Serving.
Open Scope Z_scope.
Open Scope net_scope.

Section Connection.
Context `{R : Runtime Ack} {L : RuntimeLaws Ack} {N : Net Ack Codec Packet} {NL : NetLaws Ack Codec Packet}.
Abbreviation Shared := (@MqttShared Ack R Codec).
Abbreviation M := (@M Ack R Codec).
Context {St E P C Hd : Type}.
Abbreviation MError := (MqttError E).
Abbreviation Disp := (V3Dispatcher.Dispatcher).

(** [InFlightService::new] of ntex *)
Context (InFlightService_new : Z -> Disp * P * C -> Hd).

(** [factory] of src/v3/dispatcher.rs: both services are made, and the first
    error ends it. *)
Definition factory (publish : Session St -> M (result P MError)) (control : Session St -> M (result C MError))
  (inflight : Z) (cfg : Session St) : M (result Hd MError) :=
  p ← publish cfg;
  c ← control cfg;
  d ← gets (fun sink => V3Dispatcher.Dispatcher_new sink);
  mret (match p with
        | err e => err e
        | ok p => match c with err e => err e | ok c => ok (InFlightService_new inflight (d, p, c)) end
        end).

(** ** What serving starts from *)

Definition ready3 (limit : Z) (s : Shared) : Prop :=
  Sink.inv consistent s /\ state (codec s) = FrameHeader /\ V3Codec.max_size (codec s) = limit.

#[export] Instance inv_io_stable : IoStable (Sink.inv (Codec := Codec) consistent).
Proof. intros s w Hw Hi. by apply quiet_io. Qed.
#[export] Instance ready_io_stable limit : IoStable (ready3 limit).
Proof. intros s w Hw [Hi Hc]. split; [by apply io_stable | done]. Qed.

Lemma ready_steps limit s s' : rtc step s s' -> ready3 limit s -> ready3 limit s'.
Proof.
  induction 1 as [|s1 s2 s3 Hs _ IH]; [done | ]. intros [Hi Hc]. apply IH.
  destruct (sink_step_kept _ _ Hi Hs) as (Hi' & Hk & _). split; [done | by rewrite Hk].
Qed.

Lemma new_ready w c cap : Sink.inv consistent (MqttShared_new w c cap : Shared).
Proof. apply (reachable_inv w c cap), reach_new. Qed.

(** The decoder has given a packet: it is at the header of the next one. *)
Lemma next_header c w p c' w' :
  next codec_decode c w = (ok (Some p), c', w') -> state c' = FrameHeader.
Proof.
  intros (c0 & b & b' & H)%next_decoded. unfold codec_decode in H.
  destruct (frame_decode _ _ _ _) as [[r st] src] eqn:Ef. injection H as -> <- _. by apply frame_decode_progress in Ef as [-> _].
Qed.

(** An accepted handshake: what was received and answered, and a state to
    serve from *)
Record accepted (srv : MqttServer) (service : Connect -> M (result (HandshakeAck St) E)) (w : world)
    (keepalive : Z) (s : Shared) : Prop := {
  ac_answered : exists connect c w1 ack s1 s2,
    next codec_decode (set_max_size Codec_new (ms_max_size srv)) w = (ok (Some (PConnect connect)), c, w1) /\
    service connect s1 = Some (ok ack, s2) /\ keepalive = a_keepalive ack /\
    sent (io s) = sent (io s2) ++ wbuf (io s2) ++ frame (connack_of ack);
  ac_ready : ready3 (ms_max_size srv) s;
}.

Lemma handshake_accepted srv (service : Connect -> M (result (HandshakeAck St) E)) w sess keepalive s' :
  (forall c, uses_sink (service c)) ->
  handshake srv service (MqttShared_new w Codec_new 16) = Some (ok (sess, keepalive), s') ->
  accepted srv service w keepalive s'.
Proof.
  intros Hs (n & c & w1 & En & H)%handshake_run. cbn [codec io MqttShared_new] in En.
  destruct n as [[p|]|]; [ | by destruct H | by destruct H as [[? ?] ?]].
  destruct p as [connect| | | | | | | | | | | | | ]; try by destruct H as [[? ?] ?].
  destruct H as ([ack|e] & s1 & Hr & H); [ | by destruct H].
  apply finish_run in H as (w2 & -> & Ho & _ & -> & Hsent).
  split.
  { eexists connect, c, w1, ack, _, s1. done. }
  apply io_stable; [exact Ho | ]. eapply ready_steps; [by eapply Hs | ].
  apply next_limit in En as Hl. apply next_header in En as Hh. split; [ | done].
  apply io_stable; [ | apply (new_ready w c 16)].
  intros Hw. apply (next_open codec_decode (set_max_size Codec_new (ms_max_size srv)) w). by rewrite En.
Qed.

Lemma factory_ready publish control n cfg s hd s' limit :
  (forall x, uses_sink (publish x)) -> (forall x, uses_sink (control x)) ->
  factory publish control n cfg s = Some (ok hd, s') -> ready3 limit s ->
  ready3 limit s' /\ exists p c, hd = InFlightService_new n (V3Dispatcher.Dispatcher_new s', p, c).
Proof.
  intros Hp Hc (rp & s1 & H1 & (rc & s2 & H2 & H)%bind_Some)%bind_Some Hr.
  apply bind_Some in H as (d & s3 & [= <- <-] & [H ->]%ret_Some).
  destruct rp as [p|]; [ | done]. destruct rc as [c|]; [ | done]. injection H as <-.
  split; [ | eauto]. eapply ready_steps; [by eapply Hc | ]. eapply ready_steps; [by eapply Hp | done].
Qed.

(** ** Served from CONNECT on *)

Abbreviation Resp := (V3Dispatcher.Response (E := E)).
Abbreviation Answer := (result (option Packet) MError).
Abbreviation Choice := (option (result unit MError) * option (result ControlResult MError))%type.
Context {W : Type} `{Nx : !Ntex Disp Resp Choice Answer MError IoError W}.
Context {NxL : NtexLaws (H0 := ServerLaws3) Disp Resp Choice Packet Answer MError IoError W}.

(** A client that the server accepts is answered in order. *)
Lemma connection_served3 srv (service : Connect -> M (result (HandshakeAck St) E)) publish control w conn s' :
  (forall c, uses_sink (service c)) -> (forall x, uses_sink (publish x)) -> (forall x, uses_sink (control x)) ->
  finish srv service (factory publish control (ms_inflight srv)) (MqttShared_new w Codec_new 16) = Some (ok conn, s') ->
  (exists w0 sess s1, handshake srv service (MqttShared_new w0 Codec_new 16) = Some (ok (sess, cn_keepalive conn), s1) /\
    accepted srv service w0 (cn_keepalive conn) s1) /\
  (exists p c, cn_handler conn = InFlightService_new (ms_inflight srv) (V3Dispatcher.Dispatcher_new s', p, c)) /\
  forall nw buf io x fuel,
    conn_reachable (V3Dispatcher.Dispatcher_new s') nw buf (cn_keepalive conn) io x ->
    let r := poll fuel true io x in
    let log := d_log (poll_state r) in
    let items := take (length log) (c_items (poll_conn r)) in
    Z.of_nat (d_calls (poll_state r)) < usize_max ->
    packets (c_items (poll_conn r)) `prefix_of`
      (drain decode_packet (ms_max_size srv) FrameHeader (c_received (poll_conn r))).1.1.1 /\
    Forall2 server_answer items log /\
    (Forall (fun t => ~ failed t) log -> base.omap puback_id log = base.omap publish_id items) /\
    c_panicked (poll_conn r) = false /\
    match r with
    | P_Panic _ _ => False
    | P_Ready _ d' x' => length (d_log d') = length (c_items x')
    | _ => True
    end.
Proof.
  intros Hs Hp Hc H. unfold finish, FramedServiceImpl_call, connect_handler in H.
  apply and_then_ok in H as ([hd ka] & s2 & H & [[= <-] <-]%ret_Some).
  apply and_then_ok in H as ([sess ka'] & s1 & (w0 & _ & Hh)%with_timeout_ok & H).
  apply and_then_ok in H as (h & s3 & Hf & [[= -> ->] <-]%ret_Some).
  change (set_io w0 _) with (MqttShared_new w0 Codec_new 16) in Hh.
  pose proof (handshake_accepted _ _ _ _ _ _ Hs Hh) as Ha.
  destruct (factory_ready _ _ _ _ _ _ _ _ Hp Hc Hf (ac_ready _ _ _ _ _ Ha)) as [(Hi & Hst & Hm) Hhd].
  split; [eauto | ]. split; [done | ]. rewrite <- Hm. intros nw buf io x fuel. by apply served_in_order.
Qed.

End Connection.
