(* ===== verification/V3ClientServing.v ===== *)
(** * A connection of an MQTT 3.1.1 client (src/v3/client/connection.rs, src/v3/client/dispatcher.rs)

    [Serving] with the dispatcher of [V3Client]: [Client::start] gives
    [create_dispatcher] to the io dispatcher, behind the closure that turns
    the items of the io dispatcher into packets or answers.  From CONNACK on,
    what the server sends is answered in the order of its arrival. *)

From stdpp Require Import base gmap list strings relations.
From S2P Require Import Prelude Types Wire Framing V3Codec Sink V3Sink V3Dispatcher V3Client.
From S2P Require Import IoDispatcher IoPoll Net Service V3Server Serving V3Serving V3Connection V3Connector.
Open Scope Z_scope.
Open Scope net_scope.

(** ** The dispatcher as a protocol *)
Section Client.
Context `{R : Runtime Ack} {L : RuntimeLaws Ack} {E : Type}.
Abbreviation MError := (MqttError E).
Abbreviation Disp := (V3Dispatcher.Dispatcher).
Abbreviation Resp := (V3Client.Response (E := E)).
Abbreviation Answer := (result (option Packet) MError).

(** The closure of [apply_fn] in [start] and [start_default] *)
Definition client_call (item : Item3) (d : Disp) : option (Resp * Disp) :=
  match client_item item with
  | inl pkt => V3Client.call pkt d
  | inr r => Some (V3Client.R_Ready r, d)
  end.

(** What the control service gives for a message, and the publish service for
    the publish of the response *)
Abbreviation Choice :=
  ((ControlMessage -> option (result ControlResult MError)) * option (result (unit + Publish) MError))%type.

Definition client_poll (ch : Choice) (r : Resp) (d : Disp) : option (option Answer * Resp * Disp) :=
  V3Client.poll ch.1 ch.2 r d.

Definition client_shutdown (is_error : bool) (d : Disp) : option Disp :=
  match V3Client.poll_shutdown is_error d with Some (_, d) => Some d | None => None end.

#[export] Instance ClientProtocol3 : Protocol Disp Resp Choice Packet Answer IoError := {
  pr_call := client_call;
  pr_poll := client_poll;
  pr_shutdown := client_shutdown;
  pr_decode := decode3;
  pr_max d := V3Codec.max_size (codec_of d);
  pr_state d := state (codec_of d);
  pr_decode_packet := decode_packet;
  pr_open := open3;
}.

(** What a client answers: a publish gets its own PUBACK (nothing with QoS
    0), or DISCONNECT when the control service ends the connection; a PINGREQ
    gets PINGRESP, DISCONNECT its echo; a request only clients make is an
    error, and so is an acknowledgement that the sink does not expect. *)
Definition client_answer (item : Item3) (t : Answer) : Prop :=
  failed t \/
  match item with
  | DI_Item (PPublish p) => t = ok (PPublishAck <$> packet_id p) \/ t = ok (Some PDisconnect)
  | DI_Item PPingRequest => t = ok (Some PPingResponse)
  | DI_Item PDisconnect => t = ok (Some PDisconnect)
  | DI_Item (PSubscribe _ _) | DI_Item (PUnsubscribe _ _) => False
  | _ => t = ok None
  end.

(** The future of a packet *)
Definition client_about (item : Item3) (r : Resp) : Prop :=
  (exists t, r = V3Client.R_Ready t /\ client_answer item t) \/
  match item with
  | DI_Item (PPublish p) =>
      r = V3Client.R_Publish (packet_id p) p \/
      exists p', r = V3Client.R_PublishControl (packet_id p) (CC_Publish p') /\ packet_id p' = packet_id p
  | DI_Item PDisconnect => r = V3Client.R_Control V3Client.CC_Disconnect
  | _ => False
  end.

(** The services answer what the application can make. *)
Definition client_valid (r : Resp) (ch : Choice) : Prop := V3Client.services ch.1 ch.2 r.

Lemma client_about_ready item t : client_answer item t -> client_about item (V3Client.R_Ready t).
Proof. intros H. left. eauto. Qed.
Lemma client_answer_failed item e : client_answer item (err e).
Proof. left. by exists e. Qed.
#[local] Hint Resolve client_about_ready client_answer_failed : core.

Lemma client_call_ok item d :
  sink_ok d -> exists r d', client_call item d = Some (r, d') /\ client_about item r /\ sink_stepped d d'.
Proof.
  intros Hok.
  assert (Hret : forall r : Resp, client_about item r ->
    exists r' d', (mret r : V3Dispatcher.DM Resp) d = Some (r', d') /\ client_about item r' /\ sink_stepped d d').
  { intros r Hr. eexists _, _. split; [done | ]. split; [done | by left]. }
  assert (Hack : forall a, client_answer item (ok None) -> exists r' d',
    V3Client.call_ack a d = Some (r', d') /\ client_about item r' /\ sink_stepped d d').
  { intros a Hn. destruct (on_sink_ack a d Hok) as (r & d' & Ha & Hst). unfold V3Client.call_ack, mbind, V3Dispatcher.DM_bind.
    rewrite Ha. eexists _, _. split; [done | ]. split; [ | done]. destruct r; auto. }
  unfold client_call, client_item. destruct item as [pkt| |e|e|e| | ]; cbn [dispatch_item];
    try (apply Hret, client_about_ready; first [apply client_answer_failed | by right]).
  destruct pkt as [c|sp rc|p|id|id|id|id|id fs|id st|id fs|id| | | ]; cbn [V3Client.call];
    try (apply Hret, client_about_ready; first [by right | apply client_answer_failed]);
    try (apply Hack; by right); try (apply Hret; by right).
  destruct (packet_id p) as [pid|] eqn:Hp; [ | by apply Hret; right; left; rewrite Hp].
  unfold mbind, V3Dispatcher.DM_bind, insert_id. case_bool_decide; cbn [negb];
    (eexists _, _; split; [done | ]); (split; [ | by left]); [ | auto].
  right. left. by rewrite Hp.
Qed.

(** The control service on a message [m] of the packet of [item] *)
Lemma client_control_ok item m fut d :
  sink_ok d -> (forall a, fut = Some (ok a) -> client_answers m a) ->
  client_answer item (ok (Some PDisconnect)) ->
  (forall p, m = CC_Publish p -> client_answer item (ok (PPublishAck <$> packet_id p))) ->
  m <> CC_Closed true -> m <> CC_Closed false ->
  exists x d', V3Client.ControlResponse_poll (E := E) fut d = Some (x, d') /\ sink_stepped d d' /\
    match x with Some t => client_answer item t | None => True end.
Proof.
  intros Hok Hv Hd Hp Hc1 Hc2. destruct fut as [[a|e]|]; cbn [V3Client.ControlResponse_poll];
    [ | by eexists _, _; split; [done | ]; split; [left | auto] | by eexists _, _; split; [done | ]; split; [left | ]].
  destruct (on_sink_close d Hok) as (dc & Hc & Hst).
  assert (Hcut : exists x d', (_ ← V3Dispatcher.on_sink close; mret (Some (ok (Some PDisconnect))) : V3Dispatcher.DM _) d = Some (x, d') /\
    sink_stepped d d' /\ match x with Some t => client_answer item t | None => True end).
  { unfold mbind, V3Dispatcher.DM_bind. rewrite Hc. by eexists _, _. }
  destruct (Hv a eq_refl) as [->|Ha]; [exact Hcut | ]. destruct m as [p| |[]]; subst a; try done.
  specialize (Hp p eq_refl). unfold V3Client.Publish_ack. destruct (packet_id p) as [id|]; cbn;
    (eexists _, _; split; [done | ]); (split; [by left | done]).
Qed.

Lemma client_poll_ok item ch r d :
  sink_ok d -> client_about item r -> client_valid r ch ->
  exists x r' d', client_poll ch r d = Some (x, r', d') /\ sink_stepped d d' /\
    match x with Some t => client_answer item t | None => client_about item r' end.
Proof.
  intros Hok Hab [Hpc Hfut].
  assert (Hctl : forall m r', client_answer item (ok (Some PDisconnect)) ->
    (forall p, m = CC_Publish p -> client_answer item (ok (PPublishAck <$> packet_id p))) ->
    m <> CC_Closed true -> m <> CC_Closed false -> client_about item r' ->
    exists x r1 d', (x ← V3Client.ControlResponse_poll (ch.1 m); mret (x, r') : V3Dispatcher.DM _) d = Some (x, r1, d') /\
      sink_stepped d d' /\ match x with Some t => client_answer item t | None => client_about item r1 end).
  { intros m r' Hd Hp H1 H2 Hr. destruct (client_control_ok item m (ch.1 m) d Hok (Hpc m) Hd Hp H1 H2) as (x & d' & Hx & Hst & Ha).
    unfold mbind, V3Dispatcher.DM_bind. rewrite Hx. eexists _, _, _. split; [done | ]. split; [done | ]. by destruct x. }
  assert (Hret : forall x r', match x with Some t => client_answer item t | None => client_about item r' end ->
    exists x1 r1 d', (mret (x, r') : V3Dispatcher.DM (option Answer * Resp)) d = Some (x1, r1, d') /\ sink_stepped d d' /\
      match x1 with Some t => client_answer item t | None => client_about item r1 end).
  { intros x r' H. eexists _, _, _. split; [done | ]. split; [by left | done]. }
  unfold client_poll. destruct r as [t|id p|id m|m]; cbn [V3Client.poll].
  - apply Hret. destruct Hab as [(t' & [= <-] & Ht)|Hab]; [done | ].
    destruct item as [[]| | | | | | ]; try done. destruct Hab as [|(? & ? & _)]; done.
  - destruct Hab as [(t & ? & _)|Hab]; [done | ]. destruct item as [[]| | | | | | ]; try done.
    destruct Hab as [[= -> ->]|(? & ? & _)]; [ | done]. unfold V3Client.PublishResponse_poll.
    destruct ch.2 as [[[u|pkt]|e]|] eqn:Hf.
    + destruct (packet_id p0) as [pid|] eqn:Hp; [ | by apply Hret; right; left; rewrite Hp].
      eexists _, _, _. split; [done | ]. split; [by left | ]. right. left. by rewrite Hp.
    + specialize (Hfut _ _ pkt eq_refl eq_refl).
      apply (Hctl (CC_Publish pkt)); try done; [right; by right | | right; right; eauto].
      intros p1 [= <-]. right. left. by rewrite Hfut.
    + by apply Hret.
    + apply Hret. right. by left.
  - destruct Hab as [(t & ? & _)|Hab]; [done | ]. destruct item as [[]| | | | | | ]; try done.
    destruct Hab as [|(p' & [= -> ->] & Hp)]; [done | ].
    apply Hctl; try done; [right; by right | | right; right; eauto].
    intros p1 [= <-]. right. left. by rewrite Hp.
  - destruct Hab as [(t & ? & _)|Hab]; [done | ]. destruct item as [[]| | | | | | ]; try done;
      [by destruct Hab as [|(? & ? & _)] | ]. injection Hab as ->. apply Hctl; try done; by right.
Qed.

Lemma client_stepped_kept d d' : sink_ok d -> sink_stepped d d' -> sink_ok d' /\ kept d d'.
Proof. intros Hok Hst. destruct (stepped_ok _ _ Hok Hst) as (? & Hc & ?). unfold kept. cbn. by rewrite Hc. Qed.

Lemma client_call_law i d :
  sink_ok d ->
  match pr_call i d with Some (r, d') => client_about i r /\ sink_ok d' /\ kept d d' | None => False end.
Proof.
  intros Hok. destruct (client_call_ok i d Hok) as (r & d' & H & Ha & Hst).
  cbn [pr_call ClientProtocol3]. rewrite H. split; [done | by apply client_stepped_kept].
Qed.

Lemma client_poll_law (d0 : Disp) i ch r d :
  sink_ok d -> client_about i r -> client_valid r ch ->
  match pr_poll ch r d with
  | Some (x, r', d') =>
      sink_ok d' /\ kept d d' /\ match x with Some t => client_answer i t | None => client_about i r' end
  | None => False
  end.
Proof.
  intros Hok Ha Hv. destruct (client_poll_ok i ch r d Hok Ha Hv) as (x & r' & d' & H & Hst & Hx).
  cbn [pr_poll ClientProtocol3]. rewrite H, assoc by apply _. split; [by apply client_stepped_kept | done].
Qed.

Lemma client_shutdown_law b d :
  sink_ok d -> match pr_shutdown b d with Some d' => sink_ok d' /\ kept d d' | None => False end.
Proof.
  intros Hok. cbn [pr_shutdown ClientProtocol3]. unfold client_shutdown, V3Client.poll_shutdown.
  destruct (V3Dispatcher.d_shutdown d); [done | ].
  rewrite (close_eq _ (sink_ok_borrowed _ Hok)). apply client_stepped_kept; [done | ].
  right. eapply step_close. cbn. by rewrite (close_eq _ (sink_ok_borrowed _ Hok)).
Qed.

Lemma client_moved_law d d' : sink_ok d -> sink_move d d' -> sink_ok d' /\ kept d d'.
Proof. intros Hok (s & Hs & ->). apply client_stepped_kept; [done | by right]. Qed.

#[export] Instance ClientLaws3 : ProtocolLaws Disp Resp Choice Packet Answer IoError := {
  pl_may_panic := False;
  pl_about _ := client_about;
  pl_answers _ _ := client_answer;
  pl_closed _ _ _ H := H;
  pl_call := client_call_law;
  pl_poll := client_poll_law;
  pl_shutdown := client_shutdown_law;
  pl_moved := client_moved_law;
  pl_decode := decode3_frame;
  pl_decode_packet := decode_packet_no_panic;
}.

End Client.

(** ** From CONNECT to the dispatcher *)
Section Connected.
Context `{R : Runtime Ack} {L : RuntimeLaws Ack} {N : Net Ack Codec Packet} {NL : NetLaws Ack Codec Packet}.
Abbreviation Shared := (@MqttShared Ack R Codec).

(** What an accepted connection leaves: CONNECT went out, CONNACK accepted
    it, and the shared state is one to serve from. *)
Record connected3 (k : MqttConnector) (w : world) (cl : Client) (s : Shared) : Prop := {
  cd_exchanged : exists w1 c w2,
    (codec_encode (PConnect (k_pkt k)) (wbuf w)).1 = Ok tt /\
    sent w1 = sent w ++ (codec_encode (PConnect (k_pkt k)) (wbuf w)).2 /\
    next codec_decode (set_max_size Codec_new (k_max_packet_size k)) w1 =
      (ok (Some (PConnectAck (cl_session_present cl) ConnectionAccepted)), c, w2) /\ s = MqttShared_new w2 c (k_max_send k);
  cd_keepalive : cl_keepalive cl = keep_alive (k_pkt k);
  cd_receive : cl_max_receive cl = k_max_receive k;
  cd_ready : ready3 (k_max_packet_size k) s;
}.

Lemma _connect_connected k dial w cl s :
  _connect k dial (MqttShared_new w Codec_new 0) = Some (ok cl, s) -> connected3 k w cl s.
Proof.
  unfold _connect. destruct dial; [ | by intros [? _]%ret_Some]. cbn [negb].
  intros (u & s1 & [= _ <-] & (r & s3 & H3 & H4)%bind_Some)%bind_Some.
  unfold send_packet in H3. destruct (send_item _ _) as [[r' w']|] eqn:Es; [ | done]. injection H3 as -> <-.
  destruct r as [[]|e]; [ | by apply ret_Some in H4 as [? _]]. apply send_ok in Es as (Hw & Hsent & _).
  apply bind_Some in H4 as (r & s4 & H4 & H5). unfold next_packet in H4.
  destruct (next _ _ _) as [[n c] w2] eqn:En. injection H4 as -> <-.
  destruct r as [[pk|]|e]; try by apply ret_Some in H5 as [? _].
  apply bind_Some in H5 as (u6 & s6 & [= _ <-] & H6).
  destruct pk as [|sp []| | | | | | | | | | | | ]; try by apply ret_Some in H6 as [? _].
  apply ret_Some in H6 as [[= <-] <-]. split; [by exists w', c, w2 | done | done | ].
  split; [apply (new_ready w2 c (k_max_send k)) | ]. split; [by eapply next_header | exact (next_limit _ _ _ _ _ En)].
Qed.

Lemma connect_connected k dial w cl s :
  connect k dial (MqttShared_new w Codec_new 0) = Some (ok cl, s) -> exists w0, connected3 k w0 cl s.
Proof.
  unfold connect, select. intros (o & s1 & H & [Ho ->]%ret_Some)%bind_Some.
  destruct o as [[cl'|]|]; try done. injection Ho as <-.
  destruct (0 <? k_handshake_timeout k).
  - apply bind_Some in H as (late & s2 & [_ ->]%run_io_Some & H). destruct late; [by apply ret_Some in H as [? _] | ].
    apply bind_Some in H as (b & s3 & H & [[= ->] ->]%ret_Some). eexists. by eapply _connect_connected.
  - apply bind_Some in H as (b & s3 & H & [[= ->] ->]%ret_Some). eexists. by eapply _connect_connected.
Qed.

(** ** The client at work *)
Context {E P C Hd : Type}.

(** [InFlightService::new] of ntex *)
Context (InFlightService_new : Z -> V3Dispatcher.Dispatcher * P * C -> Hd).

(** [create_dispatcher] of src/v3/client/dispatcher.rs *)
Definition create_dispatcher (sink : Shared) (inflight : Z) (publish : P) (control : C) : Hd :=
  InFlightService_new inflight (V3Dispatcher.Dispatcher_new sink, publish, control).

Abbreviation MError := (MqttError E).
Abbreviation Disp := (V3Dispatcher.Dispatcher).
Abbreviation Resp := (V3Client.Response (E := E)).
Abbreviation Answer := (result (option Packet) MError).
Abbreviation Choice :=
  ((ControlMessage -> option (result ControlResult MError)) * option (result (unit + Publish) MError))%type.

(** The services of [Client::start] and [start_default]: every publish is
    given back, so it goes to the control service. *)
Definition start_services (control : ControlMessage -> option (result ControlResult MError)) (r : Resp) : Choice :=
  (control, match r with V3Client.R_Publish _ p => Some (ok (inr p)) | _ => None end).

Lemma start_services_valid control r :
  (forall m a, control m = Some (ok a) -> client_answers m a) -> client_valid r (start_services control r).
Proof. intros Hc. split; [exact Hc | ]. cbn. by intros id p pkt -> [= <-]. Qed.

Context {W : Type} `{Nx : !Ntex Disp Resp Choice Answer MError IoError W}.
Context {NxL : NtexLaws (H0 := ClientLaws3) Disp Resp Choice Packet Answer MError IoError W}.

Lemma client_pubacks items (log : list Answer) :
  Forall2 client_answer items log -> Forall (fun t => ~ failed t /\ t <> ok (Some PDisconnect)) log ->
  base.omap puback_id log = base.omap publish_id items.
Proof.
  induction 1 as [|item t items log Ha _ IH]; intros Hn; [done | ]. apply Forall_cons in Hn as [[Hnf Hnd] Hn].
  cbn [base.omap list_omap]. rewrite (IH Hn). clear IH.
  destruct Ha as [Hf|Ha]; [done | ].
  destruct item as [[]| | | | | | ]; cbn in Ha |- *; try done; try by subst t.
  destruct Ha as [->|Ha]; [by destruct (packet_id p) | done].
Qed.

(** C10: a client that the server accepts works from CONNACK on.  [connect]
    has sent CONNECT and read a CONNACK that accepts it, and the client has the
    keep-alive and the limits of its connector; its dispatcher is behind an
    in-flight limit of [max_receive].  Whatever the application does with the
    sink, the services of the dispatcher are then called with the packets that the rest of the stream decodes to, in order, the decoder
    keeping the connector's packet size; what is written answers them one by
    one in the order of their arrival: publishes are acknowledged with their
    own ids, in order, unless the control service ends the connection.
    Nothing panics, and when the connection ends every packet has been
    answered. *)
Theorem v3_client_serves k dial w cl s s1 (publish : P) (control : C) :
  connect k dial (MqttShared_new w Codec_new 0) = Some (ok cl, s) -> rtc step s s1 ->
  (exists w0, connected3 k w0 cl s) /\
  create_dispatcher s1 (cl_max_receive cl) publish control =
    InFlightService_new (k_max_receive k) (st_dispatcher (start cl s1), publish, control) /\
  forall nw buf io x fuel,
    conn_reachable (st_dispatcher (start cl s1)) nw buf (st_keepalive_timeout (start cl s1)) io x ->
    let r := poll fuel true io x in
    let log := d_log (poll_state r) in
    let items := take (length log) (c_items (poll_conn r)) in
    Z.of_nat (d_calls (poll_state r)) < usize_max ->
    packets (c_items (poll_conn r)) `prefix_of`
      (drain decode_packet (k_max_packet_size k) FrameHeader (c_received (poll_conn r))).1.1.1 /\
    Forall2 client_answer items log /\
    (Forall (fun t => ~ failed t /\ t <> ok (Some PDisconnect)) log ->
     base.omap puback_id log = base.omap publish_id items) /\
    c_panicked (poll_conn r) = false /\
    match r with
    | P_Panic _ _ => False
    | P_Ready _ d' x' => length (d_log d') = length (c_items x')
    | _ => True
    end.
Proof.
  intros [w0 Hk]%connect_connected Hst. split; [eauto | ].
  split; [by rewrite <- (cd_receive _ _ _ _ Hk) | ].
  destruct (ready_steps _ _ _ Hst (cd_ready _ _ _ _ Hk)) as (Hi & Hh & Hm). rewrite <- Hm.
  intros nw buf io x fuel Hr r log items Hc.
  destruct (conn_served (PL := ClientLaws3) (V3Dispatcher.Dispatcher_new s1) nw buf 0 io x fuel Hi Hh Hr Hc) as (He & Hs & Hrest).
  apply not_true_is_false in Hs. destruct (Hrest Hs) as (Hp & Ha & Hlen).
  assert (Ha' : Forall2 client_answer items log) by (by eapply items_answered; [ | exact Ha]).
  split; [exact Hp | ]. split; [exact Ha' | ]. split; [by apply client_pubacks | ]. split; [exact Hs | ].
  clear -He Hlen. destruct (poll fuel true io x) eqn:Er; subst r; done.
Qed.

End Connected.

(** ** A client to run

    [W] is whether the application acknowledges publishes; if not, the client
    is one of [start_default] and ends the connection. *)
Section Simulated.
Context `{R : Runtime Ack} {L : RuntimeLaws Ack}.
Abbreviation SimDisp := (V3Dispatcher.Dispatcher).
Abbreviation SimResp := (V3Client.Response (E := unit)).
Abbreviation SimAnswer := (result (option Packet) (MqttError unit)).
Abbreviation SimChoice :=
  ((ControlMessage -> option (result ControlResult (MqttError unit))) *
   option (result (unit + Publish) (MqttError unit)))%type.

Definition sim_control (acks : bool) (m : ControlMessage) : option (result ControlResult (MqttError unit)) :=
  match m with
  | CC_Publish p => if acks then Some (ok (V3Client.Publish_ack p)) else Some (default_control m)
  | CC_Closed _ => Some (ok CR_Closed)
  | _ => Some (default_control m)
  end.

#[export] Instance ClientSimNtex : Ntex SimDisp SimResp SimChoice SimAnswer (MqttError unit) IoError bool := {
  nx_service_ready dw := (Some (ok tt), dw);
  nx_service_poll r dw := (start_services (sim_control dw.2) r, dw);
  nx_encode_result := sim_encode;
  nx_io_error dw := (None, dw);
  nx_do _ dw := dw;
  nx_flag f _ := match f with Flag_ready => true | _ => false end;
  nx_now _ := 0;
}.

#[export] Instance ClientSimNtexLaws :
  NtexLaws (H0 := ClientLaws3) SimDisp SimResp SimChoice Packet SimAnswer (MqttError unit) IoError bool.
Proof.
  split; cbn; try (intros; apply rtc_refl).
  - exact (nl_encode (NtexLaws := SimNtexLaws)).
  - intros r dw. apply start_services_valid. intros m a. unfold sim_control, client_answers.
    destruct m as [p| |b]; [destruct dw.2 | ..]; intros [= <-]; auto.
Qed.

End Simulated.

Definition demo_k : MqttConnector := set_keep_alive 60 (set_client_id [99] MqttConnector_new).
Definition demo_start_shared : @MqttShared Ack (NetRuntime Ack) Codec := MqttShared_new demo_client_world Codec_new 0.
Definition demo_client_state := @connect (NetRuntime Ack) SimNet demo_k true demo_start_shared.
Definition demo_cl : Client := mkClient true 60 3000 16.
Definition demo_shared : @MqttShared Ack (NetRuntime Ack) Codec :=
  match demo_client_state with Some (_, s) => s | None => demo_start_shared end.

(** Two publishes and a ping arrive; the application acknowledges the first
    publish and then goes back to the default. *)
Definition demo_client_run :=
  run (Resp := V3Client.Response (E := unit)) (T := result (option Packet) (MqttError unit))
    [Act_env true (frame (PPublish (demo_publish 7)) ++ take 1 (frame PPingRequest)); Act_poll 9;
     Act_env false (drop 1 (frame PPingRequest) ++ frame (PPublish (demo_publish 8)))]
    (conn_start (st_keepalive_timeout (start demo_cl demo_shared))
       (Conn_new (st_dispatcher (start demo_cl demo_shared)) true [])).

#[local] Strategy expand [demo_client_run].

Lemma demo_client_result :
  match demo_client_run with
  | Some (io, x) =>
      let r := poll 9 true io x in
      d_log (poll_state r) = [ok (Some (PPublishAck 7)); ok (Some PPingResponse); ok (Some PDisconnect)] /\
      (Z.of_nat (d_calls (poll_state r)) <? usize_max) = true
  | None => False
  end.
Proof. vm_compute. repeat split. Qed.

Lemma v3_client_serves_witness :
  demo_client_state = Some (ok demo_cl, demo_shared) /\
  nw_sent (io demo_shared) = frame (PConnect (k_pkt demo_k)) /\
  match demo_client_run with
  | Some (io, x) =>
      let r := poll 9 true io x in
      d_log (poll_state r) = [ok (Some (PPublishAck 7)); ok (Some PPingResponse); ok (Some PDisconnect)] /\
      packets (c_items (poll_conn r)) `prefix_of` (drain decode_packet 65536 FrameHeader (c_received (poll_conn r))).1.1.1
  | None => False
  end.
Proof.
  assert (Hc : demo_client_state = Some (ok demo_cl, demo_shared)) by (vm_compute; reflexivity).
  split; [exact Hc | ]. split; [vm_compute; reflexivity | ].
  pose proof demo_client_result as H. destruct demo_client_run as [[io x]|] eqn:Er; [ | done]. destruct H as (H1 & H2).
  split; [exact H1 | ]. apply run_reachable in Er.
  destruct (v3_client_serves (NL := SimNetLaws) pair demo_k true demo_client_world demo_cl demo_shared demo_shared tt tt Hc
              (rtc_refl _ _)) as (_ & _ & Hy).
  refine (proj1 (Hy true [] io x 9%nat Er _)). by apply Z.ltb_lt.
Defined.
