(* ===== verification/V3Publishes.v ===== *)
(** * Publishes of MQTT 3.1.1 as the application sees them (src/v3/publish.rs)

    A handler gets a publish with its topic as a path.  It may take the
    payload, let a router match the path, and, in a client, give the publish
    back for the control service.  [Request] is the wrapper; here are its
    operations and what they mean for clients: a publish that is given back
    still has its packet id, unless the handler changed the packet itself. *)

From stdpp Require Import base gmap list strings relations.
From S2P Require Import Prelude Types Wire V3Codec Sink V3Sink V3Dispatcher V3Client Service Router Serving.
From S2P Require Import V3Connector V3ClientServing.
Open Scope Z_scope.

(** The parser of [serde_json::from_slice] *)
Abbreviation Json T Err := (bytes -> result T Err).

Section Publish.
Context `{TR : TopicRouter}.
Abbreviation Publish := (Request V3Codec.Publish).

Definition new (publish : V3Codec.Publish) : Publish := mkRequest publish (path_new (V3Codec.topic publish)).

Definition dup (self : Publish) : bool := V3Codec.dup (rq_packet self).
Definition retain (self : Publish) : bool := V3Codec.retain (rq_packet self).
Definition qos (self : Publish) : QoS := V3Codec.qos (rq_packet self).
Definition publish_topic (self : Publish) : ByteString := V3Codec.topic (rq_packet self).
Definition id (self : Publish) : option NonZeroU16 := packet_id (rq_packet self).
Definition topic (self : Publish) : Path := rq_topic self.
Definition packet (self : Publish) : V3Codec.Publish := rq_packet self.
Definition payload (self : Publish) : Bytes := V3Codec.payload (rq_packet self).

(** A mutable reference is a function to apply. *)
Definition topic_mut (f : Path -> Path) (self : Publish) : Publish := mkRequest (rq_packet self) (f (rq_topic self)).
Definition packet_mut (f : V3Codec.Publish -> V3Codec.Publish) (self : Publish) : Publish :=
  mkRequest (f (rq_packet self)) (rq_topic self).

Definition set_payload (b : Bytes) (p : V3Codec.Publish) : V3Codec.Publish :=
  {| V3Codec.dup := V3Codec.dup p; V3Codec.retain := V3Codec.retain p; V3Codec.qos := V3Codec.qos p;
     V3Codec.topic := V3Codec.topic p; packet_id := packet_id p; V3Codec.payload := b |}.

(** [mem::take] *)
Definition take_payload (self : Publish) : Bytes * Publish := (payload self, packet_mut (set_payload []) self).

Definition json {T Err} (from_slice : Json T Err) (self : Publish) : result T Err := from_slice (payload self).
Definition into_inner (self : Publish) : V3Codec.Publish := rq_packet self.

(** What a handler does that leaves the packet alone, apart from its payload *)
Inductive uses : relation Publish :=
| uses_take r : uses r (take_payload r).2
| uses_topic f r : uses r (topic_mut f r).

Lemma uses_packet r r' :
  rtc uses r r' -> exists b, into_inner r' = set_payload b (into_inner r) /\ (b = payload r \/ b = []).
Proof.
  induction 1 as [r|r1 r2 r3 Hs _ (b & Hb & Hp)].
  - exists (payload r). split; [by destruct r as [[] ?] | by left].
  - exists b. destruct Hs as [[p t]|f [p t]]; cbn in *; [ | done].
    split; [exact Hb | ]. right. by destruct Hp.
Qed.

(** The payload can be taken once. *)
Lemma take_payload_once r r' :
  rtc uses (take_payload r).2 r' -> (take_payload r').1 = [] /\ V3Codec.payload (into_inner r') = [].
Proof. intros (b & Hb & [->| ->])%uses_packet; cbn in *; unfold payload, into_inner in *; by rewrite Hb. Qed.

(** A publish that a client's handler gives back is what [V3Client.services]
    asks for: it has the id it came with. *)
Lemma given_back_services {E} (pc : V3Client.ControlMessage -> option (result V3Dispatcher.ControlResult (MqttError E)))
    (pid : option NonZeroU16) (p : V3Codec.Publish) (r : Publish) :
  (forall m a, pc m = Some (ok a) -> client_answers m a) -> rtc uses (new p) r ->
  V3Client.services pc (Some (ok (inr (into_inner r)))) (V3Client.R_Publish pid p).
Proof.
  intros Hpc (b & Hb & _)%uses_packet. split; [exact Hpc | ]. intros ? ? pkt [= <- <-] [= <-]. by rewrite Hb.
Qed.

(** ** Routing clients *)

Context {TRL : TopicRouterLaws} {H PErr E : Type} (into : PErr -> E).

(** The services of [ClientRouter::start]: [dispatch] on the resources, and
    [call] on the result of a handler.  [run] is what a handler gives for a
    request. *)
Definition router_services (c : V3Connector.ClientRouter (H := H)) (run : H -> Publish -> option (result unit PErr))
  (control : V3Client.ControlMessage -> option (result V3Dispatcher.ControlResult (MqttError E)))
  (r : V3Client.Response (E := E))
  : option ((V3Client.ControlMessage -> option (result V3Dispatcher.ControlResult (MqttError E))) *
            option (result (unit + V3Codec.Publish) (MqttError E))) :=
  match r with
  | V3Client.R_Publish _ p =>
      match V3Connector.dispatch (V3Connector.rt_builder c) (V3Connector.rt_handlers c) (new p) with
      | Some (Some h, req) => Some (control, V3Connector.call into <$> run h req)
      | Some (None, req) => Some (control, Some (ok (inr (into_inner req))))
      | None => None
      end
  | _ => Some (control, None)
  end.

(** Resources are added with the index of their handler. *)
Definition indexed (c : V3Connector.ClientRouter (H := H)) : Prop :=
  forall pat i, (pat, i) ∈ V3Connector.rt_builder c -> (i < length (V3Connector.rt_handlers c))%nat.

Lemma indexed_client address h cl : indexed (V3Connector.Client_resource address h cl).
Proof. intros pat i [= -> ->]%list_elem_of_singleton. cbn. lia. Qed.

Lemma indexed_resource address h c : indexed c -> indexed (V3Connector.ClientRouter_resource address h c).
Proof.
  intros Hc pat i [Hi|[= -> ->]%list_elem_of_singleton]%elem_of_app; cbn; rewrite length_app; cbn; [ | lia].
  apply Hc in Hi. lia.
Qed.

(** The handlers are never indexed out of range, and what the router makes of
    a publish is what [V3ClientServing.client_valid] asks for. *)
Lemma router_services_valid c run control r :
  indexed c -> (forall m a, control m = Some (ok a) -> client_answers m a) ->
  exists ch, router_services c run control r = Some ch /\ client_valid r ch.
Proof.
  intros Hi Hc. destruct r as [t|pid p|pid m|m]; cbn [router_services];
    try (eexists; split; [done | ]; split; [exact Hc | done]).
  unfold V3Connector.dispatch. destruct (recognize _ _) as [[i|] t] eqn:Er.
  - apply recognize_added in Er as [pat Hn%Hi]. destruct (lookup_lt_is_Some_2 _ _ Hn) as [h ->].
    eexists. split; [done | ]. split; [exact Hc | ]. cbn. intros ? ? pkt _. by destruct (run _ _) as [[]|].
  - eexists. split; [done | ]. split; [exact Hc | ]. cbn. by intros ? ? pkt [= <- <-] [= <-].
Qed.

End Publish.
