(* ===== verification/V3Factory.v ===== *)
(** * Servers and selectors of MQTT 3.1.1 as factories (src/v3/server.rs, src/v3/selector.rs, src/v3/default.rs)

    An application makes a server of its connect, control and publish
    services and the settings; [finish] turns it into the factory of the
    service that runs connections, [finish_selector] into a variant of a
    selector. *)

From stdpp Require Import base gmap list strings relations.
From S2P Require Import Prelude Types Wire Framing V3Codec Sink V3Sink V3Dispatcher.
From S2P Require Import IoDispatcher IoPoll Net Service Factory V3Server Serving V3Serving V3Connection.
Open Scope Z_scope.
Open Scope net_scope.

(** [DefaultControlService], [DefaultPublishService] *)
Inductive DefaultControlService : Type := mkDefaultControl.
Inductive DefaultPublishService : Type := mkDefaultPublish.

Section Factory.
Context `{R : Runtime Ack} {N : Net Ack Codec Packet}.
Abbreviation M := (@M Ack R Codec).
Abbreviation Svc := (@Svc Ack Codec R).
Context {St E IErr : Type}.
Abbreviation MError := (MqttError E).

(** [MqttServer] with its services: a factory without configuration is what
    its [new_service] gives *)
Record Server (Cn P ErC ErP : Type) : Type := mkServices {
  sv_handshake : result (Svc Connect (HandshakeAck St) E) IErr;
  sv_control : Session St -> M (result Cn ErC);
  sv_publish : Session St -> M (result P ErP);
  sv_settings : MqttServer;
}.
Arguments mkServices {Cn P ErC ErP}.
Arguments sv_handshake {Cn P ErC ErP}.
Arguments sv_control {Cn P ErC ErP}.
Arguments sv_publish {Cn P ErC ErP}.
Arguments sv_settings {Cn P ErC ErP}.

(** [new_service] of the default services *)
Definition DefaultControl_new_service (_ : Session St) : M (result DefaultControlService E) := mret (ok mkDefaultControl).
Definition DefaultPublish_new_service (_ : Session St) : M (result DefaultPublishService E) := mret (ok mkDefaultPublish).

(** [MqttServer::new], [control], [publish] and the settings *)
Definition Server_new (handshake : result (Svc Connect (HandshakeAck St) E) IErr)
  : Server DefaultControlService DefaultPublishService E E :=
  mkServices handshake DefaultControl_new_service DefaultPublish_new_service MqttServer_new.
Definition Server_control {Cn Cn' P ErC ErC' ErP} (service : Session St -> M (result Cn' ErC')) (s : Server Cn P ErC ErP)
  : Server Cn' P ErC' ErP :=
  mkServices (sv_handshake s) service (sv_publish s) (sv_settings s).
Definition Server_publish {Cn P P' ErC ErP ErP'} (publish : Session St -> M (result P' ErP')) (s : Server Cn P ErC ErP)
  : Server Cn P' ErC ErP' :=
  mkServices (sv_handshake s) (sv_control s) publish (sv_settings s).
Definition Server_set {Cn P ErC ErP} (f : MqttServer -> MqttServer) (s : Server Cn P ErC ErP) : Server Cn P ErC ErP :=
  mkServices (sv_handshake s) (sv_control s) (sv_publish s) (f (sv_settings s)).

Section Finish.
Context {Cn P ErC ErP Cn' P' Hd : Type}.
(** The [From] instances of the error type, [map_err] of ntex on the two
    services, and [InFlightService::new] of ntex *)
Context (from_control : ErC -> E) (from_publish : ErP -> E).
Context (map_err_control : Cn -> Cn') (map_err_publish : P -> P').
Context (InFlightService_new : Z -> V3Dispatcher.Dispatcher (R := R) * P' * Cn' -> Hd).

(** [factory.map_err(|e| MqttError::Service(e.into())).map_init_err(|e| MqttError::Service(e.into()))] *)
Definition map_factory {S S' Er} (map_service : S -> S') (from : Er -> E) (new_service : Session St -> M (result S Er))
  (cfg : Session St) : M (result S' MError) :=
  r ← new_service cfg;
  mret (match r with ok s => ok (map_service s) | err e => err (MService (from e)) end).

(** The factory of the dispatcher of a connection; the closure that
    [apply_fn_factory] puts before it is [serve_call]. *)
Definition server_handler (s : Server Cn P ErC ErP) : Session St -> M (result Hd MError) :=
  factory InFlightService_new (map_factory map_err_publish from_publish (sv_publish s))
    (map_factory map_err_control from_control (sv_control s)) (ms_inflight (sv_settings s)).

(** [MqttServer::finish], [MqttServer::inner_finish]: the two differ in the
    request only. *)
Definition Server_finish (s : Server Cn P ErC ErP) : FramedService (St := St) (Hd := Hd) (Er := MError) (IErr := IErr) :=
  FramedService_new
    (handshake_service_factory (sv_handshake s) (ms_handshake_timeout (sv_settings s)) (handshake (sv_settings s)))
    (server_handler s) (ms_disconnect_timeout (sv_settings s)).

(** [ServerSelector] and [ServerSelectorImpl] *)
Record ServerSelector (C : Type) : Type := mkServerSelector {
  ss_check : Connect -> M (result bool E);
  ss_connect : C;
  ss_handler : Session St -> M (result Hd MError);
  ss_settings : MqttServer;
}.
Arguments mkServerSelector {C}.
Arguments ss_check {C}.
Arguments ss_connect {C}.
Arguments ss_handler {C}.
Arguments ss_settings {C}.

(** [MqttServer::finish_selector]; of the settings, the selector keeps the
    maximum size and the disconnect timeout *)
Definition Server_finish_selector (check : Connect -> M (result bool E)) (s : Server Cn P ErC ErP)
  : ServerSelector (result (Svc Connect (HandshakeAck St) E) IErr) :=
  mkServerSelector check (sv_handshake s) (server_handler s) (sv_settings s).

(** [ServerSelector::new_service] *)
Definition ServerSelector_new_service (s : ServerSelector (result (Svc Connect (HandshakeAck St) E) IErr))
  : result (ServerSelector (Svc Connect (HandshakeAck St) E)) IErr :=
  match ss_connect s with
  | ok connect => ok (mkServerSelector (ss_check s) connect (ss_handler s) (ss_settings s))
  | err e => err e
  end.

(** [ServerSelectorImpl] as a service *)
Definition selector_server (s : ServerSelector (Svc Connect (HandshakeAck St) E))
  : Svc (Connect * bool) (Connect + Connection Hd) MError :=
  mkSvc (map_err MService <$> svc_ready (ss_connect s)) (svc_shutdown (ss_connect s))
    (fun '(hnd, delay) => ServerSelectorImpl_call (ss_settings s) (ss_check s) (svc_call (ss_connect s)) (ss_handler s) hnd delay).

(** [Selector::variant] of src/v3/selector.rs *)
Definition variant (check : Connect -> M (result bool E)) (server : Server Cn P ErC ErP)
  (sl : Selector (F := result (Svc (Connect * bool) (Connect + Connection Hd) MError) IErr))
  : Selector (F := result (Svc (Connect * bool) (Connect + Connection Hd) MError) IErr) :=
  Selector_variant
    (match ServerSelector_new_service (Server_finish_selector check server) with
     | ok s => ok (selector_server s)
     | err e => err e
     end) sl.

(** ** Connections of a server *)

Context {L : RuntimeLaws Ack} {NL : NetLaws Ack Codec Packet}.

Lemma map_factory_uses {S S' Er} (f : S -> S') (g : Er -> E) (m : Session St -> M (result S Er)) :
  (forall x, uses_sink (m x)) -> forall x, uses_sink (map_factory f g m x).
Proof. intros Hm x s r s' (r0 & s1 & H%Hm & [_ <-]%ret_Some)%bind_Some. exact H. Qed.

(** The service of a server runs [finish] with its connect service. *)
Lemma finish_call s impl :
  FramedService_new_service (Server_finish s) = ok impl ->
  exists service, sv_handshake s = ok service /\
    svc_call (framed_service impl) tt = finish (sv_settings s) (svc_call service) (server_handler s).
Proof.
  unfold FramedService_new_service, Server_finish, handshake_service_factory. cbn.
  destruct (sv_handshake s) as [service|e]; [ | done]. intros [= <-]. by exists service.
Qed.

Abbreviation Disp := (V3Dispatcher.Dispatcher (R := R)).
Abbreviation Resp := (V3Dispatcher.Response (E := E)).
Abbreviation Answer := (result (option Packet) MError).
Abbreviation Choice := (option (result unit MError) * option (result ControlResult MError))%type.

Section Served.
Context {W : Type} `{Nx : !Ntex Disp Resp Choice Answer MError IoError W}.
Context {NxL : NtexLaws (H0 := ServerLaws3) Disp Resp Choice Packet Answer MError IoError W}.

(** C8: a client that a server of MQTT 3.1.1 accepts is answered in order
    from its first packet on.  The server is any that [MqttServer] builds; its
    service is made when its connect service is.  CONNECT was read and the CONNACK that accepts
    it is at the end of what the handshake sent; the dispatcher works under
    the configured number of packets in flight and the keep-alive of the
    application.  Then, whatever bytes arrive in whatever chunks, however
    polls of the io dispatcher, of the tasks it spawned, of the services and
    moves of the sink are interleaved (with fewer than 2^64 calls): nothing
    panics; the packets the dispatcher was called with are the first ones
    that the bytes decode to under the configured limit; the results written
    so far answer the first of these calls one by one, each with the
    acknowledgement of its own packet id, so the PUBACKs carry the ids of the
    publishes in the order these were sent; and when the connection ends
    every packet has been answered. *)
Theorem v3_server_serves server w impl conn s' :
  (forall service c, sv_handshake server = ok service -> uses_sink (svc_call service c)) ->
  (forall x, uses_sink (sv_publish server x)) -> (forall x, uses_sink (sv_control server x)) ->
  FramedService_new_service (Server_finish server) = ok impl ->
  svc_call (framed_service impl) tt (MqttShared_new w Codec_new 16) = Some (ok conn, s') ->
  let srv := sv_settings server in
  (exists service w0 sess s1, sv_handshake server = ok service /\
    handshake srv (svc_call service) (MqttShared_new w0 Codec_new 16) = Some (ok (sess, cn_keepalive conn), s1) /\
    accepted srv (svc_call service) w0 (cn_keepalive conn) s1) /\
  (exists p c, cn_handler conn = InFlightService_new (ms_inflight srv) (V3Dispatcher.Dispatcher_new s', p, c)) /\
  forall nw buf io x fuel,
    conn_reachable (V3Dispatcher.Dispatcher_new s') nw buf (cn_keepalive conn) io x ->
    let r := poll fuel true io x in
    let log := d_log (poll_state r) in
    let items := take (length log) (c_items (poll_conn r)) in
    Z.of_nat (d_calls (poll_state r)) < usize_max ->
    packets (c_items (poll_conn r)) `prefix_of`
      (drain decode_packet (ms_max_size srv) FrameHeader (c_received (poll_conn r))).1.1.1 /\
    Forall2 server_answer items log /\
    (Forall (fun t => ~ failed t) log -> base.omap puback_id log = base.omap publish_id items) /\
    c_panicked (poll_conn r) = false /\
    match r with
    | P_Panic _ _ => False
    | P_Ready _ d' x' => length (d_log d') = length (c_items x')
    | _ => True
    end.
Proof.
  intros Hs Hp Hc (service & Hsv & ->)%finish_call H srv.
  destruct (connection_served3 InFlightService_new srv (svc_call service)
              (map_factory map_err_publish from_publish (sv_publish server))
              (map_factory map_err_control from_control (sv_control server)) w conn s')
    as ((w0 & sess & s1 & H1 & H2) & Hh & Hr); [ | by apply map_factory_uses | by apply map_factory_uses | done | ].
  { intros c. by apply Hs. }
  split; [by exists service, w0, sess, s1 | ]. done.
Qed.

End Served.

(** ** Connections of a selector *)

(** A variant: its check looks at CONNECT only. *)
Definition add_variant sl (v : (Connect -> bool) * Server Cn P ErC ErP) :=
  variant (fun c => mret (ok (v.1 c))) v.2 sl.

Abbreviation as_variant := (fun v service => mkVariant (sv_settings v.2) v.1 (svc_call service) (server_handler v.2)).
Abbreviation as_server := (fun v service =>
  selector_server (mkServerSelector (fun c => mret (ok (v.1 c))) service (server_handler v.2) (sv_settings v.2))).

Lemma add_variants vs sl :
  fold_left add_variant vs sl =
  fold_left (fun sl v => Selector_variant (made_factory (fun v => sv_handshake v.2) as_server v) sl) vs sl.
Proof.
  revert sl. induction vs as [|v vs IH]; intros sl; [done | ]. cbn [fold_left]. rewrite <- IH.
  unfold add_variant, variant, made_factory, ServerSelector_new_service. cbn. by destruct (sv_handshake v.2).
Qed.

(** A selector of MQTT 3.1.1 without a timeout makes its variants in the
    order in which they were added, and fails with the first of their errors.
    A connection goes to the first of them whose check accepts CONNECT, and
    goes on exactly as if that server had been used alone (when both have the
    same limit for the size of CONNECT); without such a server it ends with
    an error. *)
Theorem v3_selector_serves (vs : list ((Connect -> bool) * Server Cn P ErC ErP)) max_size :
  Forall (fun v => forall service c, sv_handshake v.2 = ok service -> uses_sink (svc_call service c)) vs ->
  match Selector_new_service id (fold_left add_variant vs (Selector_max_size max_size Selector_new)) with
  | err e => exists vs1 v vs2, vs = vs1 ++ v :: vs2 /\ sv_handshake v.2 = err e /\
                               Forall (fun v => exists service, sv_handshake v.2 = ok service) vs1
  | ok sel => forall s connect k w,
      next codec_decode (set_max_size (codec s) max_size) (io s) = (ok (Some (PConnect connect)), k, w) ->
      let called := SelectorService_call (sv_max_size sel) (sv_handshake_timeout sel) (selector_servers sel) s in
      match List.find (fun v => v.1 connect) vs with
      | Some v =>
          ms_max_size (sv_settings v.2) = max_size -> ms_handshake_timeout (sv_settings v.2) = 0 ->
          exists impl, FramedService_new_service (Server_finish v.2) = ok impl /\
            called = svc_call (framed_service impl) tt s
      | None => exists s', called = Some (err (MServerError "Cannot handle CONNECT packet"), s')
      end
  end.
Proof.
  intros Hu. rewrite add_variants.
  pose proof (selector_made (fun v : (Connect -> bool) * Server Cn P ErC ErP => sv_handshake v.2) as_server vs
                (Selector_max_size max_size Selector_new) eq_refl) as H.
  destruct (Selector_new_service id _) as [sel|e]; [ | exact H].
  destruct H as (-> & -> & cs & Hf & Hs). intros s connect k w Hn called. subst called. unfold selector_servers.
  rewrite Hs, fmap_made.
  change (zip_with _ vs cs) with (zip_with (fun v c => variant_call (as_variant v c)) vs cs). rewrite <- fmap_made.
  assert (Hux : Forall (fun x => forall c, uses_sink (v_service x c)) (zip_with as_variant vs cs)).
  { clear -Hu Hf. induction Hf as [|v service vs cs Hs _ IH]; [done | ]. apply Forall_cons in Hu as [Hv Hu].
    constructor; [intros c; by apply Hv | auto]. }
  pose proof (v3_selector_first _ max_size s connect k w Hux Hn) as Hsel.
  pose proof (find_made (fun v => sv_handshake v.2) (fun v => v.1 connect) as_variant (fun x => v_accepts x connect) vs cs
                (fun _ _ => eq_refl) Hf) as Hfind.
  destruct (List.find (fun v => v.1 connect) vs) as [v|]; [ | by rewrite Hfind in Hsel].
  destruct Hfind as (service & Hh & Hv). rewrite Hv in Hsel. intros Hm Ht.
  eexists. split.
  - unfold FramedService_new_service, Server_finish, handshake_service_factory. cbn. by rewrite Hh.
  - exact (Hsel Hm Ht).
Qed.

End Finish.
End Factory.

Arguments sv_handshake {R St E IErr Cn P ErC ErP}.
Arguments sv_control {R St E IErr Cn P ErC ErP}.
Arguments sv_publish {R St E IErr Cn P ErC ErP}.
Arguments sv_settings {R St E IErr Cn P ErC ErP}.

(** ** A connection to run

    After CONNECT a publish with id 7, a ping and a publish with id 8 arrive,
    in two pieces; the publish service is slow: a task has the answer to the
    ping before it, but the PUBACK is written first. *)
Abbreviation SimHandler := (Z * (V3Dispatcher.Dispatcher (R := NetRuntime Ack) * nat * nat))%type.
Definition demo_factory (x : Session nat) : DM (result nat (MqttError unit)) := mret (ok (se_st x)).
Definition demo_services : Server (R := NetRuntime Ack) (St := nat) (E := unit) (IErr := unit) nat nat (MqttError unit) (MqttError unit) :=
  Server_control demo_factory (Server_publish demo_factory (Server_set (V3Server.max_size 1000)
    (Server_new (ok (mkSvc (Some (ok tt)) (fun _ => true) demo_service))))).
Definition demo_framed :=
  FramedService_new_service (Server_finish (N := SimNet) (fun _ => tt) (fun _ => tt) id id
    (pair : Z -> _ -> SimHandler) demo_services).
Definition demo_connect : option (result (Connection SimHandler) (MqttError unit) * @MqttShared Ack (NetRuntime Ack) Codec) :=
  match demo_framed with
  | ok impl => svc_call (framed_service impl) tt demo_start
  | err _ => None
  end.

Lemma demo_factory_uses x : @uses_sink (NetRuntime Ack) _ (demo_factory x).
Proof. intros s r s' [= _ <-]. apply rtc_refl. Qed.

Definition demo_accepted : @MqttShared Ack (NetRuntime Ack) Codec :=
  match demo_connect with Some (_, s) => s | None => demo_start end.
Definition demo_conn : Connection SimHandler := mkConnection (16, (V3Dispatcher.Dispatcher_new demo_accepted, 7, 7)%nat) 30 3000.
Definition demo_run :=
  run (T := result (option Packet) (MqttError unit)) [Act_env false (drop 5 demo_bytes); Act_poll 9; Act_task 1; Act_env true []]
    (conn_start (cn_keepalive demo_conn) (Conn_new (V3Dispatcher.Dispatcher_new demo_accepted) false (take 5 demo_bytes))).

#[local] Strategy expand [demo_run].

Lemma demo_run_result :
  match demo_run with
  | Some (io, x) =>
      let r := poll 9 true io x in
      d_log (poll_state r) = [ok (Some (PPublishAck 7)); ok (Some PPingResponse)] /\
      wbuf (Sink.io (V3Dispatcher.d_sink (c_d (poll_conn r)))) = frame (PPublishAck 7) ++ frame PPingResponse /\
      (Z.of_nat (d_calls (poll_state r)) <? usize_max) = true
  | None => False
  end.
Proof. vm_compute. repeat split. Qed.

Lemma v3_server_serves_witness :
  demo_connect = Some (ok demo_conn, demo_accepted) /\ nw_sent (io demo_accepted) = [32; 2; 1; 0] /\
  match demo_run with
  | Some (io, x) =>
      let r := poll 9 true io x in
      d_log (poll_state r) = [ok (Some (PPublishAck 7)); ok (Some PPingResponse)] /\
      wbuf (Sink.io (V3Dispatcher.d_sink (c_d (poll_conn r)))) = frame (PPublishAck 7) ++ frame PPingResponse /\
      packets (c_items (poll_conn r)) `prefix_of` (drain decode_packet 1000 FrameHeader (c_received (poll_conn r))).1.1.1
  | None => False
  end.
Proof.
  assert (Hc : demo_connect = Some (ok demo_conn, demo_accepted)) by (vm_compute; reflexivity).
  split; [exact Hc | ]. split; [vm_compute; reflexivity | ].
  pose proof demo_run_result as H. destruct demo_run as [[io x]|] eqn:Er; [ | done]. destruct H as (H1 & H2 & H3).
  split; [exact H1 | ]. split; [exact H2 | ]. apply run_reachable in Er.
  unfold demo_connect in Hc. destruct demo_framed as [impl|] eqn:Hf; [ | done].
  destruct (v3_server_serves (NL := SimNetLaws) (fun _ => tt) (fun _ => tt) id id pair demo_services demo_world impl
              demo_conn demo_accepted) as (_ & _ & Hy);
    [intros service c [= <-]; apply demo_uses_sink3 | apply demo_factory_uses | apply demo_factory_uses | exact Hf | exact Hc | ].
  refine (proj1 (Hy false (take 5 demo_bytes) io x 9%nat Er _)). by apply Z.ltb_lt.
Defined.
