(* ===== verification/V5Accepted.v ===== *)
(** * A connection of an MQTT 5 server from CONNECT on (src/v5/server.rs, src/v5/dispatcher.rs)

    [V5Connection] follows the limits of a handshake into the dispatcher;
    here the io dispatcher runs it ([V5Serving]): the state that the handshake
    and [factory] leave is one that serving can start from. *)

From stdpp Require Import base gmap list strings relations.
From S2P Require Import Prelude Types Wire Framing V5Props V5PubAcks V5Subscribe V5Disconnect V5ConnAck V5Publish V5Connect V5Codec.
From S2P Require Import Sink V5Sink V5Control V5Info V5Dispatcher IoDispatcher IoPoll Net Service Serving V5Server V5Connection V5Serving.
Open Scope Z_scope.

Section Accepted.
Context `{R : Runtime Ack} {L : RuntimeLaws Ack} {N : Net Ack Codec Packet} {NL : NetLaws Ack Codec Packet}.
Abbreviation Shared := (@MqttShared Ack R Codec).
Abbreviation M := (@M Ack R Codec).
Context {St E E2 P C : Type}.
Abbreviation MError := (MqttError E).

(** ** What serving starts from *)

Definition ready5 (s : Shared) : Prop := Sink.inv queued s /\ state (codec s) = FrameHeader.

#[export] Instance queued_io_stable : IoStable (Sink.inv (Codec := Codec) queued).
Proof. intros s w Hw Hi. by apply quiet_io. Qed.
#[export] Instance ready5_io_stable : IoStable ready5.
Proof. intros s w Hw [Hi Hc]. split; [by apply io_stable | done]. Qed.

Lemma ready5_steps {B} (m : M B) : uses_sink m -> preserves ready5 m.
Proof.
  intros Hm s b s' Hs H%Hm. induction H as [|s1 s2 s3 H1 _ IH]; [done | ]. apply IH. destruct Hs as [Hi Hc].
  split; [by eapply step_moved5 | ]. apply step_settings in H1. by injection H1 as _ ->.
Qed.

Lemma ready5_item pkt : preserves ready5 (encode_item pkt).
Proof.
  intros s r s' [Hi Hc] H. split; [by eapply quietly_item | ].
  apply keeps_item in H. by injection H as _ ->.
Qed.

Lemma ready5_codec f : (forall c, state (f c) = state c) -> preserves ready5 (upd_codec f).
Proof. intros Hf. apply preserves_upd_codec. intros s [Hi Hc]. split; [done | ]. cbn. by rewrite Hf. Qed.

Lemma ready5_cap c : preserves ready5 (upd_cap c).
Proof. intros s [] s' Hs [= <-]. exact Hs. Qed.

#[local] Hint Resolve ready5_item ready5_codec ready5_cap : preserves.

Lemma ready5_peer_limits connect : preserves ready5 (peer_limits connect).
Proof. unfold peer_limits. preserves. Qed.

Lemma ready5_finish qos ka (ack : HandshakeAck St) : preserves ready5 (finish_handshake (E := E) qos ka ack).
Proof. unfold finish_handshake, sink_open. preserves. Qed.

(** The decoder has given a packet: it is at the header of the next one. *)
Lemma next_header5 c w p c' w' :
  next codec_decode c w = (ok (Some p), c', w') -> state c' = FrameHeader.
Proof.
  intros (c0 & b & b' & H)%next_decoded. unfold codec_decode in H.
  destruct (frame_decode _ _ _ _) as [[r st] src] eqn:Ef. destruct r as [[q|]|e|]; try done.
  apply frame_decode_progress in Ef as [-> _]. by destruct q; injection H as _ <- _.
Qed.

(** An accepted handshake leaves a state to serve from. *)
Lemma handshake_ready5 srv (service : Handshake -> M (result (HandshakeAck St) E)) w x s' :
  (forall h, uses_sink (service h)) ->
  handshake srv service (MqttShared_new w Codec_new 0) = Some (ok x, s') -> ready5 s'.
Proof.
  intros Hs (u & s0 & [= _ <-] & H)%bind_Some.
  apply and_then_ok in H as (p & s1 & (c & w1 & Hn & -> & _)%read_first_ok & H). cbn [codec io set_codec MqttShared_new] in Hn.
  destruct p as [connect| | | | | | | | | | | | | | ]; try by apply ret_Some in H as [? _].
  apply bind_Some in H as ([] & s2 & Hp & (r & s3 & Hr & H)%bind_Some).
  apply and_then_ok in H as (ack & s4 & [Ha <-]%ret_Some & H).
  eapply ready5_finish, H. eapply (ready5_steps _ (Hs _)), Hr. eapply ready5_peer_limits, Hp.
  split; [ | by eapply next_header5]. apply io_stable; [ | by apply (reachable_inv5 w c 0), V5Sink.reach_new].
  intros Hw. apply (next_open codec_decode (set_max_inbound_size Codec_new (ms_max_size srv)) w). by rewrite Hn.
Qed.

Lemma factory_ready5 publish control cfg :
  (forall x, uses_sink (publish x)) -> (forall x, uses_sink (control x)) ->
  preserves ready5 (factory (St := St) (E := E) (P := P) (C := C) publish control cfg).
Proof.
  intros Hp Hc. unfold factory. destruct (Session_params cfg).
  apply preserves_bind; [by apply ready5_steps | intros]. apply preserves_bind; [by apply ready5_steps | intros]. preserves.
Qed.

(** ** Served from CONNECT on *)

Context (try_from : E2 -> result PubAck E) (into : E2 -> E) (control_fails : Prop).
Abbreviation Disp := (V5Info.Dispatcher).
Abbreviation Resp := (V5Dispatcher.Response (E := E)).
Abbreviation Answer := (result (option Packet) MError).
Abbreviation Choice := ((ControlMessage E -> option (result ControlResult E)) * option (result PubAck E2))%type.
#[local] Instance protocol5 : Protocol Disp Resp Choice Packet Answer IoError := ServerProtocol5 try_from into.
#[local] Instance laws5 : ProtocolLaws Disp Resp Choice Packet Answer IoError := ServerLaws5 try_from into control_fails.
Context {W : Type} `{Nx : !Ntex Disp Resp Choice Answer MError IoError W}.
Context {NxL : NtexLaws Disp Resp Choice Packet Answer MError IoError W}.

(** A client that the server accepts is answered in order. *)
Lemma connection_served5 srv (service : Handshake -> M (result (HandshakeAck St) E))
    (publish : Session St -> M (result P MError)) (control : Session St -> M (result C MError)) w conn d pb ct s' :
  (forall h, uses_sink (service h)) -> (forall x, uses_sink (publish x)) -> (forall x, uses_sink (control x)) ->
  finish srv service (factory publish control) (MqttShared_new w Codec_new 0) = Some (ok conn, s') ->
  cn_handler conn = (d, pb, ct) ->
  exists connect (ack : HandshakeAck St), let p := final_packet (ms_max_qos srv) (co_keep_alive connect) ack in
    (exists w0 c w1 s1 s2 sess s3,
       next codec_decode (set_max_inbound_size Codec_new (ms_max_size srv)) w0 = (ok (Some (Pkt_Connect connect)), c, w1) /\
       service (mkHandshake connect (ms_max_size srv) (ms_max_receive srv) (ms_max_topic_alias srv)) s1 = Some (ok ack, s2) /\
       handshake srv service (MqttShared_new w0 Codec_new 0) = Some (ok (sess, cn_keepalive conn), s3) /\
       agreed (ms_max_size srv) connect p sess s3) /\
    forall nw buf io x fuel,
      conn_reachable d nw buf (cn_keepalive conn) io x ->
      let r := IoPoll.poll fuel true io x in
      Z.of_nat (d_calls (poll_state r)) < usize_max ->
      match r with P_Panic _ _ => False | _ => True end /\
      (c_panicked (poll_conn r) = false ->
       packets (c_items (poll_conn r)) `prefix_of`
         (drain decode_packet (match ca_max_packet_size p with Some n => n | None => ms_max_size srv end)
            FrameHeader (c_received (poll_conn r))).1.1.1 /\
       in_order5 control_fails (d_log (poll_state r)) (poll_conn r) /\
       match r with P_Ready _ d' x' => length (d_log d') = length (c_items x') | _ => True end).
Proof.
  intros Hs Hp Hc H Hd. unfold finish, FramedServiceImpl_call, connect_handler in H.
  apply and_then_ok in H as ([hd ka] & s2 & H & [[= <-] <-]%ret_Some). cbn in Hd |- *. subst hd.
  apply and_then_ok in H as ([sess ka'] & s1 & (w0 & _ & Hh)%with_timeout_ok & H).
  apply and_then_ok in H as (h & s3 & Hf & [[= -> ->] <-]%ret_Some).
  change (set_io w0 _) with (MqttShared_new w0 Codec_new 0) in Hh.
  destruct (factory_ready5 _ _ _ Hp Hc _ _ _ (handshake_ready5 _ _ _ _ _ Hs Hh) Hf) as [Hi Hst].
  apply factory_ok in Hf as [-> Hset]; [ | done | done]. injection Hset as _ Hk.
  destruct (handshake_agreed _ _ _ _ _ _ Hs Hh) as (connect & ack & c & w1 & s4 & s5 & Hn & Hr & Ha & ->).
  exists connect, ack. split.
  { exists w0, c, w1, s4, s5, sess, s1. done. }
  rewrite <- (ag_inbound _ _ _ _ _ Ha), <- Hk. intros nw buf io x fuel. by apply served_in_order5.
Qed.

End Accepted.
