(* ===== verification/V5ClientServing.v ===== *)
(** * A connection of an MQTT 5 client (src/v5/client/connection.rs, src/v5/client/dispatcher.rs)

    [Serving] with the dispatcher of [V5Client], from CONNACK on.  Like the
    server it can panic on the packets it sends itself under a small maximum
    of the peer. *)

From stdpp Require Import base gmap list strings relations.
From S2P Require Import Prelude Types Wire Framing V5Props V5PubAcks V5Subscribe V5Disconnect V5ConnAck V5Publish V5Connect V5Codec.
From S2P Require Import Sink V5Sink V5Control V5Info V5Dispatcher V5Client IoDispatcher IoPoll Net Service Serving.
From S2P Require Import V5Server V5Connector V5Connection V5Serving V5Accepted.
Open Scope Z_scope.

(** ** The dispatcher as a protocol *)
Section Client.
Context `{R : Runtime Ack} {L : RuntimeLaws Ack} {E IE : Type}.
Abbreviation Disp := (V5Info.Dispatcher).
Abbreviation Item5 := (IoPoll.DispatchItem Packet DecodeError EncodeError IE).
Abbreviation Resp := (V5Client.Response (E := E)).
Abbreviation Answer := (result (option Packet) (MqttError E)).
Abbreviation Msg := (V5Client.ControlMessage E).

(** What the control service gives for a message, and the publish service
    for the publish of a response *)
Abbreviation Choice5 := ((Msg -> option (result ControlResult E)) * option (result (Publish + PubAck) E))%type.

#[export] Instance ClientProtocol5 : Protocol Disp Resp Choice5 Packet Answer IE := {
  pr_call item := V5Client.call (item5 item);
  pr_poll ch := V5Client.poll ch.1 ch.2;
  pr_shutdown b d := match V5Client.poll_shutdown (E := E) b d with Some (_, d) => Some d | None => None end;
  pr_decode := decode5;
  pr_max d := max_in_size (codec5 d);
  pr_state d := state (codec5 d);
  pr_decode_packet := decode_packet;
  pr_open := open5;
}.

(** The control service can fail or not, and answers a publish that it is
    given as [app_acks] says: with a PUBACK that the application makes, whatever
    its id, or without one. *)
Context (control_fails : Prop) (app_acks : Publish -> option PublishAck -> Prop).

(** What an application can answer *)
Definition client_answers5 (m : Msg) (r : ControlResult) : Prop :=
  (exists pkt, r = V5Client.disconnect m pkt) \/
  match m with
  | CC_Publish p => exists response, r = V5Client.Publish_ack p response /\ app_acks p response
  | CC_Disconnect _ => r = Disconnect_ack
  | CC_Closed _ => r = Closed_ack
  | CC_Error _ _ | CC_ProtocolError _ _ => exists pkt, r = ProtocolError_ack pkt
  end.

(** The packets that answer a packet of the server: a publish is acknowledged
    with its id by the publish service, or with the PUBACK of the application
    by the control service; a DISCONNECT of the control service closes the
    connection. *)
Definition client_acknowledges (is_open : bool) (item : Item5) (pkt : Packet) : Prop :=
  let disconnects := is_open = false /\ exists d, pkt = Pkt_Disconnect d in
  match item with
  | IoPoll.DI_Item (Pkt_Publish p) =>
      (exists a, pkt = Pkt_PublishAck a /\ (pu_packet_id p = Some (pa_packet_id a) \/ app_acks p (Some a))) \/ disconnects
  | IoPoll.DI_Item Pkt_PingRequest => pkt = Pkt_PingResponse
  | IoPoll.DI_Item (Pkt_Disconnect _) => disconnects
  | _ => False
  end.

(** The items that need no answer, the publishes whose id was in use at the
    call, and those that the application does not acknowledge *)
Definition client_unanswered (d0 : Disp) (item : Item5) : Prop :=
  match item with
  | IoPoll.DI_Item (Pkt_Publish p) =>
      V5Dispatcher.publish_id p = 0 \/ V5Dispatcher.publish_id p ∈ d_inflight d0 \/ app_acks p None
  | IoPoll.DI_Item (Pkt_Auth _) | IoPoll.DI_Item (Pkt_Subscribe _) | IoPoll.DI_Item (Pkt_Unsubscribe _)
  | IoPoll.DI_Item Pkt_PingRequest | IoPoll.DI_Item (Pkt_Disconnect _) => False
  | IoPoll.DI_Item _ | IoPoll.DI_WBackPressureEnabled | IoPoll.DI_WBackPressureDisabled => True
  | _ => False
  end.

Definition client_answer5 (is_open : bool) (d0 : Disp) (item : Item5) (t : Answer) : Prop :=
  (control_fails /\ failed5 t) \/ (t = ok None /\ (is_open = true -> client_unanswered d0 item)) \/
  exists pkt, t = ok (Some pkt) /\ client_acknowledges is_open item pkt.

(** The messages that an item becomes *)
Definition client_asks (item : Item5) (m : Msg) : Prop :=
  match item, m with
  | IoPoll.DI_Item (Pkt_Publish p), CC_Publish p' => p' = p
  | IoPoll.DI_Item (Pkt_Disconnect pkt), CC_Disconnect pkt' => pkt' = pkt
  | _, _ => False
  end.

(** The future of an item *)
Definition client_about5 (d0 : Disp) (item : Item5) (r : Resp) : Prop :=
  match r with
  | V5Client.R_Ready t => client_answer5 true d0 item t
  | V5Client.R_Publish id p => item = IoPoll.DI_Item (Pkt_Publish p) /\ id = V5Dispatcher.publish_id p
  | V5Client.R_PublishControl _ c | V5Client.R_Control c => settling V5Client.is_error (client_asks item) c
  end.

(** The control service answers as it can, and the publish service gives back
    the publish it got. *)
Definition client_valid5 (r : Resp) (ch : Choice5) : Prop :=
  (forall m a, ch.1 m = Some (ok a) -> client_answers5 m a) /\
  (forall m e, ch.1 m = Some (err e) -> control_fails) /\
  (forall id p pkt, r = V5Client.R_Publish id p -> ch.2 = Some (ok (inl pkt)) -> pkt = p).

(** ** Laws *)

Lemma client_answer5_none o d0 item : (o = true -> client_unanswered d0 item) -> client_answer5 o d0 item (ok None).
Proof. intros H. right. by left. Qed.
Lemma client_answer5_closed d0 item t : client_answer5 true d0 item t -> client_answer5 false d0 item t.
Proof.
  intros [H|[[H _]|(pkt & -> & H)]]; [by left | right; by left | right; right]. exists pkt. split; [done | ].
  destruct item as [[]| | | | | | ]; cbn in *; try done; naive_solver.
Qed.

Lemma client_about5_error d0 item e : client_about5 d0 item (V5Client.proto_error e).
Proof. by left. Qed.
#[local] Hint Resolve client_about5_error : core.

Lemma client_call_about item d r d' : V5Client.call (E := E) (item5 item) d = Some (r, d') -> client_about5 d item r.
Proof.
  assert (Hret : forall r1, client_about5 d item r1 -> (mret r1 : V5Info.DM Resp) d = Some (r, d') -> client_about5 d item r)
    by (by intros r1 H1 [<- _]%dret_Some).
  assert (Hack : forall a, client_unanswered d item -> V5Client.call_ack a d = Some (r, d') -> client_about5 d item r).
  { intros a Hu (x & d1 & _ & [<- _]%dret_Some)%dbind_Some. destruct x; [by apply client_answer5_none | auto]. }
  destruct item as [pkt| |e|e|e| | ]; cbn [item5 V5Client.call];
    try (apply Hret; first [apply client_about5_error | by apply client_answer5_none]).
  destruct pkt; cbn [V5Client.call];
    try (apply Hret; first [apply client_about5_error | by apply client_answer5_none | by apply settling_new]);
    try by apply Hack.
  - intros [[e ->]|[[-> Hin]| ->]]%checked_stops; [auto | apply client_answer5_none; right; by left | done].
  - apply Hret. right. right. eexists. done.
Qed.

Lemma client_asked_answer o d0 item m r :
  client_asks item m -> client_answers5 m r -> (cr_disconnect r = true -> o = false) ->
  client_answer5 o d0 item (ok (cr_packet r)).
Proof.
  intros Hm Ha Ho. destruct Ha as [[k ->]|Ha].
  { right. right. eexists. split; [done | ]. rewrite Ho by done. destruct item as [[]| | | | | | ]; try done; cbn; eauto. }
  destruct item as [[]| | | | | | ], m; try done; cbn in Hm, Ha.
  - destruct Ha as ([a|] & -> & Hr); subst p; [ | apply client_answer5_none; right; by right].
    right. right. eexists. split; [done | ]. left. eexists. split; [done | by right].
  - subst r. apply client_answer5_none. by rewrite Ho.
Qed.

Lemma client_error_disconnects m (r : ControlResult) :
  V5Client.is_error (E := E) m = true -> client_answers5 m r -> cr_disconnect r = true.
Proof. intros Hm [[k ->]|Ha]; [done | ]. destruct m; try done; by destruct Ha as [k ->]. Qed.

Lemma client_control_about d0 item r ch c d x c' d' :
  ControlResponse_poll V5Client.error_msg ch.1 c d = Some (x, c', d') -> client_valid5 r ch ->
  settling V5Client.is_error (client_asks item) c ->
  match x with Some t => client_answer5 (open5 d') d0 item t | None => settling V5Client.is_error (client_asks item) c' end.
Proof.
  intros H (Hv & Hf & _) Hc.
  apply (control_settles V5Client.is_error _ (client_asks item) (fun o => client_answer5 o d0 item)) in H; try done.
  - intros m a Hm Ha. by eapply client_error_disconnects, Hv.
  - intros m e o He%Hf. left. by split; [ | eexists].
  - by apply client_answer5_none.
  - intros m a o Hm Ha Ho. by eapply client_asked_answer; [ | apply Hv | ].
Qed.

Lemma client_poll_about d0 item ch r d x r' d' :
  V5Client.poll ch.1 ch.2 r d = Some (x, r', d') -> client_about5 d0 item r -> client_valid5 r ch ->
  match x with Some t => client_answer5 (open5 d') d0 item t | None => client_about5 d0 item r' end.
Proof.
  intros H Ha Hv. destruct r as [y|id p|id c|c]; cbn [V5Client.poll] in H.
  - apply dret_Some in H as [[= <- <-] _]. destruct (open5 d'); [done | by apply client_answer5_closed].
  - destruct Ha as [Hi ->]. unfold V5Client.PublishResponse_poll in H. destruct ch.2 as [[[pkt|ack]|e]|] eqn:Ef.
    + apply dbind_Some in H as ([y c'] & d1 & Hp & [[= <- <-] ->]%dret_Some).
      eapply (client_control_about d0 item) in Hp; [by destruct y | done | ].
      right. split; [done | ]. subst item. destruct Hv as (_ & _ & Hg). by eapply Hg.
    + apply dbind_Some in H as (y & d1 & Hp & [[= <- <-] _]%dret_Some).
      destruct (publish_done_value _ _ _ _ _ Hp) as (t & -> & [[-> Hz]|(a & -> & Hid)]); subst item.
      { apply client_answer5_none. intros _. by left. }
      right. right. eexists. split; [done | ]. left. eexists. split; [done | ]. left.
      unfold V5Dispatcher.publish_id in Hid, Hp. destruct (pu_packet_id p); [by rewrite Hid | ]. done.
    + apply dbind_Some in H as ([y c'] & d1 & Hp & [[= <- <-] ->]%dret_Some).
      eapply (client_control_about d0 item) in Hp; [by destruct y | done | by left].
    + by apply dret_Some in H as [[= <- <-] _].
  - apply dbind_Some in H as ([y c'] & d1 & Hp & [[= <- <-] ->]%dret_Some).
    eapply (client_control_about d0 item) in Hp; [by destruct y | done | done].
  - apply dbind_Some in H as ([y c'] & d1 & Hp & [[= <- <-] ->]%dret_Some).
    eapply (client_control_about d0 item) in Hp; [by destruct y | done | done].
Qed.

#[local] Hint Resolve dsteps_control : sink_steps.

Lemma dsteps_client_call item : dsteps (V5Client.call (E := E) item).
Proof. unfold V5Client.call, checked, check_receive, check_alias, has_alias, V5Client.call_ack. dsteps. Qed.
Lemma dsteps_client_poll pc fut r : dsteps (V5Client.poll (E := E) pc fut r).
Proof. unfold V5Client.poll, V5Client.PublishResponse_poll, publish_done. dsteps. Qed.
Lemma dsteps_client_shutdown b : dsteps (V5Client.poll_shutdown (E := E) b).
Proof.
  intros d m d'. unfold V5Client.poll_shutdown. destruct (d_shutdown d); [by intros [= _ <-] | ].
  destruct (drop_sink _) as [[u s]|] eqn:Hd; [ | done]. intros [= _ <-]. eapply rtc_once, step_drop_sink, Hd.
Qed.

Lemma client_steps_kept5 d d' :
  rtc V5Sink.step (V5Info.d_sink d) (V5Info.d_sink d') -> ok5 d -> ok5 d' /\ kept d d'.
Proof.
  intros Hs Hok. pose proof (steps_settings _ _ Hs) as [= _ Hc]. destruct (steps_inv5 _ _ Hs Hok) as [Hi Ho].
  unfold kept. cbn. unfold codec5. by rewrite Hc.
Qed.

Lemma client_call_law5 i d :
  ok5 d -> match pr_call i d with Some (r, d') => client_about5 d i r /\ ok5 d' /\ kept d d' | None => True end.
Proof.
  intros Hok. cbn [pr_call ClientProtocol5]. destruct (V5Client.call (item5 i) d) as [[r d']|] eqn:Ec; [ | done].
  split; [by eapply client_call_about | ]. eapply client_steps_kept5; [by eapply dsteps_client_call | done].
Qed.

Lemma client_poll_law5 d0 i ch r d :
  ok5 d -> client_about5 d0 i r -> client_valid5 r ch ->
  match pr_poll ch r d with
  | Some (x, r', d') => ok5 d' /\ kept d d' /\
      match x with Some t => client_answer5 (pr_open d') d0 i t | None => client_about5 d0 i r' end
  | None => True
  end.
Proof.
  intros Hok Ha Hv. cbn [pr_poll ClientProtocol5]. destruct (V5Client.poll _ _ _ _) as [[[x r'] d']|] eqn:Ep; [ | done].
  rewrite assoc by apply _. split; [ | by eapply client_poll_about].
  eapply client_steps_kept5; [by eapply dsteps_client_poll | done].
Qed.

Lemma client_shutdown_law5 b d :
  ok5 d -> match pr_shutdown b d with Some d' => ok5 d' /\ kept d d' | None => True end.
Proof.
  intros Hok. cbn [pr_shutdown ClientProtocol5].
  destruct (V5Client.poll_shutdown (E := E) b d) as [[m d']|] eqn:Es; [ | done].
  eapply client_steps_kept5; [by eapply dsteps_client_shutdown | done].
Qed.

Lemma client_moved_law5 d d' : ok5 d -> move5 d d' -> ok5 d' /\ kept d d'.
Proof. intros Hok (s & Hs & ->). apply client_steps_kept5; [by apply rtc_once | done]. Qed.

#[export] Instance ClientLaws5 : ProtocolLaws Disp Resp Choice5 Packet Answer IE := {
  pl_may_panic := True;
  pl_closed := client_answer5_closed;
  pl_call := client_call_law5;
  pl_poll := client_poll_law5;
  pl_shutdown := client_shutdown_law5;
  pl_moved := client_moved_law5;
  pl_decode := decode_law5;
  pl_decode_packet := decode_packet5_no_panic;
}.

Definition client_answers_call5 (is_open : bool) (call : Disp * Item5) (t : Answer) : Prop :=
  client_answer5 is_open call.1 call.2 t.

(** The PUBACKs that are written have the ids of publishes, in order, if those
    of the application have. *)
Lemma client_puback o d0 item t id :
  (forall p a, app_acks p (Some a) -> pu_packet_id p = Some (pa_packet_id a)) ->
  client_answer5 o d0 item t -> answer_puback_id t = Some id -> item_publish_id item = Some id.
Proof.
  intros Hap [[_ [e ->]]|[[-> _]|(pkt & -> & Ha)]] Et; [done | done | ]. destruct pkt; try done. injection Et as <-.
  destruct item as [[]| | | | | | ]; try done; cbn in Ha; [ | by destruct Ha as [_ [? ?]]].
  destruct Ha as [(a' & [= ->] & [Hp|Hp%Hap])|[_ [? ?]]]; done.
Qed.

Lemma client_pubacks5 o calls log :
  (forall p a, app_acks p (Some a) -> pu_packet_id p = Some (pa_packet_id a)) ->
  Forall2 (client_answers_call5 o) calls log ->
  base.omap answer_puback_id log `sublist_of` base.omap item_publish_id calls.*2.
Proof.
  intros Hap. induction 1 as [|[d0 item] t calls log Ha _ IH]; [done | ]. cbn.
  pose proof (client_puback o d0 item t) as Hp. destruct (answer_puback_id t) as [id|].
  - rewrite (Hp id Hap Ha eq_refl). by apply sublist_skip.
  - destruct (item_publish_id item); [by apply sublist_cons | done].
Qed.

(** On an open connection every publish with a fresh id is acknowledged, if
    the application acknowledges those it is given. *)
Lemma client_answered_fresh d0 item t id :
  (forall p response, app_acks p response -> pa_packet_id <$> response = pu_packet_id p) ->
  client_answer5 true d0 item t -> ~ failed5 t -> fresh_id (d0, item) -> item_publish_id item = Some id ->
  answer_puback_id t = Some id.
Proof.
  intros Hap Ha Hn Hf Hi. destruct (Hf id Hi) as [Hid Hni]. destruct item as [[p| | | | | | | | | | | | | | ]| | | | | | ]; try done.
  cbn in Hi, Hni. destruct Ha as [[_ ?]|[[_ Hu]|(pkt & -> & Ha)]]; [done | | ].
  - specialize (Hu eq_refl). cbn in Hu. unfold V5Dispatcher.publish_id in Hu. rewrite Hi in Hu.
    destruct Hu as [|[?|Hu%Hap]]; [lia | done | ]. cbn in Hu. congruence.
  - cbn in Ha. destruct Ha as [(a & -> & [Hp|Hp%Hap])|[? _]]; [cbn; congruence | cbn in Hp |- *; congruence | done].
Qed.

Lemma client_answered_pubacks5 calls log :
  (forall p response, app_acks p response -> pa_packet_id <$> response = pu_packet_id p) ->
  Forall2 (client_answers_call5 true) calls log -> Forall (fun t => ~ failed5 t) log -> Forall fresh_id calls ->
  base.omap answer_puback_id log = base.omap item_publish_id calls.*2.
Proof.
  intros Hap. induction 1 as [|[d0 item] t calls log Ha _ IH]; intros Hn Hf; [done | ].
  apply Forall_cons in Hn as [Hnt Hn], Hf as [Hfi Hf]. cbn. rewrite (IH Hn Hf).
  destruct (item_publish_id item) as [id|] eqn:Ei; [by rewrite (client_answered_fresh d0 item t id) | ].
  destruct (answer_puback_id t) as [id|] eqn:Et; [ | done]. apply (client_puback true d0 item t) in Et; [congruence | | done].
  intros p a Hp%Hap. cbn in Hp. congruence.
Qed.

(** The first calls are answered by the results, one by one; the PUBACKs are
    those of publishes if the ones of the application are, and of all publishes
    if moreover the connection is open, the control service has not failed, no
    id was in use and the application acknowledges what it is given. *)
Definition client_in_order5 {W} (log : list Answer) (x : Conn (D := Disp) (I := Packet) (IE := IE) (W := W)) : Prop :=
  let calls := take (length log) (c_called x) in
  Forall2 (client_answers_call5 (open5 (c_d x))) calls log /\
  ((forall p a, app_acks p (Some a) -> pu_packet_id p = Some (pa_packet_id a)) ->
   base.omap answer_puback_id log `sublist_of` base.omap item_publish_id calls.*2) /\
  ((forall p response, app_acks p response -> pa_packet_id <$> response = pu_packet_id p) ->
   open5 (c_d x) = true -> Forall (fun t => ~ failed5 t) log -> Forall fresh_id calls ->
   base.omap answer_puback_id log = base.omap item_publish_id calls.*2).

Lemma client_calls_in_order {W} log (x : Conn (D := Disp) (I := Packet) (IE := IE) (W := W)) :
  Forall2 (client_answers_call5 (open5 (c_d x))) (take (length log) (c_called x)) log -> client_in_order5 log x.
Proof.
  intros Ha. split; [exact Ha | ]. split; [intros Hap; by eapply client_pubacks5 | ].
  intros Hap Ho. apply client_answered_pubacks5; [done | ]. by rewrite <- Ho.
Qed.

End Client.

(** ** From CONNECT to the dispatcher *)
Section Connected.
Context `{R : Runtime Ack} {L : RuntimeLaws Ack} {N : Net Ack Codec Packet} {NL : NetLaws Ack Codec Packet}.
Abbreviation Shared := (@MqttShared Ack R Codec).

(** What an accepted connection leaves: CONNECT went out, CONNACK accepted
    it, the limits of both are in force, and the shared state is one to serve
    from. *)
Record connected5 (k : MqttConnector) (w : world) (cl : Client) (s : Shared) : Prop := {
  cd_exchanged : exists c0 w1 c w2,
    c0 = set_max_inbound_size Codec_new (unwrap_or_zero (co_max_packet_size (k_pkt k))) /\
    (codec_encode c0 (Pkt_Connect (k_pkt k)) (wbuf w)).1 = Ok tt /\
    sent w1 = sent w ++ (codec_encode c0 (Pkt_Connect (k_pkt k)) (wbuf w)).2 /\
    next codec_decode c0 w1 = (ok (Some (Pkt_ConnectAck (cl_pkt cl))), c, w2) /\
    ca_reason_code (cl_pkt cl) = CR_Success;
  cd_receive : cl_max_receive cl = unwrap_or_zero (co_receive_max (k_pkt k));
  cd_credit : cap s = unwrap_or_zero (ca_receive_max (cl_pkt cl));
  cd_in : max_in_size (codec s) = unwrap_or_zero (co_max_packet_size (k_pkt k));
  cd_out : max_out_size (codec s) = unwrap_or_zero (ca_max_packet_size (cl_pkt cl));
  cd_ready : ready5 s;
}.

#[local] Hint Resolve ready5_codec ready5_cap : preserves.
Lemma connected_ready5 k pkt : preserves ready5 (connected k pkt).
Proof. unfold connected. preserves. Qed.

Lemma _connect_connected5 k dial w cl s :
  _connect k dial (MqttShared_new w Codec_new 0) = Some (ok cl, s) -> connected5 k w cl s.
Proof.
  intros Hc. destruct (connect_ok _ _ _ _ _ Hc) as (Hr & _ & Hcap & Hin & Hout & _).
  revert Hc. unfold _connect. destruct dial; [ | by intros [? _]%ret_Some]. cbn [negb].
  intros (u & s1 & [= _ <-] & (c & s2 & [= <- <-] & (r & s3 & H3 & H4)%bind_Some)%bind_Some)%bind_Some.
  unfold send_packet in H3. destruct (send_item _ _) as [[r' w']|] eqn:Es; [ | done]. injection H3 as -> <-.
  destruct r as [[]|e]; [ | by apply ret_Some in H4 as [? _]]. apply send_ok in Es as (Hw & Hsent & _).
  apply bind_Some in H4 as (r & s4 & H4 & H5). unfold next_packet in H4.
  destruct (next _ _ _) as [[n c] w2] eqn:En. injection H4 as -> <-.
  destruct r as [[[]|]|e]; try by apply ret_Some in H5 as [? _].
  apply next_header5 in En as Hh.
  assert (Hready : ready5 (MqttShared_new w2 c 0 : Shared)).
  { split; [by apply (reachable_inv5 w2 c 0), V5Sink.reach_new | done]. }
  apply (connected_ready5 _ _ _ _ _ Hready) in H5 as Hs.
  unfold connected in H5. destruct (ca_reason_code _) eqn:Erc; try by apply ret_Some in H5 as [? _].
  apply bind_Some in H5 as (u5 & s5 & _ & (u6 & s6 & _ & [[= <-] _]%ret_Some)%bind_Some).
  split; [by eexists _, w', c, w2 | done ..].
Qed.

Lemma connect_connected5 k dial w cl s :
  connect k dial (MqttShared_new w Codec_new 0) = Some (ok cl, s) -> exists w0, connected5 k w0 cl s.
Proof.
  unfold connect, select. intros (o & s1 & H & [Ho ->]%ret_Some)%bind_Some.
  destruct o as [[cl'|]|]; try done. injection Ho as <-.
  destruct (0 <? k_handshake_timeout k).
  - apply bind_Some in H as (late & s2 & [_ ->]%run_io_Some & H). destruct late; [by apply ret_Some in H as [? _] | ].
    apply bind_Some in H as (b & s3 & H & [[= ->] ->]%ret_Some). eexists. by eapply _connect_connected5.
  - apply bind_Some in H as (b & s3 & H & [[= ->] ->]%ret_Some). eexists. by eapply _connect_connected5.
Qed.

(** ** The client at work *)
Context {E : Type}.
Abbreviation Disp := (V5Info.Dispatcher).
Abbreviation Resp := (V5Client.Response (E := E)).
Abbreviation Answer := (result (option Packet) (MqttError E)).
Abbreviation Msg := (V5Client.ControlMessage E).
Abbreviation Choice := ((Msg -> option (result ControlResult E)) * option (result (Publish + PubAck) E))%type.

(** [create_dispatcher] of src/v5/client/dispatcher.rs *)
Definition create_dispatcher5 {P C} (sink : Shared) (max_receive max_topic_alias : Z) (publish : P) (control : C)
  : Disp * P * C := (V5Info.Dispatcher_new sink max_receive max_topic_alias, publish, control).

(** The services of [Client::start] and [start_default]: every publish is
    given back, so it goes to the control service. *)
Definition start_services5 (control : Msg -> option (result ControlResult E)) (r : Resp) : Choice :=
  (control, match r with V5Client.R_Publish _ p => Some (ok (inl p)) | _ => None end).

Context (control_fails : Prop) (app_acks : Publish -> option PublishAck -> Prop).

Lemma start_services_valid5 control r :
  (forall m a, control m = Some (ok a) -> client_answers5 app_acks m a) ->
  (forall m e, control m = Some (err e) -> control_fails) ->
  client_valid5 control_fails app_acks r (start_services5 control r).
Proof. intros Hc Hf. split; [exact Hc | ]. split; [exact Hf | ]. cbn. by intros id p pkt -> [= <-]. Qed.

#[local] Instance client_laws5 : ProtocolLaws Disp Resp Choice Packet Answer IoError := ClientLaws5 control_fails app_acks.
Context {W : Type} `{Nx : !Ntex Disp Resp Choice Answer (MqttError E) IoError W}.
Context {NxL : NtexLaws Disp Resp Choice Packet Answer (MqttError E) IoError W}.

(** C11: a client that the server accepts works from CONNACK on.  [connect]
    has sent CONNECT and read a CONNACK that accepts it; the decoder has the
    packet size of CONNECT, the encoder the one of CONNACK, the credit is the
    receive maximum of CONNACK, the dispatcher has the receive maximum of
    CONNECT and takes topic aliases up to 16, whatever CONNECT says.  Whatever
    the application does with the sink (and with fewer than 2^64 calls), the
    io dispatcher does not panic, and as long as no other code panics (sizing
    a packet under a small limit of the peer can):
    - the dispatcher is called with the packets that the rest of the stream
      decodes to, in order;
    - what is written answers them one by one in that order: a publish with an
      id is answered by the PUBACK with that id, when the publish service
      acknowledges it, or by the PUBACK of the application, whatever its id,
      when it goes to the control service; a ping is answered by the response.
      A DISCONNECT of the control service closes the connection.  Nothing is
      written for what needs no answer, for a publish whose id was in use when
      it arrived or that the application does not acknowledge, or when the
      connection has been closed meanwhile; an error only if the control
      service has failed;
    - so, if the application acknowledges publishes with their ids, the PUBACKs
      have the ids of publishes in their order; and if it acknowledges all it is
      given, those of every publish answered so far, as long as the connection
      is open, no result is an error and no id was in use;
    - when the connection ends every packet has been answered. *)
Theorem v5_client_serves {P C} k dial w cl s s1 (publish : P) (control : C) :
  connect k dial (MqttShared_new w Codec_new 0) = Some (ok cl, s) -> rtc V5Sink.step s s1 ->
  (exists w0, connected5 k w0 cl s) /\
  create_dispatcher5 s1 (unwrap_or_zero (co_receive_max (k_pkt k))) 16 publish control =
    (st_dispatcher (start cl s1), publish, control) /\
  forall nw buf io x fuel,
    conn_reachable (st_dispatcher (start cl s1)) nw buf (st_keepalive_timeout (start cl s1)) io x ->
    let r := IoPoll.poll fuel true io x in
    Z.of_nat (d_calls (poll_state r)) < usize_max ->
    match r with P_Panic _ _ => False | _ => True end /\
    (c_panicked (poll_conn r) = false ->
     packets (c_items (poll_conn r)) `prefix_of`
       (drain decode_packet (unwrap_or_zero (co_max_packet_size (k_pkt k))) FrameHeader (c_received (poll_conn r))).1.1.1 /\
     client_in_order5 control_fails app_acks (d_log (poll_state r)) (poll_conn r) /\
     match r with P_Ready _ d' x' => length (d_log d') = length (c_items x') | _ => True end).
Proof.
  intros [w0 Hk]%connect_connected5 Hst. split; [eauto | ].
  split; [by rewrite <- (cd_receive _ _ _ _ Hk) | ]. destruct (cd_ready _ _ _ _ Hk) as [Hi Hh].
  pose proof (steps_settings _ _ Hst) as [= _ Hc]. apply (steps_inv5 _ _ Hst) in Hi as [Hi _].
  rewrite <- (cd_in _ _ _ _ Hk), <- Hc. rewrite <- Hc in Hh.
  intros nw buf io x fuel Hr r Hn.
  destruct (conn_served (PL := client_laws5) (Dispatcher_new s1 (cl_max_receive cl) 16) nw buf 0 io x fuel Hi Hh Hr Hn) as (He & _ & Hrest).
  split; [exact He | ]. intros Hs. destruct (Hrest Hs) as (Hp & Ha & Hlen).
  split; [exact Hp | ]. split; [by apply client_calls_in_order | exact Hlen].
Qed.

End Connected.

(** ** A client to run

    [W] is whether the application acknowledges publishes; if not, the client
    is one of [start_default] and ends the connection. *)
Section Simulated.
Context `{R : Runtime Ack} {L : RuntimeLaws Ack}.
Abbreviation SimDisp := (V5Info.Dispatcher).
Abbreviation SimResp := (V5Client.Response (E := unit)).
Abbreviation SimAnswer := (result (option Packet) (MqttError unit)).
Abbreviation SimMsg := (V5Client.ControlMessage unit).
Abbreviation SimChoice := ((SimMsg -> option (result ControlResult unit)) * option (result (Publish + PubAck) unit))%type.

Definition own_ack (p : Publish) : option PublishAck :=
  match pu_packet_id p with Some id => Some (mkAck id PA_Success [] None) | None => None end.

Definition sim_control5 (acks : bool) (m : SimMsg) : option (result ControlResult unit) :=
  match m with
  | CC_Publish p => if acks then Some (ok (V5Client.Publish_ack p (own_ack p))) else Some (default_control m)
  | _ => Some (default_control m)
  end.

#[export] Instance ClientSimNtex5 : Ntex SimDisp SimResp SimChoice SimAnswer (MqttError unit) IoError bool := {
  nx_service_ready dw := (Some (ok tt), dw);
  nx_service_poll r dw := (start_services5 (sim_control5 dw.2) r, dw);
  nx_encode_result := sim_encode5;
  nx_io_error dw := (None, dw);
  nx_do _ dw := dw;
  nx_flag f _ := match f with Flag_ready => true | _ => false end;
  nx_now _ := 0;
}.

#[export] Instance ClientSimLaws5 : ProtocolLaws SimDisp SimResp SimChoice Packet SimAnswer IoError :=
  ClientLaws5 False (fun p response => response = own_ack p).
#[export] Instance ClientSimNtexLaws5 :
  NtexLaws SimDisp SimResp SimChoice Packet SimAnswer (MqttError unit) IoError bool.
Proof.
  split; cbn; try (intros; apply rtc_refl).
  - exact (nl_encode (NtexLaws := SimNtexLaws5 (IE := IoError))).
  - intros r dw. apply start_services_valid5; unfold sim_control5, client_answers5.
    + intros m a. destruct m as [p| | | | ]; [destruct dw.2 | ..]; intros [= <-]; try (left; by eexists).
      right. by eexists.
    + intros m e. destruct m as [p| | | | ]; [destruct dw.2 | ..]; done.
Qed.

End Simulated.

(** The client and the CONNACK of [V5Connector]; then two publishes and a
    ping arrive, in pieces.  The application acknowledges the first publish
    and then goes back to the default. *)
Definition demo_client_start : @MqttShared Ack (NetRuntime Ack) Codec :=
  MqttShared_new (demo_client_world demo_connack) Codec_new 0.
Definition demo_connected := @connect (NetRuntime Ack) SimNet demo_connector true demo_client_start.
Definition demo_shared5 : @MqttShared Ack (NetRuntime Ack) Codec :=
  match demo_connected with Some (_, s) => s | None => demo_client_start end.
Definition demo_cl5 : Client :=
  match demo_connected with Some (ok cl, _) => cl | _ => mkClient ConnectAck_default 0 0 0 end.

Definition demo_client_run5 :=
  run (Resp := V5Client.Response (E := unit)) (T := result (option Packet) (MqttError unit))
    [Act_env true (take 20 demo_bytes5); Act_poll 9; Act_env false (drop 20 demo_bytes5)]
    (conn_start (st_keepalive_timeout (start demo_cl5 demo_shared5))
       (Conn_new (st_dispatcher (start demo_cl5 demo_shared5)) true [])).

#[local] Strategy expand [demo_client_run5].

Definition demo_client_log5 : list (result (option Packet) (MqttError unit)) :=
  [ok (Some (Pkt_PublishAck (mkAck 7 PA_Success [] None))); ok (Some Pkt_PingResponse);
   ok (Some (Pkt_Disconnect Disconnect_default))].

Lemma demo_client_result5 :
  match demo_client_run5 with
  | Some (io, x) =>
      let r := IoPoll.poll 9 true io x in
      d_log (poll_state r) = demo_client_log5 /\ c_panicked (poll_conn r) = false /\
      (Z.of_nat (d_calls (poll_state r)) <? usize_max) = true
  | None => False
  end.
Proof. vm_compute. repeat split. Qed.

Lemma v5_client_serves_witness :
  demo_connected = Some (ok demo_cl5, demo_shared5) /\ cap demo_shared5 = 15 /\
  match demo_client_run5 with
  | Some (io, x) =>
      let r := IoPoll.poll 9 true io x in
      d_log (poll_state r) = demo_client_log5 /\
      packets (c_items (poll_conn r)) `prefix_of` (drain decode_packet 2000 FrameHeader (c_received (poll_conn r))).1.1.1 /\
      base.omap answer_puback_id (d_log (poll_state r)) `sublist_of`
        base.omap item_publish_id (take (length (d_log (poll_state r))) (c_called (poll_conn r))).*2
  | None => False
  end.
Proof.
  assert (Hc : demo_connected = Some (ok demo_cl5, demo_shared5)) by (vm_compute; reflexivity).
  split; [exact Hc | ]. split; [vm_compute; reflexivity | ].
  pose proof demo_client_result5 as H. destruct demo_client_run5 as [[io x]|] eqn:Er; [ | done]. destruct H as (H1 & H2 & H3).
  split; [exact H1 | ]. apply run_reachable in Er.
  destruct (v5_client_serves (NL := SimNetLaws) False (fun p response => response = own_ack p) demo_connector true (demo_client_world demo_connack) demo_cl5 demo_shared5
              demo_shared5 tt tt Hc (rtc_refl _ _)) as (_ & _ & Hy).
  destruct (proj2 (Hy true [] io x 9%nat Er ltac:(by apply Z.ltb_lt)) H2) as (Hp & (_ & Hs & _) & _).
  split; [exact Hp | ]. apply Hs. intros p a. unfold own_ack. destruct (pu_packet_id p); [by intros [= ->] | done].
Defined.
