(* ===== verification/V5Publishes.v ===== *)
(** * Publishes of MQTT 5 as the application sees them (src/v5/publish.rs)

    The operations of the wrapper [Request], as in [V3Publishes], and the
    services of a client that routes publishes by topic and alias. *)

From stdpp Require Import base gmap list strings relations.
From S2P Require Import Prelude Types Wire V5Props V5PubAcks V5Publish V5Codec Sink V5Sink.
From S2P Require Import V5Control V5Info V5Dispatcher V5Client Service Router Serving V5Connector V5ClientServing.
Open Scope Z_scope.

(** The parser of [serde_json::from_slice] *)
Abbreviation Json T Err := (bytes -> result T Err).

Section Publish.
Context `{TR : TopicRouter}.
Abbreviation Publish := (Request V5Publish.Publish).

Definition new (publish : V5Publish.Publish) : Publish := mkRequest publish (path_new (pu_topic publish)).

Definition dup (self : Publish) : bool := pu_dup (rq_packet self).
Definition retain (self : Publish) : bool := pu_retain (rq_packet self).
Definition qos (self : Publish) : QoS := pu_qos (rq_packet self).
Definition publish_topic (self : Publish) : ByteString := pu_topic (rq_packet self).
Definition id (self : Publish) : option NonZeroU16 := pu_packet_id (rq_packet self).
Definition topic (self : Publish) : Path := rq_topic self.
Definition packet (self : Publish) : V5Publish.Publish := rq_packet self.
Definition payload (self : Publish) : Bytes := pu_payload (rq_packet self).

Definition topic_mut (f : Path -> Path) (self : Publish) : Publish := mkRequest (rq_packet self) (f (rq_topic self)).
Definition packet_mut (f : V5Publish.Publish -> V5Publish.Publish) (self : Publish) : Publish :=
  mkRequest (f (rq_packet self)) (rq_topic self).

Definition take_payload (self : Publish) : Bytes * Publish :=
  (payload self, packet_mut (fun p => { p with pu_payload := [] }) self).

Definition json {T Err} (from_slice : Json T Err) (self : Publish) : result T Err := from_slice (payload self).
Definition into_inner (self : Publish) : V5Publish.Publish := rq_packet self.

Inductive uses : relation Publish :=
| uses_take r : uses r (take_payload r).2
| uses_topic f r : uses r (topic_mut f r).

Lemma uses_packet5 r r' :
  rtc uses r r' -> exists b, into_inner r' = { into_inner r with pu_payload := b } /\ (b = payload r \/ b = []).
Proof.
  induction 1 as [r|r1 r2 r3 Hs _ (b & Hb & Hp)].
  - exists (payload r). split; [by destruct r as [[] ?] | by left].
  - exists b. destruct Hs as [[p t]|f [p t]]; cbn in *; [ | done].
    split; [exact Hb | ]. right. by destruct Hp.
Qed.

Lemma take_payload_once5 r r' :
  rtc uses (take_payload r).2 r' -> (take_payload r').1 = [] /\ pu_payload (into_inner r') = [].
Proof. intros (b & Hb & [->| ->])%uses_packet5; cbn in *; unfold payload, into_inner in *; by rewrite Hb. Qed.

(** A publish that is given back has the id it came with. *)
Lemma given_back_id5 p r : rtc uses (new p) r -> pu_packet_id (into_inner r) = pu_packet_id p.
Proof. intros (b & Hb & _)%uses_packet5. by rewrite Hb. Qed.

(** ** Routing clients *)

Context {TRL : TopicRouterLaws} {H PErr E : Type} (try_from : PErr -> result PubAck E).

(** The services of [ClientRouter::start]: [dispatch] on the resources, and
    [call] on the result of a handler.  [run] is what a handler gives for a
    request. *)
Definition router_services (c : V5Connector.ClientRouter (H := H)) (aliases : gmap Z (nat * Path))
  (run : H -> Publish -> option (result PubAck PErr))
  (control : V5Client.ControlMessage E -> option (result ControlResult E)) (r : V5Client.Response (E := E))
  : option ((V5Client.ControlMessage E -> option (result ControlResult E)) *
            option (result (V5Publish.Publish + PubAck) E)) :=
  match r with
  | V5Client.R_Publish _ p =>
      match V5Connector.dispatch (V5Connector.rt_builder c) (V5Connector.rt_handlers c) aliases (new p) with
      | Some (Some (h, req), _, _) => Some (control, V5Connector.call try_from <$> run h req)
      | Some (None, req, _) => Some (control, Some (ok (inl (into_inner req))))
      | None => None
      end
  | _ => Some (control, None)
  end.

(** Resources are added with the index of their handler, and aliases are
    bound to these indices. *)
Definition indexed (c : V5Connector.ClientRouter (H := H)) (aliases : gmap Z (nat * Path)) : Prop :=
  (forall pat i, (pat, i) ∈ V5Connector.rt_builder c -> (i < length (V5Connector.rt_handlers c))%nat) /\
  (forall (a : Z) i path, aliases !! a = Some (i, path) -> (i < length (V5Connector.rt_handlers c))%nat).

Lemma indexed_client5 address h cl : indexed (V5Connector.Client_resource address h cl) ∅.
Proof. split; [ | done]. intros pat i [= -> ->]%list_elem_of_singleton. cbn. lia. Qed.

Lemma indexed_resource5 address h c : indexed c ∅ -> indexed (V5Connector.ClientRouter_resource address h c) ∅.
Proof.
  intros [Hc _]. split; [ | done].
  intros pat i [Hi|[= -> ->]%list_elem_of_singleton]%elem_of_app; cbn; rewrite length_app; cbn; [ | lia].
  apply Hc in Hi. lia.
Qed.

Lemma route_packet (router : list (Pattern * nat)) aliases (req : Publish) :
  rq_packet (route router aliases req).1.2 = rq_packet req.
Proof.
  unfold route. destruct (has_remaining _); [by destruct (recognize _ _) as [[]] | ].
  destruct (pp_topic_alias _) as [a|]; [ | done]. by destruct (aliases !! (a : Z)) as [[]|].
Qed.

Lemma indexed_route c aliases p o req aliases' :
  indexed c aliases -> route (V5Connector.rt_builder c) aliases (new p) = (o, req, aliases') ->
  indexed c aliases' /\ match o with Some i => (i < length (V5Connector.rt_handlers c))%nat | None => True end.
Proof.
  intros [Hb Ha]. unfold route. destruct (has_remaining _).
  - destruct (recognize _ _) as [[i|] t] eqn:Er; intros [= <- <- <-]; [ | done].
    apply recognize_added in Er as [pat Hi%Hb]. split; [ | done]. split; [done | ].
    destruct (pp_topic_alias _) as [a|]; [ | done]. intros a' i' path' [[_ [= <- _]]|[_ H']]%lookup_insert_Some; [done | by eapply Ha].
  - destruct (pp_topic_alias _) as [a|]; [ | by intros [= <- <- <-]].
    destruct (aliases !! (a : Z)) as [[i t]|] eqn:El; intros [= <- <- <-]; [ | done]. split; [done | by eapply Ha].
Qed.

(** The handlers are never indexed out of range, and what the router makes of
    a publish is what [V5ClientServing.client_valid5] asks for. *)
Lemma router_services_valid5 (control_fails : Prop) app_acks c aliases run control r :
  indexed c aliases -> (forall m a, control m = Some (ok a) -> client_answers5 app_acks m a) ->
  (forall m e, control m = Some (err e) -> control_fails) ->
  exists ch, router_services c aliases run control r = Some ch /\ client_valid5 control_fails app_acks r ch.
Proof.
  intros Hi Hc Hf. destruct r as [t|pid p|pid ct|ct]; cbn [router_services];
    try (eexists; split; [done | ]; split; [exact Hc | by split]).
  unfold V5Connector.dispatch. pose proof (route_packet (V5Connector.rt_builder c) aliases (new p)) as Hp.
  destruct (route _ _ _) as [[o req] al] eqn:Er. destruct (indexed_route _ _ _ _ _ _ Hi Er) as [_ Hn]. cbn in Hp.
  destruct o as [i|].
  - destruct (lookup_lt_is_Some_2 _ _ Hn) as [h ->]. eexists. split; [done | ]. split; [exact Hc | ]. split; [exact Hf | ]. cbn.
    intros ? ? pkt _. destruct (run h req) as [[ack|e]|]; try done. cbn. by destruct (try_from e).
  - eexists. split; [done | ]. split; [exact Hc | ]. split; [exact Hf | ]. cbn. intros ? ? pkt [= <- <-] [= <-]. unfold into_inner. by rewrite Hp.
Qed.

End Publish.
