(* ===== verification/V5Factory.v ===== *)
(** * Servers and selectors of MQTT 5 as factories (src/v5/server.rs, src/v5/selector.rs, src/v5/default.rs)

    As for MQTT 3.1.1 ([V3Factory]), without a limit on the packets in flight:
    the dispatcher checks the receive maximum itself. *)

From stdpp Require Import base gmap list strings relations.
From S2P Require Import Prelude Types Wire Framing V5Props V5PubAcks V5Subscribe V5Disconnect V5ConnAck V5Publish V5Connect V5Codec.
From S2P Require Import Sink V5Sink V5Control V5Info V5Dispatcher IoDispatcher IoPoll Net Service Factory Serving V5Server V5Connection V5Serving V5Accepted.
Open Scope Z_scope.
Open Scope net_scope.

(** [DefaultControlService], [DefaultPublishService] *)
Inductive DefaultControlService : Type := mkDefaultControl.
Inductive DefaultPublishService : Type := mkDefaultPublish.

Section Factory.
Context `{R : Runtime Ack} {N : Net Ack Codec Packet}.
Abbreviation M := (@M Ack R Codec).
Abbreviation Svc := (@Svc Ack Codec R).
Context {St E IErr : Type}.
Abbreviation MError := (MqttError E).

(** [MqttServer] with its services: a factory without configuration is what
    its [new_service] gives *)
Record Server (Cn P ErC ErP : Type) : Type := mkServices {
  sv_handshake : result (Svc Handshake (HandshakeAck St) E) IErr;
  sv_control : Session St -> M (result Cn ErC);
  sv_publish : Session St -> M (result P ErP);
  sv_settings : MqttServer;
}.
Arguments mkServices {Cn P ErC ErP}.
Arguments sv_handshake {Cn P ErC ErP}.
Arguments sv_control {Cn P ErC ErP}.
Arguments sv_publish {Cn P ErC ErP}.
Arguments sv_settings {Cn P ErC ErP}.

(** [new_service] of the default services *)
Definition DefaultControl_new_service (_ : Session St) : M (result DefaultControlService E) := mret (ok mkDefaultControl).
Definition DefaultPublish_new_service (_ : Session St) : M (result DefaultPublishService E) := mret (ok mkDefaultPublish).

(** [MqttServer::new], [control], [publish] and the settings *)
Definition Server_new (handshake : result (Svc Handshake (HandshakeAck St) E) IErr)
  : Server DefaultControlService DefaultPublishService E E :=
  mkServices handshake DefaultControl_new_service DefaultPublish_new_service MqttServer_new.
Definition Server_control {Cn Cn' P ErC ErC' ErP} (service : Session St -> M (result Cn' ErC')) (s : Server Cn P ErC ErP)
  : Server Cn' P ErC' ErP :=
  mkServices (sv_handshake s) service (sv_publish s) (sv_settings s).
Definition Server_publish {Cn P P' ErC ErP ErP'} (publish : Session St -> M (result P' ErP')) (s : Server Cn P ErC ErP)
  : Server Cn P' ErC ErP' :=
  mkServices (sv_handshake s) (sv_control s) publish (sv_settings s).
Definition Server_set {Cn P ErC ErP} (f : MqttServer -> MqttServer) (s : Server Cn P ErC ErP) : Server Cn P ErC ErP :=
  mkServices (sv_handshake s) (sv_control s) (sv_publish s) (f (sv_settings s)).

Section Finish.
Context {Cn P ErC ErP Cn' : Type}.
(** The [From] instances of the error type, and [map_err] of ntex on the
    control service *)
Context (from_control : ErC -> E) (from_publish : ErP -> E) (map_err_control : Cn -> Cn').

(** [factory.map_err(..).map_init_err(|e| MqttError::Service(e.into()))] *)
Definition map_factory {S S' Er} (map_service : S -> S') (from : Er -> E) (new_service : Session St -> M (result S Er))
  (cfg : Session St) : M (result S' MError) :=
  r ← new_service cfg;
  mret (match r with ok s => ok (map_service s) | err e => err (MService (from e)) end).

Abbreviation Hd := (V5Info.Dispatcher (R := R) * P * Cn')%type.

(** The factory of the dispatcher of a connection *)
Definition server_handler (s : Server Cn P ErC ErP) : Session St -> M (result Hd MError) :=
  factory (map_factory id from_publish (sv_publish s)) (map_factory map_err_control from_control (sv_control s)).

(** [MqttServer::finish], [MqttServer::inner_finish]: the two differ in the
    request only. *)
Definition Server_finish (s : Server Cn P ErC ErP) : FramedService (St := St) (Hd := Hd) (Er := MError) (IErr := IErr) :=
  FramedService_new
    (handshake_service_factory (sv_handshake s) (ms_handshake_timeout (sv_settings s)) (handshake (sv_settings s)))
    (server_handler s) (ms_disconnect_timeout (sv_settings s)).

(** [ServerSelector] and [ServerSelectorImpl] *)
Record ServerSelector (C : Type) : Type := mkServerSelector {
  ss_check : Handshake -> M (result bool E);
  ss_connect : C;
  ss_handler : Session St -> M (result Hd MError);
  ss_settings : MqttServer;
}.
Arguments mkServerSelector {C}.
Arguments ss_check {C}.
Arguments ss_connect {C}.
Arguments ss_handler {C}.
Arguments ss_settings {C}.

(** [MqttServer::finish_selector]; the selector keeps all settings but the
    handshake timeout *)
Definition Server_finish_selector (check : Handshake -> M (result bool E)) (s : Server Cn P ErC ErP)
  : ServerSelector (result (Svc Handshake (HandshakeAck St) E) IErr) :=
  mkServerSelector check (sv_handshake s) (server_handler s) (sv_settings s).

(** [ServerSelector::new_service] *)
Definition ServerSelector_new_service (s : ServerSelector (result (Svc Handshake (HandshakeAck St) E) IErr))
  : result (ServerSelector (Svc Handshake (HandshakeAck St) E)) IErr :=
  match ss_connect s with
  | ok connect => ok (mkServerSelector (ss_check s) connect (ss_handler s) (ss_settings s))
  | err e => err e
  end.

(** [ServerSelectorImpl] as a service *)
Definition selector_server (s : ServerSelector (Svc Handshake (HandshakeAck St) E))
  : Svc (Handshake * bool) (Handshake + Connection Hd) MError :=
  mkSvc (map_err MService <$> svc_ready (ss_connect s)) (svc_shutdown (ss_connect s))
    (fun '(hnd, delay) => ServerSelectorImpl_call (ss_settings s) (ss_check s) (svc_call (ss_connect s)) (ss_handler s) hnd delay).

(** [Selector::variant] of src/v5/selector.rs *)
Definition variant (check : Handshake -> M (result bool E)) (server : Server Cn P ErC ErP)
  (sl : Selector (F := result (Svc (Handshake * bool) (Handshake + Connection Hd) MError) IErr))
  : Selector (F := result (Svc (Handshake * bool) (Handshake + Connection Hd) MError) IErr) :=
  Selector_variant
    (match ServerSelector_new_service (Server_finish_selector check server) with
     | ok s => ok (selector_server s)
     | err e => err e
     end) sl.

(** ** Connections of a server *)

Context {L : RuntimeLaws Ack} {NL : NetLaws Ack Codec Packet}.

Lemma map_factory_uses5 {S S' Er} (f : S -> S') (g : Er -> E) (m : Session St -> M (result S Er)) :
  (forall x, uses_sink (m x)) -> forall x, uses_sink (map_factory f g m x).
Proof. intros Hm x s r s' (r0 & s1 & H%Hm & [_ <-]%ret_Some)%bind_Some. exact H. Qed.

(** The service of a server runs [finish] with its connect service. *)
Lemma finish_call5 s impl :
  FramedService_new_service (Server_finish s) = ok impl ->
  exists service, sv_handshake s = ok service /\
    svc_call (framed_service impl) tt = finish (sv_settings s) (svc_call service) (server_handler s).
Proof.
  unfold FramedService_new_service, Server_finish, handshake_service_factory. cbn.
  destruct (sv_handshake s) as [service|e]; [ | done]. intros [= <-]. by exists service.
Qed.

Section Served.
Context {E2 : Type} (try_from : E2 -> result PubAck E) (into : E2 -> E) (control_fails : Prop).
Abbreviation Disp := (V5Info.Dispatcher (R := R)).
Abbreviation Resp := (V5Dispatcher.Response (E := E)).
Abbreviation Answer := (result (option Packet) MError).
Abbreviation Choice := ((ControlMessage E -> option (result ControlResult E)) * option (result PubAck E2))%type.
#[local] Instance served_protocol5 : Protocol Disp Resp Choice Packet Answer IoError := ServerProtocol5 try_from into.
#[local] Instance served_laws5 : ProtocolLaws Disp Resp Choice Packet Answer IoError := ServerLaws5 try_from into control_fails.
Context {W : Type} `{Nx : !Ntex Disp Resp Choice Answer MError IoError W}.
Context {NxL : NtexLaws Disp Resp Choice Packet Answer MError IoError W}.

(** C9: a client that a server of MQTT 5 accepts is answered in order from
    its first packet on.  The server is any that [MqttServer] builds; its
    service is made when its connect service is.  CONNECT [connect] was read,
    the CONNACK [p] was sent, and the settings of the connection are those of
    the two ([agreed]).  Then, whatever bytes arrive in whatever chunks,
    however polls of the io dispatcher, of the tasks it spawned, of the
    services and moves of the sink are interleaved (with fewer than 2^64
    calls), the io dispatcher does not panic, and as long as no other code
    panics (sizing a packet under a small limit of the peer can):
    - the packets the dispatcher was called with are the first ones that the
      bytes decode to under the size that [p] announces (the configured one if
      it announces none);
    - the results written so far answer the first of these calls one by one.
      A publish with an id is answered by the PUBACK with that id; a
      SUBSCRIBE and an UNSUBSCRIBE by the acknowledgement with the id and one
      status per filter, a ping by the response and AUTH by AUTH, or by a
      DISCONNECT of the control service.  Nothing is written as an answer only
      for what needs none (a publish without an id, an acknowledgement), for a
      request whose id was in use when it arrived (the sink acknowledges it at
      once, out of order), or when the connection has been closed meanwhile
      (refused publishes and failed services end like that); an error only if
      the control service has failed ([control_fails]);
    - so the PUBACKs have the ids of publishes in their order, and of every
      publish answered so far if the connection is open, no result is an error
      and no id was in use;
    - when the connection ends every packet has been answered. *)
Theorem v5_server_serves server w impl conn d pb ct s' :
  (forall service h, sv_handshake server = ok service -> uses_sink (svc_call service h)) ->
  (forall x, uses_sink (sv_publish server x)) -> (forall x, uses_sink (sv_control server x)) ->
  FramedService_new_service (Server_finish server) = ok impl ->
  svc_call (framed_service impl) tt (MqttShared_new w Codec_new 0) = Some (ok conn, s') ->
  cn_handler conn = (d, pb, ct) ->
  exists connect (ack : HandshakeAck St), let srv := sv_settings server in
    let p := final_packet (ms_max_qos srv) (co_keep_alive connect) ack in
    (exists service w0 c w1 s1 s2 sess s3, sv_handshake server = ok service /\
       next codec_decode (set_max_inbound_size Codec_new (ms_max_size srv)) w0 = (ok (Some (Pkt_Connect connect)), c, w1) /\
       svc_call service (mkHandshake connect (ms_max_size srv) (ms_max_receive srv) (ms_max_topic_alias srv)) s1 = Some (ok ack, s2) /\
       handshake srv (svc_call service) (MqttShared_new w0 Codec_new 0) = Some (ok (sess, cn_keepalive conn), s3) /\
       agreed (ms_max_size srv) connect p sess s3) /\
    forall nw buf io x fuel,
      conn_reachable d nw buf (cn_keepalive conn) io x ->
      let r := IoPoll.poll fuel true io x in
      Z.of_nat (d_calls (poll_state r)) < usize_max ->
      match r with P_Panic _ _ => False | _ => True end /\
      (c_panicked (poll_conn r) = false ->
       packets (c_items (poll_conn r)) `prefix_of`
         (drain decode_packet (match ca_max_packet_size p with Some n => n | None => ms_max_size srv end)
            FrameHeader (c_received (poll_conn r))).1.1.1 /\
       in_order5 control_fails (d_log (poll_state r)) (poll_conn r) /\
       match r with P_Ready _ d' x' => length (d_log d') = length (c_items x') | _ => True end).
Proof.
  intros Hs Hp Hc (service & Hsv & ->)%finish_call5 H Hd.
  destruct (connection_served5 try_from into control_fails (sv_settings server) (svc_call service)
              (map_factory id from_publish (sv_publish server))
              (map_factory map_err_control from_control (sv_control server)) w conn d pb ct s')
    as (connect & ack & (w0 & c & w1 & s1 & s2 & sess & s3 & H1) & Hr);
    [ | by apply map_factory_uses5 | by apply map_factory_uses5 | done | done | ].
  { intros h. by apply Hs. }
  exists connect, ack. split; [by exists service, w0, c, w1, s1, s2, sess, s3 | exact Hr].
Qed.

End Served.

(** ** Connections of a selector *)

(** A variant: its check looks at CONNECT only. *)
Definition add_variant sl (v : (Connect -> bool) * Server Cn P ErC ErP) :=
  variant (fun h => mret (ok (v.1 (h_pkt h)))) v.2 sl.

Abbreviation as_variant := (fun v service => mkVariant (sv_settings v.2) v.1 (svc_call service) (server_handler v.2)).
Abbreviation as_server := (fun v service =>
  selector_server (mkServerSelector (fun h => mret (ok (v.1 (h_pkt h)))) service (server_handler v.2) (sv_settings v.2))).

Lemma add_variants5 vs sl :
  fold_left add_variant vs sl =
  fold_left (fun sl v => Selector_variant (made_factory (fun v => sv_handshake v.2) as_server v) sl) vs sl.
Proof.
  revert sl. induction vs as [|v vs IH]; intros sl; [done | ]. cbn [fold_left]. rewrite <- IH.
  unfold add_variant, variant, made_factory, ServerSelector_new_service. cbn. by destruct (sv_handshake v.2).
Qed.

(** C19: a selector of MQTT 5 that has no handshake timeout, with checks that
    only look at CONNECT, makes its variants in the order in which they were
    added, and fails with the first of their errors.  A connection whose first
    packet is a CONNECT goes to the first of them whose check accepts it.  When
    that server has the maximum size of the selector and no handshake timeout of
    its own, it goes on exactly as if the server had been used alone; with other
    sizes the one of the selector holds ([v5_selector_limits]).  When no check
    accepts, the connection ends with an error. *)
Theorem v5_selector_serves (vs : list ((Connect -> bool) * Server Cn P ErC ErP)) max_size :
  match Selector_new_service id (fold_left add_variant vs (Selector_max_size max_size Selector_new)) with
  | err e => exists vs1 v vs2, vs = vs1 ++ v :: vs2 /\ sv_handshake v.2 = err e /\
                               Forall (fun v => exists service, sv_handshake v.2 = ok service) vs1
  | ok sel => forall s connect k w,
      next codec_decode (set_max_inbound_size (codec s) max_size) (io s) = (ok (Some (Pkt_Connect connect)), k, w) ->
      let called := SelectorService_call (sv_max_size sel) (sv_handshake_timeout sel) (selector_servers sel) s in
      match List.find (fun v => v.1 connect) vs with
      | Some v =>
          ms_max_size (sv_settings v.2) = max_size -> ms_handshake_timeout (sv_settings v.2) = 0 ->
          exists impl, FramedService_new_service (Server_finish v.2) = ok impl /\
            called = svc_call (framed_service impl) tt s
      | None => exists s', called = Some (err (MServerError "Cannot handle CONNECT packet"), s')
      end
  end.
Proof.
  rewrite add_variants5.
  pose proof (selector_made (fun v : (Connect -> bool) * Server Cn P ErC ErP => sv_handshake v.2) as_server vs
                (Selector_max_size max_size Selector_new) eq_refl) as H.
  destruct (Selector_new_service id _) as [sel|e]; [ | exact H].
  destruct H as (-> & -> & cs & Hf & Hs). intros s connect k w Hn called. subst called. unfold selector_servers.
  rewrite Hs, fmap_made.
  change (zip_with _ vs cs) with (zip_with (fun v c => variant_call (as_variant v c)) vs cs). rewrite <- fmap_made.
  pose proof (v5_selector_first (zip_with as_variant vs cs) max_size s connect k w Hn) as Hsel.
  pose proof (find_made (fun v => sv_handshake v.2) (fun v => v.1 connect) as_variant (fun x => v_accepts x connect) vs cs
                (fun _ _ => eq_refl) Hf) as Hfind.
  destruct (List.find (fun v => v.1 connect) vs) as [v|]; [ | by rewrite Hfind in Hsel].
  destruct Hfind as (service & Hh & Hv). rewrite Hv in Hsel. intros Hm Ht.
  eexists. split.
  - unfold FramedService_new_service, Server_finish, handshake_service_factory. cbn. by rewrite Hh.
  - exact (Hsel Hm Ht).
Qed.

End Finish.
End Factory.

Arguments sv_handshake {R St E IErr Cn P ErC ErP}.
Arguments sv_control {R St E IErr Cn P ErC ErP}.
Arguments sv_publish {R St E IErr Cn P ErC ErP}.
Arguments sv_settings {R St E IErr Cn P ErC ErP}.


(** ** A connection to run

    After CONNECT a publish with id 7, a ping and a publish with id 8 arrive,
    in two pieces; the publish service is slow: a task has the answer to the
    ping before it, but the PUBACK is written first. *)
Definition demo_conn5 : Connection (V5Info.Dispatcher (R := NetRuntime Ack) * nat * nat) :=
  mkConnection (demo_dispatcher, 7, 7)%nat 30 3000.
Definition demo_services : Server (R := NetRuntime Ack) (St := nat) (E := unit) (IErr := unit) nat nat (MqttError unit) (MqttError unit) :=
  Server_control demo_factory (Server_publish demo_factory (Server_set (V5Server.max_size 1000)
    (Server_new (ok (mkSvc (Some (ok tt)) (fun _ => true) demo_service))))).
Definition demo_framed :=
  FramedService_new_service (Server_finish (N := SimNet) (fun _ => tt) (fun _ => tt) id demo_services).
Definition demo_called : option (result (Connection (V5Info.Dispatcher (R := NetRuntime Ack) * nat * nat)) (MqttError unit)
                                 * @MqttShared Ack (NetRuntime Ack) Codec) :=
  match demo_framed with ok impl => svc_call (framed_service impl) tt demo_start | err _ => None end.
Definition demo_run5 :=
  run (T := result (option Packet) (MqttError unit)) (S := MqttError unit) (IE := IoError)
    [Act_env false (drop 5 demo_bytes5); Act_poll 9; Act_task 1; Act_env true []]
    (conn_start (cn_keepalive demo_conn5) (Conn_new demo_dispatcher false (take 5 demo_bytes5))).

#[local] Strategy expand [demo_run5].

Lemma demo_run5_result :
  match demo_run5 with
  | Some (io, x) =>
      let r := IoPoll.poll 9 true io x in
      d_log (poll_state r) = [ok (Some (Pkt_PublishAck (mkAck 7 PA_Success [] None))); ok (Some Pkt_PingResponse)] /\
      wbuf (Sink.io (V5Info.d_sink (c_d (poll_conn r)))) =
        frame MAX_PACKET_SIZE (Pkt_PublishAck (mkAck 7 PA_Success [] None)) ++ frame MAX_PACKET_SIZE Pkt_PingResponse /\
      (Z.of_nat (d_calls (poll_state r)) <? usize_max) = true /\ c_panicked (poll_conn r) = false
  | None => False
  end.
Proof. vm_compute. repeat split. Qed.

Lemma v5_server_serves_witness :
  demo_called = Some (ok demo_conn5, demo_final) /\
  match demo_run5 with
  | Some (io, x) =>
      let r := IoPoll.poll 9 true io x in
      d_log (poll_state r) = [ok (Some (Pkt_PublishAck (mkAck 7 PA_Success [] None))); ok (Some Pkt_PingResponse)] /\
      (exists limit, packets (c_items (poll_conn r)) `prefix_of`
        (drain decode_packet limit FrameHeader (c_received (poll_conn r))).1.1.1) /\
      in_order5 False (d_log (poll_state r)) (poll_conn r)
  | None => False
  end.
Proof.
  assert (Hr : demo_called = Some (ok demo_conn5, demo_final)) by (vm_compute; reflexivity).
  split; [exact Hr | ].
  pose proof demo_run5_result as H. destruct demo_run5 as [[io x]|] eqn:Er; [ | done]. destruct H as (H1 & _ & H3 & H4).
  split; [exact H1 | ]. apply run_reachable in Er.
  unfold demo_called in Hr. destruct demo_framed as [impl|] eqn:Hf; [ | done].
  destruct (v5_server_serves (NL := SimNetLaws) (fun _ => tt) (fun _ => tt) id no_ack (fun e => e) False demo_services demo_world impl
              demo_conn5 demo_dispatcher 7%nat 7%nat demo_final) as (connect & ack & _ & Hy);
    [ intros service h [= <-]; apply demo_uses_sink | intros y s r s' [= _ <-]; apply rtc_refl
    | intros y s r s' [= _ <-]; apply rtc_refl | exact Hf | exact Hr | done | ].
  destruct (proj2 (Hy false (take 5 demo_bytes5) io x 9%nat Er ltac:(by apply Z.ltb_lt)) H4) as (Hp & Ho & _).
  split; [eexists; exact Hp | exact Ho].
Defined.

(** Two variants: for the clients without an id, and for all *)
Definition demo_servers : list ((Connect -> bool) * Server (R := NetRuntime Ack) (St := nat) (E := unit) (IErr := unit) nat nat (MqttError unit) (MqttError unit)) :=
  [(fun c => negb (has_remaining (co_client_id c)), demo_services); (fun _ => true, demo_services)].
Definition demo_selector :=
  Selector_new_service id
    (fold_left (add_variant (N := SimNet) (fun _ => tt) (fun _ => tt) id) demo_servers (Selector_max_size 1000 Selector_new)).

Lemma v5_selector_serves_witness :
  exists sel, demo_selector = ok sel /\
    SelectorService_call (N := SimNet) (sv_max_size sel) (sv_handshake_timeout sel) (selector_servers sel) demo_start =
      Some (ok demo_conn5, demo_final).
Proof.
  pose proof (v5_selector_serves (N := SimNet) (fun _ => tt) (fun _ => tt) id demo_servers 1000) as H.
  fold demo_selector in H. assert (Hk : match demo_selector with ok _ => True | err _ => False end) by exact I.
  destruct demo_selector as [sel|e]; [ | done].
  exists sel. split; [reflexivity | ].
  set (n := next (Net := SimNet) codec_decode (set_max_inbound_size (codec demo_start) 1000) (io demo_start)) in *.
  assert (Hn : n = (ok (Some (Pkt_Connect demo_connect)), n.1.2, n.2)) by (vm_compute; reflexivity).
  specialize (H demo_start demo_connect n.1.2 n.2 Hn). cbv zeta in H.
  assert (Hf : List.find (fun v => v.1 demo_connect) demo_servers = Some (fun _ => true, demo_services)) by reflexivity.
  rewrite Hf in H. destruct (H eq_refl eq_refl) as (impl & Hi & Hc). rewrite Hc.
  change (demo_framed = ok impl) in Hi. assert (Hr : demo_called = Some (ok demo_conn5, demo_final)) by (vm_compute; reflexivity).
  unfold demo_called in Hr. rewrite Hi in Hr. exact Hr.
Defined.
