(* ===== verification/Servers.v ===== *)
(** * The server of both versions with its services (src/server.rs)

    [Server] with the factories of the two versions: each side is a server,
    a selector, or the default that refuses its version. *)

From stdpp Require Import base gmap list strings.
From S2P Require Import V3Codec V3Sink V3Server V3Dispatcher V3Factory V5Codec V5Sink V5Server V5Info V5Factory.
From S2P Require Import Prelude Types Version Sink Net Service Factory Server.
Open Scope Z_scope.

Section Servers.
Context {R3 : Runtime V3Sink.Ack} {N3 : Net V3Sink.Ack V3Codec.Codec V3Codec.Packet}.
Context {R5 : Runtime V5Sink.Ack} {N5 : Net V5Sink.Ack V5Codec.Codec V5Codec.Packet}.
Context {E IErr : Type}.

Section Three.
Context {St Cn P ErC ErP Cn' P' Hd V3 V5 : Type} (from_control : ErC -> E) (from_publish : ErP -> E).
Context (map_err_control : Cn -> Cn') (map_err_publish : P -> P').
Context (InFlightService_new : Z -> V3Dispatcher.Dispatcher (R := R3) * P' * Cn' -> Hd).
Abbreviation Server3 := (V3Factory.Server (R := R3) (St := St) (E := E) (IErr := IErr) Cn P ErC ErP).
Abbreviation Framed3 := (FramedService (R := R3) (Codec := V3Codec.Codec) (St := St) (Hd := Hd) (Er := MqttError E) (IErr := IErr)).
Abbreviation Factory3 := (result (Svc (R := R3) (Codec := V3Codec.Codec) (V3Codec.Connect * bool)
                                    (V3Codec.Connect + Connection Hd) (MqttError E)) IErr).

(** [MqttServer::v3], [MqttServer::v3_variants] *)
Definition v3 (service : Server3) (s : MqttServer V3 V5) : MqttServer Framed3 V5 :=
  mkServer (V3Factory.Server_finish from_control from_publish map_err_control map_err_publish InFlightService_new service)
    (sv_v5 s) (sv_handshake_timeout s).
Definition v3_variants (service : Selector (F := Factory3)) (s : MqttServer V3 V5)
  : MqttServer (Selector2 (R := R3) (Codec := V3Codec.Codec) (Hs := V3Codec.Connect) (Hd := Hd) (E := E) (IErr := IErr)) V5 :=
  mkServer (Selector_finish_server service) (sv_v5 s) (sv_handshake_timeout s).
End Three.

Section Five.
Context {St Cn P ErC ErP Cn' V3 V5 : Type} (from_control : ErC -> E) (from_publish : ErP -> E).
Context (map_err_control : Cn -> Cn').
Abbreviation Server5 := (V5Factory.Server (R := R5) (St := St) (E := E) (IErr := IErr) Cn P ErC ErP).
Abbreviation Hd5 := (V5Info.Dispatcher (R := R5) * P * Cn')%type.
Abbreviation Framed5 := (FramedService (R := R5) (Codec := V5Codec.Codec) (St := St) (Hd := Hd5) (Er := MqttError E) (IErr := IErr)).
Abbreviation Factory5 := (result (Svc (R := R5) (Codec := V5Codec.Codec) (V5Server.Handshake * bool)
                                    (V5Server.Handshake + Connection Hd5) (MqttError E)) IErr).

(** [MqttServer::v5], [MqttServer::v5_variants] *)
Definition v5 (service : Server5) (s : MqttServer V3 V5) : MqttServer V3 Framed5 :=
  mkServer (sv_v3 s) (V5Factory.Server_finish from_control from_publish map_err_control service) (sv_handshake_timeout s).
Definition v5_variants (service : Selector (F := Factory5)) (s : MqttServer V3 V5)
  : MqttServer V3 (Selector2 (R := R5) (Codec := V5Codec.Codec) (Hs := V5Server.Handshake) (Hd := Hd5) (E := E) (IErr := IErr)) :=
  mkServer (sv_v3 s) (Selector_finish_server service) (sv_handshake_timeout s).
End Five.

(** [DefaultProtocolServer::new_service] *)
Definition Default_new_service (s : DefaultProtocolServer) : result DefaultProtocolServer IErr := ok (mkDefault (df_ver s)).

(** The service of both versions is made when the connect services of both
    sides are: the error of the one of MQTT 3.1.1 comes first.  It keeps the
    timeout that was set. *)
Lemma servers_new_service {St3 Cn3 P3 ErC3 ErP3 Cn3' P3' Hd3 St5 Cn5 P5 ErC5 ErP5 Cn5'} timeout
    fc3 fp3 mc3 mp3 inf fc5 fp5 mc5
    (s3 : V3Factory.Server (R := R3) (St := St3) (E := E) (IErr := IErr) Cn3 P3 ErC3 ErP3)
    (s5 : V5Factory.Server (R := R5) (St := St5) (E := E) (IErr := IErr) Cn5 P5 ErC5 ErP5) :
  let s := handshake_timeout timeout
             (v5 (Cn' := Cn5') fc5 fp5 mc5 s5 (v3 (Cn' := Cn3') (P' := P3') (Hd := Hd3) fc3 fp3 mc3 mp3 inf s3 MqttServer_new)) in
  match new_service s (FramedService_new_service (sv_v3 s)) (FramedService_new_service (sv_v5 s)) with
  | ok impl =>
      (exists c3, V3Factory.sv_handshake s3 = ok c3 /\
         svc_ready (framed_service2 (si_v3 impl)) = map_err MService <$> svc_ready c3) /\
      (exists c5, V5Factory.sv_handshake s5 = ok c5 /\
         svc_ready (framed_service2 (si_v5 impl)) = map_err MService <$> svc_ready c5) /\
      si_handshake_timeout impl = timeout
  | err e => V3Factory.sv_handshake s3 = err e \/
             (exists c3, V3Factory.sv_handshake s3 = ok c3) /\ V5Factory.sv_handshake s5 = err e
  end.
Proof.
  unfold FramedService_new_service. cbn.
  destruct (V3Factory.sv_handshake s3) as [c3|e3]; cbn; [ | by left].
  destruct (V5Factory.sv_handshake s5) as [c5|e5]; cbn; [ | right; eauto].
  split; [eauto | ]. split; [eauto | done].
Qed.

End Servers.
